(* ===== verification/_CoqProject ===== *)
-Q . S2P
Prelude.v
Layout.v
Frames.v
Pmm.v
Paging.v
Range.v
CString.v
UserLib.v
Malloc.v
Ramfs.v
Shell.v
Ls.v
Klist.v
Sched.v
Debugproc.v
Arch.v
Keyboard.v
Kheap.v
Fsheap.v
Debugmm.v
Font.v
Console.v
Terminal.v
Kstack.v
Vaccess.v
Vmm.v
Vmmcopy.v
Stack.v
Proc.v
Spawn.v
Fork.v
Userpage.v
Loader.v
Userproc.v
Boot.v
Kmain.v
Machine.v
Syscall.v
Userheap.v
