(* ===== verification/Prelude.v ===== *)
(** * SudoOS: a verification library

    SudoOS ([src/]) is a 64-bit x86 teaching kernel with a RAM file system, a
    round-robin scheduler, user processes and a small C library for them.  This
    library models its C code as executable state transformers and proves what each
    part promises to the others.

    ** Conventions

    - A C function is a Definition or Fixpoint of the same name.  Code with effects is
      in the state monad [M St A] below: it takes a state to a result and a state, or
      to [Crash] with the fault (access outside an object or through NULL, page
      fault, division by zero, a [hlt] loop).  A postcondition [wp m s Q] says that
      [m] returns from [s], without a fault, in a result and state that satisfy [Q].
    - Integers are [Z]; [u8] to [u64] and [i32] write out the wrap-around wherever the
      C expression can leave its range.  Pointers are their 64-bit values, 0 is NULL.
    - Loops without a structural bound take fuel and answer [OutOfFuel] when it is
      spent, which no theorem accepts as a result: every theorem about such a function
      says that it returns.  The fuel is part of the caller's definition where the code
      bounds it (the length of a string, the number of areas, the room of the heap) and
      one more than that bound, so it is enough.
    - Port writes, [invlpg], [mov cr3], [cli], [sti], [hlt], context switches and
      console lines are recorded as events ([Traced]), newest first.
    - Uninitialised memory is an argument called [junk...] of the code that reads it.

    ** Files, and the code they model

    - [Prelude] (this file): integers, the monad and its rules, list and bit lemmas.
    - [Layout]: address-space constants and alignment macros ([mm/pmm.h]).
    - [Frames]: the interface of a physical frame allocator ([FrameAlloc]).
    - [Pmm]: the bitmap allocator of [mm/pmm.c] and its boot ([pmm_init]); implements
      [FrameAlloc].  A state is the bitmap with its counters and cursor.
    - [Paging]: [mm/paging.c].  A state is the frame allocator and the words of memory
      by address in the direct map; [translate] is the MMU's walk, [pt_wf] says a tree
      of tables is well formed, [keeps] and [space_kept] what a mapping leaves alone.
    - [CString], [UserLib]: the kernel's [lib/string.c] and the user's [lib/string.c],
      [stdio.c] and [atoi] of [stdlib.c].
    - [Malloc]: [malloc] and [free] of [stdlib.c] and [sbrk], with the headers as bytes
      of the process's memory, over an interface of memory and [brk] ([UserMem], with
      the laws [BrkHeap]); [Userheap] proves those laws of [sys_brk] and the page tables.
    - [Ramfs]: [fs/ramfs.c], all operations, over lists of inodes and open files and an
      interface to the heap ([Kmalloc]); [Fsheap]: [ramfs_init], and the kernel heap as
      an implementation of that interface.
    - [Shell]: [usr/shell.c] and [usr/usrmain.c] over an interface of system calls
      ([UserSys]); [Ls]: that interface on [Ramfs], and the command [ls].
    - [Klist]: [lib/list.h], intrusive rings over a store of links ([LinkStore]).
    - [Sched]: process blocks ([proc/proc.h]), [proc/sche.c], [arch/timer.c] and
      [kthread_exit]; [Debugproc]: [debug_proc] of [main.c].
    - [Arch]: GDT, TSS, IDT, PIC and timer programming ([arch/gdt.c], [idt.c],
      [timer.c]).
    - [Keyboard]: [drivers/keyboard.c] over an interface to the console ([KbdEnv]).
    - [Kheap]: [kmalloc] and [kfree] of [mm/pmm.c] over an interface to the page tables
      ([KernelPages]), which [Paging] implements.
    - [Debugmm]: [mm/debug_mm.c].
    - [Font], [Console]: [drivers/font.h] and [drivers/console.c] down to the pixels;
      [Terminal]: console and interrupt table as an implementation of [KbdEnv].
    - [Range]: what mapping a run of pages does, the loop of [mm_map_range] and
      [kstack_init].
    - [Kstack]: kernel stacks ([kstack_init], [kstack_free] of [mm/pmm.c]).
    - [Vaccess]: loads and stores of kernel code through CR3's page tables; [Stack] the
      words of a kernel stack, which every address space shares.
    - [Vmm]: [mm/vmm.c], address spaces over heap, lists and page tables; [Vmmcopy]
      the theory of [mm_alloc] and [mm_copy].
    - [Proc]: [proc/proc.c] and [lib/elf.h]: the first process, kernel threads, user
      processes from ELF images, [fork], release.  Contexts and trap frames are words
      on the stacks.  [Spawn] is the invariant of the processes ([procs_ok]) with
      [proc_init] and [kthread_create]; [Fork] is [sys_fork]; [Userpage] (writing the
      pages of another space through it), [Loader] ([load_segments]) and [Userproc]
      ([create_user_process]) are the theory of user processes.
    - [Boot], [Kmain], [Machine]: [main.c]: [mm_init] and the calls up to [proc_init]; the
      end of [kmain]; [kernel_init] and [kmain] over the state of all components.
    - [Syscall]: [arch/interrupts.c] and the wrappers of [usr/lib/syscall.c] over an
      interface of kernel operations ([KernelOps]); [sys_brk] over [Vmm].

    States nest as the subsystems do: processes over address spaces over the kernel
    heap over the page tables over the frame allocator, each file running the
    operations of the one below with [zoom].  [Machine] puts them next to tables, console,
    keyboard and files: a component there sees its part of the machine, works on it and
    leaves its events to the one trace.

    ** Theorems

    - Memory: the allocator never hands out a frame twice and protects its bitmap;
      mapping changes one page and nothing else; the boot map; releasing a space gives
      back exactly its frames; [kmalloc] keeps the heap a tiling of disjoint blocks;
      [mm_map_range] and [brk] map fresh frames, one for each page; kernel stacks are
      guarded; [malloc] over [brk] keeps allocations apart and their bytes in place, for
      blocks that fill their pages.
    - Processes: [proc_init] establishes and [kthread_create] and [sys_fork] keep the
      invariant that every process is a heap block with a PID of its own, in the process
      list, and the ready ones in the queue [schedule] works on; a new thread's stack
      enters its function, a forked child has a deep copy of the pages its parent has
      mapped, in frames of its own, and a trap frame that differs in rax only; a user
      process made from an ELF image has every byte of its segments and a stack that
      enters it; [schedule] refines an abstract round robin on that queue; every ready
      process gets the processor in time.
    - The boot: from power-on and the answers of the boot loader, [kmain] gets to the
      first user process without a fault, and every component is in order then.
    - Files: creation, directories, working directory and data round trips.
    - The shell: its line editor, a round as the interpretation of the words of a line,
      and [ls] as the text of a directory whatever buffers it comes in.
    - Devices and text: keyboard and console refine a queue and a picture of the
      history; number and string routines meet their specifications.
    - System calls: what every wrapper but [sbrk] runs, with which arguments, and what
      comes back.
    - Some theorems state what the code does where that is surely not what it means
      to do (heap growth, a lone process, stale areas, a remapped break); the manifest
      lists them as findings.

    ** Not modelled

    Assembly ([*.S], the inline assembly of [x86_64.h]) beyond the events above;
    [limine.h] beyond the answers [Machine] takes; the busy wait [sleep] of [timer.c],
    which nothing calls; the release of a process is modelled
    and run, but nothing is proved of it (no code path of the kernel reaps a process);
    the system call table works on an interface of operations ([KernelOps]), whose
    parts are proved in their files; console lines of the boot are events, and printing
    is verified in [Console]; compilers' choices, caches and the TLB; interrupts that
    arrive inside another kernel path (the kernel takes no locks: [schedule] and
    [kthread_exit] run with interrupts off, the rest is modelled as uninterrupted). *)
From Stdlib Require Export ZArith Lia.
From stdpp Require Export base tactics numbers list gmap strings.

#[export] Set Default Goal Selector "!".
#[global] Open Scope Z_scope.

(** * Machine integers *)

(** Wrap-around of the C integer types the kernel uses. *)
Definition u8 (z : Z) : Z := z mod 2 ^ 8.
Definition u16 (z : Z) : Z := z mod 2 ^ 16.
Definition u32 (z : Z) : Z := z mod 2 ^ 32.
Definition u64 (z : Z) : Z := z mod 2 ^ 64.
(** Conversion to [int], as gcc and clang define it: modulo 2^32 into the signed range. *)
Definition i32 (z : Z) : Z := (z + 2 ^ 31) mod 2 ^ 32 - 2 ^ 31.

(** * Faults, effects and the state monad *)

(** Why an execution does not come back: a C access outside its object or
    through NULL, a page fault or the [hlt] loop of a panic.  [OutOfFuel] is
    what a fuel-bounded loop answers when its fuel is spent, so that no theorem
    can mistake it for a result. *)
Inductive fault :=
  | NullDeref
  | OutOfBounds
  | PageFault
  | DivByZero
  | Halted
  | OutOfFuel.

Inductive res (A : Type) :=
  | Ok (a : A)
  | Crash (f : fault).
Arguments Ok {A} a.
Arguments Crash {A} f.

#[global] Instance fault_eq_dec : EqDecision fault.
Proof. solve_decision. Defined.

#[global] Instance res_ret : MRet res := λ A a, Ok a.
#[global] Instance res_bind : MBind res := λ A B k m,
  match m with Ok a => k a | Crash f => Crash f end.

(** Stateful code: a state transformer that may crash. *)
Definition M (St A : Type) : Type := St → res (A * St).

#[global] Instance M_ret St : MRet (M St) := λ A a s, Ok (a, s).
#[global] Instance M_bind St : MBind (M St) := λ A B k m s,
  match m s with Ok (a, s') => k a s' | Crash f => Crash f end.

Definition gets {St A} (f : St → A) : M St A := λ s, Ok (f s, s).
Definition modify {St} (f : St → St) : M St unit := λ s, Ok (tt, f s).
Definition crash {St A} (f : fault) : M St A := λ _, Crash f.
Definition lift_res {St A} (r : res A) : M St A := λ s,
  match r with Ok a => Ok (a, s) | Crash f => Crash f end.
Definition or_crash {St A} (f : fault) (o : option A) : M St A :=
  match o with Some a => mret a | None => crash f end.

(** Running an operation of a component on the larger state that holds it. *)
Definition zoom {St T A} (get : St → T) (set : T → St → St) (m : M T A) : M St A := λ s,
  match m (get s) with Ok (a, t) => Ok (a, set t s) | Crash f => Crash f end.

(** [for (i = lo; i < lo + n; i++) body(i)]. *)
Fixpoint for_n {St} (n : nat) (i : Z) (body : Z → M St unit) : M St unit :=
  match n with
  | O => mret tt
  | Datatypes.S n' => body i;; for_n n' (i + 1) body
  end.

(** An argument of [kprintf]. *)
Inductive karg :=
  | KInt (z : Z)
  | KStr (s : list Z).

(** What the code does to the hardware and the console, in program order. *)
Inductive event :=
  | EvPrint (fmt : string) (args : list karg)
  | EvOut (port val : Z)
  | EvInvlpg (va : Z)
  | EvLcr3 (pa : Z)
  | EvSwitch (from to : Z)
  | EvCli
  | EvSti
  | EvHlt.

(** States that record the events they emit (newest first). *)
Class Traced (St : Type) := {
  trace : St → list event;
  push_event : event → St → St;
  trace_push : ∀ e s, trace (push_event e s) = e :: trace s
}.

Arguments push_event {St Traced} e s : simpl never.

Definition emit {St} `{!Traced St} (e : event) : M St unit := modify (push_event e).
Definition kprintf {St} `{!Traced St} (fmt : string) (args : list karg) : M St unit :=
  emit (EvPrint fmt args).
Definition kprintln {St} `{!Traced St} (msg : string) : M St unit := emit (EvPrint msg []).

(** * Total-correctness reasoning *)

(** [wp m s Q]: from [s], [m] does not crash and ends in a result and state
    that satisfy [Q]. *)
Definition wp {St A} (m : M St A) (s : St) (Q : A → St → Prop) : Prop :=
  match m s with Ok (a, s') => Q a s' | Crash _ => False end.

Section wp.
  Context {St : Type}.
  Implicit Types s : St.

Lemma wp_ret {A} (a : A) s (Q : A → St → Prop) : Q a s → wp (mret a) s Q.
Proof. done. Qed.

Lemma wp_bind {A B} (m : M St A) (k : A → M St B) s Q :
  wp m s (λ a s', wp (k a) s' Q) → wp (m ≫= k) s Q.
Proof. unfold wp, mbind, M_bind. by destruct (m s) as [[a s']|f]. Qed.

Lemma wp_mono {A} (m : M St A) s (P Q : A → St → Prop) :
  wp m s P → (∀ a s', P a s' → Q a s') → wp m s Q.
Proof. unfold wp. destruct (m s) as [[a s']|f]; naive_solver. Qed.

Lemma wp_bind_mono {A B} (m : M St A) (k : A → M St B) s (P : A → St → Prop) Q :
  wp m s P → (∀ a s', P a s' → wp (k a) s' Q) → wp (m ≫= k) s Q.
Proof. intros H HQ. apply wp_bind. by eapply wp_mono. Qed.

Lemma wp_gets {A} (f : St → A) s (Q : A → St → Prop) : Q (f s) s → wp (gets f) s Q.
Proof. done. Qed.

Lemma wp_modify (f : St → St) s (Q : unit → St → Prop) : Q tt (f s) → wp (modify f) s Q.
Proof. done. Qed.

Lemma wp_ok {A} (m : M St A) s a s' (Q : A → St → Prop) :
  m s = Ok (a, s') → Q a s' → wp m s Q.
Proof. unfold wp. by intros ->. Qed.

Lemma wp_inv {A} (m : M St A) s (Q : A → St → Prop) :
  wp m s Q → ∃ a s', m s = Ok (a, s') ∧ Q a s'.
Proof. unfold wp. destruct (m s) as [[a s']|f]; naive_solver. Qed.

Lemma wp_zoom {T A} (get : St → T) (set : T → St → St) (m : M T A) s Q :
  wp m (get s) (λ a t, Q a (set t s)) → wp (zoom get set m) s Q.
Proof. unfold wp, zoom. by destruct (m (get s)) as [[a t]|f]. Qed.

Lemma wp_or_crash {A} f (o : option A) a s Q : o = Some a → Q a s → wp (or_crash f o) s Q.
Proof. by intros ->. Qed.

Lemma bind_ok {A B} (m : M St A) (k : A → M St B) s a s' :
  m s = Ok (a, s') → (m ≫= k) s = k a s'.
Proof. unfold mbind, M_bind. by intros ->. Qed.

Lemma lift_ok {A B} (r : res A) (k : A → M St B) s a : r = Ok a → (lift_res r ≫= k) s = k a s.
Proof. by intros ->. Qed.

Lemma lift_crash {A B} (r : res A) (k : A → M St B) s f : r = Crash f → (lift_res r ≫= k) s = Crash f.
Proof. by intros ->. Qed.

Lemma bind_assoc {A B C} (m : M St A) (k : A → M St B) (l : B → M St C) s :
  ((m ≫= k) ≫= l) s = (m ≫= λ a, k a ≫= l) s.
Proof. unfold mbind, M_bind. by destruct (m s) as [[a s']|f]. Qed.

(** The rule for counted loops. *)
Lemma wp_for_n (I : Z → St → Prop) n i (body : Z → M St unit) s :
  I i s →
  (∀ j s', i ≤ j < i + Z.of_nat n → I j s' → wp (body j) s' (λ _ s'', I (j + 1) s'')) →
  wp (for_n n i body) s (λ _ s', I (i + Z.of_nat n) s').
Proof.
  revert i s. induction n as [|n IH]; intros i s HI Hstep; simpl for_n.
  - apply wp_ret. by replace (i + Z.of_nat 0) with i by lia.
  - eapply wp_bind_mono; [apply Hstep; [lia|done]|]. intros [] s' HI'.
    eapply wp_mono; [apply IH; [done|]|].
    + intros j s'' Hj. apply Hstep. lia.
    + simpl. intros _ s'' H. by replace (i + Z.of_nat (S n)) with (i + 1 + Z.of_nat n) by lia.
Qed.

(** A loop is run by running a first part of it and then the rest. *)
Lemma for_n_app (n m : nat) i (body : Z → M St unit) s s' r :
  for_n n i body s = Ok (tt, s') → for_n m (i + Z.of_nat n) body s' = r → for_n (n + m) i body s = r.
Proof.
  revert i s. induction n as [|n IH]; intros i s; cbn [for_n Nat.add].
  - intros [= <-]. by rewrite Z.add_0_r.
  - unfold mbind, M_bind. destruct (body i s) as [[[] s1]|f]; [|done]. intros H Hm. apply IH; [done|].
    by replace (i + 1 + Z.of_nat n) with (i + Z.of_nat (S n)) by lia.
Qed.

Lemma for_n_S (n : nat) i (body : Z → M St unit) s s' r :
  body i s = Ok (tt, s') → for_n n (i + 1) body s' = r → for_n (S n) i body s = r.
Proof. cbn [for_n]. unfold mbind, M_bind. by intros ->. Qed.

Lemma wp_emit `{!Traced St} e s (Q : unit → St → Prop) :
  Q tt (push_event e s) → wp (emit e) s Q.
Proof. done. Qed.

Lemma wp_kprintf `{!Traced St} fmt args s (Q : unit → St → Prop) :
  Q tt (push_event (EvPrint fmt args) s) → wp (kprintf fmt args) s Q.
Proof. done. Qed.

Lemma wp_kprintln `{!Traced St} msg s (Q : unit → St → Prop) :
  Q tt (push_event (EvPrint msg []) s) → wp (kprintln msg) s Q.
Proof. done. Qed.
End wp.

(** One step of symbolic execution; [wp_go] runs the straight-line code. *)
Ltac wp_step :=
  match goal with
  | |- wp (mbind _ _) _ _ => apply wp_bind
  | |- wp (mret _) _ _ => apply wp_ret
  | |- wp (gets _) _ _ => apply wp_gets
  | |- wp (modify _) _ _ => apply wp_modify
  | |- wp (emit _) _ _ => apply wp_emit
  | |- wp (kprintf _ _) _ _ => apply wp_kprintf
  | |- wp (kprintln _) _ _ => apply wp_kprintln
  | |- wp (zoom _ _ _) _ _ => apply wp_zoom
  end.
Ltac wp_go := repeat (wp_step; simpl).

(** * Invariants of a program

    [invariant_of P m]: no run of [m] ends outside [P]. *)

Section invariance.
  Context {St : Type} (P : St → Prop).

Definition invariant_of {R} (m : M St R) : Prop := ∀ s r s', P s → m s = Ok (r, s') → P s'.

Lemma inv_bind {R R'} (m : M St R) (k : R → M St R') : invariant_of m → (∀ r, invariant_of (k r)) → invariant_of (m ≫= k).
Proof. intros Hm Hk s r s' Hs. cbv [mbind M_bind]. destruct (m s) as [[a s1]|] eqn:E; [|done]. intros E'. by apply (Hk a s1 r s'), E'; apply (Hm s a s1). Qed.
Lemma inv_ret {R} (r : R) : invariant_of (mret r).
Proof. by intros s ? s' Hs [= _ <-]. Qed.
Lemma inv_gets {R} (f : St → R) : invariant_of (gets f).
Proof. by intros s r s' Hs [= _ <-]. Qed.
Lemma inv_crash {R} f : invariant_of (crash (A := R) f).
Proof. done. Qed.
Lemma inv_or_crash {R} f (o : option R) : invariant_of (or_crash f o).
Proof. destruct o; [by intros s ? s' Hs [= _ <-]|done]. Qed.
Lemma inv_modify f : (∀ s, P s → P (f s)) → invariant_of (modify f).
Proof. intros Hf s r s' Hs [= _ <-]. by apply Hf. Qed.
End invariance.

Lemma inv_zoom {St T R} (P : T → Prop) (get : St → T) (set : T → St → St) (m : M T R) :
  (∀ t s, get (set t s) = t) → invariant_of P m → invariant_of (λ s, P (get s)) (zoom get set m).
Proof. intros Hg Hm s r s' Hs. unfold zoom. destruct (m (get s)) as [[a t]|] eqn:E; [|done]. intros [= _ <-]. rewrite Hg. by apply (Hm _ a t Hs). Qed.

(** The pieces of a program, one after the other; [auto] has the calls. *)
Ltac inv_go :=
  repeat first [solve [auto] | apply inv_bind; [|intros ?] | apply inv_ret | apply inv_gets | apply inv_crash | apply inv_or_crash
    | by apply inv_modify | case_match].

(** * Arithmetic and bits *)

Create Rewrite HintDb ksimpl.

Lemma u64_small z : 0 ≤ z < 2 ^ 64 → u64 z = z.
Proof. apply Z.mod_small. Qed.
Lemma u64_range z : 0 ≤ u64 z < 2 ^ 64.
Proof. apply Z.mod_pos_bound. lia. Qed.
Lemma u32_small z : 0 ≤ z < 2 ^ 32 → u32 z = z.
Proof. apply Z.mod_small. Qed.
Lemma u8_small z : 0 ≤ z < 2 ^ 8 → u8 z = z.
Proof. apply Z.mod_small. Qed.
Lemma u8_range z : 0 ≤ u8 z < 2 ^ 8.
Proof. apply Z.mod_pos_bound. lia. Qed.
Lemma i32_small z : - 2 ^ 31 ≤ z < 2 ^ 31 → i32 z = z.
Proof. intros. unfold i32. rewrite Z.mod_small; lia. Qed.
Lemma i32_range z : - 2 ^ 31 ≤ i32 z < 2 ^ 31.
Proof. unfold i32. pose proof (Z.mod_pos_bound (z + 2 ^ 31) (2 ^ 32)). lia. Qed.

(** Adding a fixed offset modulo 2^64 loses nothing. *)
Lemma u64_add_inj a b c : 0 ≤ a < 2 ^ 64 → 0 ≤ b < 2 ^ 64 → u64 (a + c) = u64 (b + c) → a = b.
Proof.
  unfold u64. intros Ha Hb H.
  rewrite <- (Z.mod_small a (2 ^ 64)), <- (Z.mod_small b (2 ^ 64)) by lia.
  replace a with (a + c - c) by lia. replace b with (b + c - c) by lia.
  by rewrite Zminus_mod, H, <- Zminus_mod.
Qed.
Lemma u64_idemp_l a b : u64 (u64 a + b) = u64 (a + b).
Proof. unfold u64. by rewrite Zplus_mod_idemp_l. Qed.

#[export] Hint Rewrite u64_idemp_l : ksimpl.

Lemma testbit_small z n k : 0 ≤ z < 2 ^ n → 0 ≤ n ≤ k → Z.testbit z k = false.
Proof.
  intros Hz Hk. rewrite <- (Z.mod_small z (2 ^ n)) by done.
  apply Z.mod_pow2_bits_high. lia.
Qed.

(** Two numbers with the same low [n] bits and nothing above are equal. *)
Lemma bits_eq_below n a b :
  0 ≤ n → 0 ≤ a < 2 ^ n → 0 ≤ b < 2 ^ n →
  (∀ k, 0 ≤ k < n → Z.testbit a k = Z.testbit b k) → a = b.
Proof.
  intros Hn Ha Hb H. apply Z.bits_inj'. intros k Hk.
  destruct (decide (k < n)); [by apply H; lia|].
  by rewrite !(testbit_small _ n) by lia.
Qed.

Lemma bits_bound n a :
  0 ≤ n → 0 ≤ a → (∀ k, n ≤ k → Z.testbit a k = false) → a < 2 ^ n.
Proof.
  intros Hn Ha H. destruct (Z.lt_ge_cases a (2 ^ n)) as [?|Hge]; [done|].
  exfalso. assert (0 < 2 ^ n) by (apply Z.pow_pos_nonneg; lia).
  assert (Hlog : n ≤ Z.log2 a) by (apply Z.log2_le_pow2; lia).
  specialize (H _ Hlog). rewrite Z.bit_log2 in H; [done|lia].
Qed.

Lemma shiftl1_pow2 k : 0 ≤ k → Z.shiftl 1 k = 2 ^ k.
Proof. intros. rewrite Z.shiftl_mul_pow2; lia. Qed.

(** Testing one bit with a mask, the way C does. *)
Lemma land_pow2_nonzero z k :
  0 ≤ k → negb (Z.land z (Z.shiftl 1 k) =? 0) = Z.testbit z k.
Proof.
  intros Hk. rewrite shiftl1_pow2 by done.
  destruct (Z.testbit z k) eqn:E.
  - apply negb_true_iff, Z.eqb_neq. intros H0.
    assert (Z.testbit (Z.land z (2 ^ k)) k = false) as H1 by by rewrite H0, Z.bits_0.
    by rewrite Z.land_spec, E, Z.pow2_bits_true in H1.
  - apply negb_false_iff, Z.eqb_eq, Z.bits_inj'. intros j Hj.
    rewrite Z.land_spec, Z.bits_0. destruct (decide (j = k)) as [->|].
    + by rewrite E.
    + rewrite Z.pow2_bits_false by done. apply andb_false_r.
Qed.

(** Rounding to a multiple of a power of two with a mask. *)
Lemma land_lnot_ones z n : 0 ≤ n → Z.land z (Z.lnot (2 ^ n - 1)) = z - z mod 2 ^ n.
Proof.
  intros Hn. replace (2 ^ n - 1) with (Z.ones n) by (rewrite Z.ones_equiv; lia).
  rewrite <- Z.ldiff_land, Z.ldiff_ones_r, Z.shiftr_div_pow2, Z.shiftl_mul_pow2 by done.
  pose proof (Z.div_mod z (2 ^ n)). lia.
Qed.

(** * Lists indexed by [Z], the way C indexes an array *)

Definition zlookup {A} (l : list A) (i : Z) : option A :=
  if decide (0 ≤ i) then l !! Z.to_nat i else None.
Definition zinsert {A} (i : Z) (x : A) (l : list A) : list A :=
  if decide (0 ≤ i) then <[Z.to_nat i := x]> l else l.
Definition zlen {A} (l : list A) : Z := Z.of_nat (length l).

Section zlist.
  Context {A : Type}.
  Implicit Types (l : list A) (x : A) (i j : Z).

Lemma zlookup_Some l i x : zlookup l i = Some x → 0 ≤ i < zlen l.
Proof.
  unfold zlookup, zlen. case_decide as Hi; [|done]. intros Hl%lookup_lt_Some. lia.
Qed.
Lemma zlookup_is_Some l i : 0 ≤ i < zlen l → ∃ x, zlookup l i = Some x.
Proof.
  unfold zlookup, zlen. intros. rewrite decide_True by lia. apply lookup_lt_is_Some. lia.
Qed.
Lemma zlookup_None l i : ¬ 0 ≤ i < zlen l → zlookup l i = None.
Proof.
  unfold zlookup, zlen. intros. case_decide; [|done]. apply lookup_ge_None. lia.
Qed.
Lemma zlen_zinsert l i x : zlen (zinsert i x l) = zlen l.
Proof. unfold zlen, zinsert. case_decide; [by rewrite length_insert|done]. Qed.
Lemma zlookup_zinsert_eq l i x : 0 ≤ i < zlen l → zlookup (zinsert i x l) i = Some x.
Proof.
  unfold zlookup, zinsert, zlen. intros. rewrite !decide_True by lia.
  apply list_lookup_insert_eq. lia.
Qed.
Lemma zlookup_zinsert_ne l i j x : i ≠ j → zlookup (zinsert i x l) j = zlookup l j.
Proof.
  unfold zlookup, zinsert. intros. repeat case_decide; try done.
  apply list_lookup_insert_ne. lia.
Qed.
Lemma zlookup_replicate n x i : 0 ≤ i < n → zlookup (replicate (Z.to_nat n) x) i = Some x.
Proof.
  intros. unfold zlookup. rewrite decide_True by lia. apply lookup_replicate. split; [done|lia].
Qed.
Lemma zlen_nonneg l : 0 ≤ zlen l.
Proof. unfold zlen. lia. Qed.
End zlist.

#[export] Hint Rewrite @zlen_zinsert : ksimpl.
#[export] Hint Resolve zlen_nonneg u64_range u8_range : core.
