(* ===== verification/Layout.v ===== *)
(** Layout: the constants and macros of [kernel/src/mm/pmm.h], [mm/paging.h]
    and [proc/proc.h] that fix the kernel's address space, with the alignment
    arithmetic the allocators rely on. *)
From S2P Require Import Prelude.

(** * Address space (pmm.h) *)

Definition KERNEL_HHDM_BASE : Z := 0xFFFF800000000000.
Definition KERNEL_HEAP_BASE : Z := 0xFFFF900000000000.
Definition KERNEL_MMIO_BASE : Z := 0xFFFFA00000000000.
Definition KERNEL_STACK_BASE : Z := 0xFFFFB00000000000.
Definition KERNEL_IMAGE_BASE : Z := 0xFFFFFFFF80000000.

Definition PAGE_SIZE : Z := 4096.
Definition KSTACK_SIZE : Z := 0x4000.

(** [ALIGN_UP] and [ALIGN_DOWN] on 64-bit operands: the addition wraps, the
    mask [~(align - 1)] is sign-extended to 64 bits. *)
Definition ALIGN_UP (addr align : Z) : Z :=
  Z.land (u64 (addr + align - 1)) (Z.lnot (align - 1)).
Definition ALIGN_DOWN (addr align : Z) : Z := Z.land addr (Z.lnot (align - 1)).

Definition pa2pgidx (pa : Z) : Z := pa / PAGE_SIZE.
Definition pgidx2pa (pgidx : Z) : Z := u64 (pgidx * PAGE_SIZE).

(** User stack (proc.h). *)
Definition USER_STACK_TOP : Z := 0x80000000.
Definition USER_STACK_SIZE : Z := 4 * PAGE_SIZE.

(** * The boot loader's memory map (limine.h) *)

(** [struct limine_memmap_entry]. *)
Record memmap_entry := MemmapEntry { base : Z; length_ : Z; type_ : Z }.
Definition LIMINE_MEMMAP_USABLE : Z := 0.
Definition LIMINE_MEMMAP_BOOTLOADER_RECLAIMABLE : Z := 5.
Definition LIMINE_MEMMAP_EXECUTABLE_AND_MODULES : Z := 6.
Definition LIMINE_MEMMAP_FRAMEBUFFER : Z := 7.

(** * Alignment arithmetic *)

Section align.
  Context (n : Z) (Hn : 0 ≤ n < 64).

Lemma align_down_eq a : ALIGN_DOWN a (2 ^ n) = a - a mod 2 ^ n.
Proof. apply land_lnot_ones. lia. Qed.

Lemma align_up_eq a :
  0 ≤ a → a + 2 ^ n ≤ 2 ^ 64 →
  ALIGN_UP a (2 ^ n) = (a + 2 ^ n - 1) - (a + 2 ^ n - 1) mod 2 ^ n.
Proof.
  intros. unfold ALIGN_UP. assert (0 < 2 ^ n) by (apply Z.pow_pos_nonneg; lia).
  rewrite u64_small by lia. apply land_lnot_ones. lia.
Qed.

(** [ALIGN_UP] is the least multiple of the alignment that is not below. *)
Lemma align_up_spec a :
  0 ≤ a → a + 2 ^ n ≤ 2 ^ 64 →
  ALIGN_UP a (2 ^ n) mod 2 ^ n = 0 ∧ a ≤ ALIGN_UP a (2 ^ n) < a + 2 ^ n.
Proof.
  intros Ha Hb. assert (0 < 2 ^ n) by (apply Z.pow_pos_nonneg; lia).
  rewrite align_up_eq by done. set (p := 2 ^ n) in *.
  pose proof (Z.div_mod (a + p - 1) p ltac:(lia)).
  pose proof (Z.mod_pos_bound (a + p - 1) p ltac:(lia)).
  split; [|lia]. replace (_ - _) with ((a + p - 1) / p * p) by lia. by apply Z.mod_mul; lia.
Qed.

Lemma align_down_spec a :
  0 ≤ a → ALIGN_DOWN a (2 ^ n) mod 2 ^ n = 0 ∧ ALIGN_DOWN a (2 ^ n) ≤ a < ALIGN_DOWN a (2 ^ n) + 2 ^ n.
Proof.
  intros Ha. assert (0 < 2 ^ n) by (apply Z.pow_pos_nonneg; lia).
  rewrite align_down_eq. set (p := 2 ^ n) in *.
  pose proof (Z.div_mod a p ltac:(lia)). pose proof (Z.mod_pos_bound a p ltac:(lia)).
  split; [|lia]. replace (_ - _) with (a / p * p) by lia. by apply Z.mod_mul; lia.
Qed.
End align.

(** The two alignments the kernel uses. *)
Lemma page_align_up a :
  0 ≤ a → a + PAGE_SIZE ≤ 2 ^ 64 →
  ALIGN_UP a PAGE_SIZE mod PAGE_SIZE = 0 ∧ a ≤ ALIGN_UP a PAGE_SIZE < a + PAGE_SIZE.
Proof. apply (align_up_spec 12). lia. Qed.
Lemma page_align_down a :
  0 ≤ a →
  ALIGN_DOWN a PAGE_SIZE mod PAGE_SIZE = 0 ∧ ALIGN_DOWN a PAGE_SIZE ≤ a < ALIGN_DOWN a PAGE_SIZE + PAGE_SIZE.
Proof. apply (align_down_spec 12). lia. Qed.
Lemma word_align_up a :
  0 ≤ a → a + 8 ≤ 2 ^ 64 → ALIGN_UP a 8 mod 8 = 0 ∧ a ≤ ALIGN_UP a 8 < a + 8.
Proof. apply (align_up_spec 3). lia. Qed.

Lemma pgidx2pa_small i : 0 ≤ i < 2 ^ 52 → pgidx2pa i = i * PAGE_SIZE.
Proof. intros. unfold pgidx2pa, PAGE_SIZE. apply u64_small. lia. Qed.
Lemma pa2pgidx_pgidx2pa i : 0 ≤ i < 2 ^ 52 → pa2pgidx (pgidx2pa i) = i.
Proof. intros. rewrite pgidx2pa_small by done. unfold pa2pgidx, PAGE_SIZE. by apply Z.div_mul. Qed.
Lemma page_div a : a mod PAGE_SIZE = 0 → a = a / PAGE_SIZE * PAGE_SIZE.
Proof. unfold PAGE_SIZE. intros. Z.to_euclidean_division_equations; lia. Qed.
