(* ===== verification/Frames.v ===== *)
(** Frames: the interface between the physical page allocator and the code
    that builds page tables and heaps on it.  [Pmm.pmm_frames] is the
    implementation; the clients' theorems only use the laws below. *)
From S2P Require Import Prelude Layout.

(** A frame allocator over a state [St]: frames are numbered, a frame [k] has
    physical address [k * PAGE_SIZE], the answer 0 means out of memory. *)
Class FrameAlloc (St : Type) `{!Traced St} := {
  fa_alloc : M St Z;
  fa_free : Z → M St unit;
  fa_ok : St → Prop;
  fa_free_set : St → gset Z;
  fa_frames : St → Z;
  fa_range s k : fa_ok s → k ∈ fa_free_set s → 0 < k < fa_frames s;
  fa_width s : fa_ok s → fa_frames s ≤ 2 ^ 40;
  fa_trace_ok e s : fa_ok s → fa_ok (push_event e s);
  fa_trace_set e s : fa_free_set (push_event e s) = fa_free_set s;
  fa_trace_frames e s : fa_frames (push_event e s) = fa_frames s;
  fa_alloc_spec s :
    fa_ok s → wp fa_alloc s (λ pa s', fa_ok s' ∧ fa_frames s' = fa_frames s ∧
      ((pa = 0 ∧ fa_free_set s = ∅ ∧ fa_free_set s' = ∅) ∨
       (∃ k, k ∈ fa_free_set s ∧ pa = k * PAGE_SIZE ∧ fa_free_set s' = fa_free_set s ∖ {[k]})));
  fa_free_spec s k :
    fa_ok s → 0 < k < fa_frames s → k ∉ fa_free_set s →
    wp (fa_free (k * PAGE_SIZE)) s (λ _ s', fa_ok s' ∧ fa_frames s' = fa_frames s ∧
      fa_free_set s' = {[k]} ∪ fa_free_set s)
}.

(** A frame that is allocated: in range and not free. *)
Definition fa_busy {St} `{FrameAlloc St} (s : St) (k : Z) : Prop :=
  0 < k < fa_frames s ∧ k ∉ fa_free_set s.
