(* ===== verification/Pmm.v ===== *)
(** Pmm: the physical page allocator of [kernel/src/mm/pmm.c], a bitmap with
    one bit per 4 KiB frame (1 = in use) searched next-fit from
    [last_free_index].  The record holds the globals of pmm.c; the bitmap is
    the byte array the pointer [bitmap] designates. *)
From S2P Require Import Prelude Layout Frames.

Record pmm_st := PmmSt {
  bitmap : list Z;
  bitmap_va : Z;
  bitmap_size : Z;
  total_pages : Z;
  free_pages : Z;
  last_free_index : Z;
  pmm_trace : list event
}.

Definition set_bitmap (bm : list Z) (s : pmm_st) : pmm_st :=
  PmmSt bm (bitmap_va s) (bitmap_size s) (total_pages s) (free_pages s) (last_free_index s) (pmm_trace s).
Definition set_free_pages (n : Z) (s : pmm_st) : pmm_st :=
  PmmSt (bitmap s) (bitmap_va s) (bitmap_size s) (total_pages s) n (last_free_index s) (pmm_trace s).
Definition set_last_free_index (i : Z) (s : pmm_st) : pmm_st :=
  PmmSt (bitmap s) (bitmap_va s) (bitmap_size s) (total_pages s) (free_pages s) i (pmm_trace s).

#[export] Program Instance pmm_traced : Traced pmm_st := {|
  trace := pmm_trace;
  push_event e s :=
    PmmSt (bitmap s) (bitmap_va s) (bitmap_size s) (total_pages s) (free_pages s)
      (last_free_index s) (e :: pmm_trace s)
|}.
Next Obligation. done. Qed.

(** * Bit operations *)

Definition load_byte (i : Z) : M pmm_st Z :=
  bm ← gets bitmap; or_crash OutOfBounds (zlookup bm i).
Definition store_byte (i b : Z) : M pmm_st unit := modify (λ s, set_bitmap (zinsert i b (bitmap s)) s).

(** [bitmap[bit / 8] |= (1 << (bit % 8))] *)
Definition bit_set (bit : Z) : M pmm_st unit :=
  b ← load_byte (bit / 8);
  store_byte (bit / 8) (u8 (Z.lor b (Z.shiftl 1 (bit mod 8)))).

(** [bitmap[bit / 8] &= ~(1 << (bit % 8))] *)
Definition bit_unset (bit : Z) : M pmm_st unit :=
  b ← load_byte (bit / 8);
  store_byte (bit / 8) (u8 (Z.land b (Z.lnot (Z.shiftl 1 (bit mod 8))))).

Definition bit_test (bit : Z) : M pmm_st bool :=
  b ← load_byte (bit / 8);
  mret (negb (Z.land b (Z.shiftl 1 (bit mod 8)) =? 0)).

(** * Marking ranges *)

Definition pmm_set_free (pa pgnum : Z) : M pmm_st unit :=
  let pgidx := pa2pgidx pa in
  total ← gets total_pages;
  if total <=? u64 (pgidx + pgnum) then mret tt else
  for_n (Z.to_nat pgnum) 0 (λ i,
    busy ← bit_test (pgidx + i);
    if busy : bool then
      bit_unset (pgidx + i);;
      modify (λ s, set_free_pages (u64 (free_pages s + 1)) s)
    else mret tt).

Definition pmm_set_busy (pa pgnum : Z) : M pmm_st unit :=
  let pgidx := pa2pgidx pa in
  total ← gets total_pages;
  if total <=? u64 (pgidx + pgnum) then mret tt else
  for_n (Z.to_nat pgnum) 0 (λ i,
    busy ← bit_test (pgidx + i);
    if busy : bool then mret tt else
      bit_set (pgidx + i);;
      modify (λ s, set_free_pages (u64 (free_pages s - 1)) s)).

(** * Allocation *)

(** One of the two search loops of [pmm_alloc_page]: [n] frames from [i] on. *)
Fixpoint pmm_scan (n : nat) (i : Z) : M pmm_st (option Z) :=
  match n with
  | O => mret None
  | S n' =>
    busy ← bit_test i;
    if busy : bool then pmm_scan n' (i + 1) else
    bit_set i;;
    modify (λ s, set_free_pages (u64 (free_pages s - 1)) s);;
    modify (set_last_free_index (u64 (i + 1)));;
    mret (Some (pgidx2pa i))
  end.

Definition pmm_alloc_page : M pmm_st Z :=
  free ← gets free_pages;
  if free =? 0 then
    kprintln "ERROR: No free pages available for allocation!";; mret 0
  else
  last ← gets last_free_index;
  total ← gets total_pages;
  r ← pmm_scan (Z.to_nat (total - last)) last;
  match r with
  | Some pa => mret pa
  | None =>
    r' ← pmm_scan (Z.to_nat last) 0;
    match r' with
    | Some pa => mret pa
    | None =>
      kprintln "ERROR: Failed to allocate page (allocation loop failed)!";; mret 0
    end
  end.

Definition pmm_free_page (pa : Z) : M pmm_st unit :=
  let pgidx := pa2pgidx pa in
  total ← gets total_pages;
  if total <=? pgidx then kprintln "Trying to free invalid address(pg>totalpages)" else
  busy ← bit_test pgidx;
  if negb busy then kprintln "double free detected" else
  bit_unset pgidx;;
  modify (λ s, set_free_pages (u64 (free_pages s + 1)) s);;
  last ← gets last_free_index;
  if pgidx <? last then modify (set_last_free_index pgidx) else mret tt.

(** * Initialisation from the boot loader's memory map *)

Definition entry_end (e : memmap_entry) : Z := u64 (base e + length_ e).

(** First loop of [pmm_init]: the highest physical address. *)
Definition highest_address (mmap : list memmap_entry) : Z :=
  foldl (λ hi e, if hi <? entry_end e then entry_end e else hi) 0 mmap.

Definition bitmap_bytes (total : Z) : Z :=
  if total mod 8 =? 0 then total / 8 else total / 8 + 1.
Definition bitmap_page_count (size : Z) : Z := ALIGN_UP size PAGE_SIZE / PAGE_SIZE.

(** Second loop: the first usable region that can hold the bitmap; 0 when none does. *)
Fixpoint find_bitmap_pa (mmap : list memmap_entry) (size : Z) : Z :=
  match mmap with
  | [] => 0
  | e :: rest =>
    if (type_ e =? LIMINE_MEMMAP_USABLE) && (size <=? length_ e)
       && (u64 (bitmap_page_count size * PAGE_SIZE) <=? length_ e)
    then base e
    else find_bitmap_pa rest size
  end.

(** Body of the third loop: hand one memory-map entry to the allocator. *)
Definition free_entry (e : memmap_entry) : M pmm_st unit :=
  if type_ e =? LIMINE_MEMMAP_USABLE then
    let start := ALIGN_UP (base e) PAGE_SIZE in
    let end_ := ALIGN_DOWN (u64 (base e + length_ e)) PAGE_SIZE in
    if end_ <=? start then mret tt else
    let pg_num := (end_ - start) / PAGE_SIZE in
    pmm_set_free start pg_num;;
    kprintf "Free area from %lx to %lx (%ld pages)\n" [KInt start; KInt end_; KInt pg_num]
  else mret tt.

Fixpoint free_entries (mmap : list memmap_entry) : M pmm_st unit :=
  match mmap with
  | [] => mret tt
  | e :: rest => free_entry e;; free_entries rest
  end.

Definition pmm_init (HHDM_OFFSET : Z) (mmap : list memmap_entry) : M pmm_st unit :=
  kprintln "===== Start init pmm... =====";;
  let highest_pa := highest_address mmap in
  kprintf "Get the highest address: %ld\n" [KInt highest_pa];;
  let total := highest_pa / PAGE_SIZE in
  let size := bitmap_bytes total in
  modify (λ s, PmmSt (bitmap s) (bitmap_va s) size total (free_pages s) (last_free_index s) (pmm_trace s));;
  kprintf "Total pages num is %ld\n" [KInt total];;
  kprintf "Bitmap size is %ld\n" [KInt size];;
  let bitmap_pa := find_bitmap_pa mmap size in
  if bitmap_pa =? 0 then emit EvHlt;; crash Halted else
  kprintf "Bitmap is set PA at: %lx\n" [KInt bitmap_pa];;
  let va := u64 (bitmap_pa + HHDM_OFFSET) in
  modify (λ s, PmmSt (bitmap s) va (bitmap_size s) (total_pages s) (free_pages s) (last_free_index s) (pmm_trace s));;
  kprintf "Bitmap is set VA at: %lx\n" [KInt va];;
  modify (set_bitmap (replicate (Z.to_nat size) 0xFF));;
  free_entries mmap;;
  let bitmap_pages := bitmap_page_count size in
  pmm_set_busy bitmap_pa bitmap_pages;;
  kprintf "Reserved bitmap area: %lx (pages: %ld)\n" [KInt bitmap_pa; KInt bitmap_pages];;
  pmm_set_busy 0 1;;
  kprintln "===== Init pmm done!!! =====".

(** * Abstract view: the set of free frames *)

(** Bit [i] of the bitmap; a frame past the array counts as busy. *)
Definition page_bit (s : pmm_st) (i : Z) : bool :=
  match zlookup (bitmap s) (i / 8) with
  | Some b => Z.testbit b (i mod 8)
  | None => true
  end.

Definition free_list (s : pmm_st) : list Z :=
  filter (λ i, page_bit s i = false) (seqZ 0 (total_pages s)).
Definition free_set (s : pmm_st) : gset Z := list_to_set (free_list s).

(** The frames' physical width: PTE_ADDR_MASK keeps 52 bits. *)
Definition MAX_PAGES : Z := 2 ^ 40.

Record bitmap_ok (s : pmm_st) : Prop := {
  bm_bytes : ∀ i b, zlookup (bitmap s) i = Some b → 0 ≤ b < 256;
  bm_len : zlen (bitmap s) = bitmap_size s;
  bm_total : 0 ≤ total_pages s ≤ 8 * bitmap_size s;
  bm_max : total_pages s ≤ MAX_PAGES
}.

(** The allocator's invariant. *)
Record pmm_ok (s : pmm_st) : Prop := {
  pmm_bitmap_ok : bitmap_ok s;
  pmm_count : free_pages s = Z.of_nat (size (free_set s));
  pmm_cursor : 0 ≤ last_free_index s ≤ total_pages s;
  pmm_zero_busy : 0 ∉ free_set s
}.

(** What [pmm_alloc_page] must pick from a free set: the first free frame at or
    after the cursor, else the first one below it. *)
Definition next_fit (F : gset Z) (start i : Z) : Prop :=
  i ∈ F ∧ ((start ≤ i ∧ ∀ j, j ∈ F → start ≤ j → i ≤ j)
         ∨ (i < start ∧ ∀ j, j ∈ F → j < start ∧ i ≤ j)).

(** Fields no bitmap or counter update touches. *)
Definition same_geometry (s s' : pmm_st) : Prop :=
  total_pages s' = total_pages s ∧ bitmap_size s' = bitmap_size s ∧ bitmap_va s' = bitmap_va s.

(** * Bits of the bitmap *)

Lemma free_set_spec s i : i ∈ free_set s ↔ 0 ≤ i < total_pages s ∧ page_bit s i = false.
Proof.
  unfold free_set, free_list. rewrite elem_of_list_to_set, list_elem_of_filter, elem_of_seqZ.
  naive_solver lia.
Qed.

Lemma byte_index s i : bitmap_ok s → 0 ≤ i < total_pages s → ∃ b, zlookup (bitmap s) (i / 8) = Some b ∧ 0 ≤ b < 256.
Proof.
  intros [Hb Hl Ht _] Hi. destruct (zlookup_is_Some (bitmap s) (i / 8)) as [b Hb'].
  - rewrite Hl. split; [apply Z.div_pos; lia|]. apply Z.div_lt_upper_bound; lia.
  - exists b. split; [done|]. by eapply Hb.
Qed.

Lemma load_byte_ok s i b : zlookup (bitmap s) i = Some b → load_byte i s = Ok (b, s).
Proof. intros H. unfold load_byte. cbv [mbind M_bind gets or_crash]. by rewrite H. Qed.

Lemma bit_test_ok s i : bitmap_ok s → 0 ≤ i < total_pages s → bit_test i s = Ok (page_bit s i, s).
Proof.
  intros Hok Hi. destruct (byte_index s i Hok Hi) as (b & Hb & _).
  unfold bit_test, page_bit. rewrite (bind_ok _ _ _ _ _ (load_byte_ok _ _ _ Hb)), Hb.
  rewrite land_pow2_nonzero; [done|]. apply Z.mod_pos_bound. lia.
Qed.

(** The bitmap after writing bit [i]. *)
Definition put_bit (s : pmm_st) (i : Z) (v : bool) : list Z :=
  match zlookup (bitmap s) (i / 8) with
  | Some b => zinsert (i / 8) (u8 (if v then Z.lor b (Z.shiftl 1 (i mod 8))
                                   else Z.land b (Z.lnot (Z.shiftl 1 (i mod 8))))) (bitmap s)
  | None => bitmap s
  end.

Lemma byte_put_testbit b k j (v : bool) :
  0 ≤ b < 256 → 0 ≤ k < 8 → 0 ≤ j < 8 →
  Z.testbit (u8 (if v then Z.lor b (Z.shiftl 1 k) else Z.land b (Z.lnot (Z.shiftl 1 k)))) j
  = if decide (j = k) then v else Z.testbit b j.
Proof.
  intros Hb Hk Hj. unfold u8. rewrite Z.mod_pow2_bits_low by lia.
  rewrite shiftl1_pow2 by lia. destruct v.
  - rewrite Z.lor_spec, Z.pow2_bits_eqb by lia. case_decide; subst.
    + rewrite Z.eqb_refl. apply orb_true_r.
    + replace (k =? j) with false by lia. apply orb_false_r.
  - rewrite Z.land_spec, Z.lnot_spec, Z.pow2_bits_eqb by lia. case_decide; subst.
    + rewrite Z.eqb_refl. apply andb_false_r.
    + replace (k =? j) with false by lia. apply andb_true_r.
Qed.

Lemma put_bit_page s i v j :
  bitmap_ok s → 0 ≤ i < total_pages s → 0 ≤ j →
  page_bit (set_bitmap (put_bit s i v) s) j = if decide (j = i) then v else page_bit s j.
Proof.
  intros Hok Hi Hj. destruct (byte_index s i Hok Hi) as (b & Hb & Hr).
  unfold page_bit, put_bit. rewrite Hb. cbn [bitmap set_bitmap].
  pose proof (Z.mod_pos_bound i 8 ltac:(lia)). pose proof (Z.mod_pos_bound j 8 ltac:(lia)).
  destruct (decide (i / 8 = j / 8)) as [He|Hne].
  - rewrite <- He, zlookup_zinsert_eq by (by eapply zlookup_Some).
    rewrite byte_put_testbit, Hb by lia.
    pose proof (Z.div_mod i 8). pose proof (Z.div_mod j 8).
    repeat case_decide; try done; lia.
  - rewrite zlookup_zinsert_ne by done. case_decide; [subst; done|done].
Qed.

Lemma put_bit_ok s i v : bitmap_ok s → bitmap_ok (set_bitmap (put_bit s i v) s).
Proof.
  intros [Hb Hl Ht Hm]. unfold put_bit.
  destruct (zlookup (bitmap s) (i / 8)) as [b|] eqn:E; [|by constructor].
  constructor; cbn; try done.
  - intros j c. destruct (decide (i / 8 = j)) as [<-|].
    + rewrite zlookup_zinsert_eq by (by eapply zlookup_Some). intros [= <-]. apply u8_range.
    + rewrite zlookup_zinsert_ne by done. apply Hb.
  - by rewrite zlen_zinsert.
Qed.

Lemma bit_set_eq s i :
  bitmap_ok s → 0 ≤ i < total_pages s → bit_set i s = Ok (tt, set_bitmap (put_bit s i true) s).
Proof.
  intros Hok Hi. destruct (byte_index s i Hok Hi) as (b & Hb & _).
  unfold bit_set, put_bit. rewrite (bind_ok _ _ _ _ _ (load_byte_ok _ _ _ Hb)), Hb. done.
Qed.

Lemma bit_unset_eq s i :
  bitmap_ok s → 0 ≤ i < total_pages s → bit_unset i s = Ok (tt, set_bitmap (put_bit s i false) s).
Proof.
  intros Hok Hi. destruct (byte_index s i Hok Hi) as (b & Hb & _).
  unfold bit_unset, put_bit. rewrite (bind_ok _ _ _ _ _ (load_byte_ok _ _ _ Hb)), Hb. done.
Qed.

Lemma free_set_busy s i :
  bitmap_ok s → 0 ≤ i < total_pages s →
  free_set (set_bitmap (put_bit s i true) s) = free_set s ∖ {[i]}.
Proof.
  intros Hok Hi. apply set_eq. intros j.
  rewrite elem_of_difference, !free_set_spec, elem_of_singleton. cbn [total_pages set_bitmap].
  destruct (decide (0 ≤ j)); [|naive_solver lia]. rewrite put_bit_page by done.
  case_decide; naive_solver.
Qed.

Lemma free_set_free s i :
  bitmap_ok s → 0 ≤ i < total_pages s →
  free_set (set_bitmap (put_bit s i false) s) = {[i]} ∪ free_set s.
Proof.
  intros Hok Hi. apply set_eq. intros j.
  rewrite elem_of_union, !free_set_spec, elem_of_singleton. cbn [total_pages set_bitmap].
  destruct (decide (0 ≤ j)); [|naive_solver lia]. rewrite put_bit_page by done.
  case_decide; naive_solver.
Qed.

(** The free set only reads the bitmap and its length in pages. *)
Lemma free_set_ext s s' :
  bitmap s = bitmap s' → total_pages s = total_pages s' → free_set s = free_set s'.
Proof. unfold free_set, free_list, page_bit. by intros -> ->. Qed.

Lemma bitmap_ok_ext s s' :
  bitmap s = bitmap s' → bitmap_size s = bitmap_size s' → total_pages s = total_pages s' →
  bitmap_ok s → bitmap_ok s'.
Proof. intros Hb Hs Ht [? ? ? ?]. constructor; rewrite <- ?Hb, <- ?Hs, <- ?Ht; done. Qed.

Lemma free_set_range s i : i ∈ free_set s → 0 ≤ i < total_pages s.
Proof. rewrite free_set_spec. tauto. Qed.

Lemma free_set_bound s : 0 ≤ total_pages s → Z.of_nat (size (free_set s)) ≤ total_pages s.
Proof.
  intros Ht. assert (free_set s ⊆ list_to_set (seqZ 0 (total_pages s))) as H%subseteq_size.
  { intros i Hi%free_set_range. rewrite elem_of_list_to_set, elem_of_seqZ. lia. }
  rewrite size_list_to_set, length_seqZ in H by apply NoDup_seqZ. lia.
Qed.

Lemma size_remove (X : gset Z) i : i ∈ X → Z.of_nat (size (X ∖ {[i]})) = Z.of_nat (size X) - 1.
Proof.
  intros Hi. rewrite size_difference, size_singleton by set_solver.
  assert (size X ≠ 0%nat); [|lia]. intros H%size_empty_inv. set_solver.
Qed.
Lemma size_add (X : gset Z) i : i ∉ X → Z.of_nat (size ({[i]} ∪ X)) = Z.of_nat (size X) + 1.
Proof. intros Hi. rewrite size_union, size_singleton by set_solver. lia. Qed.

(** * Effect of one allocation or release on the invariant *)

Definition taken (s : pmm_st) (k : Z) : pmm_st :=
  set_last_free_index (k + 1) (set_free_pages (free_pages s - 1) (set_bitmap (put_bit s k true) s)).

Definition released (s : pmm_st) (k : Z) : pmm_st :=
  set_free_pages (free_pages s + 1) (set_bitmap (put_bit s k false) s).

Lemma free_pages_bound s : pmm_ok s → 0 ≤ free_pages s ≤ total_pages s.
Proof.
  intros [Hb -> _ _]. pose proof (free_set_bound s). destruct (bm_total s Hb). lia.
Qed.

Lemma free_pages_pos s i : pmm_ok s → i ∈ free_set s → 1 ≤ free_pages s.
Proof. intros [_ -> _ _] Hi. pose proof (size_remove _ _ Hi). lia. Qed.

Lemma taken_free_set s k : pmm_ok s → k ∈ free_set s → free_set (taken s k) = free_set s ∖ {[k]}.
Proof.
  intros Hok Hk. rewrite <- free_set_busy by (apply Hok || by apply free_set_range).
  by apply free_set_ext.
Qed.

Lemma taken_ok s k : pmm_ok s → k ∈ free_set s → pmm_ok (taken s k).
Proof.
  intros Hok Hk. pose proof (free_set_range _ _ Hk).
  constructor.
  - eapply bitmap_ok_ext, (put_bit_ok s k true), Hok; done.
  - rewrite taken_free_set, size_remove by done. cbn. by rewrite (pmm_count s Hok).
  - cbn. lia.
  - rewrite taken_free_set by done. pose proof (pmm_zero_busy s Hok). set_solver.
Qed.

Lemma released_free_set s k :
  pmm_ok s → 0 ≤ k < total_pages s → free_set (released s k) = {[k]} ∪ free_set s.
Proof.
  intros Hok Hk. rewrite <- free_set_free by (done || apply Hok). by apply free_set_ext.
Qed.

Lemma released_ok s k :
  pmm_ok s → 0 < k < total_pages s → k ∉ free_set s → pmm_ok (released s k).
Proof.
  intros Hok Hk Hnf. constructor.
  - eapply bitmap_ok_ext, (put_bit_ok s k false), Hok; done.
  - rewrite released_free_set, size_add by (done || lia). cbn. by rewrite (pmm_count s Hok).
  - cbn. apply Hok.
  - rewrite released_free_set by (done || lia). pose proof (pmm_zero_busy s Hok).
    rewrite elem_of_union, elem_of_singleton. intros [?|?]; [lia|done].
Qed.

Lemma cursor_ok s i : pmm_ok s → 0 ≤ i ≤ total_pages s → pmm_ok (set_last_free_index i s).
Proof.
  intros Hok Hi. constructor; [|rewrite (free_set_ext _ s) by done; apply Hok|done|apply Hok].
  eapply bitmap_ok_ext, Hok; done.
Qed.

Lemma trace_ok e s : pmm_ok s → pmm_ok (push_event e s).
Proof.
  intros Hok. constructor; [|rewrite (free_set_ext _ s) by done; apply Hok|apply Hok|apply Hok].
  eapply bitmap_ok_ext, Hok; done.
Qed.

Lemma push_free_set e s : free_set (push_event e s) = free_set s.
Proof. by apply free_set_ext. Qed.

(** * The search loops *)

Lemma busy_dec s i : 0 ≤ i < total_pages s → page_bit s i = true ↔ i ∉ free_set s.
Proof. intros Hi. rewrite free_set_spec. destruct (page_bit s i); naive_solver. Qed.

Definition scan_post (s : pmm_st) (i hi : Z) (r : option Z) (s' : pmm_st) : Prop :=
  match r with
  | None => s' = s ∧ ∀ j, i ≤ j < hi → j ∉ free_set s
  | Some pa => ∃ k, i ≤ k < hi ∧ k ∈ free_set s ∧ (∀ j, j ∈ free_set s → i ≤ j → k ≤ j)
                  ∧ pa = pgidx2pa k ∧ s' = taken s k
  end.

Lemma pmm_scan_spec s n i :
  pmm_ok s → 0 ≤ i → i + Z.of_nat n ≤ total_pages s →
  wp (pmm_scan n i) s (scan_post s i (i + Z.of_nat n)).
Proof.
  intros Hok. revert i. induction n as [|n IH]; intros i Hi Hn; simpl pmm_scan.
  { apply wp_ret. split; [done|]. intros. lia. }
  apply wp_bind. eapply wp_ok; [apply bit_test_ok; [apply Hok|lia]|].
  destruct (page_bit s i) eqn:E.
  - assert (Hib : i ∉ free_set s) by (apply busy_dec; [lia|done]).
    eapply wp_mono; [apply (IH (i + 1)); lia|]. intros [pa|] s'; simpl.
    + intros (k & ? & ? & Hmin & ? & ?). exists k. repeat split; try done; try lia.
      intros j Hj ?. apply Hmin; [done|]. assert (j ≠ i) by naive_solver. lia.
    + intros [-> Hno]. split; [done|]. intros j Hj.
      destruct (decide (j = i)) as [->|]; [done|]. apply Hno. lia.
  - assert (Hif : i ∈ free_set s) by (apply free_set_spec; split; [lia|done]).
    apply wp_bind. eapply wp_ok; [apply bit_set_eq; [apply Hok|lia]|].
    wp_go. pose proof (free_pages_pos s i Hok Hif). pose proof (free_pages_bound s Hok).
    pose proof (bm_max s (pmm_bitmap_ok s Hok)). unfold MAX_PAGES in *.
    exists i. repeat split; try done; try lia. unfold taken. cbn [free_pages set_bitmap].
    rewrite !u64_small by lia. done.
Qed.

(** * [pmm_alloc_page] and [pmm_free_page] *)

(** The complete behaviour of the allocator: it answers 0 and changes nothing
    but the trace exactly when no frame is free. *)
Definition alloc_post (s : pmm_st) (pa : Z) (s' : pmm_st) : Prop :=
  (free_set s = ∅ ∧ pa = 0 ∧ ∃ e, s' = push_event e s)
  ∨ (∃ k, next_fit (free_set s) (last_free_index s) k ∧ pa = k * PAGE_SIZE ∧ s' = taken s k).

Lemma pmm_alloc_page_wp s : pmm_ok s → wp pmm_alloc_page s (alloc_post s).
Proof.
  intros Hok. unfold pmm_alloc_page. wp_go. pose proof (free_pages_bound s Hok) as Hfb.
  pose proof (pmm_cursor s Hok) as Hcur. pose proof (bm_max s (pmm_bitmap_ok s Hok)) as Hmax.
  unfold MAX_PAGES in Hmax.
  destruct (Z.eqb_spec (free_pages s) 0) as [H0|H0].
  { wp_go. left. repeat split; [|by eexists].
    rewrite (pmm_count s Hok) in H0. apply leibniz_equiv, size_empty_inv. lia. }
  wp_go. eapply wp_mono; [apply pmm_scan_spec; [done|lia|lia]|].
  intros [pa|] s1; cbn [scan_post].
  - intros (k & Hk & Hkf & Hmin & -> & ->). wp_go. right. exists k.
    repeat split; [done| |apply pgidx2pa_small; lia]. left. split; [lia|naive_solver].
  - intros [-> Hnone]. wp_go. eapply wp_mono; [apply pmm_scan_spec; [done|lia|lia]|].
    intros [pa|] s2; cbn [scan_post].
    + intros (k & Hk & Hkf & Hmin & -> & ->). wp_go. right. exists k.
      repeat split; [done| |apply pgidx2pa_small; lia]. right. split; [lia|].
      intros j Hj. pose proof (free_set_range _ _ Hj).
      destruct (decide (j < last_free_index s)); [naive_solver lia|].
      exfalso. apply (Hnone j); [lia|done].
    + intros [-> Hnone']. exfalso. rewrite (pmm_count s Hok) in H0.
      assert (size (free_set s) ≠ 0%nat) as Hne by lia.
      apply Hne, size_empty_iff, leibniz_equiv_iff, set_eq. intros j.
      split; [|set_solver]. intros Hj. pose proof (free_set_range _ _ Hj).
      destruct (decide (j < last_free_index s)); [apply (Hnone' j) in Hj|apply (Hnone j) in Hj];
        try done; lia.
Qed.

Definition free_post (s : pmm_st) (pa : Z) (s' : pmm_st) : Prop :=
  let k := pa2pgidx pa in
  (k < total_pages s ∧ (k ∉ free_set s)
   ∧ s' = set_last_free_index (Z.min k (last_free_index s)) (released s k))
  ∨ ((¬ (k < total_pages s ∧ k ∉ free_set s)) ∧ ∃ e, s' = push_event e s).

Lemma pmm_free_page_wp s pa : pmm_ok s → 0 ≤ pa → wp (pmm_free_page pa) s (λ _, free_post s pa).
Proof.
  intros Hok Hpa. unfold pmm_free_page, free_post. wp_go. set (k := pa2pgidx pa).
  assert (0 ≤ k) by (apply Z.div_pos; [done|unfold PAGE_SIZE; lia]).
  pose proof (free_pages_bound s Hok). pose proof (bm_max s (pmm_bitmap_ok s Hok)) as Hmax.
  unfold MAX_PAGES in Hmax.
  destruct (Z.leb_spec (total_pages s) k) as [Hk|Hk].
  { wp_go. right. split; [lia|by eexists]. }
  wp_go. eapply wp_ok; [apply bit_test_ok; [apply Hok|lia]|].
  destruct (page_bit s k) eqn:E; simpl.
  - assert (k ∉ free_set s) by (apply busy_dec; [lia|done]).
    apply wp_bind. eapply wp_ok; [apply bit_unset_eq; [apply Hok|lia]|]. wp_go.
    rewrite u64_small by lia. destruct (Z.ltb_spec k (last_free_index s)).
    + wp_go. left. by rewrite Z.min_l by lia.
    + wp_go. left. rewrite Z.min_r by lia. by destruct s.
  - assert (k ∈ free_set s) by (apply free_set_spec; split; [lia|done]).
    wp_go. right. split; [naive_solver|by eexists].
Qed.

(** * Marking ranges *)

Definition counted (s : pmm_st) : Prop :=
  bitmap_ok s ∧ free_pages s = Z.of_nat (size (free_set s)).

Definition page_range (lo n : Z) : gset Z := list_to_set (seqZ lo n).

Lemma elem_of_page_range i lo n : i ∈ page_range lo n ↔ lo ≤ i < lo + n.
Proof. unfold page_range. rewrite elem_of_list_to_set, elem_of_seqZ. done. Qed.

Lemma page_range_0 lo : page_range lo 0 = ∅.
Proof. apply set_eq. intros i. rewrite elem_of_page_range. set_solver by lia. Qed.

Lemma page_range_S lo n : 0 ≤ n → page_range lo (n + 1) = {[lo + n]} ∪ page_range lo n.
Proof.
  intros Hn. apply set_eq. intros i.
  rewrite elem_of_union, elem_of_singleton, !elem_of_page_range. lia.
Qed.

(** What a range operation leaves alone. *)
Definition same_but_bits (s s' : pmm_st) : Prop :=
  same_geometry s s' ∧ last_free_index s' = last_free_index s ∧ pmm_trace s' = pmm_trace s.

Lemma counted_bound s : counted s → 0 ≤ free_pages s < 2 ^ 64.
Proof.
  intros [Hb ->]. pose proof (free_set_bound s). destruct (bm_total s Hb).
  pose proof (bm_max s Hb). unfold MAX_PAGES in *. lia.
Qed.

(** Writing one bit and adjusting the counter keeps the count right. *)
Lemma counted_put s k v n :
  counted s → 0 ≤ k < total_pages s → page_bit s k = negb v →
  n = (if v then free_pages s - 1 else free_pages s + 1) →
  let s' := set_free_pages n (set_bitmap (put_bit s k v) s) in
  counted s' ∧ same_but_bits s s'
  ∧ free_set s' = (if v then free_set s ∖ {[k]} else {[k]} ∪ free_set s).
Proof.
  intros [Hb Hc] Hk Hp -> s'.
  assert (free_set s' = if v then free_set s ∖ {[k]} else {[k]} ∪ free_set s) as Hfs.
  { destruct v; [rewrite <- free_set_busy by done|rewrite <- free_set_free by done];
      by apply free_set_ext. }
  split; [|by split]. split.
  - eapply bitmap_ok_ext, (put_bit_ok s k v), Hb; done.
  - rewrite Hfs. cbn [s' free_pages set_free_pages]. destruct v; rewrite Hc.
    + rewrite size_remove; [done|]. by apply free_set_spec.
    + rewrite size_add; [done|]. rewrite free_set_spec, Hp. naive_solver.
Qed.

Lemma same_but_bits_refl s : same_but_bits s s.
Proof. by repeat split. Qed.
Lemma same_but_bits_trans s1 s2 s3 : same_but_bits s1 s2 → same_but_bits s2 s3 → same_but_bits s1 s3.
Proof. unfold same_but_bits, same_geometry. naive_solver congruence. Qed.

(** Both range operations, [v] being the bit written: either the bound check
    refuses the whole range, or every frame of it gets the bit. *)
Definition set_range_post (v : bool) (s : pmm_st) (pa n : Z) (s' : pmm_st) : Prop :=
  counted s' ∧ same_but_bits s s'
  ∧ free_set s' =
      if total_pages s <=? pa2pgidx pa + n then free_set s
      else if v then free_set s ∖ page_range (pa2pgidx pa) n
      else page_range (pa2pgidx pa) n ∪ free_set s.

Definition set_range (v : bool) : Z → Z → M pmm_st unit :=
  if v then pmm_set_busy else pmm_set_free.

Lemma set_range_wp v s pa n :
  counted s → 0 ≤ pa → 0 ≤ n → pa2pgidx pa + n < 2 ^ 64 →
  wp (set_range v pa n) s (λ _, set_range_post v s pa n).
Proof.
  intros Hok Hpa Hn Hsum. set (k := pa2pgidx pa) in *.
  assert (0 ≤ k) by (apply Z.div_pos; [done|unfold PAGE_SIZE; lia]).
  unfold set_range_post. fold k.
  assert (∀ body : Z → M pmm_st unit,
    (∀ j s', 0 ≤ j < n → k + n < total_pages s → counted s' → total_pages s' = total_pages s →
       wp (body j) s' (λ _ s'', counted s'' ∧ same_but_bits s' s''
         ∧ free_set s'' = if v then free_set s' ∖ {[k + j]} else {[k + j]} ∪ free_set s')) →
    wp (if total_pages s <=? u64 (k + n) then mret tt else for_n (Z.to_nat n) 0 body) s
       (λ _ s', counted s' ∧ same_but_bits s s' ∧ free_set s' =
         if total_pages s <=? k + n then free_set s
         else if v then free_set s ∖ page_range k n else page_range k n ∪ free_set s)) as Hloop.
  { intros body Hbody. rewrite u64_small by lia.
    destruct (Z.leb_spec (total_pages s) (k + n)).
    { apply wp_ret. split; [done|]. split; [apply same_but_bits_refl|done]. }
    eapply wp_mono; [apply (wp_for_n (λ j s', counted s' ∧ same_but_bits s s'
      ∧ free_set s' = if v then free_set s ∖ page_range k j else page_range k j ∪ free_set s))|].
    - split; [done|]. split; [apply same_but_bits_refl|]. rewrite page_range_0.
      destruct v; apply set_eq; set_solver.
    - intros j s' Hj (Hc & Hs & Hf). eapply wp_mono; [apply Hbody; [lia|lia|done|apply Hs]|].
      simpl. intros _ s'' (Hc' & Hs' & Hf'). split; [done|].
      split; [by eapply same_but_bits_trans|].
      rewrite Hf', Hf, page_range_S by lia. destruct v; apply set_eq; set_solver.
    - simpl. intros _ s'. by replace (0 + Z.of_nat (Z.to_nat n)) with n by lia. }
  destruct v; unfold set_range, pmm_set_busy, pmm_set_free; wp_go; apply Hloop;
    intros j s' Hj Hlt Hc Ht; pose proof (counted_bound s' Hc);
    (apply wp_bind; eapply wp_ok; [apply bit_test_ok; [apply Hc|lia]|]);
    fold k; destruct (page_bit s' (k + j)) eqn:E.
  - apply wp_ret. split; [done|]. split; [apply same_but_bits_refl|].
    assert (k + j ∉ free_set s') by (rewrite free_set_spec, E; naive_solver). set_solver.
  - apply wp_bind. eapply wp_ok; [apply bit_set_eq; [apply Hc|lia]|]. apply wp_modify.
    apply (counted_put s' (k + j) true); [done|lia|done|]. simpl.
    apply u64_small. assert (k + j ∈ free_set s') as Hin%size_remove
      by (apply free_set_spec; split; [lia|done]). destruct Hc as [_ Hc]. lia.
  - apply wp_bind. eapply wp_ok; [apply bit_unset_eq; [apply Hc|lia]|]. apply wp_modify.
    apply (counted_put s' (k + j) false); [done|lia|done|]. simpl.
    destruct Hc as [Hb Hc]. pose proof (free_set_bound s'). pose proof (bm_total s' Hb).
    pose proof (bm_max s' Hb). unfold MAX_PAGES in *. apply u64_small. lia.
  - apply wp_ret. split; [done|]. split; [apply same_but_bits_refl|].
    assert (k + j ∈ free_set s') by (apply free_set_spec; split; [lia|done]). set_solver.
Qed.

(** * Initialisation *)

(** The frames one memory-map entry contributes once the bound check of
    [pmm_set_free] has been applied. *)
Definition entry_start (e : memmap_entry) : Z := ALIGN_UP (base e) PAGE_SIZE / PAGE_SIZE.
Definition entry_stop (e : memmap_entry) : Z := ALIGN_DOWN (base e + length_ e) PAGE_SIZE / PAGE_SIZE.
Definition usable_pages (total : Z) (e : memmap_entry) : gset Z :=
  if (type_ e =? LIMINE_MEMMAP_USABLE) && (entry_stop e <? total)
  then page_range (entry_start e) (entry_stop e - entry_start e) else ∅.
Definition mmap_pages (total : Z) (mmap : list memmap_entry) : gset Z :=
  ⋃ (usable_pages total <$> mmap).

(** Entries lie in the 52-bit physical address space. *)
Definition valid_entry (e : memmap_entry) : Prop :=
  0 ≤ base e ∧ 0 ≤ length_ e ∧ base e + length_ e + PAGE_SIZE ≤ 2 ^ 52.

Lemma page_div_exact a : a mod PAGE_SIZE = 0 → a = a / PAGE_SIZE * PAGE_SIZE.
Proof. intros. pose proof (Z.div_mod a PAGE_SIZE). unfold PAGE_SIZE in *. lia. Qed.

Lemma free_entry_wp e s :
  valid_entry e → counted s →
  wp (free_entry e) s (λ _ s', counted s' ∧ same_geometry s s'
    ∧ last_free_index s' = last_free_index s
    ∧ free_set s' = usable_pages (total_pages s) e ∪ free_set s).
Proof.
  intros (Hb & Hl & He) Hc. unfold free_entry, usable_pages.
  destruct (type_ e =? LIMINE_MEMMAP_USABLE); simpl andb.
  2: { apply wp_ret. do 3 (split; [done|]). set_solver. }
  destruct (page_align_up (base e) Hb) as [Hum Hur]; [unfold PAGE_SIZE in *; lia|].
  destruct (page_align_down (base e + length_ e)) as [Hdm Hdr]; [lia|].
  rewrite u64_small by (unfold PAGE_SIZE in *; lia). cbv zeta.
  set (st := ALIGN_UP (base e) PAGE_SIZE) in *.
  set (en := ALIGN_DOWN (base e + length_ e) PAGE_SIZE) in *.
  assert (Hst := page_div_exact _ Hum). assert (Hen := page_div_exact _ Hdm).
  assert (entry_start e = st / PAGE_SIZE) as -> by done.
  assert (entry_stop e = en / PAGE_SIZE) as -> by done.
  set (a := st / PAGE_SIZE) in *. set (b := en / PAGE_SIZE) in *. unfold PAGE_SIZE in *.
  destruct (Z.leb_spec en st).
  { apply wp_ret. do 3 (split; [done|]). rewrite <- (union_empty_l_L (free_set s)) at 1.
    f_equal. destruct (b <? total_pages s); [|done]. apply set_eq. intros i.
    rewrite elem_of_page_range. set_solver by lia. }
  assert ((en - st) / 4096 = b - a) as -> by (rewrite Hst, Hen, <- Z.mul_sub_distr_r; by apply Z.div_mul).
  apply wp_bind. eapply wp_mono; [apply (set_range_wp false); [done|lia| |]|].
  - lia.
  - unfold pa2pgidx, PAGE_SIZE. fold a. lia.
  - unfold set_range_post, pa2pgidx, PAGE_SIZE. fold a. intros _ s' (Hc' & (Hg & Hlast & _) & Hf).
    wp_go. destruct Hc' as [Hbm Hcnt]. split; [split|].
    + eapply bitmap_ok_ext, Hbm; done.
    + by rewrite push_free_set.
    + split; [done|]. split; [done|]. rewrite push_free_set, Hf.
      replace (a + (b - a)) with b by lia.
      destruct (Z.leb_spec (total_pages s) b), (Z.ltb_spec b (total_pages s)); try lia; set_solver.
Qed.

Lemma free_entries_wp mmap s :
  Forall valid_entry mmap → counted s →
  wp (free_entries mmap) s (λ _ s', counted s' ∧ same_geometry s s'
    ∧ last_free_index s' = last_free_index s
    ∧ free_set s' = mmap_pages (total_pages s) mmap ∪ free_set s).
Proof.
  intros Hv. revert s. induction Hv as [|e mmap He Hv IH]; intros s Hc; simpl free_entries.
  { apply wp_ret. do 3 (split; [done|]). unfold mmap_pages. set_solver. }
  eapply wp_bind_mono; [by apply free_entry_wp|]. intros _ s1 (Hc1 & Hg1 & Hl1 & Hf1).
  eapply wp_mono; [by apply IH|]. simpl. intros _ s2 (Hc2 & Hg2 & Hl2 & Hf2).
  destruct Hg1 as (Ht1 & ? & ?), Hg2 as (Ht2 & ? & ?).
  split; [done|]. split; [repeat split; congruence|]. split; [congruence|].
  rewrite Hf2, Hf1, Ht1. unfold mmap_pages. set_solver.
Qed.

(** A bitmap filled with 0xFF marks every frame busy. *)
Lemma all_busy va size total last tr :
  0 ≤ total ≤ 8 * size → total ≤ MAX_PAGES →
  let s := PmmSt (replicate (Z.to_nat size) 0xFF) va size total 0 last tr in
  counted s ∧ free_set s = ∅.
Proof.
  intros Ht Hm s. assert (free_set s = ∅) as Hf.
  { apply set_eq. intros i. rewrite free_set_spec. split; [|set_solver]. intros [Hi Hp].
    unfold page_bit in Hp. cbn in Hp, Hi. rewrite zlookup_replicate in Hp
      by (split; [apply Z.div_pos; lia|apply Z.div_lt_upper_bound; lia]).
    pose proof (Z.mod_pos_bound i 8 ltac:(lia)).
    assert (Z.testbit (Z.ones 8) (i mod 8) = true) as Hb by (apply Z.ones_spec_low; lia).
    change (Z.ones 8) with 255 in Hb. congruence. }
  split; [|done]. split; [constructor; cbn|by rewrite Hf]; try done.
  - intros i b. unfold zlookup. case_decide; [|done]. intros [-> _]%lookup_replicate. lia.
  - unfold zlen. rewrite length_replicate. lia.
Qed.

Lemma highest_address_bound mmap : Forall valid_entry mmap → 0 ≤ highest_address mmap ≤ 2 ^ 52 - PAGE_SIZE.
Proof.
  intros Hv. unfold highest_address. set (f := λ hi e, _).
  assert (∀ acc, 0 ≤ acc ≤ 2 ^ 52 - PAGE_SIZE → 0 ≤ foldl f acc mmap ≤ 2 ^ 52 - PAGE_SIZE) as H;
    [|apply H; unfold PAGE_SIZE; lia].
  induction Hv as [|e mmap He Hv IH]; intros acc Hacc; [done|].
  simpl. apply IH. destruct He as (? & ? & ?). unfold f, entry_end, PAGE_SIZE in *.
  rewrite u64_small by lia. destruct (Z.ltb_spec acc (base e + length_ e)); lia.
Qed.

Lemma bitmap_bytes_bound total : 0 ≤ total → total ≤ 8 * bitmap_bytes total < total + 8.
Proof.
  intros. unfold bitmap_bytes. pose proof (Z.div_mod total 8). pose proof (Z.mod_pos_bound total 8).
  destruct (Z.eqb_spec (total mod 8) 0); lia.
Qed.

Lemma bitmap_page_count_bound size :
  0 ≤ size → size ≤ 2 ^ 40 →
  0 ≤ bitmap_page_count size ∧ size ≤ bitmap_page_count size * PAGE_SIZE < size + PAGE_SIZE.
Proof.
  intros. unfold bitmap_page_count. destruct (page_align_up size) as [Hm Hr];
    [done|unfold PAGE_SIZE; lia|]. apply page_div_exact in Hm.
  split; [apply Z.div_pos; unfold PAGE_SIZE in *; lia|lia].
Qed.

Lemma find_bitmap_pa_in mmap size :
  find_bitmap_pa mmap size ≠ 0 → ∃ e, e ∈ mmap ∧ type_ e = LIMINE_MEMMAP_USABLE
    ∧ base e = find_bitmap_pa mmap size ∧ u64 (bitmap_page_count size * PAGE_SIZE) ≤ length_ e.
Proof.
  induction mmap as [|e mmap IH]; simpl; [done|].
  destruct (_ && _) eqn:E.
  - intros _. apply andb_true_iff in E as [[E1 E2]%andb_true_iff E3].
    exists e. repeat split; [set_solver|lia|lia].
  - intros (e' & Hin & ?)%IH. exists e'. set_solver.
Qed.

(** The frames [pmm_init] reserves for the bitmap (when they lie below the top
    frame, see [set_range_post]). *)
Definition bitmap_frames (mmap : list memmap_entry) : gset Z :=
  let total := highest_address mmap / PAGE_SIZE in
  let size := bitmap_bytes total in
  let lo := find_bitmap_pa mmap size / PAGE_SIZE in
  if total <=? lo + bitmap_page_count size then ∅ else page_range lo (bitmap_page_count size).

Definition boot_free_set (mmap : list memmap_entry) : gset Z :=
  (mmap_pages (highest_address mmap / PAGE_SIZE) mmap ∖ bitmap_frames mmap) ∖ {[0]}.

Lemma mmap_pages_elem total mmap i :
  i ∈ mmap_pages total mmap ↔ ∃ e, e ∈ mmap ∧ i ∈ usable_pages total e.
Proof.
  unfold mmap_pages. rewrite elem_of_union_list. setoid_rewrite list_elem_of_fmap.
  naive_solver.
Qed.

Lemma mmap_pages_bound total mmap i :
  Forall valid_entry mmap → i ∈ mmap_pages total mmap → 0 ≤ i < total - 1.
Proof.
  rewrite Forall_forall. intros Hv (e & He & Hi)%mmap_pages_elem. destruct (Hv e He) as (Hb & ? & ?).
  unfold usable_pages in Hi. destruct (_ && _) eqn:E; [|set_solver].
  apply andb_true_iff in E as [_ E%Z.ltb_lt]. apply elem_of_page_range in Hi.
  assert (0 ≤ entry_start e); [|lia]. unfold entry_start.
  destruct (page_align_up (base e)) as [_ ?]; [done|unfold PAGE_SIZE in *; lia|].
  apply Z.div_pos; unfold PAGE_SIZE in *; lia.
Qed.

Lemma boot_sets (P B : gset Z) (total : Z) (c : bool) :
  (∀ i, i ∈ P → 0 ≤ i < total - 1) →
  (if total <=? 1 then (if c then P ∪ ∅ else (P ∪ ∅) ∖ B)
   else (if c then P ∪ ∅ else (P ∪ ∅) ∖ B) ∖ {[0]}) = (P ∖ (if c then ∅ else B)) ∖ {[0]}.
Proof.
  intros HP. destruct (Z.leb_spec total 1).
  - assert (P = ∅) as ->; [|destruct c; set_solver].
    apply set_eq. intros i. split; [|set_solver]. intros Hi%HP. lia.
  - destruct c; set_solver.
Qed.

Lemma pmm_init_wp HHDM mmap s :
  Forall valid_entry mmap →
  find_bitmap_pa mmap (bitmap_bytes (highest_address mmap / PAGE_SIZE)) ≠ 0 →
  free_pages s = 0 → last_free_index s = 0 →
  wp (pmm_init HHDM mmap) s (λ _ s', pmm_ok s' ∧ free_set s' = boot_free_set mmap
    ∧ total_pages s' = highest_address mmap / PAGE_SIZE).
Proof.
  intros Hv Hbm Hfree Hlast. pose proof (highest_address_bound mmap Hv) as Hhi.
  unfold pmm_init, boot_free_set, bitmap_frames. set (total := highest_address mmap / PAGE_SIZE) in *.
  assert (0 ≤ total < MAX_PAGES) as Htotal.
  { unfold total, MAX_PAGES, PAGE_SIZE in *. split; [apply Z.div_pos; lia|apply Z.div_lt_upper_bound; lia]. }
  set (size := bitmap_bytes total) in *. pose proof (bitmap_bytes_bound total ltac:(lia)) as Hsz.
  fold size in Hsz. set (bpa := find_bitmap_pa mmap size) in *.
  destruct (bitmap_page_count_bound size) as [Hn0 Hn]; [unfold MAX_PAGES in *; lia..|].
  set (n := bitmap_page_count size) in *.
  destruct (find_bitmap_pa_in mmap size Hbm) as (e & He & _ & Hbase & Hlen).
  assert (valid_entry e) as (Hb0 & Hl0 & Hbl) by by eapply Forall_forall in Hv.
  fold bpa n in Hbase, Hlen. unfold MAX_PAGES, PAGE_SIZE in *.
  wp_go. destruct (Z.eqb_spec bpa 0); [done|]. wp_go.
  edestruct (all_busy (u64 (bpa + HHDM)) size total 0) as [Hc0 Hf0]; [lia|unfold MAX_PAGES; lia|].
  unfold set_bitmap, push_event; cbn. rewrite Hfree, Hlast.
  eapply wp_mono; [apply free_entries_wp; [done|exact Hc0]|].
  intros _ s1 (Hc1 & (Ht1 & _) & Hl1 & Hf1). cbn in Ht1, Hl1. rewrite Hf0 in Hf1. cbn in Hf1.
  assert (0 ≤ pa2pgidx bpa < 2 ^ 40) as Hbp.
  { unfold pa2pgidx, PAGE_SIZE. split; [apply Z.div_pos; lia|apply Z.div_lt_upper_bound; lia]. }
  apply wp_bind. eapply wp_mono; [apply (set_range_wp true); [done|lia|lia|lia]|].
  intros _ s2 (Hc2 & ((Ht2 & _) & Hl2 & _) & Hf2). wp_go.
  eapply wp_mono; [apply (set_range_wp true); [|lia|lia|by vm_compute]|].
  { destruct Hc2 as [Hb2 Hcn2]. split; [eapply bitmap_ok_ext, Hb2; done|by rewrite push_free_set]. }
  intros _ s3 (Hc3 & ((Ht3 & _) & Hl3 & _) & Hf3). wp_go.
  rewrite push_free_set in Hf3. change (total_pages (push_event _ s2)) with (total_pages s2) in *.
  change (last_free_index (push_event _ s2)) with (last_free_index s2) in *.
  rewrite push_free_set. rewrite Ht1 in Ht2. rewrite Ht2 in Ht3, Hf3. rewrite Ht1 in Hf2.
  change (pa2pgidx 0 + 1) with 1 in Hf3. change (pa2pgidx 0) with 0 in Hf3.
  assert (page_range 0 1 = {[0]}) as E01 by (apply set_eq; intros i; rewrite elem_of_page_range; set_solver by lia).
  rewrite E01 in Hf3. unfold pa2pgidx, PAGE_SIZE in Hf2.
  assert (free_set s3 = (mmap_pages total mmap ∖
    (if total <=? bpa / 4096 + n then ∅ else page_range (bpa / 4096) n)) ∖ {[0]}) as Hfin.
  { rewrite Hf3, Hf2, Hf1. apply boot_sets. intros i Hi. by eapply mmap_pages_bound. }
  split; [|done]. apply trace_ok. constructor; [apply Hc3|apply Hc3|lia|set_solver].
Qed.

(** * The interface's laws *)

Lemma pmm_alloc_frames s :
  pmm_ok s → wp pmm_alloc_page s (λ pa s', pmm_ok s' ∧ total_pages s' = total_pages s ∧
    ((pa = 0 ∧ free_set s = ∅ ∧ free_set s' = ∅) ∨
     (∃ k, k ∈ free_set s ∧ pa = k * PAGE_SIZE ∧ free_set s' = free_set s ∖ {[k]}))).
Proof.
  intros Hok. eapply wp_mono; [by apply pmm_alloc_page_wp|].
  intros pa s' [(Hf & -> & e & ->)|(k & [Hk _] & -> & ->)].
  - split; [by apply trace_ok|]. split; [done|]. left. by rewrite push_free_set.
  - split; [by apply taken_ok|]. split; [done|]. right. exists k. by rewrite taken_free_set.
Qed.

Lemma pmm_free_frames s k :
  pmm_ok s → 0 < k < total_pages s → k ∉ free_set s →
  wp (pmm_free_page (k * PAGE_SIZE)) s (λ _ s', pmm_ok s' ∧ total_pages s' = total_pages s ∧
    free_set s' = {[k]} ∪ free_set s).
Proof.
  intros Hok Hk Hnf. eapply wp_mono; [apply pmm_free_page_wp; [done|unfold PAGE_SIZE; lia]|].
  assert (pa2pgidx (k * PAGE_SIZE) = k) as E by (by apply Z.div_mul).
  cbn beta. intros _ s'. unfold free_post. rewrite E. intros [(_ & _ & ->)|[Hn _]]; [|naive_solver lia].
  pose proof (pmm_cursor s Hok).
  split; [apply cursor_ok; [by apply released_ok|cbn; lia]|]. split; [done|].
  rewrite <- released_free_set by (done || lia). by apply free_set_ext.
Qed.

Lemma pmm_free_range s k : pmm_ok s → k ∈ free_set s → 0 < k < total_pages s.
Proof.
  intros Hok Hk. pose proof (free_set_range _ _ Hk).
  assert (k ≠ 0) by (intros ->; by destruct (pmm_zero_busy s Hok)). lia.
Qed.
Lemma pmm_width s : pmm_ok s → total_pages s ≤ 2 ^ 40.
Proof. intros Hok. apply (bm_max s), Hok. Qed.
Lemma push_total_pages e s : total_pages (push_event e s) = total_pages s.
Proof. done. Qed.

#[export] Instance pmm_frames : FrameAlloc pmm_st := {|
  fa_alloc := pmm_alloc_page;
  fa_free := pmm_free_page;
  fa_ok := pmm_ok;
  fa_free_set := free_set;
  fa_frames := total_pages;
  fa_range := pmm_free_range;
  fa_width := pmm_width;
  fa_trace_ok := trace_ok;
  fa_trace_set := push_free_set;
  fa_trace_frames := push_total_pages;
  fa_alloc_spec := pmm_alloc_frames;
  fa_free_spec := pmm_free_frames
|}.

(** * Deciding the invariant *)

Definition pmm_okb (s : pmm_st) : bool :=
  forallb (λ b, (0 <=? b) && (b <? 256)) (bitmap s)
  && (zlen (bitmap s) =? bitmap_size s)
  && (0 <=? total_pages s) && (total_pages s <=? 8 * bitmap_size s)
  && (total_pages s <=? 2 ^ 40)
  && (free_pages s =? Z.of_nat (length (free_list s)))
  && (0 <=? last_free_index s) && (last_free_index s <=? total_pages s)
  && (page_bit s 0 || (total_pages s <=? 0)).

Lemma size_free_set s : size (free_set s) = length (free_list s).
Proof.
  unfold free_set. apply size_list_to_set. apply NoDup_filter, NoDup_seqZ.
Qed.

Lemma pmm_okb_sound s : pmm_okb s = true → pmm_ok s.
Proof.
  unfold pmm_okb. rewrite !andb_true_iff. intros ((((((((Hb & Hl) & Ht) & Ht8) & Hm) & Hc) & H0) & H1) & Hz).
  rewrite forallb_forall in Hb. constructor.
  - constructor; [|lia|lia|unfold MAX_PAGES; lia]. intros i b Hi.
    assert (In b (bitmap s)) as Hin%Hb; [|lia]. apply list_elem_of_In.
    unfold zlookup in Hi. case_decide; [|done]. by eapply list_elem_of_lookup_2.
  - rewrite size_free_set. lia.
  - lia.
  - rewrite free_set_spec. apply orb_true_iff in Hz as [Hz|Hz]; [rewrite Hz; naive_solver|lia].
Qed.

(** * Properties *)

(** A small machine: 16 frames, of which 1, 2, 3 and 9 are free. *)
Definition pmm_example : pmm_st := PmmSt [0xF1; 0xFD] 0 2 16 4 3 [].

(** C30: from any consistent allocator state, [pmm_alloc_page] never faults,
    keeps the allocator consistent, and implements next-fit on the abstract set
    of free frames: it answers 0 exactly when no frame is free, and otherwise
    the address of the first free frame at or after the cursor (wrapping to the
    lowest one), which leaves the free set and moves the cursor behind it. *)
Theorem pmm_alloc_page_next_fit s :
  pmm_ok s →
  wp pmm_alloc_page s (λ pa s',
    pmm_ok s' ∧ same_geometry s s' ∧
    ((free_set s = ∅ ∧ pa = 0 ∧ free_set s' = ∅)
     ∨ ∃ k, next_fit (free_set s) (last_free_index s) k ∧ pa = k * PAGE_SIZE ∧ pa ≠ 0
          ∧ free_set s' = free_set s ∖ {[k]} ∧ last_free_index s' = k + 1)).
Proof.
  intros Hok. eapply wp_mono; [by apply pmm_alloc_page_wp|].
  intros pa s' [(Hf & -> & e & ->)|(k & Hk & -> & ->)].
  - split; [by apply trace_ok|]. split; [done|]. left. by rewrite push_free_set.
  - destruct (Hk) as [Hin _]. pose proof (pmm_free_range _ _ Hok Hin).
    split; [by apply taken_ok|]. split; [done|]. right. exists k.
    rewrite taken_free_set by done. repeat split; try apply Hk. unfold PAGE_SIZE. lia.
Qed.

Lemma pmm_alloc_page_next_fit_witness :
  pmm_ok pmm_example ∧ ∃ s', pmm_alloc_page pmm_example = Ok (3 * PAGE_SIZE, s') ∧ pmm_ok s'.
Proof.
  assert (pmm_ok pmm_example) as Hok by (by apply pmm_okb_sound; vm_compute). split; [done|].
  destruct (wp_inv _ _ _ (pmm_alloc_page_next_fit pmm_example Hok)) as (pa & s' & E & Hs' & _).
  exists s'. split; [|done]. rewrite E. vm_compute in E. injection E as E1 E2. by rewrite <- E1.
Defined.

(** C31: [pmm_free_page] on every branch: an address past the managed frames and
    a frame that is already free change nothing but the console; any other
    frame joins the free set, the counter follows, and the cursor rewinds to it
    when it lies below. *)
Theorem pmm_free_page_behaviour s pa :
  pmm_ok s → 0 ≤ pa →
  wp (pmm_free_page pa) s (λ _ s',
    let k := pa2pgidx pa in
    same_geometry s s' ∧
    if decide (k < total_pages s ∧ k ∉ free_set s)
    then free_set s' = {[k]} ∪ free_set s ∧ free_pages s' = free_pages s + 1
         ∧ last_free_index s' = Z.min k (last_free_index s) ∧ (0 < k → pmm_ok s')
    else (∃ e, s' = push_event e s) ∧ pmm_ok s').
Proof.
  intros Hok Hpa. eapply wp_mono; [by apply pmm_free_page_wp|]. cbn beta. intros _ s'.
  unfold free_post. set (k := pa2pgidx pa). intros [(Hk & Hnf & ->)|(Hn & e & ->)].
  - assert (0 ≤ k) by (apply Z.div_pos; [done|unfold PAGE_SIZE; lia]).
    split; [done|]. rewrite decide_True by done.
    rewrite (free_set_ext _ (released s k)), released_free_set by done.
    do 3 (split; [done|]). intros ?. pose proof (pmm_cursor s Hok).
    apply cursor_ok; [apply released_ok; [done|lia|done]|cbn; lia].
  - split; [done|]. rewrite decide_False by done. split; [by eexists|by apply trace_ok].
Qed.

Lemma pmm_free_page_behaviour_witness :
  pmm_ok pmm_example ∧
  ∃ s', pmm_free_page (2 * PAGE_SIZE) pmm_example = Ok (tt, s') ∧ free_set s' = free_set pmm_example.
Proof.
  assert (pmm_ok pmm_example) as Hok by (by apply pmm_okb_sound; vm_compute). split; [done|].
  destruct (wp_inv _ _ _ (pmm_free_page_behaviour pmm_example (2 * PAGE_SIZE) Hok ltac:(done)))
    as ([] & s' & E & _ & Hs').
  exists s'. split; [done|]. cbv zeta in Hs'. rewrite decide_False in Hs'; [|by apply (bool_decide_unpack _); vm_compute].
  destruct Hs' as [[e ->] _]. apply push_free_set.
Defined.

(** Allocating a frame, freeing it and allocating again gives the same
    frame: the release restores the free set and the rewound cursor makes the
    next search start there. *)
Theorem pmm_alloc_free_alloc s pa s1 :
  pmm_ok s → pmm_alloc_page s = Ok (pa, s1) → pa ≠ 0 →
  wp (_ ← pmm_free_page pa; pmm_alloc_page) s1 (λ pa' s2,
    pa' = pa ∧ pmm_ok s2 ∧ free_set s2 = free_set s1).
Proof.
  intros Hok E Hpa. pose proof (pmm_alloc_page_wp s Hok) as H. unfold wp in H. rewrite E in H.
  destruct H as [(_ & -> & _)|(k & [Hk _] & -> & ->)]; [done|].
  pose proof (pmm_free_range _ _ Hok Hk). pose proof (taken_ok _ _ Hok Hk) as Hok1.
  assert (k ∉ free_set (taken s k)) as Hnk by (rewrite taken_free_set by done; set_solver).
  apply wp_bind. eapply wp_mono; [apply pmm_free_page_wp; [done|unfold PAGE_SIZE; lia]|].
  cbn beta. intros _ s3. unfold free_post.
  assert (pa2pgidx (k * PAGE_SIZE) = k) as Ek by (by apply Z.div_mul). rewrite Ek.
  intros [(_ & _ & ->)|[Hn _]]; [|cbn in Hn; naive_solver lia].
  assert (pmm_ok (released (taken s k) k)) as Hok2 by (apply released_ok; [done|cbn; lia|done]).
  cbn [taken last_free_index set_last_free_index]. rewrite Z.min_l by lia. fold (taken s k).
  assert (pmm_ok (set_last_free_index k (released (taken s k) k))) as Hok3
    by (apply cursor_ok; [done|cbn; lia]).
  assert (free_set (set_last_free_index k (released (taken s k) k)) = {[k]} ∪ free_set (taken s k)) as Hf.
  { rewrite <- released_free_set by (done || (cbn; lia)). by apply free_set_ext. }
  eapply wp_mono; [by apply pmm_alloc_page_wp|]. intros pa' s2 [(He & _)|(k' & Hnf & -> & ->)].
  { rewrite Hf in He. set_solver. }
  rewrite Hf in Hnf. cbn [last_free_index set_last_free_index] in Hnf.
  assert (k' = k) as ->.
  { destruct Hnf as [_ [[Hle Hmin]|[_ Hmin]]].
    - specialize (Hmin k). set_solver by lia.
    - specialize (Hmin k). set_solver by lia. }
  split; [done|]. assert (k ∈ free_set (set_last_free_index k (released (taken s k) k))) as Hin
    by (rewrite Hf; set_solver).
  split; [by apply taken_ok|]. rewrite taken_free_set, Hf by done. set_solver.
Qed.

Lemma pmm_alloc_free_alloc_witness :
  ∃ s1 s2, pmm_alloc_page pmm_example = Ok (3 * PAGE_SIZE, s1)
    ∧ (_ ← pmm_free_page (3 * PAGE_SIZE); pmm_alloc_page) s1 = Ok (3 * PAGE_SIZE, s2).
Proof.
  assert (pmm_ok pmm_example) as Hok by (by apply pmm_okb_sound; vm_compute).
  destruct (pmm_alloc_page pmm_example) as [[pa s1]|f] eqn:E; [|by vm_compute in E].
  assert (pa = 3 * PAGE_SIZE) as -> by (vm_compute in E; injection E as <- _; done).
  destruct (wp_inv _ _ _ (pmm_alloc_free_alloc pmm_example _ s1 Hok E ltac:(done)))
    as (pa' & s2 & E2 & -> & _).
  by exists s1, s2.
Defined.

(** ** Histories *)

(** Clients that only free frames they own: the state of the allocator
    together with the set of frames handed out and not yet returned. *)
Inductive pmm_step : pmm_st * gset Z → pmm_st * gset Z → Prop :=
  | step_alloc s L k s' :
      pmm_alloc_page s = Ok (k * PAGE_SIZE, s') → k ≠ 0 →
      pmm_step (s, L) (s', {[k]} ∪ L)
  | step_oom s L s' : pmm_alloc_page s = Ok (0, s') → pmm_step (s, L) (s', L)
  | step_free s L k s' :
      k ∈ L → pmm_free_page (k * PAGE_SIZE) s = Ok (tt, s') → pmm_step (s, L) (s', L ∖ {[k]}).

Definition live_ok (s0 : pmm_st) (c : pmm_st * gset Z) : Prop :=
  pmm_ok c.1 ∧ total_pages c.1 = total_pages s0 ∧ c.2 ∪ free_set c.1 = free_set s0
  ∧ c.2 ## free_set c.1.

Lemma live_ok_step s0 c c' : pmm_ok s0 → live_ok s0 c → pmm_step c c' → live_ok s0 c'.
Proof.
  intros Hok0 (Hok & Ht & Hu & Hd) Hstep. destruct Hstep as [s L k s' E Hk|s L s' E|s L k s' Hin E]; simpl in *.
  - pose proof (pmm_alloc_frames s Hok) as H. unfold wp in H. rewrite E in H.
    destruct H as (? & ? & [[H0 _]|(k' & Hf & Ek & Hf')]); [unfold PAGE_SIZE in *; lia|].
    assert (k' = k) as -> by (unfold PAGE_SIZE in *; lia).
    split; [done|]. split; [by etrans|]. simpl. rewrite Hf'. split; [|set_solver].
    rewrite <- Hu. apply set_eq. intros i. destruct (decide (i = k)); set_solver.
  - pose proof (pmm_alloc_frames s Hok) as H. unfold wp in H. rewrite E in H.
    destruct H as (? & ? & [(_ & Hf & Hf')|(k' & Hf & Ek & _)]).
    + split; [done|]. split; [by etrans|]. simpl. by rewrite Hf', <- Hf.
    + pose proof (pmm_free_range s k' Hok Hf). unfold PAGE_SIZE in *. lia.
  - assert (k ∈ free_set s0) as Hr by (rewrite <- Hu; set_solver).
    apply (pmm_free_range s0 k Hok0) in Hr.
    pose proof (pmm_free_frames s k Hok ltac:(lia) ltac:(set_solver)) as H.
    unfold wp in H. rewrite E in H. destruct H as (? & ? & Hf).
    split; [done|]. split; [by etrans|]. simpl. rewrite Hf. split; [|set_solver].
    rewrite <- Hu. apply set_eq. intros i. destruct (decide (i = k)); set_solver.
Qed.

Lemma live_ok_steps s0 c c' : pmm_ok s0 → live_ok s0 c → rtc pmm_step c c' → live_ok s0 c'.
Proof. intros Hok Hc Hs. induction Hs; [done|]. eauto using live_ok_step. Qed.

(** C2: in every history of allocations and releases by clients that free only
    what they own, the allocator stays consistent, frames in use and free
    frames always partition the initial free set (nothing leaks, nothing is
    counted twice), and the next frame handed out is owned by nobody. *)
Theorem pmm_no_double_allocation s0 s L :
  pmm_ok s0 → rtc pmm_step (s0, ∅) (s, L) →
  pmm_ok s
  ∧ L ∪ free_set s = free_set s0 ∧ L ## free_set s
  ∧ free_pages s + Z.of_nat (size L) = free_pages s0
  ∧ ∀ pa s', pmm_alloc_page s = Ok (pa, s') → pa2pgidx pa ∉ L.
Proof.
  intros Hok Hs. destruct (live_ok_steps s0 (s0, ∅) (s, L) Hok) as (Hok' & Ht & Hu & Hd); [|done|].
  { split; [done|]. split; [done|]. split; set_solver. }
  simpl in *. split; [done|]. split; [done|]. split; [done|]. split.
  - rewrite (pmm_count s Hok'), (pmm_count s0 Hok), <- Hu, size_union by done. lia.
  - intros pa s' E. pose proof (pmm_alloc_frames s Hok') as H. unfold wp in H. rewrite E in H.
    destruct H as (_ & _ & [(-> & _)|(k & Hf & -> & _)]).
    + change (pa2pgidx 0) with 0. intros H0.
      assert (0 ∈ free_set s0) as Hz by (rewrite <- Hu; set_solver). by apply (pmm_zero_busy s0 Hok).
    + assert (pa2pgidx (k * PAGE_SIZE) = k) as -> by (by apply Z.div_mul). set_solver.
Qed.

Lemma pmm_no_double_allocation_witness :
  ∃ s, rtc pmm_step (pmm_example, ∅) (s, {[3]} ∪ ∅) ∧ 3 ∉ free_set s.
Proof.
  assert (pmm_ok pmm_example) as Hok by (by apply pmm_okb_sound; vm_compute).
  destruct (pmm_alloc_page pmm_example) as [[pa s1]|f] eqn:E; [|by vm_compute in E].
  assert (pa = 3 * PAGE_SIZE) as -> by (vm_compute in E; injection E as <- _; done).
  assert (rtc pmm_step (pmm_example, ∅) (s1, {[3]} ∪ ∅)) as Hs.
  { eapply rtc_l; [by apply step_alloc|apply rtc_refl]. }
  exists s1. split; [done|].
  destruct (pmm_no_double_allocation pmm_example s1 _ Hok Hs) as (_ & _ & Hd & _). set_solver.
Defined.

(** ** Boot *)

(** C32: [pmm_init] on a boot-time state and a memory map inside the 52-bit
    address space that has room for the bitmap: it does not fault, it leaves a
    consistent allocator, and a frame is free exactly when it is not frame 0, lies
    in a usable entry that the bound check of [pmm_set_free] accepts, and is not
    one of the frames reserved for the bitmap. *)
Theorem pmm_init_establishes HHDM mmap s :
  Forall valid_entry mmap →
  find_bitmap_pa mmap (bitmap_bytes (highest_address mmap / PAGE_SIZE)) ≠ 0 →
  free_pages s = 0 → last_free_index s = 0 →
  wp (pmm_init HHDM mmap) s (λ _ s', pmm_ok s' ∧
    ∀ i, i ∈ free_set s' ↔ i ≠ 0 ∧ (i ∉ bitmap_frames mmap)
      ∧ ∃ e, e ∈ mmap ∧ i ∈ usable_pages (highest_address mmap / PAGE_SIZE) e).
Proof.
  intros Hv Hb Hf Hl. eapply wp_mono; [by apply pmm_init_wp|]. cbn beta.
  intros _ s' (Hok & Hfs & _). split; [done|]. intros i. rewrite Hfs. unfold boot_free_set.
  rewrite !elem_of_difference, elem_of_singleton, mmap_pages_elem. tauto.
Qed.

(** A PC with 64 frames: usable memory in frames 1-31 and 40-47, reserved above. *)
Definition mmap_example : list memmap_entry :=
  [MemmapEntry 4096 126976 0; MemmapEntry 131072 32768 1; MemmapEntry 163840 32768 0;
   MemmapEntry 196608 65536 1].
Definition pmm_boot : pmm_st := PmmSt [] 0 0 0 0 0 [].

Lemma mmap_example_valid : Forall valid_entry mmap_example.
Proof. repeat constructor; simpl; unfold PAGE_SIZE; lia. Qed.

Lemma pmm_init_establishes_witness :
  ∃ s', pmm_init KERNEL_HHDM_BASE mmap_example pmm_boot = Ok (tt, s') ∧ pmm_ok s' ∧ 47 ∈ free_set s'.
Proof.
  destruct (wp_inv _ _ _ (pmm_init_establishes KERNEL_HHDM_BASE mmap_example pmm_boot
    mmap_example_valid ltac:(by vm_compute) eq_refl eq_refl)) as ([] & s' & E & Hok & Hs).
  exists s'. split; [done|]. split; [done|]. apply Hs. split; [done|]. split.
  - by apply (bool_decide_unpack _); vm_compute.
  - exists (MemmapEntry 163840 32768 0). split; [by apply (list_elem_of_lookup_2 _ 2)|].
    by apply (bool_decide_unpack _); vm_compute.
Defined.

(** What the boot protocol documents of usable entries: page aligned, and
    overlapping no other entry. *)
Definition usable_aligned (mmap : list memmap_entry) : Prop :=
  ∀ e, e ∈ mmap → type_ e = LIMINE_MEMMAP_USABLE →
    base e mod PAGE_SIZE = 0 ∧ length_ e mod PAGE_SIZE = 0.
Definition usable_disjoint (mmap : list memmap_entry) : Prop :=
  ∀ e e', e ∈ mmap → e' ∈ mmap → type_ e = LIMINE_MEMMAP_USABLE → type_ e' = LIMINE_MEMMAP_USABLE →
    e = e' ∨ base e + length_ e ≤ base e' ∨ base e' + length_ e' ≤ base e.

Lemma entry_frames_aligned e :
  valid_entry e → base e mod PAGE_SIZE = 0 → length_ e mod PAGE_SIZE = 0 →
  entry_start e * PAGE_SIZE = base e ∧ entry_stop e * PAGE_SIZE = base e + length_ e.
Proof.
  intros (Hb & Hl & He) Hmb Hml. unfold entry_start, entry_stop.
  destruct (page_align_up (base e) Hb) as [Hum Hur]; [unfold PAGE_SIZE in *; lia|].
  destruct (page_align_down (base e + length_ e)) as [Hdm Hdr]; [lia|].
  apply page_div_exact in Hum, Hdm, Hmb, Hml. unfold PAGE_SIZE in *. lia.
Qed.

(** C33: the bitmap protects itself: no frame that holds a byte of the bitmap is
    ever in the free set after [pmm_init], whether or not the bound check let
    its region in. *)
Theorem pmm_init_keeps_bitmap HHDM mmap s i :
  Forall valid_entry mmap → usable_aligned mmap → usable_disjoint mmap →
  let size := bitmap_bytes (highest_address mmap / PAGE_SIZE) in
  let bpa := find_bitmap_pa mmap size in
  bpa ≠ 0 → free_pages s = 0 → last_free_index s = 0 →
  bpa ≤ i * PAGE_SIZE + (PAGE_SIZE - 1) → i * PAGE_SIZE < bpa + size →
  wp (pmm_init HHDM mmap) s (λ _ s', i ∉ free_set s').
Proof.
  intros Hv Ha Hd size bpa Hne Hf Hl Hlo Hhi. eapply wp_mono; [by apply pmm_init_wp|].
  cbn beta. intros _ s' (_ & -> & _). unfold boot_free_set, bitmap_frames. fold size bpa.
  set (total := highest_address mmap / PAGE_SIZE) in *.
  rewrite !elem_of_difference, mmap_pages_elem. intros [[(e' & He' & Hi) Hnb] _].
  destruct (find_bitmap_pa_in mmap size Hne) as (e & He & Hty & Hbase & Hlen). fold bpa in Hbase.
  assert (valid_entry e) as Hve by by eapply Forall_forall in Hv.
  destruct (entry_frames_aligned e Hve) as [Hes Het]; [by apply Ha..|].
  pose proof (highest_address_bound mmap Hv) as Hb.
  assert (0 ≤ total < 2 ^ 40) as Htot by (unfold total, PAGE_SIZE in *;
    split; [apply Z.div_pos; lia|apply Z.div_lt_upper_bound; lia]).
  pose proof (bitmap_bytes_bound total ltac:(lia)) as Hsz. fold size in Hsz.
  destruct (bitmap_page_count_bound size) as [Hn0 Hn]; [lia..|].
  rewrite u64_small in Hlen by (unfold PAGE_SIZE in *; lia).
  assert (bpa / PAGE_SIZE = entry_start e) as Est by (rewrite <- Hbase, <- Hes; by apply Z.div_mul).
  rewrite Est in Hnb. set (n := bitmap_page_count size) in *.
  assert (entry_start e ≤ i < entry_start e + n) as Hr by (unfold PAGE_SIZE in *; lia).
  destruct (Z.leb_spec total (entry_start e + n)) as [Hle|Hgt];
    [|by apply Hnb, elem_of_page_range].
  unfold usable_pages in Hi. destruct (_ && _) eqn:E; [|set_solver].
  apply andb_true_iff in E as [Ety%Z.eqb_eq Estop%Z.ltb_lt]. apply elem_of_page_range in Hi.
  assert (valid_entry e') as Hve' by by eapply Forall_forall in Hv.
  destruct (entry_frames_aligned e' Hve') as [Hes' Het']; [by apply Ha..|].
  destruct (Hd e e') as [<-|Hdis]; [done..| |]; unfold PAGE_SIZE in *; lia.
Qed.

Lemma pmm_init_keeps_bitmap_witness :
  ∃ s', pmm_init KERNEL_HHDM_BASE mmap_example pmm_boot = Ok (tt, s') ∧ 1 ∉ free_set s'.
Proof.
  destruct (wp_inv _ _ _ (pmm_init_keeps_bitmap KERNEL_HHDM_BASE mmap_example pmm_boot 1
    mmap_example_valid
    ltac:(intros e He _; unfold mmap_example in He; set_unfold in He; naive_solver)
    ltac:(intros e e' He He' T T'; unfold mmap_example in *; set_unfold in He; set_unfold in He';
          destruct_or!; subst; simpl in *; (done || (left; done) || (right; lia)))
    ltac:(by vm_compute) eq_refl eq_refl ltac:(by vm_compute) ltac:(by vm_compute)))
    as ([] & s' & E & Hs).
  exists s'. exact (conj E Hs).
Defined.

(** The bound check is off by one: on a machine whose memory map ends with a
    usable region, that whole region (here 31 of 32 frames) is lost, although
    every frame of it is below [total_pages]. *)
Theorem pmm_init_loses_top_region :
  let mmap := [MemmapEntry 4096 4096 0; MemmapEntry 8192 122880 0] in
  ∃ s', pmm_init KERNEL_HHDM_BASE mmap pmm_boot = Ok (tt, s')
    ∧ total_pages s' = 32 ∧ free_pages s' = 0 ∧ ∀ i, 2 ≤ i < 32 → page_bit s' i = true.
Proof.
  eexists. split; [by vm_compute|]. split; [done|]. split; [done|].
  intros i Hi. assert (i ∈ seqZ 2 30) as Hin by (apply elem_of_seqZ; lia). revert i Hi Hin.
  assert (Forall (λ i, page_bit (PmmSt [255; 255; 255; 255] 0 4 32 0 0 []) i = true) (seqZ 2 30)) as HF
    by (apply (bool_decide_unpack _); by vm_compute).
  rewrite Forall_forall in HF. intros i _ Hin. by apply HF.
Qed.
