(* ===== verification/Paging.v ===== *)
(** Paging: the four-level page tables of [kernel/src/mm/paging.c] and
    [mm/paging.h].  Page tables live in physical frames that the kernel reaches
    through the direct map at [HHDM_OFFSET]; the state holds their words by
    kernel virtual address, next to the frame allocator the tables come from
    (any [FrameAlloc], [Pmm] in the kernel). *)
From S2P Require Import Prelude Layout Frames Pmm.

(** * Entries (paging.h) *)

Definition PTE_PRESENT : Z := Z.shiftl 1 0.
Definition PTE_RW : Z := Z.shiftl 1 1.
Definition PTE_USER : Z := Z.shiftl 1 2.
Definition PTE_ADDR_MASK : Z := 0x000FFFFFFFFFF000.
Definition PTE_GET_ADDR (pte : Z) : Z := Z.land pte PTE_ADDR_MASK.
Definition PTE_GET_FLAGS (pte : Z) : Z := Z.land pte (Z.lnot PTE_ADDR_MASK).

Definition PML4_IDX (va : Z) : Z := Z.land (Z.shiftr va 39) 0x1FF.
Definition PDPT_IDX (va : Z) : Z := Z.land (Z.shiftr va 30) 0x1FF.
Definition PD_IDX (va : Z) : Z := Z.land (Z.shiftr va 21) 0x1FF.
Definition PT_IDX (va : Z) : Z := Z.land (Z.shiftr va 12) 0x1FF.
Definition OFFSET (va : Z) : Z := Z.land va 0xFFF.

(** [*entry & PTE_PRESENT] as a condition. *)
Definition pte_present (pte : Z) : bool := negb (Z.land pte PTE_PRESENT =? 0).

(** * State *)

Record pg_st (A : Type) := PgSt {
  pg_alloc : A;
  pg_mem : gmap Z Z;
  kernel_pml4 : Z;
  pg_cr3 : Z
}.
Arguments PgSt {A} _ _ _ _.
Arguments pg_alloc {A} _.
Arguments pg_mem {A} _.
Arguments kernel_pml4 {A} _.
Arguments pg_cr3 {A} _.

Definition set_pg_alloc {A} (a : A) (s : pg_st A) : pg_st A :=
  PgSt a (pg_mem s) (kernel_pml4 s) (pg_cr3 s).
Definition set_pg_mem {A} (m : gmap Z Z) (s : pg_st A) : pg_st A :=
  PgSt (pg_alloc s) m (kernel_pml4 s) (pg_cr3 s).

#[export] Program Instance pg_traced {A} `{!Traced A} : Traced (pg_st A) := {|
  trace s := trace (pg_alloc s);
  push_event e s := set_pg_alloc (push_event e (pg_alloc s)) s
|}.
Next Obligation. intros. apply trace_push. Qed.

(** [&pgtable->entries[index]] *)
Definition slot (pgtable index : Z) : Z := u64 (pgtable + 8 * index).

Section paging.
  Context {A : Type} `{FA : FrameAlloc A}.
  Context (HHDM_OFFSET : Z).

(** Allocator operations on the paging state. *)
Definition on_alloc {R} (m : M A R) : M (pg_st A) R := zoom pg_alloc set_pg_alloc m.

Definition load (addr : Z) : M (pg_st A) Z :=
  mem ← gets pg_mem; or_crash PageFault (mem !! addr).
Definition store (addr w : Z) : M (pg_st A) unit :=
  modify (λ s, set_pg_mem (<[addr := w]> (pg_mem s)) s).

Definition pa2kva (pa : Z) : Z := u64 (pa + HHDM_OFFSET).

(** [memset(page, 0, PAGE_SIZE)] on a page table: its 512 words become 0. *)
Definition memset_page (va : Z) : M (pg_st A) unit :=
  for_n 512 0 (λ i, store (slot va i) 0).

Definition get_next_table (pgtable index : Z) (allocate : bool) (flags : Z) : M (pg_st A) Z :=
  let entry := slot pgtable index in
  e ← load entry;
  if pte_present e then
    let next_pa := PTE_GET_ADDR e in mret (pa2kva next_pa)
  else if allocate then
    newpg_pa ← on_alloc fa_alloc;
    if newpg_pa =? 0 then
      kprintln "Panic:OOM when allocating page table!";; mret 0
    else
      let newpg_va := pa2kva newpg_pa in
      memset_page newpg_va;;
      store entry (Z.lor newpg_pa flags);;
      mret newpg_va
  else mret 0.

Definition vmm_map_page (pml4 va pa flags : Z) : M (pg_st A) unit :=
  let idx4 := PML4_IDX va in
  let idx3 := PDPT_IDX va in
  let idx2 := PD_IDX va in
  let idx1 := PT_IDX va in
  pdpt ← get_next_table pml4 idx4 true flags;
  if pdpt =? 0 then mret tt else
  pd ← get_next_table pdpt idx3 true flags;
  if pd =? 0 then mret tt else
  pt ← get_next_table pd idx2 true flags;
  if pt =? 0 then mret tt else
  store (slot pt idx1) (Z.lor (Z.lor pa flags) PTE_PRESENT);;
  emit (EvInvlpg va).

(** A pointer to the entry, 0 (NULL) when a level is missing. *)
Definition vmm_get_pte (pml4 va : Z) : M (pg_st A) Z :=
  let idx4 := PML4_IDX va in
  let idx3 := PDPT_IDX va in
  let idx2 := PD_IDX va in
  let idx1 := PT_IDX va in
  pdpt ← get_next_table pml4 idx4 false 0;
  if pdpt =? 0 then mret 0 else
  pd ← get_next_table pdpt idx3 false 0;
  if pd =? 0 then mret 0 else
  pt ← get_next_table pd idx2 false 0;
  if pt =? 0 then mret 0 else
  mret (slot pt idx1).

(** [level] is 4 for the PML4, of which only the user half is visited. *)
Fixpoint user_pgtable_free_recursive (pgtable : Z) (level : nat) : M (pg_st A) unit :=
  let limit := if (level =? 4)%nat then 256%nat else 512%nat in
  for_n limit 0 (λ i,
    entry ← load (slot pgtable i);
    if pte_present entry then
      (match level with
       | S (S _ as level') =>
         let next_pa := PTE_GET_ADDR entry in
         user_pgtable_free_recursive (pa2kva next_pa) level'
       | _ => mret tt
       end);;
      let pa := PTE_GET_ADDR entry in
      on_alloc (fa_free pa)
    else mret tt).

(** * Kernel address space *)

(** [for (p = start; p < stop; p += PAGE_SIZE) body(p)] for page-aligned bounds. *)
Definition for_pages (start stop : Z) (body : Z → M (pg_st A) unit) : M (pg_st A) unit :=
  for_n (Z.to_nat ((stop - start + (PAGE_SIZE - 1)) / PAGE_SIZE)) 0 (λ j, body (start + j * PAGE_SIZE)).

Definition mapped_type (ty : Z) : bool :=
  (ty =? LIMINE_MEMMAP_USABLE) || (ty =? LIMINE_MEMMAP_EXECUTABLE_AND_MODULES)
  || (ty =? LIMINE_MEMMAP_BOOTLOADER_RECLAIMABLE) || (ty =? LIMINE_MEMMAP_FRAMEBUFFER).

(** Body of the memory-map loop: direct map, then identity map below 4 GiB. *)
Definition map_entry (pml4 : Z) (e : memmap_entry) : M (pg_st A) unit :=
  let identity_end := 0x100000000 in
  if mapped_type (type_ e) then
    let start := ALIGN_DOWN (base e) PAGE_SIZE in
    let end_ := ALIGN_UP (u64 (base e + length_ e)) PAGE_SIZE in
    kprintf "Mapping region: %lx - %lx\n" [KInt start; KInt end_];;
    for_pages start end_ (λ pa,
      vmm_map_page pml4 (u64 (pa + HHDM_OFFSET)) pa (Z.lor PTE_PRESENT PTE_RW));;
    if identity_end <=? start then mret tt else
    let end_ := if identity_end <? end_ then identity_end else end_ in
    for_pages start end_ (λ pa,
      vmm_map_page pml4 pa pa (Z.lor PTE_PRESENT PTE_RW))
  else mret tt.

Fixpoint map_entries (pml4 : Z) (mmap : list memmap_entry) : M (pg_st A) unit :=
  match mmap with
  | [] => mret tt
  | e :: rest => map_entry pml4 e;; map_entries pml4 rest
  end.

(** [kaddr] is the boot loader's answer to the executable-address request
    (virtual base, physical base), [k_start_va] and [k_end_va] the linker's
    [__kernel_start] and [__kernel_end]. *)
Definition paging_init (k_start_va k_end_va : Z) (kaddr : option (Z * Z)) (total_pages : Z)
    (mmap : list memmap_entry) : M (pg_st A) unit :=
  kprintln "===== Start init PAGING... =====";;
  pml4_pa ← on_alloc fa_alloc;
  if pml4_pa =? 0 then
    kprintln "Panic: Failed to allocate PML4!";; emit EvHlt;; crash Halted
  else
  let pml4 := pa2kva pml4_pa in
  modify (λ s, PgSt (pg_alloc s) (pg_mem s) pml4 (pg_cr3 s));;
  memset_page pml4;;
  kprintf "Kernel PML4 allocated at PA: %lx, VA: %lx\n" [KInt pml4_pa; KInt pml4];;
  let kernel_size := ALIGN_UP (u64 (k_end_va - k_start_va)) PAGE_SIZE in
  kprintf "Kernel Range: %lx - %lx (Size: %ld bytes)\n" [KInt k_start_va; KInt k_end_va; KInt kernel_size];;
  match kaddr with
  | None => kprintln "Panic: Failed to get kernel address!";; emit EvHlt;; crash Halted
  | Some (kva_base, kpa_base) =>
    for_pages 0 kernel_size (λ i,
      vmm_map_page pml4 (u64 (kva_base + i)) (u64 (kpa_base + i)) (Z.lor PTE_PRESENT PTE_RW));;
    kprintln "Kernel mapped...";;
    kprintf "Mapping HHDM: 0x0 - 0x%lx (total_pages=%ld)\n" [KInt (u64 (total_pages * PAGE_SIZE)); KInt total_pages];;
    map_entries pml4 mmap;;
    kprintln "HHDM mapped...";;
    modify (λ s, PgSt (pg_alloc s) (pg_mem s) (kernel_pml4 s) pml4_pa);;
    emit (EvLcr3 pml4_pa);;
    kprintln "===== PAGING Init Done! CR3 switched. ====="
  end.

(** * Specification: the hardware's walk *)

(** The table reached from table [t] along a list of indices. *)
Fixpoint walk (mem : gmap Z Z) (t : Z) (p : list Z) : option Z :=
  match p with
  | [] => Some t
  | i :: p' =>
    match mem !! slot t i with
    | Some e => if pte_present e then walk mem (pa2kva (PTE_GET_ADDR e)) p' else None
    | None => None
    end
  end.

(** The present leaf entry at index [i] of the page table reached along [p]. *)
Definition leaf (mem : gmap Z Z) (root : Z) (p : list Z) (i : Z) : option Z :=
  t ← walk mem root p; e ← mem !! slot t i; if pte_present e then Some e else None.

(** The three upper indices of a virtual address, and its translation: the
    present leaf entry the MMU ends in. *)
Definition va_path (va : Z) : list Z := [PML4_IDX va; PDPT_IDX va; PD_IDX va].
Definition translate (mem : gmap Z Z) (root va : Z) : option Z :=
  leaf mem root (va_path va) (PT_IDX va).

(** The entries on the way to the leaf of [va], as one path. *)
Definition slot_path (va : Z) : list Z := va_path va ++ [PT_IDX va].

(** Two addresses in the same 4 KiB page of the 48-bit space. *)
Definition same_page (va va' : Z) : Prop := va_path va = va_path va' ∧ PT_IDX va = PT_IDX va'.

Definition vidx (i : Z) : Prop := 0 ≤ i < 512.
Definition vpath (p : list Z) : Prop := Forall vidx p.

(** Address of frame [k] in the direct map. *)
Definition kva (k : Z) : Z := HHDM_OFFSET + k * PAGE_SIZE.

(** The direct map covers every frame without wrapping. *)
Definition hhdm_fits (a : A) : Prop := 0 < HHDM_OFFSET ∧ HHDM_OFFSET + fa_frames a * PAGE_SIZE ≤ 2 ^ 64.

(** Well-formed table tree below [root]: every table is an allocated frame
    with all its words in memory, and no table is reached along two paths. *)
Record pt_wf (s : pg_st A) (root : Z) : Prop := {
  wf_alloc : fa_ok (pg_alloc s);
  wf_hhdm : hhdm_fits (pg_alloc s);
  wf_table p t : vpath p → (length p ≤ 3)%nat → walk (pg_mem s) root p = Some t →
    ∃ k, fa_busy (pg_alloc s) k ∧ t = kva k ∧ ∀ i, vidx i → is_Some (pg_mem s !! slot t i);
  wf_inj p q t : vpath p → vpath q → (length p ≤ 3)%nat → (length q ≤ 3)%nat →
    walk (pg_mem s) root p = Some t → walk (pg_mem s) root q = Some t → p = q
}.

(** * Entries and slots *)

Lemma pte_present_bit e : pte_present e = Z.testbit e 0.
Proof. apply (land_pow2_nonzero e 0). lia. Qed.

Lemma addr_mask_bit j : 0 ≤ j → Z.testbit PTE_ADDR_MASK j = (12 <=? j) && (j <? 52).
Proof.
  intros Hj. change PTE_ADDR_MASK with (Z.shiftl (Z.ones 40) 12).
  rewrite Z.shiftl_spec, Z.testbit_ones by lia.
  destruct (Z.leb_spec 12 j), (Z.ltb_spec j 52), (Z.leb_spec 0 (j - 12)), (Z.ltb_spec (j - 12) 40);
    try done; lia.
Qed.

(** A page-aligned physical address survives being stored with flags. *)
Lemma pte_get_addr_lor k f :
  0 ≤ k < 2 ^ 40 → 0 ≤ f < PAGE_SIZE → PTE_GET_ADDR (Z.lor (k * PAGE_SIZE) f) = k * PAGE_SIZE.
Proof.
  unfold PAGE_SIZE. intros Hk Hf. apply Z.bits_inj'. intros j Hj. unfold PTE_GET_ADDR.
  rewrite Z.land_spec, Z.lor_spec, addr_mask_bit by done.
  replace (k * 4096) with (Z.shiftl k 12) by (rewrite Z.shiftl_mul_pow2; lia).
  rewrite Z.shiftl_spec by done.
  destruct (Z.leb_spec 12 j).
  - rewrite (testbit_small f 12) by lia. rewrite orb_false_r.
    destruct (Z.ltb_spec j 52); [apply andb_true_r|].
    rewrite (testbit_small k 40) by lia. done.
  - simpl. rewrite (Z.testbit_neg_r k) by lia. apply andb_false_r.
Qed.

Lemma pte_present_lor a f : pte_present (Z.lor a f) = pte_present a || pte_present f.
Proof. rewrite !pte_present_bit. apply Z.lor_spec. Qed.

Lemma idx_range x : vidx (Z.land x 0x1FF).
Proof. unfold vidx. change 0x1FF with (Z.ones 9). rewrite Z.land_ones by lia. by apply Z.mod_pos_bound. Qed.

Lemma va_path_valid va : vpath (va_path va).
Proof. unfold va_path. repeat constructor; apply idx_range. Qed.

Section fits.
  Context (a : A) (Hfit : hhdm_fits a).

Lemma kva_range k : 0 ≤ k < fa_frames a → 0 < kva k ∧ kva k + PAGE_SIZE ≤ 2 ^ 64.
Proof using Hfit. destruct Hfit. unfold kva, PAGE_SIZE in *. lia. Qed.

Lemma pa2kva_frame k : 0 ≤ k < fa_frames a → pa2kva (k * PAGE_SIZE) = kva k.
Proof using Hfit.
  intros Hk%kva_range. unfold pa2kva. rewrite Z.add_comm. apply u64_small. unfold kva, PAGE_SIZE in *. lia.
Qed.

Lemma slot_kva k i : 0 ≤ k < fa_frames a → vidx i → slot (kva k) i = kva k + 8 * i.
Proof using Hfit.
  intros Hk%kva_range Hi. unfold vidx in Hi. apply u64_small. unfold PAGE_SIZE in *. lia.
Qed.

Lemma slot_inj k k' i i' :
  0 ≤ k < fa_frames a → 0 ≤ k' < fa_frames a → vidx i → vidx i' →
  slot (kva k) i = slot (kva k') i' → k = k' ∧ i = i'.
Proof using Hfit.
  intros Hk Hk' Hi Hi'. rewrite !slot_kva by done. unfold vidx, kva, PAGE_SIZE in *. lia.
Qed.

Lemma kva_inj k k' : kva k = kva k' → k = k'.
Proof. unfold kva, PAGE_SIZE. lia. Qed.
End fits.

(** * Walks under memory updates *)

Lemma walk_app mem t p q : walk mem t (p ++ q) = walk mem t p ≫= λ t', walk mem t' q.
Proof.
  revert t. induction p as [|i p IH]; intros t; simpl; [done|].
  destruct (mem !! slot t i) as [e|]; [|done]. destruct (pte_present e); [apply IH|done].
Qed.

Lemma walk_snoc mem t p i :
  walk mem t (p ++ [i]) = walk mem t p ≫= λ t', walk mem t' [i].
Proof. apply walk_app. Qed.

Lemma walk_prefix mem t p q u : walk mem t (p ++ q) = Some u → ∃ v, walk mem t p = Some v.
Proof. rewrite walk_app. destruct (walk mem t p); naive_solver. Qed.

Lemma vpath_snoc p i : vpath (p ++ [i]) ↔ vpath p ∧ vidx i.
Proof. unfold vpath. rewrite Forall_app, Forall_singleton. done. Qed.

Lemma leaf_ext mem mem' root p i :
  walk mem' root p = walk mem root p →
  (∀ t, walk mem root p = Some t → mem' !! slot t i = mem !! slot t i) →
  leaf mem' root p i = leaf mem root p i.
Proof.
  intros Hw Ht. unfold leaf. rewrite Hw. destruct (walk mem root p) as [t|] eqn:E; [|done].
  simpl. by rewrite Ht.
Qed.

(** Writes outside every table of level 2 and above leave the walks alone. *)
Lemma walk_mem_ext mem mem' root :
  (∀ p t i, vpath p → (length p ≤ 2)%nat → vidx i → walk mem root p = Some t →
     mem' !! slot t i = mem !! slot t i) →
  ∀ p, vpath p → (length p ≤ 3)%nat → walk mem' root p = walk mem root p.
Proof.
  intros Hm p. induction p as [|i p IH] using rev_ind; [done|].
  rewrite vpath_snoc, length_app. intros [Hp Hi] Hl. simpl in Hl.
  rewrite !walk_snoc, IH by (done || lia).
  destruct (walk mem root p) as [t|] eqn:E; [|done]. simpl. rewrite (Hm p t i); [done|done|lia|done|done].
Qed.

(** Hanging an empty table under an absent entry adds exactly one path. *)
Lemma walk_new_table mem mem' root p0 t0 i0 new :
  walk mem root p0 = Some t0 → vidx i0 →
  (∀ e, mem !! slot t0 i0 = Some e → pte_present e = false) →
  walk mem' t0 [i0] = Some new →
  (∀ i, vidx i → mem' !! slot new i = Some 0) →
  (∀ p t i, vpath p → (length p ≤ 2)%nat → vidx i → (p, i) ≠ (p0, i0) → walk mem root p = Some t →
     mem' !! slot t i = mem !! slot t i) →
  ∀ p, vpath p → (length p ≤ 3)%nat →
    walk mem' root p = if decide (p = p0 ++ [i0]) then Some new else walk mem root p.
Proof.
  intros Hp0 Hi0 Habs Hnew Hzero Hm p. induction p as [|i p IH] using rev_ind.
  { intros _ _. rewrite decide_False; [done|]. by destruct p0. }
  rewrite vpath_snoc, length_app. intros [Hp Hi] Hl. simpl in Hl.
  rewrite !walk_snoc, IH by (done || lia).
  destruct (decide (p = p0 ++ [i0])) as [->|Hne].
  - rewrite decide_False by (intros [H _]%app_inj_tail; apply (f_equal length) in H;
      rewrite length_app in H; simpl in H; lia).
    rewrite walk_snoc, Hp0. simpl. rewrite Hzero by done. simpl.
    destruct (mem !! slot t0 i0) as [e|] eqn:E; [|done]. by rewrite (Habs e).
  - destruct (decide (p ++ [i] = p0 ++ [i0])) as [[-> ->]%app_inj_tail|Hne'].
    { by rewrite Hp0. }
    destruct (walk mem root p) as [t|] eqn:E; [|done]. simpl.
    rewrite (Hm p t i); [done|done|lia|done|naive_solver|done].
Qed.

(** * Primitive steps *)

Lemma load_wp addr s w (Q : Z → pg_st A → Prop) :
  pg_mem s !! addr = Some w → Q w s → wp (load addr) s Q.
Proof. intros Hm HQ. unfold load. wp_go. by eapply wp_or_crash. Qed.

(** What a change of memory contents leaves alone. *)
Definition same_but_mem (s s' : pg_st A) : Prop :=
  pg_alloc s' = pg_alloc s ∧ kernel_pml4 s' = kernel_pml4 s ∧ pg_cr3 s' = pg_cr3 s.

Definition cleared (va n : Z) (s s' : pg_st A) : Prop :=
  same_but_mem s s'
  ∧ (∀ i, 0 ≤ i < n → pg_mem s' !! slot va i = Some 0)
  ∧ (∀ addr, (∀ i, 0 ≤ i < n → addr ≠ slot va i) → pg_mem s' !! addr = pg_mem s !! addr).

Lemma memset_page_wp va s : wp (memset_page va) s (λ _ s', cleared va 512 s s').
Proof.
  unfold memset_page. eapply wp_mono; [apply (wp_for_n (λ j s', cleared va j s s'))|].
  - split; [done|]. split; [intros; lia|done].
  - intros j s' Hj (Hs & Hz & Ho). apply wp_modify. split; [done|]. simpl. split.
    + intros i Hi. rewrite lookup_insert. case_decide; [done|]. apply Hz.
      assert (i ≠ j) by (intros ->; done). lia.
    + intros addr Ha. rewrite lookup_insert_ne by (intros <-; by eapply (Ha j); [lia|]).
      apply Ho. intros i Hi. apply Ha. lia.
  - simpl. done.
Qed.

(** * [get_next_table] *)

(** The new tables of [s'] lie along [path] and are frames that were free; what
    allocated frames hold is untouched, but for the table entries along [path]. *)
Record keeps (root : Z) (path : list Z) (s s' : pg_st A) : Prop := {
  ke_walk q t : vpath q → (length q ≤ 3)%nat → walk (pg_mem s') root q = Some t →
    walk (pg_mem s) root q = Some t
    ∨ (q `prefix_of` path ∧ ∃ k, t = kva k ∧ k ∈ fa_free_set (pg_alloc s) ∧ k ∉ fa_free_set (pg_alloc s'));
  ke_data k i : fa_busy (pg_alloc s) k → vidx i →
    (∀ q, vpath q → (length q ≤ 3)%nat → walk (pg_mem s) root q = Some (kva k) → ¬ (q ++ [i]) `prefix_of` path) →
    pg_mem s' !! slot (kva k) i = pg_mem s !! slot (kva k) i;
  ke_old q t : vpath q → (length q ≤ 3)%nat → walk (pg_mem s) root q = Some t → walk (pg_mem s') root q = Some t
}.

Lemma keeps_same root path s s' : pg_mem s' = pg_mem s → keeps root path s s'.
Proof. intros E. constructor; [left; by rewrite <- E|intros; by rewrite E..]. Qed.

Lemma keeps_trans root path s1 s2 s3 :
  keeps root path s1 s2 → keeps root path s2 s3 → fa_frames (pg_alloc s2) = fa_frames (pg_alloc s1) →
  fa_free_set (pg_alloc s2) ⊆ fa_free_set (pg_alloc s1) → fa_free_set (pg_alloc s3) ⊆ fa_free_set (pg_alloc s2) →
  keeps root path s1 s3.
Proof.
  intros [T1 D1 O1] [T2 D2 O2] Hf H12 H23. constructor; [| |intros; by apply O2, O1].
  - intros q t Hq Hl Hw. destruct (T2 q t Hq Hl Hw) as [Hw2|(Hp & k & Ek & Hk2 & Hk3)].
    + destruct (T1 q t Hq Hl Hw2) as [|(Hp & k & Ek & Hk1 & Hk2)]; [by left|right].
      split; [done|]. exists k. split; [done|]. split; [done|]. intros Hk3. by apply Hk2, H23.
    + right. split; [done|]. exists k. split; [done|]. split; [by apply H12|done].
  - intros k i [Hb Hn] Hi Hq. rewrite D2; [by apply D1|split; [by rewrite Hf|]|done|].
    + intros Hc. by apply Hn, H12.
    + intros q Hv Hl Hw. destruct (T1 q _ Hv Hl Hw) as [Hw1|(_ & k' & Ek & Hk & _)]; [by apply Hq|].
      by apply kva_inj in Ek as <-.
Qed.

(** Paths to tables; the paths to the tables along [path]; how many of them reach none. *)
Definition table_paths (S : gset (list Z)) : Prop := ∀ q, q ∈ S → vpath q ∧ (length q ≤ 3)%nat.
Definition covers (S : gset (list Z)) (path : list Z) : Prop :=
  ∀ q, q ≠ [] → (length q ≤ 3)%nat → q `prefix_of` path → q ∈ S.
Definition missing (s : pg_st A) (root : Z) (S : gset (list Z)) : nat := size (filter (λ q, walk (pg_mem s) root q = None) S).

(** Every frame taken is a new table at one of the paths. *)
Definition paid (root : Z) (S : gset (list Z)) (s s' : pg_st A) : Prop :=
  (size (fa_free_set (pg_alloc s)) + missing s' root S ≤ size (fa_free_set (pg_alloc s')) + missing s root S)%nat.

Lemma paid_same root S s s' :
  table_paths S → (∀ q, vpath q → (length q ≤ 3)%nat → walk (pg_mem s') root q = walk (pg_mem s) root q) →
  fa_free_set (pg_alloc s') = fa_free_set (pg_alloc s) → paid root S s s'.
Proof.
  intros HS Hw Hf. unfold paid, missing. rewrite Hf.
  assert (filter (λ q, walk (pg_mem s') root q = None) S = filter (λ q, walk (pg_mem s) root q = None) S) as ->; [|done].
  apply set_eq. intros q. rewrite !elem_of_filter. split; intros [H Hq]; destruct (HS q Hq); by rewrite Hw in *.
Qed.

Lemma paid_trans root S s1 s2 s3 : paid root S s1 s2 → paid root S s2 s3 → paid root S s1 s3.
Proof. unfold paid. lia. Qed.

(** [s'] has every table and exactly the translations of [s], is still well
    formed, and used at most [n] more frames. *)
Record extends (root : Z) (path : list Z) (n : Z) (s s' : pg_st A) : Prop := {
  ext_wf : pt_wf s' root;
  ext_walk p t : vpath p → (length p ≤ 3)%nat →
    walk (pg_mem s) root p = Some t → walk (pg_mem s') root p = Some t;
  ext_leaf p i : vpath p → length p = 3%nat → vidx i →
    leaf (pg_mem s') root p i = leaf (pg_mem s) root p i;
  ext_frames : fa_frames (pg_alloc s') = fa_frames (pg_alloc s);
  ext_free : fa_free_set (pg_alloc s') ⊆ fa_free_set (pg_alloc s);
  ext_cost : Z.of_nat (size (fa_free_set (pg_alloc s)))
             ≤ Z.of_nat (size (fa_free_set (pg_alloc s'))) + n;
  ext_regs : kernel_pml4 s' = kernel_pml4 s ∧ pg_cr3 s' = pg_cr3 s;
  ext_keeps : keeps root path s s';
  ext_paid S : table_paths S → covers S path → paid root S s s'
}.

Lemma extends_refl root path n s : pt_wf s root → 0 ≤ n → extends root path n s s.
Proof. intros. constructor; try done; [lia|by apply keeps_same|by intros; apply paid_same]. Qed.

Lemma extends_trans root path n m s1 s2 s3 :
  extends root path n s1 s2 → extends root path m s2 s3 → extends root path (n + m) s1 s3.
Proof.
  intros [? H1w H1l ? ? ? [? ?] ? ?] [? H2w H2l ? ? ? [? ?] ? ?]. constructor; try done; try congruence.
  - eauto.
  - intros. rewrite H2l by done. by apply H1l.
  - set_solver.
  - lia.
  - split; congruence.
  - by apply (keeps_trans root path s1 s2).
  - intros S HS Hc. apply (paid_trans _ _ _ s2); auto.
Qed.

(** Emitting an event or replacing the allocator by one with the same frames. *)
Lemma pt_wf_alloc s root a :
  pt_wf s root → fa_ok a → fa_frames a = fa_frames (pg_alloc s) →
  fa_free_set a ⊆ fa_free_set (pg_alloc s) → pt_wf (set_pg_alloc a s) root.
Proof.
  intros [H1 H2 H3 H4] Ha Hf Hs. constructor; simpl; try done.
  - unfold hhdm_fits in *. by rewrite Hf.
  - intros p t Hp Hl Hw. destruct (H3 p t Hp Hl Hw) as (k & [Hk Hn] & ? & ?).
    exists k. split; [|done]. split; [by rewrite Hf|set_solver].
Qed.

Lemma extends_emit root path e s : pt_wf s root → extends root path 0 s (push_event e s).
Proof.
  intros Hwf. assert (pt_wf (push_event e s) root) as Hwf'.
  { apply pt_wf_alloc; [done|by apply fa_trace_ok, (wf_alloc s root)|by apply fa_trace_frames|].
    by rewrite fa_trace_set. }
  constructor; try done.
  - by apply fa_trace_frames.
  - simpl. by rewrite fa_trace_set.
  - simpl. rewrite fa_trace_set. lia.
  - by apply keeps_same.
  - intros S HS _. apply paid_same; [done|done|]. apply fa_trace_set.
Qed.

Lemma wf_root s root : pt_wf s root → ∃ k, fa_busy (pg_alloc s) k ∧ root = kva k.
Proof.
  intros Hwf. destruct (wf_table s root Hwf [] root) as (k & ? & ? & _); [constructor|simpl; lia|done|].
  by exists k.
Qed.

Lemma table_nonzero s root p t :
  pt_wf s root → vpath p → (length p ≤ 3)%nat → walk (pg_mem s) root p = Some t → t ≠ 0.
Proof.
  intros Hwf Hp Hl Hw. destruct (wf_table s root Hwf p t Hp Hl Hw) as (k & [? _] & -> & _).
  pose proof (kva_range _ (wf_hhdm s root Hwf) k). lia.
Qed.

(** Slots of two tables coincide only at the same path and index. *)
Lemma table_slot_inj s root p q t u i j :
  pt_wf s root → vpath p → vpath q → (length p ≤ 3)%nat → (length q ≤ 3)%nat → vidx i → vidx j →
  walk (pg_mem s) root p = Some t → walk (pg_mem s) root q = Some u →
  slot t i = slot u j → p = q ∧ i = j.
Proof.
  intros Hwf Hp Hq Hlp Hlq Hi Hj Hwp Hwq Heq.
  destruct (wf_table s root Hwf p t) as (k & [? _] & Et & _); [done..|].
  destruct (wf_table s root Hwf q u) as (k' & [? _] & Eu & _); [done..|].
  rewrite Et, Eu in Heq.
  apply (slot_inj _ (wf_hhdm s root Hwf)) in Heq as [<- <-]; [|lia|lia|done|done].
  split; [|done]. subst t u. by eapply (wf_inj s root Hwf).
Qed.

Lemma fresh_slot s root p t i k j :
  pt_wf s root → vpath p → (length p ≤ 3)%nat → vidx i → vidx j →
  walk (pg_mem s) root p = Some t → k ∈ fa_free_set (pg_alloc s) → slot t i ≠ slot (kva k) j.
Proof.
  intros Hwf Hp Hl Hi Hj Hw Hk Heq.
  pose proof (fa_range _ k (wf_alloc s root Hwf) Hk).
  destruct (wf_table s root Hwf p t) as (k' & [? Hn] & -> & _); [done..|].
  apply (slot_inj _ (wf_hhdm s root Hwf)) in Heq as [-> _]; [done|lia|lia|done|done].
Qed.

Section new_table.
  (** A fresh, cleared frame [k] is hung under entry [i0] of the table at [p0]. *)
  Context (s s' : pg_st A) (root t0 i0 k e0 flags : Z) (p0 path : list Z).
  Context (Hwf : pt_wf s root) (Hp0 : vpath p0) (Hl0 : (length p0 ≤ 2)%nat) (Hi0 : vidx i0).
  Context (Hw0 : walk (pg_mem s) root p0 = Some t0).
  Context (He0 : pg_mem s !! slot t0 i0 = Some e0) (Habs : pte_present e0 = false).
  Context (Hk : k ∈ fa_free_set (pg_alloc s)).
  Context (Hflags : 0 ≤ flags < PAGE_SIZE) (Hpres : pte_present flags = true).
  Context (Halloc : fa_ok (pg_alloc s')) (Hframes : fa_frames (pg_alloc s') = fa_frames (pg_alloc s)).
  Context (Hfree : fa_free_set (pg_alloc s') = fa_free_set (pg_alloc s) ∖ {[k]}).
  Context (Hregs : kernel_pml4 s' = kernel_pml4 s ∧ pg_cr3 s' = pg_cr3 s).
  Context (Hpath : (p0 ++ [i0]) `prefix_of` path).
  Context (Hentry : pg_mem s' !! slot t0 i0 = Some (Z.lor (k * PAGE_SIZE) flags)).
  Context (Hzero : ∀ i, vidx i → pg_mem s' !! slot (kva k) i = Some 0).
  Context (Hother : ∀ addr, addr ≠ slot t0 i0 → (∀ i, vidx i → addr ≠ slot (kva k) i) →
                    pg_mem s' !! addr = pg_mem s !! addr).

Lemma new_table_frame : 0 < k < fa_frames (pg_alloc s) ∧ k < 2 ^ 40.
Proof using All.
  pose proof (fa_range _ _ (wf_alloc s root Hwf) Hk). pose proof (fa_width _ (wf_alloc s root Hwf)). lia.
Qed.

Lemma new_table_same p t i :
  vpath p → (length p ≤ 3)%nat → vidx i → (p, i) ≠ (p0, i0) → walk (pg_mem s) root p = Some t →
  pg_mem s' !! slot t i = pg_mem s !! slot t i.
Proof using All.
  intros Hp Hl Hi Hne Hw. apply Hother.
  - intros Heq. destruct (table_slot_inj s root p p0 t t0 i i0); try done; [lia|congruence].
  - intros j Hj. by eapply fresh_slot.
Qed.

Lemma new_table_link : walk (pg_mem s') t0 [i0] = Some (kva k).
Proof using All.
  pose proof new_table_frame as [? ?]. simpl. rewrite Hentry, pte_present_lor, Hpres, orb_true_r.
  rewrite pte_get_addr_lor by (done || lia). f_equal. apply (pa2kva_frame _ (wf_hhdm s root Hwf)). lia.
Qed.

Lemma new_table_walk p :
  vpath p → (length p ≤ 3)%nat →
  walk (pg_mem s') root p = if decide (p = p0 ++ [i0]) then Some (kva k) else walk (pg_mem s) root p.
Proof using All.
  apply (walk_new_table (pg_mem s) (pg_mem s') root p0 t0 i0); [done|done| |apply new_table_link|done|].
  - intros e. rewrite He0. by intros [= <-].
  - intros q t i Hq Hlq Hi Hne Hw. apply (new_table_same q); try done. lia.
Qed.

Lemma new_table_old : walk (pg_mem s) root (p0 ++ [i0]) = None.
Proof using All. rewrite walk_snoc, Hw0. simpl. by rewrite He0, Habs. Qed.

Lemma new_table_wf : pt_wf s' root.
Proof using All.
  pose proof new_table_frame as [Hkr _]. constructor; [done| | |].
  - destruct (wf_hhdm s root Hwf). split; [done|]. by rewrite Hframes.
  - intros p t Hp Hl. rewrite new_table_walk by done. case_decide as E.
    + intros [= <-]. exists k. split; [|split; [done|]].
      * split; [by rewrite Hframes|]. rewrite Hfree. set_solver.
      * intros i Hi. rewrite Hzero; [by eexists|done].
    + intros Hw. destruct (wf_table s root Hwf p t) as (k' & [Hk' Hn] & Et & Hs); [done..|].
      exists k'. split; [split; [by rewrite Hframes|rewrite Hfree; set_solver]|].
      split; [done|]. intros i Hi. destruct (decide ((p, i) = (p0, i0))) as [[= -> ->]|Hne].
      * assert (t = t0) as -> by congruence. rewrite Hentry. by eexists.
      * rewrite (new_table_same p) by done. by apply Hs.
  - assert (∀ q u, vpath q → (length q ≤ 3)%nat → walk (pg_mem s) root q = Some u → u ≠ kva k) as Hold.
    { intros q u Hq Hl Hw ->. apply (fresh_slot s root q (kva k) 0 k 0); done || (unfold vidx; lia). }
    intros p q t Hp Hq Hlp Hlq. rewrite !new_table_walk by done. repeat case_decide; subst; try done.
    + intros [= <-] Hw. by destruct (Hold q (kva k)).
    + intros Hw [= <-]. by destruct (Hold p (kva k)).
    + intros Hw1 Hw2. by eapply (wf_inj s root Hwf).
Qed.

Lemma new_table_keeps : keeps root path s s'.
Proof using All.
  pose proof new_table_frame as [Hkr _]. constructor.
  - intros q t Hq Hl Hw. rewrite new_table_walk in Hw by done. case_decide as E; [|by left].
    injection Hw as <-. right. subst q. split; [done|]. exists k. rewrite Hfree. set_solver.
  - intros k' i [Hb Hn] Hi Hq. apply Hother.
    + destruct (wf_table s root Hwf p0 t0) as (kt & [Hkt _] & Et & _); [done|lia|done|]. rewrite Et.
      intros Heq. apply (slot_inj _ (wf_hhdm s root Hwf)) in Heq as [-> ->]; [|lia|lia|done|done].
      apply (Hq p0); [done|lia|by rewrite <- Et|done].
    + intros j Hj Heq. apply (slot_inj _ (wf_hhdm s root Hwf)) in Heq as [-> _]; [done|lia|lia|done|done].
  - intros q t Hq Hl Hw. rewrite new_table_walk by done. case_decide; [|done]. subst q. by rewrite new_table_old in Hw.
Qed.

Lemma new_table_paid S : table_paths S → covers S path → paid root S s s'.
Proof using All.
  intros HS Hc. unfold paid. rewrite Hfree, size_difference, size_singleton by set_solver.
  assert (size (fa_free_set (pg_alloc s)) ≠ 0%nat) as Hne by (apply size_non_empty_iff; set_solver).
  assert (p0 ++ [i0] ∈ S) as Hin by (apply Hc; [by destruct p0|rewrite length_app; simpl; lia|done]).
  assert (filter (λ q, walk (pg_mem s') root q = None) S ⊆ filter (λ q, walk (pg_mem s) root q = None) S ∖ {[p0 ++ [i0]]}) as Hsub.
  { intros q. rewrite elem_of_difference, !elem_of_filter, elem_of_singleton. intros [Hw Hq]. destruct (HS q Hq) as [Hv Hl].
    rewrite new_table_walk in Hw by done. by case_decide. }
  apply subseteq_size in Hsub. rewrite size_difference, size_singleton in Hsub.
  2:{ apply singleton_subseteq_l, elem_of_filter. by rewrite new_table_old. }
  unfold missing in *. assert (size (filter (λ q, walk (pg_mem s) root q = None) S) ≠ 0%nat); [|lia].
  apply size_non_empty_iff. intros He. eapply (not_elem_of_empty (C := gset (list Z))). rewrite <- He. apply elem_of_filter.
  split; [apply new_table_old|done].
Qed.

Lemma new_table_extends : extends root path 1 s s'.
Proof using All.
  constructor; [apply new_table_wf| | |done| | |done|apply new_table_keeps|apply new_table_paid].
  - apply new_table_keeps.
  - intros p i Hp Hl Hi. unfold leaf. rewrite new_table_walk by (done || lia). case_decide as E.
    + subst p. rewrite new_table_old. simpl. by rewrite Hzero.
    + destruct (walk (pg_mem s) root p) as [t|] eqn:Hw; [|done]. simpl.
      rewrite (new_table_same p); [done|done|lia|done| |done].
      intros [= -> ->]. lia.
  - rewrite Hfree. set_solver.
  - rewrite Hfree, size_difference, size_singleton by set_solver. lia.
Qed.
End new_table.

Lemma get_next_table_wp s root path p0 t0 i0 flags :
  pt_wf s root → (p0 ++ [i0]) `prefix_of` path → vpath p0 → (length p0 ≤ 2)%nat → vidx i0 → walk (pg_mem s) root p0 = Some t0 →
  0 ≤ flags < PAGE_SIZE → pte_present flags = true →
  wp (get_next_table t0 i0 true flags) s (λ r s', extends root path 1 s s' ∧
    ((r = 0 ∧ fa_free_set (pg_alloc s) = ∅) ∨ (r ≠ 0 ∧ walk (pg_mem s') root (p0 ++ [i0]) = Some r))).
Proof.
  intros Hwf Hpath Hp0 Hl0 Hi0 Hw0 Hfl Hpr. unfold get_next_table.
  destruct (wf_table s root Hwf p0 t0) as (k0 & _ & Et0 & Hsl); [done|lia|done|].
  destruct (Hsl i0 Hi0) as [e He]. apply wp_bind. eapply load_wp; [exact He|].
  destruct (pte_present e) eqn:Hpe.
  { apply wp_ret. assert (walk (pg_mem s) root (p0 ++ [i0]) = Some (pa2kva (PTE_GET_ADDR e))) as Hw.
    { rewrite walk_snoc, Hw0. simpl. by rewrite He, Hpe. }
    split; [by apply extends_refl|]. right. split; [|done].
    eapply table_nonzero; [done| | |done]; [by apply vpath_snoc|rewrite length_app; simpl; lia]. }
  apply wp_bind. unfold on_alloc. apply wp_zoom.
  eapply wp_mono; [apply fa_alloc_spec, (wf_alloc s root Hwf)|].
  intros pa a' (Hok' & Hfr' & [(-> & Hem & Hem')|(k & Hk & -> & Hf')]).
  - wp_go. assert (extends root path 0 s (push_event (EvPrint "Panic:OOM when allocating page table!" []) (set_pg_alloc a' s))) as Hx.
    { assert (pt_wf (set_pg_alloc a' s) root) as Hwf' by (apply pt_wf_alloc; [done..|set_solver]).
      eapply (extends_trans root path 0 0); [|by apply extends_emit].
      constructor; simpl; try done; [set_solver|rewrite Hem, Hem'; lia|by apply keeps_same|].
      intros S HS _. apply paid_same; [done|done|]. simpl. congruence. }
    split; [|by left]. apply (extends_trans root path 0 1 s _ _ Hx), extends_refl; [apply Hx|lia].
  - pose proof (fa_range _ _ (wf_alloc s root Hwf) Hk).
    destruct (Z.eqb_spec (k * PAGE_SIZE) 0) as [Hz|_]; [unfold PAGE_SIZE in Hz; lia|].
    rewrite (pa2kva_frame _ (wf_hhdm s root Hwf)) by lia.
    apply wp_bind. eapply wp_mono; [apply memset_page_wp|]. cbn beta.
    intros _ s2 ((Ha & Hr1 & Hr2) & Hzero & Hother). apply wp_bind. apply wp_modify, wp_ret.
    simpl in *. set (s3 := set_pg_mem _ s2).
    assert (∀ i, vidx i → slot t0 i0 ≠ slot (kva k) i) as Hne by (intros; eapply fresh_slot; done || lia).
    assert (Hargs : pg_mem s3 !! slot t0 i0 = Some (Z.lor (k * PAGE_SIZE) flags)) by apply lookup_insert_eq.
    assert (Hz3 : ∀ i, vidx i → pg_mem s3 !! slot (kva k) i = Some 0).
    { intros i Hi. simpl. rewrite lookup_insert_ne by by apply Hne. by apply Hzero. }
    assert (Ho3 : ∀ addr, addr ≠ slot t0 i0 → (∀ i, vidx i → addr ≠ slot (kva k) i) →
      pg_mem s3 !! addr = pg_mem s !! addr).
    { intros addr Hn1 Hn2. simpl. rewrite lookup_insert_ne by done. by apply Hother. }
    rewrite <- Ha in Hok', Hfr', Hf'.
    split; [by eapply (new_table_extends s s3 root t0 i0 k e flags p0 path)|]. right.
    pose proof (kva_range _ (wf_hhdm s root Hwf) k ltac:(lia)). split; [lia|].
    erewrite (new_table_walk s s3 root t0 i0 k e flags p0); try done.
    + by rewrite decide_True.
    + by apply vpath_snoc.
    + rewrite length_app. simpl. lia.
Qed.

(** * [vmm_map_page] *)

Section leaf_store.
  (** Entry [i0] of the last-level table at [p0] is overwritten with [e]. *)
  Context (s : pg_st A) (root t0 i0 e : Z) (p0 : list Z).
  Context (Hwf : pt_wf s root) (Hp0 : vpath p0) (Hl0 : length p0 = 3%nat) (Hi0 : vidx i0).
  Context (Hw0 : walk (pg_mem s) root p0 = Some t0).

Let s' := set_pg_mem (<[slot t0 i0 := e]> (pg_mem s)) s.

Lemma leaf_store_same p t i :
  vpath p → (length p ≤ 3)%nat → vidx i → (p, i) ≠ (p0, i0) → walk (pg_mem s) root p = Some t →
  pg_mem s' !! slot t i = pg_mem s !! slot t i.
Proof using All.
  intros Hp Hl Hi Hne Hw. apply lookup_insert_ne. intros Heq.
  destruct (table_slot_inj s root p0 p t0 t i0 i); try done; [lia|congruence].
Qed.

Lemma leaf_store_walk p :
  vpath p → (length p ≤ 3)%nat → walk (pg_mem s') root p = walk (pg_mem s) root p.
Proof using All.
  apply walk_mem_ext. intros q t i Hq Hl Hi Hw.
  apply (leaf_store_same q); [done|lia|done| |done]. intros [= -> ->]. lia.
Qed.

Lemma leaf_store_wf : pt_wf s' root.
Proof using All.
  constructor; [apply Hwf|apply Hwf| |].
  - intros p t Hp Hl. rewrite leaf_store_walk by done. intros Hw.
    destruct (wf_table s root Hwf p t) as (k & ? & ? & Hs); [done..|].
    exists k. split; [done|]. split; [done|]. intros i Hi. simpl.
    destruct (decide (slot t0 i0 = slot t i)) as [->|]; [rewrite lookup_insert_eq; by eexists|].
    rewrite lookup_insert_ne by done. by apply Hs.
  - intros p q t Hp Hq Hlp Hlq. rewrite !leaf_store_walk by done. by apply (wf_inj s root Hwf).
Qed.

Lemma leaf_store_leaf p i :
  vpath p → length p = 3%nat → vidx i →
  leaf (pg_mem s') root p i =
    if decide ((p, i) = (p0, i0)) then (if pte_present e then Some e else None)
    else leaf (pg_mem s) root p i.
Proof using All.
  intros Hp Hl Hi. case_decide as E.
  - injection E as -> ->. unfold leaf. rewrite leaf_store_walk, Hw0 by (done || lia).
    simpl. by rewrite lookup_insert_eq.
  - apply leaf_ext; [apply leaf_store_walk; done || lia|]. intros t Hw.
    by apply (leaf_store_same p); [done|lia|..].
Qed.
Lemma leaf_store_keeps : keeps root (p0 ++ [i0]) s s'.
Proof using All.
  constructor.
  - intros q t Hq Hl Hw. left. by rewrite leaf_store_walk in Hw.
  - intros k i [Hb Hn] Hi Hq. apply lookup_insert_ne. intros Heq. symmetry in Heq.
    destruct (wf_table s root Hwf p0 t0) as (kt & [Hkt _] & Et & _); [done|lia|done|]. rewrite Et in Heq.
    apply (slot_inj _ (wf_hhdm s root Hwf)) in Heq as [-> ->]; [|lia|lia|done|done].
    apply (Hq p0); [done|lia|by rewrite <- Et|done].
  - intros q t Hq Hl Hw. by rewrite leaf_store_walk.
Qed.
End leaf_store.

Definition same_regs (s s' : pg_st A) : Prop := kernel_pml4 s' = kernel_pml4 s ∧ pg_cr3 s' = pg_cr3 s.

(** Outcome of one mapping: either the page is mapped, or the allocator ran dry
    and no translation changed. *)
Definition map_post (root va e : Z) (s s' : pg_st A) : Prop :=
  pt_wf s' root ∧ same_regs s s'
  ∧ fa_frames (pg_alloc s') = fa_frames (pg_alloc s)
  ∧ fa_free_set (pg_alloc s') ⊆ fa_free_set (pg_alloc s)
  ∧ Z.of_nat (size (fa_free_set (pg_alloc s))) ≤ Z.of_nat (size (fa_free_set (pg_alloc s'))) + 3
  ∧ ((translate (pg_mem s') root va = Some e
      ∧ ∀ va', ¬ same_page va va' → translate (pg_mem s') root va' = translate (pg_mem s) root va')
     ∨ (fa_free_set (pg_alloc s') = ∅
        ∧ Z.of_nat (size (fa_free_set (pg_alloc s))) < 3
        ∧ ∀ va', translate (pg_mem s') root va' = translate (pg_mem s) root va')).

Lemma extends_translate root path n s s' va :
  extends root path n s s' → translate (pg_mem s') root va = translate (pg_mem s) root va.
Proof. intros Hx. apply (ext_leaf root path n s s' Hx); [apply va_path_valid|done|apply idx_range]. Qed.

Lemma map_post_oom root path n va e s s1 s2 :
  extends root path n s s1 → extends root path 1 s1 s2 → fa_free_set (pg_alloc s1) = ∅ → 0 ≤ n ≤ 2 →
  map_post root va e s s2 ∧ keeps root path s s2 ∧ ∀ S, table_paths S → covers S path → paid root S s s2.
Proof.
  intros H1 H2 Hem Hn. pose proof (extends_trans _ _ _ _ _ _ _ H1 H2) as Hx.
  split; [|split; apply Hx].
  assert (fa_free_set (pg_alloc s2) = ∅) as Hem2 by (pose proof (ext_free _ _ _ _ _ H2); set_solver).
  pose proof (ext_cost _ _ _ _ _ H1) as Hc. rewrite Hem, size_empty in Hc.
  split; [apply Hx|]. split; [apply Hx|]. split; [apply Hx|]. split; [apply Hx|]. split; [lia|].
  right. split; [done|]. split; [lia|]. intros va'. by eapply extends_translate.
Qed.

(** The leaf entry [vmm_map_page] writes. *)
Definition leaf_entry (pa flags : Z) : Z := Z.lor (Z.lor pa flags) PTE_PRESENT.

Lemma vmm_map_page_full s root va pa flags :
  pt_wf s root → 0 ≤ flags < PAGE_SIZE → pte_present flags = true →
  wp (vmm_map_page root va pa flags) s (λ _ s', map_post root va (leaf_entry pa flags) s s' ∧ keeps root (slot_path va) s s'
    ∧ ∀ S, table_paths S → covers S (slot_path va) → paid root S s s').
Proof.
  intros Hwf Hfl Hpr. unfold vmm_map_page. set (e := leaf_entry pa flags).
  assert (vidx (PML4_IDX va) ∧ vidx (PDPT_IDX va) ∧ vidx (PD_IDX va)) as (H4 & H3 & H2)
    by (split_and!; apply idx_range).
  eapply wp_bind_mono; [apply (get_next_table_wp s root (slot_path va) [] root); try done; [by eexists|constructor|simpl; lia]|].
  intros pdpt s1 [Hx1 [(-> & Hem)|[Hn1 Hw1]]].
  { apply wp_ret. apply (map_post_oom root (slot_path va) 0 va e s s s1); done || (apply extends_refl; done). }
  rewrite (proj2 (Z.eqb_neq pdpt 0) Hn1).
  eapply wp_bind_mono; [apply (get_next_table_wp s1 root (slot_path va) [PML4_IDX va] pdpt); try done;
    [apply Hx1|by eexists|unfold vpath; by rewrite ?Forall_cons, ?Forall_nil|simpl; lia]|].
  intros pd s2 [Hx2 [(-> & Hem)|[Hn2 Hw2]]].
  { apply wp_ret. by apply (map_post_oom root (slot_path va) 1 va e s s1 s2). }
  rewrite (proj2 (Z.eqb_neq pd 0) Hn2).
  eapply wp_bind_mono; [apply (get_next_table_wp s2 root (slot_path va) [PML4_IDX va; PDPT_IDX va] pd); try done;
    [apply Hx2|by eexists|unfold vpath; by rewrite ?Forall_cons, ?Forall_nil]|].
  pose proof (extends_trans _ _ _ _ _ _ _ Hx1 Hx2) as Hx12.
  intros pt s3 [Hx3 [(-> & Hem)|[Hn3 Hw3]]].
  { apply wp_ret. by apply (map_post_oom root (slot_path va) 2 va e s s2 s3). }
  rewrite (proj2 (Z.eqb_neq pt 0) Hn3).
  pose proof (extends_trans _ _ _ _ _ _ _ Hx12 Hx3) as Hx. simpl in Hw3. fold (va_path va) in Hw3.
  apply wp_bind, wp_modify, wp_emit. fold (leaf_entry pa flags). fold e.
  assert (pt_wf s3 root) as Hwf3 by apply Hx.
  pose proof (leaf_store_wf s3 root pt (PT_IDX va) e (va_path va) Hwf3 (va_path_valid va) eq_refl
    (idx_range _) Hw3) as Hwf4.
  set (s4 := set_pg_mem _ s3) in *. pose proof (extends_emit root (slot_path va) (EvInvlpg va) s4 Hwf4) as Hx5.
  pose proof (ext_cost _ _ _ _ _ Hx). pose proof (ext_free _ _ _ _ _ Hx). pose proof (ext_frames _ _ _ _ _ Hx) as Hf.
  pose proof (ext_cost _ _ _ _ _ Hx5). pose proof (ext_free _ _ _ _ _ Hx5). pose proof (ext_frames _ _ _ _ _ Hx5) as Hf5.
  split; [|split].
  2:{ apply (keeps_trans root (slot_path va) s s4); [|apply Hx5|done|done|done].
      apply (keeps_trans root (slot_path va) s s3); [apply Hx|apply (leaf_store_keeps s3 root pt (PT_IDX va) e (va_path va)); try done; [apply va_path_valid|apply idx_range]|done|done|done]. }
  2:{ intros S HS Hc. apply (paid_trans _ _ _ s3); [by apply Hx|]. apply (paid_trans _ _ _ s4); [|by apply Hx5]. apply paid_same; [done| |done].
      intros q Hq Hl. apply (leaf_store_walk s3 root pt (PT_IDX va) e (va_path va)); done || apply va_path_valid || apply idx_range. }
  split; [apply Hx5|]. split; [apply Hx|].
  split; [by rewrite Hf5|]. split; [simpl in *; set_solver|].
  split; [simpl in *; lia|]. left.
  assert (∀ va', translate (pg_mem s4) root va' =
    if decide ((va_path va', PT_IDX va') = (va_path va, PT_IDX va)) then Some e
    else translate (pg_mem s) root va') as Ht.
  { intros va'. rewrite <- (extends_translate _ _ _ _ _ va' Hx). unfold translate at 1.
    rewrite (leaf_store_leaf s3 root pt (PT_IDX va) e (va_path va)) by
      (done || apply va_path_valid || apply idx_range).
    case_decide; [|done].
    assert (pte_present e = true) as ->; [|done]. unfold e, leaf_entry. rewrite pte_present_lor. apply orb_true_r. }
  rewrite (extends_translate _ _ _ _ _ va Hx5), Ht, decide_True by done. split; [done|].
  intros va' Hns. rewrite (extends_translate _ _ _ _ _ va' Hx5), Ht, decide_False; [done|].
  intros [= E1 E2 E3 E4]. apply Hns. split; [unfold va_path; congruence|done].
Qed.

Lemma vmm_map_page_wp s root va pa flags :
  pt_wf s root → 0 ≤ flags < PAGE_SIZE → pte_present flags = true →
  wp (vmm_map_page root va pa flags) s (λ _, map_post root va (leaf_entry pa flags) s).
Proof. intros. eapply wp_mono; [by apply vmm_map_page_full|]. by intros _ s' [? _]. Qed.

(** * Several address spaces *)

(** Frame [k] holds a table of the tree. *)
Definition is_table (s : pg_st A) (root k : Z) : Prop :=
  ∃ p, vpath p ∧ (length p ≤ 3)%nat ∧ walk (pg_mem s) root p = Some (kva k).

Definition low_path (p : list Z) : Prop := match p with [] => True | i :: _ => i < 256 end.

(** The tables of [d] for the lower half of its space are not tables of [r]. *)
Definition private (s : pg_st A) (d r : Z) : Prop :=
  ∀ q k, vpath q → (length q ≤ 3)%nat → low_path q → walk (pg_mem s) d q = Some (kva k) → ¬ is_table s r k.

Lemma is_table_busy s root k : pt_wf s root → is_table s root k → fa_busy (pg_alloc s) k.
Proof.
  intros Hwf (p & Hp & Hl & Hw). destruct (wf_table s root Hwf p _ Hp Hl Hw) as (k' & Hb & Ek & _).
  by apply kva_inj in Ek as ->.
Qed.

Lemma low_prefix q i path : low_path path → (q ++ [i]) `prefix_of` path → low_path q.
Proof. destruct q as [|j q]; [done|]. intros Hp (l & ->). exact Hp. Qed.

(** A table of another space that is not a private table of [d] keeps its entries. *)
Lemma keeps_other_slot s s' d r path q k i :
  keeps d path s s' → low_path path → private s d r → pt_wf s r → vpath q → (length q ≤ 3)%nat → vidx i →
  walk (pg_mem s) r q = Some (kva k) → pg_mem s' !! slot (kva k) i = pg_mem s !! slot (kva k) i.
Proof.
  intros Hk Hlow Hpr Hwf Hq Hl Hi Hw. assert (is_table s r k) as Ht by by exists q.
  apply (ke_data _ _ _ _ Hk); [by apply (is_table_busy s r)|done|]. intros q' Hq' Hl' Hw' Hpre.
  by apply (Hpr q' k Hq' Hl' (low_prefix _ _ _ Hlow Hpre) Hw').
Qed.

(** Mapping in the lower half of [d] leaves another space as it is. *)
Record space_kept (s s' : pg_st A) (d r : Z) : Prop := {
  sk_wf : pt_wf s' r;
  sk_walk q : vpath q → (length q ≤ 3)%nat → walk (pg_mem s') r q = walk (pg_mem s) r q;
  sk_trans va : translate (pg_mem s') r va = translate (pg_mem s) r va;
  sk_private : private s' d r
}.

Lemma keeps_other s s' d r path :
  keeps d path s s' → low_path path → private s d r → pt_wf s r →
  fa_ok (pg_alloc s') → fa_frames (pg_alloc s') = fa_frames (pg_alloc s) →
  fa_free_set (pg_alloc s') ⊆ fa_free_set (pg_alloc s) → space_kept s s' d r.
Proof.
  intros Hk Hlow Hpr Hwf Hok Hfr Hsub.
  assert (∀ q t i, vpath q → (length q ≤ 3)%nat → vidx i → walk (pg_mem s) r q = Some t →
    pg_mem s' !! slot t i = pg_mem s !! slot t i) as Hm.
  { intros q t i Hq Hl Hi Hw. destruct (wf_table s r Hwf q t Hq Hl Hw) as (k & _ & -> & _).
    by apply (keeps_other_slot s s' d r path q). }
  assert (∀ q, vpath q → (length q ≤ 3)%nat → walk (pg_mem s') r q = walk (pg_mem s) r q) as Hw.
  { apply walk_mem_ext. intros q t i Hq Hl. apply Hm; [done|lia]. }
  assert (∀ k, is_table s' r k → is_table s r k) as Ht.
  { intros k (q & Hq & Hl & Hk'). exists q. rewrite Hw in Hk' by done. done. }
  constructor; [|done| |].
  - constructor; [done| | |].
    + destruct (wf_hhdm s r Hwf). split; [done|]. by rewrite Hfr.
    + intros p t Hp Hl. rewrite Hw by done. intros Hwt.
      destruct (wf_table s r Hwf p t Hp Hl Hwt) as (k & [Hb Hn] & -> & Hs). exists k.
      split; [split; [by rewrite Hfr|set_solver]|]. split; [done|]. intros i Hi. rewrite (Hm p); [by apply Hs|done..].
    + intros p q t Hp Hq Hlp Hlq. rewrite !Hw by done. by apply (wf_inj s r Hwf).
  - intros va. apply leaf_ext; [apply Hw; [apply va_path_valid|done]|].
    intros t. rewrite ?Hw by (apply va_path_valid || done). intros Hwt. apply (Hm (va_path va)); [apply va_path_valid|done|apply idx_range|done].
  - intros q k Hq Hl Hlq Hwq Htk. apply Ht in Htk.
    destruct (ke_walk _ _ _ _ Hk q (kva k) Hq Hl Hwq) as [Hwq'|(_ & k' & Ek & Hk1 & _)].
    + by apply (Hpr q k).
    + apply kva_inj in Ek as <-. by destruct (is_table_busy s r k Hwf Htk).
Qed.

(** What an allocated frame that is no table holds. *)
Lemma keeps_data s s' d path k i :
  keeps d path s s' → fa_busy (pg_alloc s) k → ¬ is_table s d k → vidx i →
  pg_mem s' !! slot (kva k) i = pg_mem s !! slot (kva k) i.
Proof. intros Hk Hb Hn Hi. apply (ke_data _ _ _ _ Hk); [done|done|]. intros q Hq Hl Hw. exfalso. apply Hn. by exists q. Qed.

Lemma keeps_not_table s s' d path k :
  keeps d path s s' → fa_busy (pg_alloc s) k → ¬ is_table s d k → ¬ is_table s' d k.
Proof.
  intros Hk Hb Hn (q & Hq & Hl & Hw). destruct (ke_walk _ _ _ _ Hk q _ Hq Hl Hw) as [Hw'|(_ & k' & Ek & Hk' & _)].
  - apply Hn. by exists q.
  - apply kva_inj in Ek as <-. by destruct Hb.
Qed.

Lemma slot_path_low va : 0 ≤ va < 2 ^ 47 → low_path (slot_path va).
Proof.
  intros H. unfold slot_path, va_path, low_path. cbn [app]. unfold PML4_IDX.
  change 0x1FF with (Z.ones 9). rewrite Z.land_ones, Z.shiftr_div_pow2 by lia.
  assert (va / 2 ^ 39 < 2 ^ 8) by (apply Z.div_lt_upper_bound; lia).
  pose proof (Z.mod_le (va / 2 ^ 39) (2 ^ 9)). assert (0 ≤ va / 2 ^ 39) by (apply Z.div_pos; lia). lia.
Qed.

(** * Fresh roots, lookups *)

(** A cleared frame is a well-formed, empty address space. *)
Lemma fresh_root_wf s k :
  fa_ok (pg_alloc s) → hhdm_fits (pg_alloc s) → fa_busy (pg_alloc s) k →
  (∀ i, vidx i → pg_mem s !! slot (kva k) i = Some 0) →
  pt_wf s (kva k) ∧ ∀ va, translate (pg_mem s) (kva k) va = None.
Proof.
  intros Hok Hh Hk Hz.
  assert (∀ i p, vidx i → walk (pg_mem s) (kva k) (i :: p) = None) as Hnone.
  { intros i p Hi. simpl. by rewrite Hz. }
  split; [constructor; try done|].
  - intros [|i p] t Hp Hl Hw.
    + injection Hw as <-. exists k. split; [done|]. split; [done|]. intros i Hi. rewrite Hz; [by eexists|done].
    + apply Forall_cons in Hp as [Hi _]. by rewrite Hnone in Hw.
  - intros [|i p] [|j q] t Hp Hq _ _ Hw Hw'; try done.
    + apply Forall_cons in Hq as [Hj _]. by rewrite Hnone in Hw'.
    + apply Forall_cons in Hp as [Hi _]. by rewrite Hnone in Hw.
    + apply Forall_cons in Hp as [Hi _]. by rewrite Hnone in Hw.
  - intros va. unfold translate, leaf, va_path. by rewrite Hnone by apply idx_range.
Qed.

(** With [allocate] false, [get_next_table] is one step of the walk. *)
Lemma get_next_table_read s t i e flags :
  pg_mem s !! slot t i = Some e →
  get_next_table t i false flags s = Ok (if pte_present e then pa2kva (PTE_GET_ADDR e) else 0, s).
Proof.
  intros He. unfold get_next_table, load, gets, or_crash. cbv [mbind M_bind]. rewrite He.
  cbv [mret M_ret]. by destruct (pte_present e).
Qed.

Lemma get_next_table_walk s root p t i flags :
  pt_wf s root → vpath p → (length p ≤ 2)%nat → vidx i → walk (pg_mem s) root p = Some t →
  ∃ r, get_next_table t i false flags s = Ok (r, s)
    ∧ ((r = 0 ∧ walk (pg_mem s) root (p ++ [i]) = None)
       ∨ (r ≠ 0 ∧ walk (pg_mem s) root (p ++ [i]) = Some r)).
Proof.
  intros Hwf Hp Hl Hi Hw. destruct (wf_table s root Hwf p t) as (k & _ & _ & Hs); [done|lia|done|].
  destruct (Hs i Hi) as [e He]. eexists. split; [by apply get_next_table_read|].
  assert (walk (pg_mem s) root (p ++ [i]) = if pte_present e then Some (pa2kva (PTE_GET_ADDR e)) else None) as Hw'.
  { rewrite walk_snoc, Hw. simpl. rewrite He. by destruct (pte_present e). }
  rewrite Hw'. destruct (pte_present e); [|by left]. right. split; [|done].
  eapply table_nonzero; [done| | |exact Hw']; [by apply vpath_snoc|rewrite length_app; simpl; lia].
Qed.

Lemma vmm_get_pte_wp s root va :
  pt_wf s root →
  ∃ r, vmm_get_pte root va s = Ok (r, s)
    ∧ match walk (pg_mem s) root (va_path va) with
      | None => r = 0
      | Some pt => r = slot pt (PT_IDX va) ∧ r ≠ 0 ∧ is_Some (pg_mem s !! r)
      end.
Proof.
  intros Hwf. unfold vmm_get_pte.
  assert (vidx (PML4_IDX va) ∧ vidx (PDPT_IDX va) ∧ vidx (PD_IDX va)) as (H4 & H3 & H2)
    by (split_and!; apply idx_range).
  destruct (get_next_table_walk s root [] root (PML4_IDX va) 0) as (r1 & E1 & Hr1);
    [done|constructor|simpl; lia|done|done|].
  rewrite (bind_ok _ _ _ _ _ E1). unfold va_path.
  change [PML4_IDX va; PDPT_IDX va; PD_IDX va] with (([] ++ [PML4_IDX va]) ++ [PDPT_IDX va; PD_IDX va]).
  rewrite walk_app. destruct Hr1 as [[-> Hw1]|[Hn1 Hw1]]; rewrite Hw1; [by eexists|].
  rewrite (proj2 (Z.eqb_neq r1 0) Hn1).
  destruct (get_next_table_walk s root [PML4_IDX va] r1 (PDPT_IDX va) 0) as (r2 & E2 & Hr2);
    [done|unfold vpath; by rewrite ?Forall_cons, ?Forall_nil|simpl; lia|done|done|].
  rewrite (bind_ok _ _ _ _ _ E2). rewrite walk_snoc in Hr2. change (walk _ root [PML4_IDX va]) with
    (walk (pg_mem s) root ([] ++ [PML4_IDX va])) in Hr2. rewrite Hw1 in Hr2.
  change (Some r1 ≫= λ t', walk (pg_mem s) t' [PDPT_IDX va; PD_IDX va])
    with (walk (pg_mem s) r1 ([PDPT_IDX va] ++ [PD_IDX va])). rewrite walk_app.
  change (Some r1 ≫= λ t', walk (pg_mem s) t' [PDPT_IDX va]) with (walk (pg_mem s) r1 [PDPT_IDX va]) in Hr2.
  destruct Hr2 as [[-> Hw2]|[Hn2 Hw2]]; rewrite Hw2; [by eexists|].
  rewrite (proj2 (Z.eqb_neq r2 0) Hn2).
  assert (walk (pg_mem s) root [PML4_IDX va; PDPT_IDX va] = Some r2) as Hw12.
  { change [PML4_IDX va; PDPT_IDX va] with (([] ++ [PML4_IDX va]) ++ [PDPT_IDX va]).
    by rewrite walk_app, Hw1. }
  destruct (get_next_table_walk s root [PML4_IDX va; PDPT_IDX va] r2 (PD_IDX va) 0) as (r3 & E3 & Hr3);
    [done|unfold vpath; by rewrite ?Forall_cons, ?Forall_nil|done|done|done|].
  rewrite (bind_ok _ _ _ _ _ E3). rewrite walk_snoc, Hw12 in Hr3.
  change (Some r2 ≫= λ t', walk (pg_mem s) t' [PD_IDX va]) with (walk (pg_mem s) r2 [PD_IDX va]) in *.
  destruct Hr3 as [[-> Hw3]|[Hn3 Hw3]]; rewrite Hw3; [by eexists|].
  rewrite (proj2 (Z.eqb_neq r3 0) Hn3). eexists. split; [done|]. split; [done|].
  assert (walk (pg_mem s) root (va_path va) = Some r3) as Hwp.
  { unfold va_path. change [PML4_IDX va; PDPT_IDX va; PD_IDX va] with ([PML4_IDX va; PDPT_IDX va] ++ [PD_IDX va]).
    by rewrite walk_app, Hw12. }
  destruct (wf_table s root Hwf _ _ (va_path_valid va) (le_n 3) Hwp) as (k & [? _] & -> & Hs).
  split; [|apply Hs, idx_range].
  pose proof (kva_range _ (wf_hhdm s root Hwf) k ltac:(lia)). pose proof (idx_range (Z.shiftr va 12)) as Hi.
  rewrite (slot_kva _ (wf_hhdm s root Hwf)) by (done || lia). fold (PT_IDX va) in Hi. unfold vidx in Hi. lia.
Qed.

(** * Releasing a page-table tree *)

Definition frame_of (e : Z) : Z := PTE_GET_ADDR e / PAGE_SIZE.

(** The frames below table [t], in the order the code releases them. *)
Fixpoint user_frames (mem : gmap Z Z) (t : Z) (level : nat) : list Z :=
  concat (map (λ i,
    match mem !! slot t i with
    | Some e =>
      if pte_present e then
        (match level with
         | S (S _ as level') => user_frames mem (pa2kva (PTE_GET_ADDR e)) level'
         | _ => []
         end) ++ [frame_of e]
      else []
    | None => []
    end) (seqZ 0 (if (level =? 4)%nat then 256 else 512))).

(** Every table visited has all its words in memory. *)
Fixpoint tables_present (mem : gmap Z Z) (t : Z) (level : nat) : Prop :=
  ∀ i, vidx i → ∃ e, mem !! slot t i = Some e ∧
    match level with
    | S (S _ as level') => pte_present e = true → tables_present mem (pa2kva (PTE_GET_ADDR e)) level'
    | _ => True
    end.

Definition free_frames (l : list Z) : M A unit :=
  foldr (λ k m, fa_free (k * PAGE_SIZE);; m) (mret tt) l.

Lemma free_frames_app l1 l2 a : free_frames (l1 ++ l2) a = (free_frames l1;; free_frames l2) a.
Proof.
  revert a. induction l1 as [|k l1 IH]; intros a; simpl; [done|].
  rewrite bind_assoc. cbv [mbind M_bind] in *. destruct (fa_free _ a) as [[[] a']|]; [apply IH|done].
Qed.

Lemma pte_get_addr_frame e : PTE_GET_ADDR e = frame_of e * PAGE_SIZE.
Proof.
  unfold frame_of. rewrite Z.mul_comm. apply Z_div_exact_full_2; [unfold PAGE_SIZE; lia|].
  change PAGE_SIZE with (2 ^ 12). rewrite <- Z.land_ones by lia. apply Z.bits_inj'. intros j Hj.
  unfold PTE_GET_ADDR. rewrite !Z.land_spec, Z.bits_0, addr_mask_bit, Z.testbit_ones by lia.
  destruct (Z.leb_spec 12 j), (Z.ltb_spec j 12), (Z.leb_spec 0 j); try lia;
    by rewrite ?andb_false_r.
Qed.

Lemma on_alloc_seq (m1 m2 : M A unit) s :
  (on_alloc m1;; on_alloc m2) s = on_alloc (m1;; m2) s.
Proof.
  unfold on_alloc, zoom, mbind, M_bind. destruct (m1 (pg_alloc s)) as [[[] a]|]; [|done]. simpl.
  by destruct (m2 a) as [[[] a']|].
Qed.

Lemma on_alloc_mem (m : M A unit) s s' : on_alloc m s = Ok (tt, s') → pg_mem s' = pg_mem s.
Proof. unfold on_alloc, zoom. destruct (m (pg_alloc s)) as [[[] a]|]; naive_solver. Qed.

(** A loop whose body only releases frames releases the concatenation. *)
Lemma for_n_frees mem (g : Z → list Z) body n i s :
  (∀ j s', i ≤ j < i + Z.of_nat n → pg_mem s' = mem → body j s' = on_alloc (free_frames (g j)) s') →
  pg_mem s = mem →
  for_n n i body s = on_alloc (free_frames (concat (map g (seqZ i (Z.of_nat n))))) s.
Proof.
  revert i s. induction n as [|n IH]; intros i s Hb Hm; simpl for_n.
  { unfold on_alloc, zoom. simpl. by destruct s. }
  rewrite seqZ_cons by lia. replace (Z.pred (Z.of_nat (S n))) with (Z.of_nat n) by lia. simpl.
  assert (∀ s', on_alloc (free_frames (g i ++ concat (map g (seqZ (Z.succ i) (Z.of_nat n))))) s'
    = (on_alloc (free_frames (g i));; on_alloc (free_frames (concat (map g (seqZ (Z.succ i) (Z.of_nat n)))))) s') as ->.
  { intros s'. rewrite on_alloc_seq. unfold on_alloc, zoom. by rewrite free_frames_app. }
  unfold mbind, M_bind. rewrite Hb by (done || lia).
  destruct (on_alloc (free_frames (g i)) s) as [[[] s1]|] eqn:E; [|done].
  apply IH; [intros; apply Hb; [lia|done]|]. by rewrite (on_alloc_mem _ _ _ E).
Qed.

Lemma user_pgtable_free_refines level t s :
  tables_present (pg_mem s) t level →
  user_pgtable_free_recursive t level s = on_alloc (free_frames (user_frames (pg_mem s) t level)) s.
Proof.
  revert t s. induction level as [|level IH]; intros t s Hp.
  all: cbn [user_pgtable_free_recursive user_frames];
    match goal with |- for_n ?n _ _ _ = on_alloc (free_frames (concat (map _ (seqZ 0 ?m)))) _ =>
      assert (m = Z.of_nat n) as -> by (by destruct (_ =? 4)%nat);
      assert (Z.of_nat n ≤ 512) as Hn by (by destruct (_ =? 4)%nat)
    end; apply (for_n_frees (pg_mem s)); [|done]; intros j s' Hj Hm;
    destruct (Hp j) as (e & He & Hsub); [unfold vidx; lia|];
    rewrite He; unfold load, gets, or_crash; cbv [mbind M_bind]; rewrite Hm, He;
    cbv [mret M_ret]; destruct (pte_present e); [|unfold on_alloc, zoom; by destruct s'].
  - rewrite pte_get_addr_frame. simpl. unfold on_alloc, zoom, mbind, M_bind.
    by destruct (fa_free _ _) as [[[] a]|].
  - assert (∀ l s1, on_alloc (free_frames (l ++ [frame_of e])) s1
      = (on_alloc (free_frames l);; on_alloc (fa_free (frame_of e * PAGE_SIZE))) s1) as Hl.
    { intros l s1. rewrite on_alloc_seq. unfold on_alloc, zoom. rewrite free_frames_app. simpl.
      unfold mbind, M_bind. destruct (free_frames l (pg_alloc s1)) as [[[] a]|]; [|done].
      by destruct (fa_free _ a) as [[[] a']|]. }
    rewrite Hl. destruct level as [|level'].
    + rewrite pte_get_addr_frame. unfold on_alloc, zoom, mbind, M_bind, mret, M_ret. simpl.
      destruct s'. done.
    + cbv [mbind M_bind]. rewrite IH by (rewrite Hm; exact (Hsub eq_refl)). by rewrite Hm, <- (pte_get_addr_frame e).
Qed.

Lemma free_frames_wp l a :
  fa_ok a → NoDup l → Forall (fa_busy a) l →
  wp (free_frames l) a (λ _ a', fa_ok a' ∧ fa_frames a' = fa_frames a
    ∧ fa_free_set a' = list_to_set l ∪ fa_free_set a).
Proof.
  revert a. induction l as [|k l IH]; intros a Hok Hnd Hb; simpl.
  { apply wp_ret. split; [done|]. split; [done|]. set_solver. }
  apply NoDup_cons in Hnd as [Hnk Hnd]. apply Forall_cons in Hb as [[Hk Hnf] Hb].
  eapply wp_bind_mono; [by apply fa_free_spec|]. cbn beta. intros _ a1 (Hok1 & Hf1 & Hs1).
  eapply wp_mono; [apply IH; [done|done|]|].
  - rewrite Forall_forall in Hb |- *. intros k' Hk'. destruct (Hb k' Hk') as [Hr Hn].
    split; [by rewrite Hf1|]. rewrite Hs1. assert (k' ≠ k) by (intros ->; done). set_solver.
  - cbn beta. intros _ a2 (? & ? & ->). split; [done|]. split; [congruence|]. rewrite Hs1. set_solver.
Qed.

(** * Address spaces as functions of the page number *)

(** Virtual page number in the 48-bit address space. *)
Definition vpn (va : Z) : Z := va / PAGE_SIZE mod 2 ^ 36.

Lemma pt_idx_eq va : PT_IDX va = va / 2 ^ 12 mod 2 ^ 9.
Proof. unfold PT_IDX. change 0x1FF with (Z.ones 9). by rewrite Z.land_ones, Z.shiftr_div_pow2. Qed.
Lemma pd_idx_eq va : PD_IDX va = va / 2 ^ 12 / 2 ^ 9 mod 2 ^ 9.
Proof.
  unfold PD_IDX. change 0x1FF with (Z.ones 9). by rewrite Z.land_ones, Z.shiftr_div_pow2, Z.div_div.
Qed.
Lemma pdpt_idx_eq va : PDPT_IDX va = va / 2 ^ 12 / 2 ^ 9 / 2 ^ 9 mod 2 ^ 9.
Proof.
  unfold PDPT_IDX. change 0x1FF with (Z.ones 9). by rewrite Z.land_ones, Z.shiftr_div_pow2, !Z.div_div.
Qed.
Lemma pml4_idx_eq va : PML4_IDX va = va / 2 ^ 12 / 2 ^ 9 / 2 ^ 9 / 2 ^ 9 mod 2 ^ 9.
Proof.
  unfold PML4_IDX. change 0x1FF with (Z.ones 9). by rewrite Z.land_ones, Z.shiftr_div_pow2, !Z.div_div.
Qed.

Lemma vpn_digits va :
  vpn va = PT_IDX va + 2 ^ 9 * (PD_IDX va + 2 ^ 9 * (PDPT_IDX va + 2 ^ 9 * PML4_IDX va)).
Proof.
  rewrite pt_idx_eq, pd_idx_eq, pdpt_idx_eq, pml4_idx_eq. unfold vpn. change PAGE_SIZE with (2 ^ 12).
  set (x := va / 2 ^ 12). change (2 ^ 36) with (2 ^ 9 * (2 ^ 9 * (2 ^ 9 * 2 ^ 9))).
  by rewrite !Z.rem_mul_r.
Qed.

(** The four table indices distinguish exactly the virtual pages. *)
Lemma same_page_vpn va va' : same_page va va' ↔ vpn va = vpn va'.
Proof.
  rewrite !vpn_digits. unfold same_page, va_path.
  pose proof (λ x, idx_range x) as Hi. unfold vidx in Hi.
  pose proof (Hi (Z.shiftr va 39)). pose proof (Hi (Z.shiftr va 30)). pose proof (Hi (Z.shiftr va 21)).
  pose proof (Hi (Z.shiftr va 12)). pose proof (Hi (Z.shiftr va' 39)). pose proof (Hi (Z.shiftr va' 30)).
  pose proof (Hi (Z.shiftr va' 21)). pose proof (Hi (Z.shiftr va' 12)).
  fold (PML4_IDX va) (PDPT_IDX va) (PD_IDX va) (PT_IDX va) in *.
  fold (PML4_IDX va') (PDPT_IDX va') (PD_IDX va') (PT_IDX va') in *.
  split; [intros [[= -> -> ->] ->]; done|]. intros Heq.
  assert (PT_IDX va = PT_IDX va' ∧ PD_IDX va = PD_IDX va' ∧ PDPT_IDX va = PDPT_IDX va'
    ∧ PML4_IDX va = PML4_IDX va') as (-> & -> & -> & ->) by lia. done.
Qed.

(** What a sequence of mappings (virtual, physical) makes of one translation:
    the last mapping of the page wins. *)
Definition apply_maps (flags : Z) (l : list (Z * Z)) (va : Z) (d : option Z) : option Z :=
  foldl (λ acc x, if decide (vpn x.1 = vpn va) then Some (leaf_entry x.2 flags) else acc) d l.

Lemma apply_maps_app flags l1 l2 va d :
  apply_maps flags (l1 ++ l2) va d = apply_maps flags l2 va (apply_maps flags l1 va d).
Proof. apply foldl_app. Qed.

(** When every mapping of the page agrees, that is the translation. *)
Lemma apply_maps_agree flags l va pa d :
  (d = Some (leaf_entry pa flags) ∨ ∃ va', (va', pa) ∈ l ∧ vpn va' = vpn va) →
  (∀ va' pa', (va', pa') ∈ l → vpn va' = vpn va → pa' = pa) →
  apply_maps flags l va d = Some (leaf_entry pa flags).
Proof.
  revert d. induction l as [|[va1 pa1] l IH]; intros d Hex Hall; simpl.
  { destruct Hex as [->|(va' & Hin & _)]; [done|]. set_solver. }
  apply IH; [|intros va' pa' Hin; apply Hall; set_solver].
  case_decide as Hv.
  - left. by rewrite (Hall va1 pa1) by (done || set_solver).
  - destruct Hex as [Hd|(va' & Hin & Hv')]; [by left|]. right. exists va'.
    apply elem_of_cons in Hin as [[= -> ->]|Hin]; done.
Qed.

(** From [s] to [s'] the mappings [l] were made, unless memory ran out. *)
Record mapped (root flags : Z) (l : list (Z * Z)) (s s' : pg_st A) : Prop := {
  mp_wf : pt_wf s' root;
  mp_regs : same_regs s s';
  mp_frames : fa_frames (pg_alloc s') = fa_frames (pg_alloc s);
  mp_free : fa_free_set (pg_alloc s') ⊆ fa_free_set (pg_alloc s);
  mp_trans : fa_free_set (pg_alloc s') = ∅ ∨
    ∀ va, translate (pg_mem s') root va = apply_maps flags l va (translate (pg_mem s) root va);
  mp_paid S : table_paths S → (∀ x, x ∈ l → covers S (slot_path x.1)) → paid root S s s'
}.

Lemma mapped_refl root flags s : pt_wf s root → mapped root flags [] s s.
Proof. intros. constructor; try done; [by right|]. intros. by apply paid_same. Qed.

Lemma mapped_trans root flags l1 l2 s1 s2 s3 :
  mapped root flags l1 s1 s2 → mapped root flags l2 s2 s3 → mapped root flags (l1 ++ l2) s1 s3.
Proof.
  intros [? [? ?] ? ? Ht1 Hp1] [? [? ?] ? ? Ht2 Hp2]. constructor; try done.
  - split; congruence.
  - congruence.
  - set_solver.
  - destruct Ht1 as [He|Ht1]; [left; set_solver|]. destruct Ht2 as [He|Ht2]; [by left|]. right.
    intros va. by rewrite Ht2, Ht1, apply_maps_app.
  - intros S HS Hc. apply (paid_trans _ _ _ s2); [apply Hp1|apply Hp2]; try done; intros x Hx; apply Hc; set_solver.
Qed.

Lemma mapped_emit root flags e s : pt_wf s root → mapped root flags [] s (push_event e s).
Proof.
  intros Hwf. destruct (extends_emit root [] e s Hwf) as [Hwf' _ Hl Hfr Hfs _ Hr _ _].
  constructor; try done.
  - right. intros va. apply Hl; [apply va_path_valid|done|apply idx_range].
  - intros S HS _. apply paid_same; [done|done|]. apply fa_trace_set.
Qed.

Lemma mapped_page root flags va pa s :
  pt_wf s root → 0 ≤ flags < PAGE_SIZE → pte_present flags = true →
  wp (vmm_map_page root va pa flags) s (λ _, mapped root flags [(va, pa)] s).
Proof.
  intros Hwf Hfl Hpr. eapply wp_mono; [by apply vmm_map_page_full|]. cbn beta.
  intros _ s' ((Hwf' & Hr & Hfr & Hfs & _ & Ht) & _ & Hpd). constructor; try done.
  2:{ intros S HS Hc. apply Hpd; [done|]. apply (Hc (va, pa)). by left. }
  destruct Ht as [[Ht Ho]|(He & _)]; [|by left]. right. intros va'. simpl. case_decide as Hv.
  - apply same_page_vpn in Hv as [Hp Hi]. rewrite <- Ht. unfold translate. by rewrite Hp, Hi.
  - apply Ho. by rewrite same_page_vpn.
Qed.

(** Running a mapping phase after another. *)
Lemma mapped_wp root flags l1 l2 s0 s (m : M (pg_st A) unit) :
  mapped root flags l1 s0 s →
  (pt_wf s root → wp m s (λ _, mapped root flags l2 s)) →
  wp m s (λ _, mapped root flags (l1 ++ l2) s0).
Proof.
  intros H1 H2. eapply wp_mono; [apply H2, H1|]. cbn beta. intros _ s' H. by eapply mapped_trans.
Qed.

Lemma mapped_for_pages root flags start stop (f : Z → Z * Z) s :
  pt_wf s root → 0 ≤ flags < PAGE_SIZE → pte_present flags = true →
  wp (for_pages start stop (λ p, vmm_map_page root (f p).1 (f p).2 flags)) s
    (λ _, mapped root flags
       (map (λ j, f (start + j * PAGE_SIZE)) (seqZ 0 (Z.of_nat (Z.to_nat ((stop - start + (PAGE_SIZE - 1)) / PAGE_SIZE))))) s).
Proof.
  intros Hwf Hfl Hpr. unfold for_pages. set (n := Z.to_nat _). set (g := λ j, f (start + j * PAGE_SIZE)).
  apply (wp_mono _ _ (λ _ s', mapped root flags (map g (seqZ 0 (0 + Z.of_nat n))) s s')); [|done].
  apply (wp_for_n (λ j s', mapped root flags (map g (seqZ 0 j)) s s')); [by apply mapped_refl|].
  intros j s' Hj Hm. rewrite (seqZ_app 0 j 1), map_app by lia.
  replace (map g (seqZ (0 + j) 1)) with [((g j).1, (g j).2)]; [|by rewrite <- surjective_pairing].
  eapply mapped_wp; [exact Hm|]. intros Hwf'. by apply mapped_page.
Qed.

(** The page addresses [for_pages] visits. *)
Definition pages (start stop : Z) : list Z :=
  map (λ j, start + j * PAGE_SIZE)
    (seqZ 0 (Z.of_nat (Z.to_nat ((stop - start + (PAGE_SIZE - 1)) / PAGE_SIZE)))).

Lemma elem_of_pages start stop p :
  (stop - start) mod PAGE_SIZE = 0 →
  p ∈ pages start stop ↔ start ≤ p < stop ∧ (p - start) mod PAGE_SIZE = 0.
Proof.
  intros Hm. unfold pages. rewrite list_elem_of_fmap. setoid_rewrite elem_of_seqZ.
  unfold PAGE_SIZE in *. set (d := stop - start) in *.
  assert (Z.of_nat (Z.to_nat ((d + (4096 - 1)) / 4096)) = Z.max 0 (d / 4096)) as ->
    by (Z.to_euclidean_division_equations; lia).
  split.
  - intros (j & -> & Hj). split; [subst d; Z.to_euclidean_division_equations; lia|].
    replace (_ - _) with (j * 4096) by lia. by apply Z.mod_mul.
  - intros [Hp Hpm]. exists ((p - start) / 4096). subst d; Z.to_euclidean_division_equations; lia.
Qed.

Definition map_flags : Z := Z.lor PTE_PRESENT PTE_RW.

Lemma for_pages_mapped root start stop (f : Z → Z * Z) l0 s0 s :
  mapped root map_flags l0 s0 s →
  wp (for_pages start stop (λ p, vmm_map_page root (f p).1 (f p).2 map_flags)) s
    (λ _, mapped root map_flags (l0 ++ map f (pages start stop)) s0).
Proof.
  intros Hm. eapply mapped_wp; [exact Hm|]. intros Hwf.
  eapply wp_mono; [by apply mapped_for_pages|]. cbn beta. intros _ s'. unfold pages.
  by rewrite map_map.
Qed.

Lemma mapped_print root flags l s0 s e :
  mapped root flags l s0 s → mapped root flags l s0 (push_event e s).
Proof.
  intros Hm. rewrite <- (app_nil_r l). eapply mapped_trans; [done|]. apply mapped_emit, Hm.
Qed.

(** The mappings of one memory-map entry, and of the whole of [paging_init]. *)
Definition direct_map (start stop : Z) : list (Z * Z) :=
  map (λ pa, (u64 (pa + HHDM_OFFSET), pa)) (pages start stop).
Definition identity_map (start stop : Z) : list (Z * Z) := map (λ pa, (pa, pa)) (pages start stop).
Definition entry_maps (e : memmap_entry) : list (Z * Z) :=
  if mapped_type (type_ e) then
    let start := ALIGN_DOWN (base e) PAGE_SIZE in
    let stop := ALIGN_UP (u64 (base e + length_ e)) PAGE_SIZE in
    direct_map start stop ++
    (if 0x100000000 <=? start then []
     else identity_map start (if 0x100000000 <? stop then 0x100000000 else stop))
  else [].
Definition kernel_maps (size kva_base kpa_base : Z) : list (Z * Z) :=
  map (λ i, (u64 (kva_base + i), u64 (kpa_base + i))) (pages 0 size).
Definition init_maps (size kva_base kpa_base : Z) (mmap : list memmap_entry) : list (Z * Z) :=
  kernel_maps size kva_base kpa_base ++ concat (map entry_maps mmap).

Lemma map_entry_wp root e l0 s0 s :
  mapped root map_flags l0 s0 s →
  wp (map_entry root e) s (λ _, mapped root map_flags (l0 ++ entry_maps e) s0).
Proof.
  intros Hm. unfold map_entry, entry_maps. fold map_flags.
  destruct (mapped_type (type_ e)); [|apply wp_ret; by rewrite app_nil_r].
  cbv zeta. apply wp_bind, wp_kprintf. apply wp_bind.
  eapply wp_mono; [apply (for_pages_mapped _ _ _ (λ pa, (u64 (pa + HHDM_OFFSET), pa))), mapped_print, Hm|].
  cbn beta. intros _ s1 Hm1. rewrite app_assoc.
  destruct (0x100000000 <=? _); [apply wp_ret; by rewrite app_nil_r|].
  by apply (for_pages_mapped _ _ _ (λ pa, (pa, pa))).
Qed.

Lemma map_entries_wp root mmap l0 s0 s :
  mapped root map_flags l0 s0 s →
  wp (map_entries root mmap) s (λ _, mapped root map_flags (l0 ++ concat (map entry_maps mmap)) s0).
Proof.
  revert l0 s. induction mmap as [|e mmap IH]; intros l0 s Hm; simpl.
  - apply wp_ret. by rewrite app_nil_r.
  - eapply wp_bind_mono; [by apply map_entry_wp|]. cbn beta. intros _ s1 Hm1.
    rewrite app_assoc. by apply IH.
Qed.

Lemma mapped_regs root flags l s0 s pml4 cr3 :
  mapped root flags l s0 s →
  mapped root flags l (PgSt (pg_alloc s0) (pg_mem s0) pml4 cr3) (PgSt (pg_alloc s) (pg_mem s) pml4 cr3).
Proof.
  intros [Hwf _ ? ? ? ?]. constructor; try done. by destruct Hwf; constructor.
Qed.

(** The paths to the tables of the mappings [l]. *)
Definition map_tables (l : list (Z * Z)) : gset (list Z) :=
  list_to_set (concat (map (λ x, map (λ n, take n (va_path x.1)) [1; 2; 3]%nat) l)).

Lemma map_tables_paths l : table_paths (map_tables l).
Proof.
  intros q. unfold map_tables. rewrite elem_of_list_to_set, list_elem_of_In, in_concat. intros (y & Hy & Hq).
  apply in_map_iff in Hy as (x & <- & _). apply in_map_iff in Hq as (n & <- & _).
  split; [apply Forall_take, va_path_valid|]. rewrite length_take. simpl. lia.
Qed.

Lemma map_tables_cover l x : x ∈ l → covers (map_tables l) (slot_path x.1).
Proof.
  intros Hx q Hne Hl [r Hr]. unfold map_tables. rewrite elem_of_list_to_set, list_elem_of_In, in_concat.
  eexists. split; [apply in_map; by apply list_elem_of_In|]. apply in_map_iff. exists (length q). split.
  - rewrite <- (take_app_le (va_path x.1) [PT_IDX x.1]) by (simpl; lia). fold (slot_path x.1). rewrite Hr, take_app_length. done.
  - destruct q as [|? [|? [|? [|? q]]]]; simpl in *; [done|tauto..|lia].
Qed.

(** What the mappings [l] cost when no table was there. *)
Lemma mapped_cost root flags l s s' :
  mapped root flags l s s' → (size (fa_free_set (pg_alloc s)) ≤ size (fa_free_set (pg_alloc s')) + size (map_tables l))%nat.
Proof.
  intros Hm. pose proof (mp_paid _ _ _ _ _ Hm (map_tables l) (map_tables_paths l) (map_tables_cover l)) as Hp. unfold paid in Hp.
  assert (missing s root (map_tables l) ≤ size (map_tables l))%nat; [|lia]. apply subseteq_size. intros q. by rewrite elem_of_filter; intros [_ ?].
Qed.

Lemma paging_init_wp s k_start k_end kva_base kpa_base total mmap :
  fa_ok (pg_alloc s) → hhdm_fits (pg_alloc s) → fa_free_set (pg_alloc s) ≠ ∅ →
  wp (paging_init k_start k_end (Some (kva_base, kpa_base)) total mmap) s (λ _ s',
    ∃ k, k ∈ fa_free_set (pg_alloc s)
      ∧ kernel_pml4 s' = kva k ∧ pg_cr3 s' = k * PAGE_SIZE ∧ pt_wf s' (kva k)
      ∧ (fa_free_set (pg_alloc s') = ∅ ∨
         ∀ va, translate (pg_mem s') (kva k) va =
           apply_maps map_flags (init_maps (ALIGN_UP (u64 (k_end - k_start)) PAGE_SIZE) kva_base kpa_base mmap) va None)
      ∧ (size (fa_free_set (pg_alloc s)) ≤ size (fa_free_set (pg_alloc s'))
           + S (size (map_tables (init_maps (ALIGN_UP (u64 (k_end - k_start)) PAGE_SIZE) kva_base kpa_base mmap))))%nat).
Proof.
  intros Hok Hh Hne. unfold paging_init. apply wp_bind, wp_kprintln, wp_bind. unfold on_alloc. apply wp_zoom.
  set (sp := push_event _ s).
  eapply wp_mono; [apply fa_alloc_spec; by apply fa_trace_ok|].
  cbn beta. intros pa a1 (Hok1 & Hfr1 & Hcase). simpl in Hfr1, Hcase.
  rewrite fa_trace_frames in Hfr1. rewrite fa_trace_set in Hcase.
  destruct Hcase as [(_ & He & _)|(k & Hk & -> & Hfs)]; [done|].
  pose proof (fa_range _ _ Hok Hk) as Hkr.
  destruct (Z.eqb_spec (k * PAGE_SIZE) 0) as [Hz|_]; [unfold PAGE_SIZE in Hz; lia|].
  rewrite (pa2kva_frame _ Hh) by lia. apply wp_bind, wp_modify. set (s1 := PgSt _ _ (kva k) _).
  eapply wp_bind_mono; [apply memset_page_wp|]. cbn beta. intros _ s2 ((Ha & Hp & Hc) & Hzero & _).
  assert (pg_alloc s2 = a1) as Ha2 by done.
  destruct (fresh_root_wf s2 k) as [Hwf Hnone]; [by rewrite Ha2|..|done|].
  { unfold hhdm_fits. by rewrite Ha2, Hfr1. }
  { split; rewrite Ha2; [by rewrite Hfr1|]. rewrite Hfs. set_solver. }
  apply wp_bind, wp_kprintf, wp_bind, wp_kprintf. cbn beta iota. fold map_flags.
  apply wp_bind. eapply wp_mono.
  { apply (for_pages_mapped _ _ _ (λ i, (u64 (kva_base + i), u64 (kpa_base + i))) [] s2).
    do 2 apply mapped_print. by apply mapped_refl. }
  cbn beta. intros _ s3 Hm3. apply wp_bind, wp_kprintln, wp_bind, wp_kprintf.
  eapply wp_bind_mono; [apply map_entries_wp; do 2 apply mapped_print; exact Hm3|].
  cbn beta. intros _ s4 Hm4. apply wp_bind, wp_kprintln, wp_bind, wp_modify, wp_bind, wp_emit, wp_kprintln.
  exists k. destruct (mp_regs _ _ _ _ _ Hm4) as [Hr1 Hr2].
  apply (mapped_print _ _ _ _ _ (EvPrint "HHDM mapped..." [])) in Hm4.
  apply (mapped_regs _ _ _ _ _ (kernel_pml4 s4) (k * PAGE_SIZE)) in Hm4.
  apply (mapped_print _ _ _ _ _ (EvLcr3 (k * PAGE_SIZE))) in Hm4.
  apply (mapped_print _ _ _ _ _ (EvPrint "===== PAGING Init Done! CR3 switched. =====" [])) in Hm4.
  split; [done|]. split; [simpl; rewrite Hr1; exact Hp|]. split; [done|]. split; [apply Hm4|].
  split.
  - destruct (mp_trans _ _ _ _ _ Hm4) as [He|Ht]; [by left|]. right. intros va. rewrite Ht. simpl. by rewrite Hnone.
  - pose proof (mapped_cost _ _ _ _ _ Hm4) as Hcost. cbn [pg_alloc app] in Hcost. rewrite Ha2, Hfs, size_difference, size_singleton in Hcost by (by apply singleton_subseteq_l).
    assert (∀ a b c : nat, (a - 1 ≤ b + c → a ≤ b + S c)%nat) as Hs by (clear; lia). apply Hs. exact Hcost.
Qed.

(** * What the tree releases *)

(** The frames released are exactly those a walk of the user half reaches:
    the lower tables and the frames mapped by the last level. *)
Lemma elem_of_user_frames mem t level k :
  (level ≤ 4)%nat →
  k ∈ user_frames mem t level ↔
  ∃ p i e, (length p < Nat.max 1 level)%nat ∧ vpath (p ++ [i])
    ∧ (level = 4%nat → ∀ j, head (p ++ [i]) = Some j → j < 256)
    ∧ leaf mem t p i = Some e ∧ frame_of e = k.
Proof.
  revert t. induction level as [|level IH]; intros t Hle.
  all: cbn [user_frames]; rewrite list_elem_of_In, in_concat; setoid_rewrite in_map_iff;
    setoid_rewrite <- list_elem_of_In; setoid_rewrite elem_of_seqZ;
    set (limit := if (_ =? 4)%nat then 256 else 512).
  - change limit with 512. split.
    + intros (l & (i & <- & Hi) & Hin). destruct (mem !! slot t i) as [e|] eqn:He; [|set_solver].
      destruct (pte_present e) eqn:Hp; [|set_solver]. simpl in Hin. apply list_elem_of_singleton in Hin as ->.
      exists [], i, e. split; [simpl; lia|]. split; [apply Forall_singleton; unfold vidx; lia|].
      split; [done|]. split; [|done]. unfold leaf. simpl. rewrite He. simpl. by rewrite Hp.
    + intros ([|??] & i & e & Hl & Hv & _ & Hleaf & <-); [|simpl in Hl; lia].
      apply (Forall_singleton vidx) in Hv. unfold leaf in Hleaf. simpl in Hleaf.
      eexists. split; [exists i; split; [reflexivity|unfold vidx in *; lia]|].
      destruct (mem !! slot t i) as [e'|]; [|done]. simpl in Hleaf. destruct (pte_present e'); [|done].
      injection Hleaf as ->. rewrite elem_of_app, list_elem_of_singleton. by right.
  - assert (∀ i, 0 ≤ i < 0 + limit ↔ vidx i ∧ (S level = 4%nat → i < 256)) as Hlim.
    { intros i. unfold limit, vidx. clear. destruct (Nat.eqb_spec (S level) 4); intuition lia. }
    split.
    + intros (l & (i & <- & [Hi Hi4]%Hlim) & Hin). destruct (mem !! slot t i) as [e|] eqn:He; [|set_solver].
      destruct (pte_present e) eqn:Hp; [|set_solver]. apply elem_of_app in Hin as [Hin|Hin].
      * destruct level as [|level']; [by inversion Hin|]. apply IH in Hin as (p & j & e' & Hl & Hv & _ & Hleaf & Hk); [|lia].
        exists (i :: p), j, e'. split; [simpl; lia|]. split; [by apply Forall_cons|].
        split; [intros E j'; simpl; intros [= <-]; by apply Hi4|]. split; [|done].
        unfold leaf in *. simpl. by rewrite He, Hp.
      * apply list_elem_of_singleton in Hin as ->. exists [], i, e. split; [simpl; lia|].
        split; [by apply Forall_singleton|]. split; [intros E j'; simpl; intros [= <-]; by apply Hi4|].
        split; [|done]. unfold leaf. simpl. rewrite He. simpl. by rewrite Hp.
    + intros ([|i p] & j & e & Hl & Hv & H4 & Hleaf & <-).
      * apply (Forall_singleton vidx) in Hv. unfold leaf in Hleaf. simpl in Hleaf.
        eexists. split; [exists j; split; [reflexivity|apply Hlim; split; [done|intros; by apply H4]]|].
        destruct (mem !! slot t j) as [e'|]; [|done]. simpl in Hleaf. destruct (pte_present e'); [|done].
        injection Hleaf as ->. rewrite elem_of_app, list_elem_of_singleton. by right.
      * simpl in Hv. apply Forall_cons in Hv as [Hi Hv]. unfold leaf in Hleaf. simpl in Hleaf.
        eexists. split; [exists i; split; [reflexivity|apply Hlim; split; [done|intros; by apply H4]]|].
        destruct (mem !! slot t i) as [e'|]; [|done]. destruct (pte_present e'); [|done].
        apply elem_of_app. left. destruct level as [|level']; [simpl in Hl; lia|].
        apply IH; [lia|]. exists p, j, e. split; [simpl in *; lia|]. split; [done|].
        split; [|split; [exact Hleaf|done]]. intros E. lia.
Qed.

(** A well-formed space has all the tables the release visits. *)
Lemma pt_wf_tables_present s root p t level :
  pt_wf s root → vpath p → walk (pg_mem s) root p = Some t → (length p + level ≤ 4)%nat → (1 ≤ level)%nat →
  tables_present (pg_mem s) t level.
Proof.
  intros Hwf. revert p t. induction level as [|level IH]; intros p t Hp Hw Hl H1; [lia|].
  destruct (wf_table s root Hwf p t) as (k & _ & _ & Hs); [done|lia|done|].
  cbn [tables_present]. intros i Hi. destruct (Hs i Hi) as [e He]. exists e. split; [done|].
  destruct level as [|level']; [done|]. intros Hpe.
  apply (IH (p ++ [i])); [by apply vpath_snoc| |rewrite length_app; simpl; lia|lia].
  rewrite walk_snoc, Hw. simpl. by rewrite He, Hpe.
Qed.

(** * Properties *)

(** What the MMU answers for a virtual address. *)
Definition mmu (mem : gmap Z Z) (root va : Z) : option Z :=
  e ← translate mem root va; Some (PTE_GET_ADDR e + OFFSET va).

Lemma translate_vpn mem root va va' : vpn va' = vpn va → translate mem root va' = translate mem root va.
Proof. intros [Hp Hi]%same_page_vpn. unfold translate. by rewrite Hp, Hi. Qed.

Lemma leaf_entry_addr k flags :
  0 ≤ k < 2 ^ 40 → 0 ≤ flags < PAGE_SIZE → PTE_GET_ADDR (leaf_entry (k * PAGE_SIZE) flags) = k * PAGE_SIZE.
Proof.
  intros Hk Hf. unfold leaf_entry. rewrite <- Z.lor_assoc. apply pte_get_addr_lor; [done|].
  change PTE_PRESENT with (2 ^ 0). split; [apply Z.lor_nonneg; lia|].
  apply (bits_bound 12); [lia|apply Z.lor_nonneg; lia|]. intros j Hj.
  rewrite Z.lor_spec, (testbit_small flags 12), (testbit_small (2 ^ 0) 12); unfold PAGE_SIZE in *; lia || done.
Qed.

(** C1: mapping a page: in a well-formed address space [vmm_map_page] never
    faults and keeps the space well formed; either every address of the page then
    translates into the frame (and the translation of every other page, whatever
    tables were created, is what it was), or the frame allocator ran dry, with
    fewer than three frames left, and no translation changed at all. *)
Theorem vmm_map_page_translates s root va k flags :
  pt_wf s root → 0 ≤ k < 2 ^ 40 → 0 ≤ flags < PAGE_SIZE → pte_present flags = true →
  wp (vmm_map_page root va (k * PAGE_SIZE) flags) s (λ _ s',
    pt_wf s' root ∧ fa_free_set (pg_alloc s') ⊆ fa_free_set (pg_alloc s) ∧
    ((∀ va', mmu (pg_mem s') root va' =
        if decide (vpn va' = vpn va) then Some (k * PAGE_SIZE + OFFSET va') else mmu (pg_mem s) root va')
     ∨ (fa_free_set (pg_alloc s') = ∅ ∧ (size (fa_free_set (pg_alloc s)) < 3)%nat
        ∧ ∀ va', mmu (pg_mem s') root va' = mmu (pg_mem s) root va'))).
Proof.
  intros Hwf Hk Hfl Hpr. eapply wp_mono; [by apply vmm_map_page_wp|]. cbn beta.
  intros _ s' (Hwf' & _ & _ & Hfs & _ & Ht). split; [done|]. split; [done|].
  unfold mmu. destruct Ht as [[Ht Ho]|(He & Hc & Ho)].
  - left. intros va'. case_decide as Hv.
    + rewrite (translate_vpn _ _ va va' Hv), Ht. simpl. by rewrite leaf_entry_addr.
    + rewrite Ho; [done|]. rewrite same_page_vpn. congruence.
  - right. split; [done|]. split; [lia|]. intros va'. by rewrite Ho.
Qed.

(** C34: [vmm_get_pte] changes nothing and agrees with the hardware walk: NULL
    exactly when a table is missing on the path, and otherwise the address of the
    word whose present value is the translation. *)
Theorem vmm_get_pte_finds s root va :
  pt_wf s root →
  ∃ r, vmm_get_pte root va s = Ok (r, s)
    ∧ (r = 0 ↔ walk (pg_mem s) root (va_path va) = None)
    ∧ (r ≠ 0 → ∃ e, pg_mem s !! r = Some e
        ∧ translate (pg_mem s) root va = if pte_present e then Some e else None).
Proof.
  intros Hwf. destruct (vmm_get_pte_wp s root va Hwf) as (r & E & Hr). exists r. split; [done|].
  unfold translate, leaf. destruct (walk (pg_mem s) root (va_path va)) as [pt|].
  - destruct Hr as (Er & Hn & [e He]). split; [done|]. intros _. exists e. split; [done|].
    simpl. by rewrite <- Er, He.
  - split; [done|]. by intros ?.
Qed.

(** C19: releasing a user address space: when no frame is reached twice and all
    reached frames are allocated, [user_pgtable_free_recursive] gives back exactly
    the frames of the lower tables and of the pages mapped in the user half, each
    once, and touches neither the root frame, nor the kernel half, nor memory. *)
Theorem user_pgtable_free_releases s root :
  pt_wf s root →
  NoDup (user_frames (pg_mem s) root 4) →
  Forall (fa_busy (pg_alloc s)) (user_frames (pg_mem s) root 4) →
  wp (user_pgtable_free_recursive root 4) s (λ _ s',
    pg_mem s' = pg_mem s ∧ fa_ok (pg_alloc s')
    ∧ ∀ k, k ∈ fa_free_set (pg_alloc s') ↔ k ∈ fa_free_set (pg_alloc s)
        ∨ ∃ p i e, (length p < 4)%nat ∧ vpath (p ++ [i])
            ∧ (∀ j, head (p ++ [i]) = Some j → j < 256)
            ∧ leaf (pg_mem s) root p i = Some e ∧ frame_of e = k).
Proof.
  intros Hwf Hnd Hb. unfold wp. rewrite user_pgtable_free_refines
    by (apply (pt_wf_tables_present s root []); done || lia || constructor).
  change (wp (on_alloc (free_frames (user_frames (pg_mem s) root 4))) s (λ _ s',
    pg_mem s' = pg_mem s ∧ fa_ok (pg_alloc s')
    ∧ ∀ k, k ∈ fa_free_set (pg_alloc s') ↔ k ∈ fa_free_set (pg_alloc s)
        ∨ ∃ p i e, (length p < 4)%nat ∧ vpath (p ++ [i])
            ∧ (∀ j, head (p ++ [i]) = Some j → j < 256)
            ∧ leaf (pg_mem s) root p i = Some e ∧ frame_of e = k)).
  unfold on_alloc. apply wp_zoom. eapply wp_mono; [apply free_frames_wp; [apply Hwf|done|done]|].
  cbn beta. intros _ a' (Hok & _ & Hfs). split; [done|]. split; [done|]. intros k. simpl.
  rewrite Hfs, elem_of_union, elem_of_list_to_set, elem_of_user_frames by lia.
  split.
  - intros [(p & i & e & H1 & H2 & H3 & H4)|H]; [right|by left]. exists p, i, e. auto.
  - intros [H|(p & i & e & H1 & H2 & H3 & H4)]; [by right|left]. exists p, i, e. auto.
Qed.

(** Memory-map entries below 64 TiB. *)
Definition low_entry (e : memmap_entry) : Prop := 0 ≤ base e ∧ 0 ≤ length_ e ∧ base e + length_ e ≤ 2 ^ 46 - PAGE_SIZE.

(** [pa] is a page of an entry that the kernel maps. *)
Definition entry_page (e : memmap_entry) (pa : Z) : Prop :=
  mapped_type (type_ e) = true
  ∧ ALIGN_DOWN (base e) PAGE_SIZE ≤ pa < ALIGN_UP (base e + length_ e) PAGE_SIZE
  ∧ pa mod PAGE_SIZE = 0.

Section init_maps.
  Context (HHDM : HHDM_OFFSET = KERNEL_HHDM_BASE).
  Context (size kva_base kpa_base : Z) (mmap : list memmap_entry).
  Context (Hmmap : Forall low_entry mmap).
  Context (Hsize : size mod PAGE_SIZE = 0) (Hkva : kva_base mod PAGE_SIZE = 0) (Hkpa : kpa_base mod PAGE_SIZE = 0).
  Context (Hk1 : KERNEL_IMAGE_BASE ≤ kva_base) (Hk2 : kva_base + size ≤ 2 ^ 64).
  Context (Hk3 : 0 ≤ kpa_base) (Hk4 : kpa_base + size ≤ 2 ^ 52).

Lemma vpn_user va : 0 ≤ va < 2 ^ 47 → vpn va = va / PAGE_SIZE.
Proof.
  intros. unfold vpn, PAGE_SIZE. apply Z.mod_small. Z.to_euclidean_division_equations; lia.
Qed.
Lemma vpn_direct pa : 0 ≤ pa < 2 ^ 47 → vpn (KERNEL_HHDM_BASE + pa) = 2 ^ 35 + pa / PAGE_SIZE.
Proof.
  intros. unfold vpn, PAGE_SIZE, KERNEL_HHDM_BASE. Z.to_euclidean_division_equations; lia.
Qed.
Lemma vpn_image va : KERNEL_IMAGE_BASE ≤ va < 2 ^ 64 → vpn va = va / PAGE_SIZE - 2 ^ 52 + 2 ^ 36.
Proof.
  intros. unfold vpn, PAGE_SIZE, KERNEL_IMAGE_BASE in *. Z.to_euclidean_division_equations; lia.
Qed.

Lemma page_eq a b : a mod PAGE_SIZE = 0 → b mod PAGE_SIZE = 0 → a / PAGE_SIZE = b / PAGE_SIZE → a = b.
Proof. unfold PAGE_SIZE. intros. Z.to_euclidean_division_equations; lia. Qed.

(** The three kinds of mapping [init_maps] holds. *)
Lemma elem_of_kernel_maps va pa :
  (va, pa) ∈ kernel_maps size kva_base kpa_base ↔
  ∃ i, 0 ≤ i < size ∧ i mod PAGE_SIZE = 0 ∧ va = kva_base + i ∧ pa = kpa_base + i.
Proof using All.
  unfold kernel_maps. rewrite list_elem_of_fmap. setoid_rewrite elem_of_pages; [|by rewrite Z.sub_0_r].
  setoid_rewrite Z.sub_0_r. unfold KERNEL_IMAGE_BASE in *. split.
  - intros (i & [= -> ->] & Hi & Hm). exists i. rewrite !u64_small by lia. auto.
  - intros (i & Hi & Hm & -> & ->). exists i. by rewrite !u64_small by lia.
Qed.

Lemma elem_of_entry_maps e va pa :
  e ∈ mmap →
  (va, pa) ∈ entry_maps e ↔
  entry_page e pa ∧ 0 ≤ pa < 2 ^ 46 ∧ (va = KERNEL_HHDM_BASE + pa ∨ (va = pa ∧ pa < 0x100000000)).
Proof using All.
  intros He. assert (low_entry e) as (H1 & H2 & H3) by by eapply Forall_forall in Hmmap.
  unfold entry_page, entry_maps. rewrite u64_small by (unfold PAGE_SIZE in *; lia).
  destruct (page_align_down (base e)) as [Hdm Hd]; [done|].
  destruct (page_align_up (base e + length_ e)) as [Hum Hu]; [lia|unfold PAGE_SIZE in *; lia|].
  set (start := ALIGN_DOWN _ _) in *. set (stop := ALIGN_UP _ _) in *.
  destruct (mapped_type (type_ e)); [|split; [by inversion 1|naive_solver]].
  assert (0 ≤ start) by (unfold PAGE_SIZE in *; Z.to_euclidean_division_equations; lia).
  assert (∀ p stop', stop' mod PAGE_SIZE = 0 → p ∈ pages start stop' ↔ start ≤ p < stop' ∧ p mod PAGE_SIZE = 0) as Hpg.
  { intros p stop' Hm. rewrite elem_of_pages; unfold PAGE_SIZE in *; Z.to_euclidean_division_equations; lia. }
  rewrite elem_of_app. unfold direct_map. rewrite list_elem_of_fmap. rewrite HHDM.
  setoid_rewrite Hpg; [|done].
  assert ((va, pa) ∈ (if 0x100000000 <=? start then []
     else identity_map start (if 0x100000000 <? stop then 0x100000000 else stop))
     ↔ va = pa ∧ start ≤ pa < stop ∧ pa mod PAGE_SIZE = 0 ∧ pa < 0x100000000) as ->.
  { destruct (Z.leb_spec 0x100000000 start); [split; [by inversion 1|lia]|].
    unfold identity_map. rewrite list_elem_of_fmap.
    setoid_rewrite Hpg; [|by destruct (_ <? _)].
    split; [intros (p & [= -> ->] & Hp & Hm)|intros (-> & Hp & Hm & ?); exists pa; split; [done|]];
      destruct (Z.ltb_spec 0x100000000 stop); lia. }
  unfold KERNEL_HHDM_BASE, PAGE_SIZE in *. split.
  - intros [(p & [= -> ->] & Hp & Hm)|(-> & Hp & Hm & Hl)].
    + rewrite u64_small by lia. split; [done|]. split; [lia|left; lia].
    + split; [done|]. split; [lia|right; lia].
  - intros ((_ & Hp & Hm) & Hb & [->|[-> Hl]]).
    + left. exists pa. rewrite u64_small by lia. split; [f_equal; lia|done].
    + right. done.
Qed.

Lemma elem_of_init_maps va pa :
  (va, pa) ∈ init_maps size kva_base kpa_base mmap ↔
  (va, pa) ∈ kernel_maps size kva_base kpa_base ∨ ∃ e, e ∈ mmap ∧ (va, pa) ∈ entry_maps e.
Proof.
  unfold init_maps. rewrite elem_of_app, (list_elem_of_In (concat _)), in_concat.
  setoid_rewrite in_map_iff. setoid_rewrite <- list_elem_of_In. naive_solver.
Qed.

(** All mappings of the page of [va] in [init_maps] agree with the given one. *)
Lemma init_maps_agree va pa :
  (va, pa) ∈ init_maps size kva_base kpa_base mmap →
  ∀ va' pa', (va', pa') ∈ init_maps size kva_base kpa_base mmap → vpn va' = vpn va → pa' = pa.
Proof using All.
  assert (∀ v p, (v, p) ∈ init_maps size kva_base kpa_base mmap →
    (∃ i, 0 ≤ i < size ∧ i mod PAGE_SIZE = 0 ∧ p = kpa_base + i
          ∧ vpn v = (kva_base + i) / PAGE_SIZE - 2 ^ 52 + 2 ^ 36)
    ∨ (p mod PAGE_SIZE = 0 ∧ 0 ≤ p < 2 ^ 46 ∧ vpn v = 2 ^ 35 + p / PAGE_SIZE)
    ∨ (p mod PAGE_SIZE = 0 ∧ 0 ≤ p < 0x100000000 ∧ vpn v = p / PAGE_SIZE)) as Hkind.
  { intros v p [Hk|(e & He & Hm)]%elem_of_init_maps.
    - apply elem_of_kernel_maps in Hk as (i & Hi & Hm & -> & ->). left. exists i.
      do 3 (split; [done|]). apply vpn_image. lia.
    - right. apply (elem_of_entry_maps e) in Hm as ((_ & _ & Hm) & Hb & [->|[-> Hl]]); [| |done].
      + left. do 2 (split; [done|]). apply vpn_direct. lia.
      + right. do 2 (split; [lia|]). apply vpn_user. lia. }
  intros Hin va' pa' Hin' Hv. apply Hkind in Hin. apply Hkind in Hin'. rewrite Hv in Hin'.
  unfold KERNEL_IMAGE_BASE, PAGE_SIZE in *.
  destruct Hin as [(i & Hi & Hm & -> & E)|[(Hm & Hb & E)|(Hm & Hb & E)]], Hin' as [(i' & Hi' & Hm' & -> & E')|[(Hm' & Hb' & E')|(Hm' & Hb' & E')]];
    rewrite E in E'; clear E Hv Hmmap; Z.to_euclidean_division_equations; lia.
Qed.
End init_maps.

(** C20: the kernel's address space: on a memory map below 64 TiB and a
    page-aligned kernel image, [paging_init] does not fault, installs a
    well-formed PML4 (its frame in CR3, its direct-map address in [kernel_pml4])
    and, unless it used up every frame, the MMU then answers the identity on the
    direct map of every page of usable, boot-loader, kernel and framebuffer
    memory, the load address on the whole kernel image, and the identity on
    mapped memory below 4 GiB.  It takes no more frames than the PML4 and one for
    every table these mappings need. *)
Theorem paging_init_address_space s k_start k_end kva_base kpa_base total mmap :
  let ksize := ALIGN_UP (u64 (k_end - k_start)) PAGE_SIZE in
  HHDM_OFFSET = KERNEL_HHDM_BASE →
  fa_ok (pg_alloc s) → hhdm_fits (pg_alloc s) → fa_free_set (pg_alloc s) ≠ ∅ →
  Forall low_entry mmap →
  kva_base mod PAGE_SIZE = 0 → kpa_base mod PAGE_SIZE = 0 → ksize mod PAGE_SIZE = 0 →
  KERNEL_IMAGE_BASE ≤ kva_base → kva_base + ksize ≤ 2 ^ 64 → 0 ≤ kpa_base → kpa_base + ksize ≤ 2 ^ 52 →
  wp (paging_init k_start k_end (Some (kva_base, kpa_base)) total mmap) s (λ _ s',
    let root := kernel_pml4 s' in
    pt_wf s' root ∧ root = pa2kva (pg_cr3 s')
    ∧ (size (fa_free_set (pg_alloc s)) ≤ size (fa_free_set (pg_alloc s')) + S (size (map_tables (init_maps ksize kva_base kpa_base mmap))))%nat ∧
    (fa_free_set (pg_alloc s') ≠ ∅ →
      (∀ e pa, e ∈ mmap → entry_page e pa →
         mmu (pg_mem s') root (KERNEL_HHDM_BASE + pa) = Some pa
         ∧ (pa < 0x100000000 → mmu (pg_mem s') root pa = Some pa))
      ∧ (∀ i, 0 ≤ i < ksize → i mod PAGE_SIZE = 0 →
         mmu (pg_mem s') root (kva_base + i) = Some (kpa_base + i)))).
Proof.
  intros ksize HHDM Hok Hfit Hne Hmm Hkva Hkpa Hsz Hk1 Hk2 Hk3 Hk4.
  eapply wp_mono; [by apply paging_init_wp|]. cbn beta. fold ksize.
  intros _ s' (k & Hk & Hroot & Hcr3 & Hwf & Ht & Hcost). cbv zeta. rewrite Hroot, Hcr3.
  split; [done|]. pose proof (fa_range _ _ Hok Hk).
  split; [symmetry; apply (pa2kva_frame _ Hfit); lia|].
  split; [exact Hcost|]. intros Hnem. destruct Ht as [He|Ht]; [done|].
  assert (∀ va pa, (va, pa) ∈ init_maps ksize kva_base kpa_base mmap → 0 ≤ pa < 2 ^ 52 →
    va mod PAGE_SIZE = 0 → pa mod PAGE_SIZE = 0 → mmu (pg_mem s') (kva k) va = Some pa) as Hmmu.
  { intros va pa Hin Hb Hva Hpa. unfold mmu. rewrite Ht.
    rewrite (apply_maps_agree _ _ va pa); [|right; by exists va|].
    - simpl. rewrite (page_div pa Hpa), leaf_entry_addr; [|unfold PAGE_SIZE in *; Z.to_euclidean_division_equations; lia|done].
      unfold OFFSET. change 0xFFF with (Z.ones 12). rewrite Z.land_ones by lia.
      change (2 ^ 12) with PAGE_SIZE. by rewrite Hva, Z.add_0_r.
    - by apply (init_maps_agree HHDM ksize kva_base kpa_base mmap). }
  split.
  - intros e pa He Hep. assert (low_entry e) as (H1 & H2 & H3) by by eapply Forall_forall in Hmm.
    destruct (Hep) as (_ & Hb & Hpa). destruct (page_align_down (base e)) as [Hdm Hd]; [done|].
    destruct (page_align_up (base e + length_ e)) as [Hum Hu]; [lia|unfold PAGE_SIZE in *; lia|].
    assert (0 ≤ pa < 2 ^ 46) as Hpb by (unfold PAGE_SIZE in *; Z.to_euclidean_division_equations; lia).
    split; [|intros Hlow]; (apply Hmmu; [|lia| |done]).
    + apply elem_of_init_maps. right. exists e. split; [done|].
      apply (elem_of_entry_maps HHDM ksize kva_base kpa_base mmap); auto.
    + unfold KERNEL_HHDM_BASE, PAGE_SIZE in *. Z.to_euclidean_division_equations; lia.
    + apply elem_of_init_maps. right. exists e. split; [done|].
      apply (elem_of_entry_maps HHDM ksize kva_base kpa_base mmap); auto.
    + done.
  - intros i Hi Him. apply Hmmu; [|lia| |].
    + apply elem_of_init_maps. left. apply (elem_of_kernel_maps HHDM ksize kva_base kpa_base mmap); try done.
      by exists i.
    + unfold PAGE_SIZE in *. Z.to_euclidean_division_equations; lia.
    + unfold PAGE_SIZE in *. Z.to_euclidean_division_equations; lia.
Qed.
End paging.

(** * Witnesses: page tables on the frames of [pmm_example] *)

Section example.
Let H := KERNEL_HHDM_BASE.

(** Frame 4 holds an empty PML4. *)
Definition pg_example : pg_st pmm_st :=
  PgSt pmm_example (list_to_map (map (λ i, (slot (kva H 4) i, 0)) (seqZ 0 512))) 0 0.
Definition va_example : Z := 0x400123.

Lemma pg_example_ok : fa_ok (pg_alloc pg_example).
Proof. by apply pmm_okb_sound; vm_compute. Qed.

Definition busy4 : fa_busy (pg_alloc pg_example) 4 :=
  conj (conj eq_refl eq_refl) (bool_decide_unpack (4 ∉ free_set pmm_example) I).

Lemma pg_example_wf : pt_wf H pg_example (kva H 4).
Proof.
  apply fresh_root_wf; [apply pg_example_ok|by vm_compute|exact busy4|].
  intros i Hi. apply elem_of_list_to_map_1.
  - rewrite <- list_fmap_compose. apply NoDup_fmap_2_strong; [|apply NoDup_seqZ].
    intros x y Hx Hy. apply elem_of_seqZ in Hx, Hy. simpl. intros E.
    by apply (slot_inj H pmm_example) in E as [_ E]; [|by vm_compute|by vm_compute|by vm_compute|unfold vidx; lia..].
  - apply list_elem_of_fmap. exists i. split; [done|]. apply elem_of_seqZ. unfold vidx in Hi. lia.
Qed.

Definition pg_mapped : pg_st pmm_st :=
  match vmm_map_page H (kva H 4) va_example (5 * PAGE_SIZE) 7 pg_example with
  | Ok (_, s) => s
  | Crash _ => pg_example
  end.

Lemma vmm_map_page_translates_witness :
  vmm_map_page H (kva H 4) va_example (5 * PAGE_SIZE) 7 pg_example = Ok (tt, pg_mapped)
  ∧ mmu H (pg_mem pg_mapped) (kva H 4) (va_example + 1) = Some 0x5124.
Proof.
  destruct (wp_inv _ _ _ (vmm_map_page_translates H pg_example (kva H 4) va_example 5 7 pg_example_wf
    ltac:(lia) ltac:(unfold PAGE_SIZE; lia) eq_refl)) as ([] & s' & E & _ & _ & Ht).
  assert (pg_mapped = s') as Es by (unfold pg_mapped; by rewrite E).
  rewrite Es. split; [exact E|]. destruct Ht as [Ht|(_ & Hc & _)].
  - rewrite Ht. by vm_compute.
  - exfalso. revert Hc. change (¬ (size (fa_free_set (pg_alloc pg_example)) < 3)%nat).
    apply (bool_decide_unpack _). by vm_compute.
Defined.

Lemma pg_mapped_ok :
  vmm_map_page H (kva H 4) va_example (5 * PAGE_SIZE) 7 pg_example = Ok (tt, pg_mapped) ∧ pt_wf H pg_mapped (kva H 4).
Proof.
  destruct (wp_inv _ _ _ (vmm_map_page_wp H pg_example (kva H 4) va_example (5 * PAGE_SIZE) 7 pg_example_wf
    ltac:(unfold PAGE_SIZE; lia) eq_refl)) as ([] & s' & E & Hm).
  assert (pg_mapped = s') as Es by (unfold pg_mapped; by rewrite E). rewrite Es. split; [done|apply Hm].
Qed.

Lemma vmm_get_pte_finds_witness :
  ∃ r, vmm_get_pte H (kva H 4) va_example pg_mapped = Ok (r, pg_mapped) ∧ pg_mem pg_mapped !! r = Some 0x5007.
Proof.
  destruct (vmm_get_pte_finds H pg_mapped (kva H 4) va_example (proj2 pg_mapped_ok)) as (r & E & H0 & H1).
  exists r. split; [exact E|].
  destruct (decide (r = 0)) as [Hr|Hr].
  - exfalso. apply H0 in Hr. clear - Hr. vm_compute in Hr. discriminate.
  - destruct (H1 Hr) as (e & He & Ht). rewrite He.
    assert (translate H (pg_mem pg_mapped) (kva H 4) va_example = Some 0x5007) as Hv by by vm_compute.
    rewrite Hv in Ht. clear - Ht. destruct (pte_present e); [symmetry; exact Ht|discriminate].
Defined.

Lemma user_pgtable_free_releases_witness :
  ∃ s', user_pgtable_free_recursive H (kva H 4) 4 pg_mapped = Ok (tt, s')
    ∧ 5 ∈ free_set (pg_alloc s').
Proof.
  destruct (wp_inv _ _ _ (user_pgtable_free_releases H pg_mapped (kva H 4) (proj2 pg_mapped_ok)
    ltac:(by apply (bool_decide_unpack _); vm_compute) ltac:(by apply (bool_decide_unpack _); vm_compute)))
    as ([] & s' & E & _ & _ & Hs).
  exists s'. split; [exact E|]. apply Hs. right.
  clear. exists [0; 0; 2], 0x0, 0x5007. split; [apply Nat.lt_succ_diag_r|].
  split; [unfold vpath, vidx; simpl; rewrite !Forall_cons, Forall_nil; lia|].
  split; [intros j [= <-]; lia|]. split; [by vm_compute|by vm_compute].
Defined.

(** A machine of 64 free frames with one usable region of two pages. *)
Definition boot_example : pg_st pmm_st :=
  PgSt (PmmSt [1; 0; 0; 0; 0; 0; 0; 0] 0 8 64 63 0 []) ∅ 0 0.

Lemma boot_example_ok :
  fa_ok (pg_alloc boot_example) ∧ hhdm_fits H (pg_alloc boot_example) ∧ fa_free_set (pg_alloc boot_example) ≠ ∅.
Proof.
  split; [by apply pmm_okb_sound; vm_compute|]. split; [by vm_compute|].
  apply (bool_decide_unpack (free_set (pg_alloc boot_example) ≠ ∅)). by vm_compute.
Qed.

Lemma paging_init_address_space_witness :
  ∃ s', paging_init H KERNEL_IMAGE_BASE (KERNEL_IMAGE_BASE + 4000) (Some (KERNEL_IMAGE_BASE, 0x200000)) 64
          [MemmapEntry 4096 8192 0] boot_example = Ok (tt, s')
    ∧ mmu H (pg_mem s') (kernel_pml4 s') (KERNEL_HHDM_BASE + 8192) = Some 8192.
Proof.
  destruct (wp_inv _ _ _ (paging_init_address_space H boot_example KERNEL_IMAGE_BASE (KERNEL_IMAGE_BASE + 4000)
    KERNEL_IMAGE_BASE 0x200000 64 [MemmapEntry 4096 8192 0] eq_refl (proj1 boot_example_ok)
    (proj1 (proj2 boot_example_ok)) (proj2 (proj2 boot_example_ok))
    ltac:(apply Forall_singleton; by vm_compute) eq_refl eq_refl eq_refl
    ltac:(by vm_compute) ltac:(by vm_compute) ltac:(by vm_compute) ltac:(by vm_compute)))
    as ([] & s' & E & _ & _ & _ & Hm).
  exists s'. split; [exact E|].
  assert (fa_free_set (pg_alloc s') ≠ ∅) as Hne.
  { assert (match paging_init H KERNEL_IMAGE_BASE (KERNEL_IMAGE_BASE + 4000) (Some (KERNEL_IMAGE_BASE, 0x200000)) 64
          [MemmapEntry 4096 8192 0] boot_example with Ok (_, s) => bool_decide (free_set (pg_alloc s) = ∅) | _ => true end = false) as Hc
      by by vm_compute.
    rewrite E in Hc. by apply bool_decide_eq_false in Hc. }
  destruct (Hm Hne) as [Hd _]. clear - Hd.
  refine (proj1 (Hd (MemmapEntry 4096 8192 0) 8192 _ _)).
  - apply list_elem_of_singleton. reflexivity.
  - split; [reflexivity|]. split; [|reflexivity]. vm_compute. split; congruence.
Defined.
End example.
