(* ===== verification/Range.v ===== *)
(** Range: what mapping a run of pages to fresh frames does to an address space, the
    loop that [mm_map_range] of [kernel/src/mm/vmm.c] and [kstack_init] of
    [mm/pmm.c] share. *)
From S2P Require Import Prelude Layout Frames Pmm Paging.

(** Page numbers of lower-half addresses, and of the pages of a run. *)
Lemma vpn_low va : 0 ≤ va < 2 ^ 47 → vpn va = va / PAGE_SIZE.
Proof. intros. unfold vpn, PAGE_SIZE. apply Z.mod_small. Z.to_euclidean_division_equations; lia. Qed.

Lemma vpn_add start j : vpn (start + j * PAGE_SIZE) = (vpn start + j) mod 2 ^ 36.
Proof. unfold vpn, PAGE_SIZE. rewrite Z.div_add by lia. by rewrite Zplus_mod_idemp_l. Qed.

Lemma vpn_page_ne start i j : 0 ≤ j < i → i < 2 ^ 36 → vpn (start + j * PAGE_SIZE) ≠ vpn (start + i * PAGE_SIZE).
Proof.
  intros Hj Hi. rewrite !vpn_add. pose proof (Z.mod_pos_bound (start / PAGE_SIZE) (2 ^ 36)). fold (vpn start) in *.
  Z.to_euclidean_division_equations; lia.
Qed.

(** Every page is one of the run or none of it. *)
Lemma vpn_in_run start n va :
  (∃ j, 0 ≤ j < n ∧ vpn va = vpn (start + j * PAGE_SIZE)) ∨ ∀ j, 0 ≤ j < n → vpn va ≠ vpn (start + j * PAGE_SIZE).
Proof.
  set (j := (vpn va - vpn start) mod 2 ^ 36).
  assert (0 ≤ vpn va < 2 ^ 36 ∧ 0 ≤ vpn start < 2 ^ 36) as [Ha Hs] by (split; apply Z.mod_pos_bound; lia).
  destruct (decide (j < n)) as [Hj|Hj].
  - left. exists j. split; [split; [apply Z.mod_pos_bound; lia|done]|]. rewrite vpn_add. unfold j.
    rewrite Zplus_mod_idemp_r. replace (_ + _) with (vpn va) by lia. by rewrite Z.mod_small.
  - right. intros i Hi. rewrite vpn_add. intros E. apply Hj. unfold j. rewrite E, Zminus_mod_idemp_l.
    replace (vpn start + i - vpn start) with i by lia. Z.to_euclidean_division_equations; lia.
Qed.

Section range.
  Context {A : Type} `{FA : FrameAlloc A}.
  Context (HHDM_OFFSET : Z).
  Implicit Types p : pg_st A.

(** From [p] to [p'] the pages from [start] were mapped to the frames [ks], all of
    which were free and none of which is a page table; nothing else changed, and at
    most four frames per page are used up.  A range of the lower half leaves other
    spaces alone. *)
Record range_mapped (root start flags : Z) (ks : list Z) p p' : Prop := {
  rm_wf : pt_wf HHDM_OFFSET p' root;
  rm_regs : same_regs p p';
  rm_frames : fa_frames (pg_alloc p') = fa_frames (pg_alloc p);
  rm_free : fa_free_set (pg_alloc p') ⊆ fa_free_set (pg_alloc p);
  rm_cost : Z.of_nat (size (fa_free_set (pg_alloc p))) ≤ Z.of_nat (size (fa_free_set (pg_alloc p'))) + 4 * zlen ks;
  rm_nodup : NoDup ks;
  rm_in j k : ks !! j = Some k →
    k ∈ fa_free_set (pg_alloc p) ∧ (k ∉ fa_free_set (pg_alloc p')) ∧ ¬ is_table HHDM_OFFSET p' root k
    ∧ translate HHDM_OFFSET (pg_mem p') root (start + Z.of_nat j * PAGE_SIZE) = Some (leaf_entry (k * PAGE_SIZE) flags);
  rm_out va : (∀ j, 0 ≤ j < zlen ks → vpn va ≠ vpn (start + j * PAGE_SIZE)) →
    translate HHDM_OFFSET (pg_mem p') root va = translate HHDM_OFFSET (pg_mem p) root va;
  rm_data k i : fa_busy (pg_alloc p) k → ¬ is_table HHDM_OFFSET p root k → vidx i →
    pg_mem p' !! slot (kva HHDM_OFFSET k) i = pg_mem p !! slot (kva HHDM_OFFSET k) i;
  rm_plain k : fa_busy (pg_alloc p) k → ¬ is_table HHDM_OFFSET p root k → ¬ is_table HHDM_OFFSET p' root k;
  rm_old q t : vpath q → (length q ≤ 3)%nat →
    walk HHDM_OFFSET (pg_mem p) root q = Some t → walk HHDM_OFFSET (pg_mem p') root q = Some t;
  rm_other r : 0 ≤ start → start + zlen ks * PAGE_SIZE ≤ 2 ^ 47 →
    pt_wf HHDM_OFFSET p r → private HHDM_OFFSET p root r → space_kept HHDM_OFFSET p p' root r
}.

Lemma range_mapped_refl root start flags p : pt_wf HHDM_OFFSET p root → range_mapped root start flags [] p p.
Proof. intros Hwf. constructor; try done; [change (zlen []) with 0; lia|apply NoDup_nil_2]. Qed.

(** The allocator's bookkeeping (its trace) does not matter. *)
Lemma range_mapped_push root start flags ks e p p' :
  range_mapped root start flags ks p p' → range_mapped root start flags ks p (push_event e p').
Proof.
  intros [H1 H2 H3 H4 H5 H6 H7 H8 H9 H10 H11 H12]. pose proof (wf_alloc _ _ _ H1) as Hok.
  assert (∀ r, pt_wf HHDM_OFFSET p' r → pt_wf HHDM_OFFSET (push_event e p') r) as Hwf.
  { intros r Hr. apply pt_wf_alloc; [done|by apply fa_trace_ok|by apply fa_trace_frames|by rewrite fa_trace_set]. }
  constructor; change (pg_mem (push_event e p')) with (pg_mem p'); change (pg_alloc (push_event e p')) with (push_event e (pg_alloc p'));
    rewrite ?fa_trace_set, ?fa_trace_frames; auto.
  intros r R1 R2 R3 R4. destruct (H12 r R1 R2 R3 R4). constructor; auto.
Qed.

Lemma range_mapped_pushed root start flags ks e p p' :
  fa_ok (pg_alloc p) → range_mapped root start flags ks (push_event e p) p' → range_mapped root start flags ks p p'.
Proof.
  intros Hok [H1 H2 H3 H4 H5 H6 H7 H8 H9 H10 H11 H12].
  change (pg_mem (push_event e p)) with (pg_mem p) in *. change (pg_alloc (push_event e p)) with (push_event e (pg_alloc p)) in *.
  unfold fa_busy in *. rewrite ?fa_trace_set, ?fa_trace_frames in *.
  constructor; auto.
  intros r R1 R2 R3 R4. destruct (H12 r R1 R2) as [S1 S2 S3 S4]; [|done|by constructor].
  apply pt_wf_alloc; [done|by apply fa_trace_ok|by apply fa_trace_frames|by rewrite fa_trace_set].
Qed.

(** What was mapped before is mapped. *)
Lemma range_mapped_mono root start flags ks p p' va :
  range_mapped root start flags ks p p' →
  is_Some (translate HHDM_OFFSET (pg_mem p) root va) → is_Some (translate HHDM_OFFSET (pg_mem p') root va).
Proof.
  intros Hr Hs. destruct (vpn_in_run start (zlen ks) va) as [(j & Hj & E)|Hno].
  - destruct (lookup_lt_is_Some_2 ks (Z.to_nat j)) as [k Hk]; [unfold zlen in *; lia|].
    destruct (rm_in _ _ _ _ _ _ Hr _ k Hk) as (_ & _ & _ & Ht). rewrite Z2Nat.id in Ht by lia.
    rewrite <- (translate_vpn HHDM_OFFSET _ _ _ va) in Ht; [by rewrite Ht|done].
  - by rewrite (rm_out _ _ _ _ _ _ Hr).
Qed.

(** One page more, with enough frames for it and its tables. *)
Lemma range_step root start flags ks p p1 :
  let i := zlen ks in
  fa_ok (pg_alloc p) → range_mapped root start flags ks p p1 → i < 2 ^ 36 →
  0 ≤ flags < PAGE_SIZE → pte_present flags = true → (4 ≤ size (fa_free_set (pg_alloc p1)))%nat →
  ∃ k p2 p3, on_alloc fa_alloc p1 = Ok (k * PAGE_SIZE, p2) ∧ 0 < k
    ∧ vmm_map_page HHDM_OFFSET root (start + i * PAGE_SIZE) (k * PAGE_SIZE) flags p2 = Ok (tt, p3)
    ∧ range_mapped root start flags (ks ++ [k]) p p3 ∧ kernel_pml4 p2 = kernel_pml4 p1
    ∧ (size (fa_free_set (pg_alloc p1)) ≤ size (fa_free_set (pg_alloc p3)) + 4)%nat.
Proof.
  intros i Hok0 [Hwf Hreg Hfr Hfs Hco Hnd Hin Hout Hdat Hpl Hold Hoth] Hb Hfl Hp Hn.
  assert (0 ≤ i) as Hi by (unfold i, zlen; lia). pose proof (wf_alloc _ _ _ Hwf) as Hok.
  destruct (wp_inv _ _ _ (fa_alloc_spec _ Hok)) as (pa & a & Ea & Hok' & Hfr' & Hc).
  destruct Hc as [(_ & He & _)|(k & Hk & -> & Hset)].
  { rewrite He, size_empty in Hn. lia. }
  pose proof (fa_range _ _ Hok Hk) as Hkr. pose proof (λ k, fa_range _ k Hok0) as Hrange.
  set (p2 := set_pg_alloc a p1).
  assert (pt_wf HHDM_OFFSET p2 root) as Hwf2 by (apply pt_wf_alloc; [done|done|done|rewrite Hset; set_solver]).
  destruct (wp_inv _ _ _ (vmm_map_page_full HHDM_OFFSET p2 root (start + i * PAGE_SIZE) (k * PAGE_SIZE) flags Hwf2 Hfl Hp))
    as ([] & p3 & Em & (Hwf3 & Hreg3 & Hfr3 & Hfs3 & Hco3 & Ht) & Hke & _).
  assert (size (fa_free_set (pg_alloc p1)) = S (size (fa_free_set a))) as Hsz.
  { rewrite Hset, size_difference, size_singleton by set_solver. lia. }
  change (pg_alloc p2) with a in *.
  destruct Ht as [[Ht Ho]|(He & Hlt & _)]; [|simpl in Hlt; lia].
  exists k, p2, p3. split; [unfold on_alloc, zoom; by rewrite Ea|]. split; [lia|]. split; [exact Em|].
  split; [|split; [done|lia]].
  set (path := slot_path (start + i * PAGE_SIZE)) in *.
  assert (keeps HHDM_OFFSET root path p1 p3) as Hk'.
  { apply (keeps_trans HHDM_OFFSET root path _ p2); [by apply keeps_same|done|done|simpl; rewrite Hset; set_solver|done]. }
  assert (k ∉ fa_free_set (pg_alloc p3)) as Hkn by (intros Hc; apply Hfs3 in Hc; simpl in Hc; rewrite Hset in Hc; set_solver).
  assert (∀ k0, fa_busy a k0 → ¬ is_table HHDM_OFFSET p1 root k0 → ¬ is_table HHDM_OFFSET p3 root k0) as Hnt.
  { intros k0 Hb0 Hn0. by apply (keeps_not_table HHDM_OFFSET p2 p3 root path). }
  assert (∀ k0, fa_busy (pg_alloc p) k0 → fa_busy (pg_alloc p1) k0 ∧ fa_busy a k0) as Hbb.
  { intros k0 [Hr Hn0]. unfold fa_busy. rewrite Hfr', Hfr, Hset. set_solver. }
  constructor; cbn [set_pg_alloc pg_alloc p2] in *; unfold zlen in *; rewrite ?length_app; cbn [length].
  - done.
  - destruct Hreg, Hreg3. simpl in *. split; congruence.
  - congruence.
  - etransitivity; [exact Hfs3|]. simpl. rewrite Hset. set_solver.
  - simpl in *. lia.
  - apply NoDup_app. split; [done|]. split; [|apply NoDup_singleton]. intros x [jx Hx]%list_elem_of_lookup ->%list_elem_of_singleton.
    by destruct (Hin jx k Hx) as (_ & Hc & _).
  - intros j k0 Hj. apply lookup_app_Some in Hj as [Hj|[Hge Hj]].
    + destruct (Hin j k0 Hj) as (Hk1 & Hk2 & Hk3 & Hk4). split; [done|].
      assert (k0 ∉ fa_free_set a) as Hka by (rewrite Hset; set_solver).
      split; [intros Hc; by apply Hka, Hfs3|]. split.
      { apply Hnt; [|done]. split; [|done]. rewrite Hfr', Hfr. by apply Hrange. }
      rewrite Ho; [done|]. rewrite same_page_vpn. apply not_eq_sym, vpn_page_ne; [|done].
      apply lookup_lt_Some in Hj. lia.
    + apply list_lookup_singleton_Some in Hj as [Hj ->]. split; [by apply Hfs|]. split; [done|]. split.
      * apply Hnt; [split; [by rewrite Hfr'|rewrite Hset; set_solver]|].
        intros Hc. by destruct (is_table_busy _ _ _ _ Hwf Hc).
      * replace (start + Z.of_nat j * PAGE_SIZE) with (start + Z.of_nat (length ks) * PAGE_SIZE) by (repeat f_equal; lia). exact Ht.
  - intros va Hva. rewrite Ho.
    + apply Hout. intros j Hj. apply Hva. lia.
    + rewrite same_page_vpn. apply not_eq_sym, Hva. lia.
  - intros k0 j Hb0 Hn0 Hj. destruct (Hbb k0 Hb0) as [Hb1 _].
    rewrite (keeps_data HHDM_OFFSET _ _ _ _ k0 j Hk'); [by apply Hdat|done|by apply Hpl|done].
  - intros k0 Hb0 Hn0. apply Hnt; [by apply Hbb|by apply Hpl].
  - intros q t Hq Hl Hw. apply (ke_old _ _ _ _ _ Hk'); [done|done|by apply Hold].
  - intros r H0 Hlow Hr Hpr. destruct (Hoth r H0 ltac:(lia) Hr Hpr) as [Hr1 Hr2 Hr3 Hr4].
    assert (space_kept HHDM_OFFSET p1 p3 root r) as [Hr5 Hr6 Hr7 Hr8].
    { apply (keeps_other HHDM_OFFSET _ _ _ _ path); try done; [apply slot_path_low; unfold PAGE_SIZE in *; lia|apply Hwf3|congruence|].
      etransitivity; [exact Hfs3|]. simpl. rewrite Hset. set_solver. }
    constructor; [done|intros; by rewrite Hr6, Hr2|intros; by rewrite Hr7, Hr3|done].
Qed.

(** The part of another space that is its own does not notice when only tables of
    [root] and free frames change. *)
Lemma low_kept p p' root r :
  private HHDM_OFFSET p r root → pt_wf HHDM_OFFSET p r →
  (∀ k i, fa_busy (pg_alloc p) k → ¬ is_table HHDM_OFFSET p root k → vidx i →
     pg_mem p' !! slot (kva HHDM_OFFSET k) i = pg_mem p !! slot (kva HHDM_OFFSET k) i) →
  (∀ q, vpath q → (length q ≤ 3)%nat → low_path q → walk HHDM_OFFSET (pg_mem p') r q = walk HHDM_OFFSET (pg_mem p) r q)
  ∧ (∀ i, vidx i → pg_mem p' !! slot r i = pg_mem p !! slot r i)
  ∧ ∀ va, 0 ≤ va < 2 ^ 47 → translate HHDM_OFFSET (pg_mem p') r va = translate HHDM_OFFSET (pg_mem p) r va.
Proof.
  intros Hpr Hwf Hm.
  assert (∀ q t i, vpath q → (length q ≤ 3)%nat → low_path q → vidx i → walk HHDM_OFFSET (pg_mem p) r q = Some t →
    pg_mem p' !! slot t i = pg_mem p !! slot t i) as Hs.
  { intros q t i Hq Hl Hlo Hi Hw. destruct (wf_table _ _ _ Hwf q t Hq Hl Hw) as (k & Hb & -> & _).
    apply Hm; [done| |done]. by apply (Hpr q). }
  assert (∀ q, vpath q → (length q ≤ 3)%nat → low_path q → walk HHDM_OFFSET (pg_mem p') r q = walk HHDM_OFFSET (pg_mem p) r q) as Hw.
  { intros q. induction q as [|i q IH] using rev_ind; [done|]. rewrite vpath_snoc, length_app. intros [Hq Hi] Hl Hlo. simpl in Hl.
    assert (low_path q) by (by apply (low_prefix q i _ Hlo)).
    rewrite !walk_snoc, IH by (done || lia). destruct (walk HHDM_OFFSET (pg_mem p) r q) as [t|] eqn:E; [|done]. simpl.
    by rewrite (Hs q t i) by (done || lia). }
  split; [done|]. split; [intros i Hi; apply (Hs [] r i); [apply Forall_nil_2|simpl; lia|done..]|].
  intros va Hva. assert (low_path (va_path va)) by (apply (low_prefix _ (PT_IDX va) (slot_path va)); [by apply slot_path_low|done]).
  apply leaf_ext; [apply Hw; [apply va_path_valid|done|done]|].
  intros t Ht. apply (Hs (va_path va)); [apply va_path_valid|done|done|apply idx_range|done].
Qed.
End range.
