(* ===== verification/CString.v ===== *)
(** CString: the kernel's [kernel/src/lib/string.c].  A [const char *] is the
    list of bytes from the pointer to the end of its object, a destination is
    the list of bytes it may write; reading or writing past the end of the
    object is [Crash OutOfBounds].  Source and destination are distinct objects,
    as they are at every call.  [strtok_r], which returns pointers into the
    string it cuts, works on one buffer and offsets into it. *)
From S2P Require Import Prelude.

(** Bytes of a string literal, with its terminator. *)
Fixpoint chars (s : string) : list Z :=
  match s with
  | EmptyString => []
  | String c s' => Z.of_N (Ascii.N_of_ascii c) :: chars s'
  end.
Definition lit (s : string) : list Z := chars s ++ [0].

(** * Operations *)

Fixpoint strlen_loop (s : list Z) (n : Z) : res Z :=
  match s with
  | [] => Crash OutOfBounds
  | c :: s' => if c =? 0 then Ok n else strlen_loop s' (u64 (n + 1))
  end.
Definition strlen (s : list Z) : res Z := strlen_loop s 0.

Fixpoint strcmp (a b : list Z) : res Z :=
  match a, b with
  | x :: a', y :: b' =>
    if negb (x =? 0) && (x =? y) then strcmp a' b' else Ok (x - y)
  | _, _ => Crash OutOfBounds
  end.

(** The test after the loop of [strncmp], with the count as the loop left it. *)
Definition strncmp_end (a b : list Z) (n : Z) : res Z :=
  if i32 n <? 0 then Ok 0 else
  match a, b with
  | x :: _, y :: _ => Ok (x - y)
  | _, _ => Crash OutOfBounds
  end.
Fixpoint strncmp (a b : list Z) (n : Z) : res Z :=
  let n' := u64 (n - 1) in
  if n =? 0 then strncmp_end a b n' else
  match a, b with
  | x :: a', y :: b' =>
    if negb (x =? 0) && (x =? y) then strncmp a' b' n' else strncmp_end a b n'
  | _, _ => Crash OutOfBounds
  end.

Fixpoint strcpy (dst src : list Z) : res (list Z) :=
  match dst, src with
  | _ :: dst', c :: src' =>
    if c =? 0 then Ok (c :: dst') else r ← strcpy dst' src'; Ok (c :: r)
  | _, _ => Crash OutOfBounds
  end.

Fixpoint memset (dst : list Z) (value : Z) (n : nat) {struct n} : res (list Z) :=
  match n, dst with
  | O, _ => Ok dst
  | S n', _ :: dst' => r ← memset dst' value n'; Ok (u8 value :: r)
  | S _, [] => Crash OutOfBounds
  end.

(** First loop copies while [n] lasts; the byte that ends it is not counted. *)
Fixpoint strncpy (dst src : list Z) (n : nat) {struct n} : res (list Z) :=
  match n with
  | O => Ok dst
  | S n' =>
    match dst, src with
    | _ :: dst', c :: src' =>
      r ← (if c =? 0 then memset dst' 0 n else strncpy dst' src' n'); Ok (c :: r)
    | _, _ => Crash OutOfBounds
    end
  end.

Fixpoint memcpy (dst src : list Z) (n : nat) {struct n} : res (list Z) :=
  match n with
  | O => Ok dst
  | S n' =>
    match dst, src with
    | _ :: dst', c :: src' => r ← memcpy dst' src' n'; Ok (c :: r)
    | _, _ => Crash OutOfBounds
    end
  end.

Fixpoint memcmp (a b : list Z) (n : nat) {struct n} : res Z :=
  match n with
  | O => Ok 0
  | S n' =>
    match a, b with
    | x :: a', y :: b' => if negb (x =? y) then Ok (x - y) else memcmp a' b' n'
    | _, _ => Crash OutOfBounds
    end
  end.

(** ** Numbers *)

Definition digits : list Z := lit "0123456789ABCDEF".

(** Writing a string and its terminator at the start of a buffer. *)
Fixpoint put (buffer bytes : list Z) {struct bytes} : res (list Z) :=
  match bytes, buffer with
  | [], _ => Ok buffer
  | c :: bytes', _ :: buffer' => r ← put buffer' bytes'; Ok (c :: r)
  | _ :: _, [] => Crash OutOfBounds
  end.

Definition nth_byte (l : list Z) (i : Z) : res Z :=
  match zlookup l i with Some b => Ok b | None => Crash OutOfBounds end.

(** [while (value != 0) { temp[i++] = digits[value % base]; value /= base; }];
    [room] is what is left of [temp]. *)
Fixpoint itoa_loop (room : nat) (value base : Z) (temp : list Z) : res (list Z) :=
  if value =? 0 then Ok temp else
  match room with
  | O => Crash OutOfBounds
  | S room' =>
    d ← nth_byte digits (Z.rem value base);
    itoa_loop room' (Z.quot value base) base (temp ++ [d])
  end.

Definition itoa (value : Z) (buffer : list Z) (base : Z) : res (list Z) :=
  if (base <? 2) || (16 <? base) then put buffer [0] else
  let is_negative := (value <? 0) && (base =? 10) in
  let value := if is_negative then i32 (- value) else value in
  if value =? 0 then put buffer [48; 0] else
  temp ← itoa_loop 32 value base [];
  temp ← (if (is_negative : bool) then
            if (length temp <? 32)%nat then Ok (temp ++ [45]) else Crash OutOfBounds
          else Ok temp);
  put buffer (rev temp ++ [0]).

(** [value < 0] is false on an unsigned operand. *)
Definition itoa_uint64 (value : Z) (buffer : list Z) (base : Z) : res (list Z) :=
  if (base <? 2) || (16 <? base) then put buffer [0] else
  if value =? 0 then put buffer [48; 0] else
  temp ← itoa_loop 64 value base [];
  put buffer (rev temp ++ [0]).

(** ** Tokens *)

(** The inner loop of [strtok_r]: is [c] in [delim]? *)
Fixpoint is_delim (c : Z) (delim : list Z) : res bool :=
  match delim with
  | [] => Crash OutOfBounds
  | d :: delim' =>
    if d =? 0 then Ok false else if c =? d then Ok true else is_delim c delim'
  end.

(** Loop 1: from offset [str], the offset of the first byte that is no delimiter. *)
Fixpoint skip_delims (fuel : nat) (buf : list Z) (str : Z) (delim : list Z) : res Z :=
  match fuel with
  | O => Crash OutOfFuel
  | S fuel' =>
    c ← nth_byte buf str;
    if c =? 0 then Ok str else
    b ← is_delim c delim;
    if b : bool then skip_delims fuel' buf (str + 1) delim else Ok str
  end.

(** Loop 3: cut the token at its end; returns the buffer and the new [*saveptr]. *)
Fixpoint cut_token (fuel : nat) (buf : list Z) (str : Z) (delim : list Z) : res (list Z * Z) :=
  match fuel with
  | O => Crash OutOfFuel
  | S fuel' =>
    c ← nth_byte buf str;
    if c =? 0 then Ok (buf, str) else
    b ← is_delim c delim;
    if b : bool then Ok (zinsert str 0 buf, str + 1) else cut_token fuel' buf (str + 1) delim
  end.

(** [str] is [None] for NULL; the answer is the buffer, the token (None for
    NULL) and [*saveptr]. *)
Definition strtok_r (buf : list Z) (str : option Z) (delim : list Z) (saveptr : Z)
  : res (list Z * option Z * Z) :=
  let str := match str with Some p => p | None => saveptr end in
  let fuel := S (length buf) in
  token ← skip_delims fuel buf str delim;
  c ← nth_byte buf token;
  if c =? 0 then Ok (buf, None, token) else
  r ← cut_token fuel buf token delim;
  Ok (r.1, Some token, r.2).

(** * Theory: strings as lists of characters *)

Definition chars_ok (l : list Z) : Prop := Forall (λ c, c ≠ 0) l.

#[export] Instance chars_ok_dec l : Decision (chars_ok l).
Proof. unfold chars_ok. apply _. Defined.

(** [s] begins with the characters [l] and a terminator. *)
Definition cstring (s l : list Z) : Prop := chars_ok l ∧ ∃ tail, s = l ++ 0 :: tail.

Lemma cstring_nil s : cstring (0 :: s) [].
Proof. split; [constructor|by exists s]. Qed.
Lemma cstring_cons c s l : cstring (c :: s) (c :: l) ↔ c ≠ 0 ∧ cstring s l.
Proof.
  unfold cstring, chars_ok. rewrite Forall_cons. split.
  - intros [[Hc Hl] [t [= ->]]]. eauto.
  - intros [Hc [Hl [t ->]]]. eauto.
Qed.
Lemma cstring_inv s l :
  cstring s l → (∃ t, s = 0 :: t ∧ l = []) ∨ ∃ c s' l', s = c :: s' ∧ l = c :: l' ∧ c ≠ 0 ∧ cstring s' l'.
Proof.
  intros [Hl [t ->]]. destruct l as [|c l]; [left; by exists t|]. right.
  exists c, (l ++ 0 :: t), l. split; [done|]. split; [done|]. apply cstring_cons. split; [done|by exists t].
Qed.
Lemma cstring_lit l : chars_ok l → cstring (l ++ [0]) l.
Proof. intros Hl. split; [done|by exists []]. Qed.

(** A buffer holds at most one string. *)
Lemma cstring_unique s l l' : cstring s l → cstring s l' → l = l'.
Proof.
  revert l l'. induction s as [|c s IH]; intros l l' H H';
    apply cstring_inv in H as [(t & E & ->)|(c1 & s1 & l1 & E & -> & Hc & H)]; try done;
    apply cstring_inv in H' as [(t' & E' & ->)|(c2 & s2 & l2 & E' & -> & Hc' & H')]; simplify_eq; try done.
  f_equal. by apply IH.
Qed.

Lemma strlen_loop_spec s l n :
  cstring s l → 0 ≤ n → n + zlen l < 2 ^ 64 → strlen_loop s n = Ok (n + zlen l).
Proof.
  revert l n. induction s as [|c s IH]; intros l n Hs Hn Hb;
    apply cstring_inv in Hs as [(t & E & ->)|(c1 & s1 & l1 & E & -> & Hc & Hs)]; simplify_eq; simpl.
  - by rewrite Z.add_0_r.
  - rewrite (proj2 (Z.eqb_neq c1 0) Hc). unfold zlen in *. cbn [length] in *.
    rewrite (IH l1) by (done || (rewrite ?u64_small; lia)). rewrite u64_small by lia. f_equal. lia.
Qed.

Lemma strlen_spec s l : cstring s l → zlen l < 2 ^ 64 → strlen s = Ok (zlen l).
Proof. intros Hs Hb. unfold strlen. by rewrite (strlen_loop_spec s l). Qed.

(** The order [strcmp] decides. *)
Fixpoint str_lt (a b : list Z) : Prop :=
  match a, b with
  | _, [] => False
  | [], _ :: _ => True
  | x :: a', y :: b' => x < y ∨ (x = y ∧ str_lt a' b')
  end.

Definition bytes_ok (l : list Z) : Prop := Forall (λ c, 0 < c < 256) l.
#[export] Instance bytes_ok_dec l : Decision (bytes_ok l).
Proof. unfold bytes_ok. apply _. Defined.
Lemma bytes_chars l : bytes_ok l → chars_ok l.
Proof. intros H. eapply Forall_impl; [exact H|]. cbn beta. lia. Qed.

Lemma strcmp_spec a b la lb :
  cstring a la → cstring b lb → bytes_ok la → bytes_ok lb →
  ∃ r, strcmp a b = Ok r ∧ (r = 0 ↔ la = lb) ∧ (r < 0 ↔ str_lt la lb).
Proof.
  revert b la lb. induction a as [|x a IH]; intros b la lb Ha Hb Hla Hlb;
    apply cstring_inv in Ha as [(t & E & ->)|(x1 & a1 & la1 & E & -> & Hx & Ha)]; simplify_eq;
    apply cstring_inv in Hb as [(t' & E' & ->)|(y & b1 & lb1 & E' & -> & Hy & Hb)]; simplify_eq; simpl.
  - exists 0. split; [done|]. by split.
  - apply Forall_cons in Hlb as [? _]. exists (0 - y). split; [done|]. split; [|lia]. split; [lia|done].
  - apply Forall_cons in Hla as [? _]. destruct (Z.eqb_spec x1 0); [done|].
    simpl. destruct (Z.eqb_spec x1 0); [done|]. exists (x1 - 0). split; [done|]. split; [|lia].
    split; [lia|done].
  - apply Forall_cons in Hla as [? Hla]. apply Forall_cons in Hlb as [? Hlb].
    destruct (Z.eqb_spec x1 0); [done|]. simpl. destruct (Z.eqb_spec x1 y) as [->|Hne].
    + destruct (IH b1 la1 lb1 Ha Hb Hla Hlb) as (r & -> & H1 & H2). exists r. split; [done|].
      rewrite H1, H2. split; [naive_solver|]. split; [by right|]. intros [?|[_ ?]]; [lia|done].
    + exists (x1 - y). split; [done|]. split; [split; [lia|naive_solver]|]. split; [left; lia|].
      intros [?|[? _]]; lia.
Qed.

Lemma strcmp_eq a b la lb :
  cstring a la → cstring b lb → ∃ r, strcmp a b = Ok r ∧ (r = 0 ↔ la = lb).
Proof.
  revert b la lb. induction a as [|x a IH]; intros b la lb Ha Hb;
    apply cstring_inv in Ha as [(t & E & ->)|(x1 & a1 & la1 & E & -> & Hx & Ha)]; simplify_eq;
    apply cstring_inv in Hb as [(t' & E' & ->)|(y & b1 & lb1 & E' & -> & Hy & Hb)]; simplify_eq; simpl.
  - by exists 0.
  - exists (0 - y). split; [done|]. split; [lia|done].
  - rewrite (proj2 (Z.eqb_neq x1 0) Hx). simpl.
    exists (x1 - 0). split; [done|]. split; [lia|done].
  - rewrite (proj2 (Z.eqb_neq x1 0) Hx). simpl. destruct (Z.eqb_spec x1 y) as [->|Hne].
    + destruct (IH b1 la1 lb1 Ha Hb) as (r & -> & H1). exists r. split; [done|].
      rewrite H1. naive_solver.
    + exists (x1 - y). split; [done|]. split; [lia|naive_solver].
Qed.

(** ** Copies *)

Lemma strcpy_spec dst src l :
  cstring src l →
  strcpy dst src = if decide (length l < length dst)%nat
                   then Ok (l ++ 0 :: drop (S (length l)) dst) else Crash OutOfBounds.
Proof.
  revert dst l. induction src as [|c src IH]; intros dst l Hs;
    apply cstring_inv in Hs as [(t & E & ->)|(c1 & s1 & l1 & E & -> & Hc & Hs)]; simplify_eq.
  - destruct dst as [|b dst]; [done|]. by rewrite decide_True by (simpl; lia).
  - destruct dst as [|b dst]; [by rewrite decide_False by (simpl; lia)|]. cbn [strcpy].
    rewrite (proj2 (Z.eqb_neq c1 0) Hc), (IH dst l1 Hs). cbn [mbind res_bind].
    repeat case_decide; simpl in *; (done || lia).
Qed.

Lemma memset_spec dst v n :
  memset dst v n = if decide (n ≤ length dst)%nat
                   then Ok (replicate n (u8 v) ++ drop n dst) else Crash OutOfBounds.
Proof.
  revert dst. induction n as [|n IH]; intros dst; [by rewrite decide_True by lia|].
  destruct dst as [|b dst]; [by rewrite decide_False by (simpl; lia)|]. cbn [memset]. rewrite IH.
  repeat case_decide; simpl in *; (done || lia).
Qed.

Lemma memcpy_spec dst src n :
  (n ≤ length dst)%nat → (n ≤ length src)%nat →
  memcpy dst src n = Ok (take n src ++ drop n dst).
Proof.
  revert dst src. induction n as [|n IH]; intros dst src Hd Hs; simpl; [done|].
  destruct dst as [|b dst], src as [|c src]; simpl in *; try lia. by rewrite IH by lia.
Qed.

(** [strncpy] on a source shorter than [n] needs [n + 1] bytes. *)
Lemma strncpy_spec dst src l n :
  cstring src l →
  strncpy dst src n =
    if decide (n ≤ length l)%nat then
      if decide (n ≤ length dst)%nat then Ok (take n l ++ drop n dst) else Crash OutOfBounds
    else if decide (n < length dst)%nat
      then Ok (l ++ replicate (S n - length l) 0 ++ drop (S n) dst) else Crash OutOfBounds.
Proof.
  revert dst l n. induction src as [|c src IH]; intros dst l n Hs;
    apply cstring_inv in Hs as [(t & E & ->)|(c1 & s1 & l1 & E & -> & Hc & Hs)]; simplify_eq;
    (destruct n as [|n]; [by rewrite !decide_True by lia|]);
    (destruct dst as [|b dst]; [by repeat case_decide; simpl in *; try done; lia|]); cbn [strncpy].
  - change (Z.eqb 0 0) with true. cbv iota. change (match dst with [] => Crash OutOfBounds | _ :: dst' => r ← memset dst' 0 n; Ok (u8 0 :: r) end)
      with (memset dst 0 (S n)).
    rewrite (memset_spec dst 0 (S n)). repeat case_decide; simpl in *; try done; lia.
  - rewrite (proj2 (Z.eqb_neq c1 0) Hc), (IH dst l1 n Hs).
    repeat case_decide; simpl in *; try done; lia.
Qed.

(** ** Numbers *)

(** What a digit is worth, and the number a digit string denotes. *)
Definition digit_val (c : Z) : Z := if c <=? 57 then c - 48 else c - 55.
Definition parse (base : Z) (s : list Z) : Z := foldl (λ acc c, acc * base + digit_val c) 0 s.
Definition is_digit (base : Z) (c : Z) : Prop := (48 ≤ c ≤ 57 ∨ 65 ≤ c ≤ 70) ∧ 0 ≤ digit_val c < base.

Lemma digits_lookup r :
  0 ≤ r < 16 → ∃ c, nth_byte digits r = Ok c ∧ (48 ≤ c ≤ 57 ∨ 65 ≤ c ≤ 70) ∧ digit_val c = r.
Proof.
  intros Hr. assert (r ∈ seqZ 0 16) as Hin by (apply elem_of_seqZ; lia). clear Hr. revert r Hin.
  assert (forallb (λ r, match zlookup digits r with
    | Some c => ((48 <=? c) && (c <=? 57) || (65 <=? c) && (c <=? 70)) && (digit_val c =? r)
    | None => false end) (seqZ 0 16) = true) as HF by by vm_compute.
  rewrite forallb_forall in HF. intros r Hr%list_elem_of_In%HF.
  unfold nth_byte. destruct (zlookup digits r) as [c|]; [|done]. exists c. split; [done|]. lia.
Qed.

Lemma parse_snoc base s c : parse base (s ++ [c]) = parse base s * base + digit_val c.
Proof. unfold parse. by rewrite foldl_app. Qed.

(** The digits come out least significant first. *)
Lemma itoa_loop_spec room value base temp :
  2 ≤ base ≤ 16 → 0 ≤ value < base ^ Z.of_nat room →
  ∃ ds, itoa_loop room value base temp = Ok (temp ++ ds)
    ∧ (∀ k, value < base ^ Z.of_nat k → (length ds ≤ k)%nat)
    ∧ Forall (is_digit base) ds ∧ parse base (rev ds) = value ∧ (0 < value → ds ≠ []).
Proof.
  intros Hb. revert value temp. induction room as [|room IH]; intros value temp Hv; simpl.
  { assert (value = 0) as -> by lia. exists []. rewrite app_nil_r. simpl. repeat split; auto with lia. }
  destruct (Z.eqb_spec value 0) as [->|Hne].
  { exists []. rewrite app_nil_r. simpl. repeat split; auto with lia. }
  rewrite Z.rem_mod_nonneg, Z.quot_div_nonneg by lia.
  pose proof (Z.mod_pos_bound value base ltac:(lia)) as Hm. pose proof (Z.div_mod value base ltac:(lia)) as Hdm.
  destruct (digits_lookup (value mod base)) as (c & -> & Hc0 & Hcv); [lia|].
  cbn [mbind res_bind].
  destruct (IH (value / base) (temp ++ [c])) as (ds & E & Hl & Hds & Hp & _).
  { split; [apply Z.div_pos; lia|]. apply Z.div_lt_upper_bound; [lia|].
    rewrite Nat2Z.inj_succ, Z.pow_succ_r in Hv by lia. lia. }
  exists (c :: ds). rewrite E, <- app_assoc. split; [done|]. split.
  { intros [|k] Hk; [simpl in Hk; lia|]. simpl. apply le_n_S, Hl. apply Z.div_lt_upper_bound; [lia|].
    rewrite Nat2Z.inj_succ, Z.pow_succ_r in Hk by lia. lia. }
  split; [constructor; [unfold is_digit; lia|done]|]. split; [|done].
  simpl rev. rewrite parse_snoc, Hp. lia.
Qed.

Lemma put_spec buffer bytes :
  (length bytes ≤ length buffer)%nat → put buffer bytes = Ok (bytes ++ drop (length bytes) buffer).
Proof.
  revert buffer. induction bytes as [|c bytes IH]; intros buffer Hl; simpl; [done|].
  destruct buffer as [|b buffer]; simpl in *; [lia|]. by rewrite IH by lia.
Qed.

Lemma put_string buffer s :
  chars_ok s → (length s < length buffer)%nat → ∃ buf, put buffer (s ++ [0]) = Ok buf ∧ cstring buf s.
Proof.
  intros Hs Hl. rewrite put_spec by (rewrite length_app; simpl; lia). eexists. split; [done|].
  split; [done|]. rewrite <- app_assoc. by eexists.
Qed.

Lemma digits_chars base ds : Forall (is_digit base) ds → chars_ok (rev ds).
Proof.
  intros H. apply Forall_forall. intros c Hc%list_elem_of_In%in_rev%list_elem_of_In.
  rewrite Forall_forall in H. apply H in Hc as [? _]. lia.
Qed.

(** Value of a decimal string with an optional sign. *)
Definition parse_signed (s : list Z) : Z :=
  match s with
  | c :: s' => if c =? 45 then - parse 10 s' else parse 10 s
  | [] => 0
  end.

Lemma parse_signed_digits ds : Forall (is_digit 10) ds → parse_signed (rev ds) = parse 10 (rev ds).
Proof.
  intros H. destruct (rev ds) as [|c s] eqn:E; [done|]. simpl.
  assert (c ∈ ds) as Hc by (apply list_elem_of_In, in_rev; rewrite E; by left).
  rewrite Forall_forall in H. apply H in Hc as [? _]. by rewrite (proj2 (Z.eqb_neq c 45)) by lia.
Qed.

(** ** Tokens *)

Definition is_sep (ds : list Z) (c : Z) : bool := existsb (Z.eqb c) ds.

Lemma is_delim_spec c delim ds : cstring delim ds → is_delim c delim = Ok (is_sep ds c).
Proof.
  revert ds. induction delim as [|d delim IH]; intros ds Hs;
    apply cstring_inv in Hs as [(t & E & ->)|(c1 & s1 & l1 & E & -> & Hc & Hs)]; simplify_eq; simpl; [done|].
  rewrite (proj2 (Z.eqb_neq c1 0) Hc). destruct (c =? c1); [done|]. by apply IH.
Qed.

(** The words of a text: its maximal runs of characters that are no separator. *)
Fixpoint words_from (p : Z → bool) (s cur : list Z) : list (list Z) :=
  match s with
  | [] => match cur with [] => [] | _ => [cur] end
  | c :: s' =>
    if p c then match cur with [] => words_from p s' [] | _ => cur :: words_from p s' [] end
    else words_from p s' (cur ++ [c])
  end.
Definition words (p : Z → bool) (s : list Z) : list (list Z) := words_from p s [].

Lemma words_from_skip p d s : Forall (λ c, p c = true) d → words_from p (d ++ s) [] = words_from p s [].
Proof. induction 1 as [|c d Hc _ IH]; simpl; [done|]. by rewrite Hc. Qed.

Lemma words_from_run p w s cur :
  Forall (λ c, p c = false) w → words_from p (w ++ s) cur = words_from p s (cur ++ w).
Proof.
  intros H. revert cur. induction H as [|c w Hc _ IH]; intros cur; simpl; [by rewrite app_nil_r|].
  by rewrite Hc, IH, <- app_assoc.
Qed.

Lemma words_cut p d w c t :
  Forall (λ c, p c = true) d → Forall (λ c, p c = false) w → w ≠ [] → p c = true →
  words p (d ++ w ++ c :: t) = w :: words p t.
Proof.
  intros Hd Hw Hn Hc. unfold words. rewrite words_from_skip, words_from_run by done. simpl.
  rewrite Hc. by destruct w.
Qed.
Lemma words_last p d w :
  Forall (λ c, p c = true) d → Forall (λ c, p c = false) w → w ≠ [] → words p (d ++ w) = [w].
Proof.
  intros Hd Hw Hn. unfold words. rewrite words_from_skip by done.
  rewrite <- (app_nil_r w), words_from_run by done. simpl. rewrite app_nil_r. by destruct w.
Qed.
Lemma words_none p d : Forall (λ c, p c = true) d → words p d = [].
Proof. intros Hd. unfold words. rewrite <- (app_nil_r d). by rewrite words_from_skip. Qed.

(** Splitting a text at its first character with (without) [p]. *)
Lemma span p (s : list Z) :
  ∃ d r, s = d ++ r ∧ Forall (λ c, p c = true) d ∧ (r = [] ∨ ∃ c r', r = c :: r' ∧ p c = false).
Proof.
  induction s as [|c s (d & r & -> & Hd & Hr)]; [exists [], []; auto|].
  destruct (p c) eqn:Hc.
  - exists (c :: d), r. split; [done|]. split; [by constructor|done].
  - exists [], (c :: d ++ r). split; [done|]. split; [constructor|]. right. eauto.
Qed.

Lemma nth_byte_app pre (c : Z) post : nth_byte (pre ++ c :: post) (zlen pre) = Ok c.
Proof.
  unfold nth_byte, zlookup, zlen. rewrite decide_True by lia. rewrite Nat2Z.id.
  by rewrite lookup_app_r, Nat.sub_diag by lia.
Qed.
Lemma zinsert_app pre (c c' : Z) post : zinsert (zlen pre) c' (pre ++ c :: post) = pre ++ c' :: post.
Proof.
  unfold zinsert, zlen. rewrite decide_True by lia. rewrite Nat2Z.id.
  by rewrite insert_app_r_alt, Nat.sub_diag by lia.
Qed.
Lemma zlen_app {A} (l1 l2 : list A) : zlen (l1 ++ l2) = zlen l1 + zlen l2.
Proof. unfold zlen. rewrite length_app. lia. Qed.

Section strtok.
  Context (delim ds : list Z) (Hdelim : cstring delim ds).
Let p := is_sep ds.

Lemma skip_delims_spec fuel pre d r post :
  Forall (λ c, p c = true) d → chars_ok d →
  (r = [] ∨ ∃ c r', r = c :: r' ∧ p c = false ∧ c ≠ 0) → (length d < fuel)%nat →
  skip_delims fuel (pre ++ d ++ r ++ 0 :: post) (zlen pre) delim = Ok (zlen pre + zlen d).
Proof using Hdelim.
  revert fuel pre. induction d as [|c d IH]; intros fuel pre Hd Hz Hr Hf; (destruct fuel as [|fuel]; [simpl in Hf; lia|]).
  - cbn [app]. cbn [skip_delims]. rewrite Z.add_0_r. destruct Hr as [->|(c & r' & -> & Hp & Hc)]; simpl.
    + by rewrite nth_byte_app.
    + rewrite nth_byte_app. cbn [mbind res_bind]. rewrite (proj2 (Z.eqb_neq c 0) Hc).
      rewrite (is_delim_spec c delim ds Hdelim). cbn [mbind res_bind]. fold p. by rewrite Hp.
  - apply Forall_cons in Hd as [Hp Hd]. apply Forall_cons in Hz as [Hc Hz].
    cbn [skip_delims app]. rewrite nth_byte_app. cbn [mbind res_bind].
    rewrite (proj2 (Z.eqb_neq c 0) Hc), (is_delim_spec c delim ds Hdelim). cbn [mbind res_bind]. fold p. rewrite Hp.
    replace (pre ++ c :: d ++ r ++ 0 :: post) with ((pre ++ [c]) ++ d ++ r ++ 0 :: post) by by rewrite <- app_assoc.
    replace (zlen pre + 1) with (zlen (pre ++ [c])) by (rewrite zlen_app; done).
    rewrite IH by (done || (simpl in Hf; lia)). f_equal. rewrite zlen_app. unfold zlen. simpl. lia.
Qed.

Lemma cut_token_spec fuel pre w t post :
  Forall (λ c, p c = false) w → chars_ok w →
  (t = [] ∨ ∃ c t', t = c :: t' ∧ p c = true ∧ c ≠ 0) → (length w < fuel)%nat →
  cut_token fuel (pre ++ w ++ t ++ 0 :: post) (zlen pre) delim =
    Ok match t with
       | [] => (pre ++ w ++ 0 :: post, zlen pre + zlen w)
       | _ :: t' => (pre ++ w ++ 0 :: t' ++ 0 :: post, zlen pre + zlen w + 1)
       end.
Proof using Hdelim.
  revert fuel pre. induction w as [|c w IH]; intros fuel pre Hd Hz Hr Hf; (destruct fuel as [|fuel]; [simpl in Hf; lia|]).
  - cbn [app]. cbn [cut_token]. rewrite Z.add_0_r. destruct Hr as [->|(c & r' & -> & Hp & Hc)]; simpl.
    + by rewrite nth_byte_app.
    + rewrite nth_byte_app. cbn [mbind res_bind]. rewrite (proj2 (Z.eqb_neq c 0) Hc).
      rewrite (is_delim_spec c delim ds Hdelim). cbn [mbind res_bind]. fold p. by rewrite Hp, zinsert_app.
  - apply Forall_cons in Hd as [Hp Hd]. apply Forall_cons in Hz as [Hc Hz].
    cbn [cut_token app]. rewrite nth_byte_app. cbn [mbind res_bind].
    rewrite (proj2 (Z.eqb_neq c 0) Hc), (is_delim_spec c delim ds Hdelim). cbn [mbind res_bind]. fold p. rewrite Hp.
    replace (pre ++ c :: w ++ t ++ 0 :: post) with ((pre ++ [c]) ++ w ++ t ++ 0 :: post) by by rewrite <- app_assoc.
    replace (zlen pre + 1) with (zlen (pre ++ [c])) by (rewrite zlen_app; done).
    rewrite IH by (done || (simpl in Hf; lia)).
    replace (zlen (pre ++ [c]) + zlen w) with (zlen pre + zlen (c :: w)) by (rewrite zlen_app; unfold zlen; simpl; lia).
    by destruct t; rewrite <- !app_assoc.
Qed.

(** One call: what is left to tokenise is the text [s] behind [pre]. *)
Lemma strtok_r_spec pre s post str save :
  chars_ok s → match str with Some q => q | None => save end = zlen pre →
  (words p s = [] ∧ Forall (λ c, p c = true) s ∧ strtok_r (pre ++ s ++ 0 :: post) str delim save = Ok (pre ++ s ++ 0 :: post, None, zlen pre + zlen s))
  ∨ ∃ d w ws tail s',
      words p s = w :: ws ∧ words p s' = ws ∧ chars_ok w ∧ chars_ok s' ∧ w ≠ [] ∧ (length s' < length s)%nat
      ∧ strtok_r (pre ++ s ++ 0 :: post) str delim save =
          Ok ((pre ++ d ++ w ++ tail) ++ s' ++ 0 :: post, Some (zlen pre + zlen d), zlen (pre ++ d ++ w ++ tail))
      ∧ Forall (λ c, p c = true) d ∧ Forall (λ c, p c = false) w
      ∧ ((tail = [0] ∧ ∃ c, p c = true ∧ s = d ++ w ++ c :: s') ∨ (tail = [] ∧ s' = [] ∧ s = d ++ w)).
Proof using Hdelim.
  intros Hs Hstr. destruct (span p s) as (d & r & -> & Hd & Hr).
  apply Forall_app in Hs as [Hzd Hzr].
  assert (length d < S (length (pre ++ (d ++ r) ++ 0%Z :: post)))%nat as Hlen by (rewrite !length_app; lia).
  unfold strtok_r. rewrite Hstr. destruct Hr as [->|(c & r' & -> & Hc)].
  - left. split; [rewrite app_nil_r; by apply words_none|]. rewrite app_nil_r in *. split; [done|].
    rewrite (skip_delims_spec _ pre d [] post) by (done || by left). cbn [mbind res_bind].
    replace (zlen pre + zlen d) with (zlen (pre ++ d)) by apply zlen_app.
    rewrite app_assoc, nth_byte_app. cbn [mbind res_bind]. done.
  - right. destruct (span (λ c, negb (p c)) (c :: r')) as (w & t & Ew & Hw & Ht).
    assert (w ≠ []) as Hwn.
    { intros ->. destruct Ht as [->|(c' & t' & -> & Hc')]; [done|]. injection Ew as -> ->. by rewrite Hc in Hc'. }
    rewrite Ew in *. apply Forall_app in Hzr as [Hzw Hzt].
    assert (Forall (λ c, p c = false) w) as Hw'.
    { eapply Forall_impl; [exact Hw|]. cbn beta. intros x. apply negb_true_iff. }
    rewrite <- app_assoc in *.
    assert (∃ c0 w', w = c0 :: w' ∧ c0 ≠ 0 ∧ p c0 = false) as (c0 & w' & Ew0 & Hc0 & Hpc0).
    { destruct w as [|c0 w']; [done|]. exists c0, w'. apply Forall_cons in Hzw as [? _]. apply Forall_cons in Hw' as [? _]. done. }
    replace (pre ++ d ++ (w ++ t) ++ 0 :: post) with (pre ++ d ++ (w ++ t) ++ 0 :: post) by done.
    rewrite (skip_delims_spec _ pre d (w ++ t) post Hd Hzd); [|right; exists c0, (w' ++ t); by rewrite Ew0|done].
    cbn [mbind res_bind]. replace (zlen pre + zlen d) with (zlen (pre ++ d)) by apply zlen_app.
    replace (pre ++ d ++ (w ++ t) ++ 0 :: post) with ((pre ++ d) ++ w ++ t ++ 0 :: post) by by rewrite <- !app_assoc.
    assert (nth_byte ((pre ++ d) ++ w ++ t ++ 0 :: post) (zlen (pre ++ d)) = Ok c0) as ->
      by (rewrite Ew0; apply nth_byte_app).
    cbn [mbind res_bind]. rewrite (proj2 (Z.eqb_neq c0 0) Hc0).
    rewrite (cut_token_spec _ (pre ++ d) w t post Hw' Hzw).
    + cbn [mbind res_bind]. exists d, w. destruct Ht as [->|(c1 & t' & -> & Hc1)].
      * exists [], [], []. rewrite !app_nil_r. split; [by apply words_last|]. do 3 (split; [done|]).
        split; [done|]. split; [rewrite length_app; destruct w; simpl in *; [done|lia]|].
        split; [|split; [done|split; [done|by right]]]. simpl. by rewrite <- !app_assoc, !zlen_app, Z.add_assoc.
      * apply negb_false_iff in Hc1. apply Forall_cons in Hzt as [Hzc Hzt].
        exists (words p t'), [0], t'. split; [by apply words_cut|]. do 3 (split; [done|]).
        split; [done|]. split; [rewrite !length_app; simpl; lia|].
        split; [|split; [done|split; [done|left; split; [done|by exists c1]]]].
        simpl. rewrite <- !app_assoc. simpl. by rewrite !zlen_app, <- !Z.add_assoc.
    + destruct Ht as [->|(c1 & t' & -> & Hc1)]; [by left|]. right. exists c1, t'. split; [done|].
      apply negb_false_iff in Hc1. apply Forall_cons in Hzt as [Hzc _]. done.
    + rewrite !length_app. lia.
Qed.
End strtok.

(** The string a pointer into a buffer designates. *)
Fixpoint read_string (l : list Z) : res (list Z) :=
  match l with
  | [] => Crash OutOfBounds
  | c :: l' => if c =? 0 then Ok [] else r ← read_string l'; Ok (c :: r)
  end.
Definition string_at (buf : list Z) (i : Z) : res (list Z) := read_string (drop (Z.to_nat i) buf).

Lemma read_string_spec s l : cstring s l → read_string s = Ok l.
Proof.
  revert l. induction s as [|c s IH]; intros l Hs;
    apply cstring_inv in Hs as [(t & E & ->)|(c1 & s1 & l1 & E & -> & Hc & Hs)]; simplify_eq; simpl; [done|].
  by rewrite (proj2 (Z.eqb_neq c1 0) Hc), (IH l1).
Qed.

Lemma string_at_app pre w post : chars_ok w → string_at (pre ++ w ++ 0 :: post) (zlen pre) = Ok w.
Proof.
  intros Hw. unfold string_at, zlen. rewrite Nat2Z.id, drop_app_length.
  apply read_string_spec. split; [done|by exists post].
Qed.

(** The loop [for (t = strtok_r(s, delim, &save); t; t = strtok_r(NULL, delim, &save))]:
    all tokens, each read when it is returned. *)
Fixpoint strtok_all (fuel : nat) (buf : list Z) (str : option Z) (delim : list Z) (save : Z)
  : res (list (list Z)) :=
  match fuel with
  | O => Crash OutOfFuel
  | S fuel' =>
    r ← strtok_r buf str delim save;
    match r.1.2 with
    | None => Ok []
    | Some t =>
      w ← string_at r.1.1 t;
      ws ← strtok_all fuel' r.1.1 None delim r.2;
      Ok (w :: ws)
    end
  end.

Lemma strtok_all_spec fuel pre s post delim ds str save :
  cstring delim ds → chars_ok s → match str with Some q => q | None => save end = zlen pre →
  (length s < fuel)%nat →
  strtok_all fuel (pre ++ s ++ 0 :: post) str delim save = Ok (words (is_sep ds) s).
Proof.
  intros Hd. revert pre s str save. induction fuel as [|fuel IH]; intros pre s str save Hs Hstr Hf; [lia|].
  cbn [strtok_all].
  destruct (strtok_r_spec delim ds Hd pre s post str save Hs Hstr)
    as [(-> & _ & E)|(d & w & ws & tail & s' & -> & Hws & Hw & Hs' & Hn & Hl & E & _ & _ & Ht)];
    rewrite E; cbn [mbind res_bind fst snd]; [done|].
  replace (zlen pre + zlen d) with (zlen (pre ++ d)) by apply zlen_app.
  assert (string_at ((pre ++ d ++ w ++ tail) ++ s' ++ 0 :: post) (zlen (pre ++ d)) = Ok w) as ->.
  { rewrite <- !app_assoc. destruct Ht as [[-> _]|(-> & -> & _)]; simpl; rewrite app_assoc; by apply string_at_app. }
  cbn [mbind res_bind]. rewrite IH by (done || lia). cbn [mbind res_bind]. by rewrite Hws.
Qed.

Lemma words_from_sound p s cur :
  Forall (λ c, p c = false) cur →
  concat (words_from p s cur) = cur ++ filter (λ c, p c = false) s
  ∧ Forall (λ w, w ≠ [] ∧ Forall (λ c, p c = false) w) (words_from p s cur).
Proof.
  revert cur. induction s as [|c s IH]; intros cur Hcur; simpl.
  - rewrite filter_nil, app_nil_r. destruct cur; simpl; [by split; [|constructor]|].
    rewrite app_nil_r. split; [done|]. by constructor.
  - rewrite filter_cons. destruct (p c) eqn:Hc.
    + rewrite decide_False by done. destruct (IH [] ltac:(constructor)) as [H1 H2].
      destruct cur as [|c0 cur]; [done|]. simpl. rewrite H1. split; [done|]. by constructor.
    + rewrite decide_True by done. destruct (IH (cur ++ [c])) as [H1 H2].
      { apply Forall_app. split; [done|]. by constructor. }
      rewrite H1, <- app_assoc. done.
Qed.

(** * Properties *)

(** C29: the token loop of [strtok_r] over any NUL-terminated text, wherever it
    lies in its buffer: it terminates without reading outside the text and
    returns the words of the text in order, that is non-empty runs free of
    separators whose concatenation is the text without its separators. *)
Theorem strtok_r_words pre s post delim ds save :
  chars_ok s → cstring delim ds →
  ∃ ws, strtok_all (S (length s)) (pre ++ s ++ 0 :: post) (Some (zlen pre)) delim save = Ok ws
    ∧ ws = words (is_sep ds) s
    ∧ concat ws = filter (λ c, is_sep ds c = false) s
    ∧ Forall (λ w, w ≠ [] ∧ Forall (λ c, is_sep ds c = false) w) ws.
Proof.
  intros Hs Hd. exists (words (is_sep ds) s). split; [by apply strtok_all_spec; [..|lia]|].
  split; [done|]. apply (words_from_sound _ s []). constructor.
Qed.

Lemma strtok_r_words_witness :
  strtok_all 10 ([99; 0] ++ chars "/bin//sh/" ++ 0 :: [7]) (Some 2) (lit "/") 0 = Ok [chars "bin"; chars "sh"].
Proof.
  destruct (strtok_r_words [99; 0] (chars "/bin//sh/") [7] (lit "/") (chars "/") 0
    ltac:(by apply (bool_decide_unpack _); vm_compute) ltac:(apply cstring_lit; by apply (bool_decide_unpack _); vm_compute))
    as (ws & E & Hws & _). change (S (length (chars "/bin//sh/"))) with 10%nat in E. change (zlen [99; 0]) with 2 in E.
  rewrite E, Hws. by vm_compute.
Defined.

(** Numbers of at most [n] digits fit a buffer of one more byte. *)
Lemma itoa_uint64_ok value buffer base n :
  0 ≤ value < 2 ^ 64 → 2 ≤ base ≤ 16 → value < base ^ Z.of_nat n → (1 ≤ n < length buffer)%nat →
  ∃ buf s, itoa_uint64 value buffer base = Ok buf ∧ cstring buf s ∧ Forall (is_digit base) s
    ∧ parse base s = value.
Proof.
  intros Hv Hb Hn Hl. unfold itoa_uint64.
  destruct (Z.ltb_spec base 2); [lia|]. destruct (Z.ltb_spec 16 base); [lia|]. simpl orb. cbv iota.
  destruct (Z.eqb_spec value 0) as [->|Hne].
  - destruct (put_string buffer [48]) as (buf & E & Hs); [by repeat constructor|simpl; lia|].
    exists buf, [48]. split; [done|]. split; [done|]. split; [|done].
    constructor; [unfold is_digit; change (digit_val 48) with 0; lia|constructor].
  - assert (value < base ^ Z.of_nat 64) as Hv64.
    { eapply Z.lt_le_trans; [apply Hv|]. apply (Z.pow_le_mono_l 2 base 64). lia. }
    destruct (itoa_loop_spec 64 value base [] Hb) as (ds & E & Hlen & Hds & Hp & _); [lia|].
    apply Hlen in Hn.
    rewrite E. cbn [mbind res_bind app].
    destruct (put_string buffer (rev ds)) as (buf & E' & Hs); [by eapply digits_chars|rewrite length_rev; lia|].
    exists buf, (rev ds). split; [done|]. split; [done|]. split; [by apply Forall_rev|done].
Qed.

(** C35: printing an unsigned 64-bit number in any base from 2 to 16 and reading
    the digits back gives the number: [itoa_uint64] never overruns its 64-byte
    scratch array, nor a caller's buffer of 65 bytes. *)
Theorem itoa_uint64_roundtrip value buffer base :
  0 ≤ value < 2 ^ 64 → 2 ≤ base ≤ 16 → 65 ≤ zlen buffer →
  ∃ buf s, itoa_uint64 value buffer base = Ok buf ∧ cstring buf s ∧ Forall (is_digit base) s
    ∧ parse base s = value.
Proof.
  intros Hv Hb Hl. apply (itoa_uint64_ok value buffer base 64); [done|done| |unfold zlen in *; lia].
  eapply Z.lt_le_trans; [apply Hv|]. apply (Z.pow_le_mono_l 2 base 64). lia.
Qed.

Lemma itoa_uint64_roundtrip_witness :
  ∃ buf, itoa_uint64 0xDEADBEEF (replicate 65 1) 16 = Ok buf ∧ cstring buf (chars "DEADBEEF").
Proof.
  destruct (itoa_uint64_roundtrip 0xDEADBEEF (replicate 65 1) 16 ltac:(lia) ltac:(lia) ltac:(by vm_compute))
    as (buf & s & E & Hs & _). exists buf. split; [exact E|].
  assert (read_string buf = Ok s) as Hr by by apply read_string_spec.
  assert (Ok buf = itoa_uint64 0xDEADBEEF (replicate 65 1) 16) as E2 by by symmetry.
  vm_compute in E2. injection E2 as ->. vm_compute in Hr. injection Hr as <-. exact Hs.
Defined.

(** [itoa] on an [int]: for every value except the most negative one, a
    decimal print reads back as the value, sign included, and non-negative values
    read back in every base; 32 bytes of scratch and 34 of buffer suffice. *)
Theorem itoa_roundtrip value buffer base :
  - 2 ^ 31 < value < 2 ^ 31 → 2 ≤ base ≤ 16 → 0 ≤ value ∨ base = 10 → 34 ≤ zlen buffer →
  ∃ buf s, itoa value buffer base = Ok buf ∧ cstring buf s
    ∧ (if base =? 10 then parse_signed s else parse base s) = value.
Proof.
  intros Hv Hb Hneg Hl. unfold itoa, zlen in *.
  destruct (Z.ltb_spec base 2); [lia|]. destruct (Z.ltb_spec 16 base); [lia|]. simpl orb. cbv iota.
  set (neg := (value <? 0) && (base =? 10)).
  assert (neg = (value <? 0)) as Hneg'.
  { unfold neg. destruct (Z.ltb_spec value 0), (Z.eqb_spec base 10); try done; lia. }
  rewrite Hneg'. set (v := if value <? 0 then i32 (- value) else value).
  assert (v = Z.abs value) as Hva.
  { unfold v. destruct (Z.ltb_spec value 0); [rewrite i32_small|]; lia. }
  destruct (Z.eqb_spec v 0) as [Hz|Hne].
  { destruct (put_string buffer [48]) as (buf & E & Hs); [by repeat constructor|simpl; lia|].
    exists buf, [48]. split; [done|]. split; [done|]. assert (value = 0) as -> by lia. by destruct (_ =? _). }
  destruct (itoa_loop_spec 32 v base [] Hb) as (ds & E & Hlen & Hds & Hp & Hnil).
  { split; [lia|]. apply (Z.lt_le_trans _ (2 ^ 32)); [lia|]. apply (Z.pow_le_mono_l 2 base 32). lia. }
  assert (length ds ≤ 31)%nat as Hl31.
  { apply Hlen. apply (Z.lt_le_trans _ (2 ^ 31)); [lia|]. apply (Z.pow_le_mono_l 2 base 31). lia. }
  rewrite E. cbn [mbind res_bind app]. destruct (Z.ltb_spec value 0) as [Hlt|Hge].
  - assert (base = 10) as -> by lia. rewrite (proj2 (Nat.ltb_lt _ _)) by lia. cbn [mbind res_bind].
    destruct (put_string buffer (rev (ds ++ [45]))) as (buf & E' & Hs).
    { rewrite rev_app_distr. simpl. constructor; [done|]. by eapply digits_chars. }
    { rewrite length_rev, length_app. simpl. lia. }
    exists buf, (rev (ds ++ [45])). split; [done|]. split; [done|]. rewrite rev_app_distr. simpl. lia.
  - cbn [mbind res_bind].
    destruct (put_string buffer (rev ds)) as (buf & E' & Hs); [by eapply digits_chars|rewrite length_rev; lia|].
    exists buf, (rev ds). split; [done|]. split; [done|].
    destruct (Z.eqb_spec base 10) as [->|_]; [rewrite parse_signed_digits by done|]; lia.
Qed.

Lemma itoa_roundtrip_witness :
  ∃ buf, itoa (-2026) (replicate 34 1) 10 = Ok buf ∧ cstring buf (chars "-2026").
Proof.
  destruct (itoa_roundtrip (-2026) (replicate 34 1) 10 ltac:(lia) ltac:(lia) ltac:(lia) ltac:(by vm_compute))
    as (buf & s & E & Hs & _). exists buf. split; [exact E|].
  assert (read_string buf = Ok s) as Hr by by apply read_string_spec.
  assert (Ok buf = itoa (-2026) (replicate 34 1) 10) as E2 by by symmetry.
  vm_compute in E2. injection E2 as ->. vm_compute in Hr. injection Hr as <-. exact Hs.
Defined.

Lemma itoa_loop_negative room value base temp :
  2 ≤ base ≤ 16 → value < 0 → itoa_loop room value base temp = Crash OutOfBounds.
Proof.
  intros Hb. revert value temp. induction room as [|room IH]; intros value temp Hv; simpl;
    rewrite (proj2 (Z.eqb_neq value 0)) by lia; [done|].
  pose proof (Z.quot_rem' value base) as Hqr. pose proof (Z.rem_bound_pos_neg value base ltac:(lia) ltac:(lia)) as Hr.
  destruct (decide (Z.rem value base = 0)) as [E0|Hne].
  - rewrite E0. change (nth_byte digits 0) with (@Ok Z 48). cbn [mbind res_bind]. apply IH.
    assert (base * Z.quot value base < 0) by lia. nia.
  - unfold nth_byte. by rewrite zlookup_None by lia.
Qed.

(** What [itoa] does on the values it does not handle: a negative number in a
    base other than ten, and the most negative number in base ten, index [digits]
    with a negative remainder. *)
Theorem itoa_negative_out_of_bounds value buffer base :
  - 2 ^ 31 ≤ value < 0 → 2 ≤ base ≤ 16 → base ≠ 10 ∨ value = - 2 ^ 31 →
  itoa value buffer base = Crash OutOfBounds.
Proof.
  intros Hv Hb Hc. unfold itoa.
  destruct (Z.ltb_spec base 2); [lia|]. destruct (Z.ltb_spec 16 base); [lia|]. simpl orb. cbv iota.
  set (v := if (value <? 0) && (base =? 10) then i32 (- value) else value). assert (v = value) as ->.
  { unfold v. destruct Hc as [Hc| ->].
    - unfold v. rewrite (proj2 (Z.eqb_neq base 10)) by done. by rewrite andb_false_r.
    - unfold v. by destruct (base =? 10). }
  rewrite (proj2 (Z.eqb_neq value 0)) by lia. by rewrite itoa_loop_negative by lia.
Qed.

Lemma itoa_negative_out_of_bounds_witness : itoa (-255) (replicate 40 0) 16 = Crash OutOfBounds.
Proof. apply itoa_negative_out_of_bounds; [lia|lia|by left]. Defined.

(** [strcmp] decides equality of strings and orders them bytewise. *)
Theorem strcmp_decides a b la lb :
  cstring a la → cstring b lb → bytes_ok la → bytes_ok lb →
  ∃ r, strcmp a b = Ok r ∧ (r = 0 ↔ la = lb) ∧ (r < 0 ↔ str_lt la lb).
Proof. apply strcmp_spec. Qed.

Lemma strcmp_decides_witness : ∃ r, strcmp (lit "ls") (lit "lsx") = Ok r ∧ r < 0.
Proof.
  destruct (strcmp_decides (lit "ls") (lit "lsx") (chars "ls") (chars "lsx")) as (r & E & _ & Hr).
  - apply cstring_lit. by apply (bool_decide_unpack _); vm_compute.
  - apply cstring_lit. by apply (bool_decide_unpack _); vm_compute.
  - by apply (bool_decide_unpack _); vm_compute.
  - by apply (bool_decide_unpack _); vm_compute.
  - exists r. split; [exact E|]. apply Hr. simpl. right. split; [done|]. right. done.
Defined.

(** [strncpy] with a source shorter than [n] writes [n + 1] bytes: it faults
    on a destination of exactly [n] bytes and, on a longer one, also clears the
    byte behind the first [n]. *)
Theorem strncpy_overruns dst src l n :
  cstring src l → (length l < n)%nat →
  strncpy dst src n =
    if decide (n < length dst)%nat
    then Ok (l ++ replicate (S n - length l) 0 ++ drop (S n) dst) else Crash OutOfBounds.
Proof. intros Hs Hl. rewrite (strncpy_spec dst src l n Hs). by rewrite decide_False by lia. Qed.

Lemma strncpy_overruns_witness :
  strncpy [1; 1; 1; 1] (lit "ab") 4 = Crash OutOfBounds
  ∧ strncpy [1; 1; 1; 1; 9; 9] (lit "ab") 4 = Ok [97; 98; 0; 0; 0; 9].
Proof.
  assert (cstring (lit "ab") (chars "ab")) as Hs by (apply cstring_lit; by apply (bool_decide_unpack _); vm_compute).
  split; rewrite (strncpy_overruns _ _ (chars "ab")) by (exact Hs || (simpl; lia)); done.
Defined.
