(* ===== verification/UserLib.v ===== *)
(** UserLib: the C library of the user programs, [usr/lib/string.c],
    [usr/lib/stdio.c] and [atoi] of [usr/lib/stdlib.c] (its heap is [Malloc]).  Strings
    and buffers are as in [CString]. *)
From S2P Require Import Prelude CString.

(** * string.c *)

(** These five are written as in the kernel's library, loop for loop. *)
Definition strlen := CString.strlen.
Definition strcmp := CString.strcmp.
Definition strcpy := CString.strcpy.
Definition memset := CString.memset.
Definition memcpy := CString.memcpy.

Definition set_byte (l : list Z) (i b : Z) : res (list Z) :=
  match zlookup l i with Some _ => Ok (zinsert i b l) | None => Crash OutOfBounds end.

Fixpoint move_up (n : nat) (buf : list Z) (d s : Z) : res (list Z) :=
  match n with
  | O => Ok buf
  | S n' => c ← nth_byte buf s; buf' ← set_byte buf d c; move_up n' buf' (d + 1) (s + 1)
  end.
Fixpoint move_down (n : nat) (buf : list Z) (lastd lasts : Z) : res (list Z) :=
  match n with
  | O => Ok buf
  | S n' => c ← nth_byte buf lasts; buf' ← set_byte buf lastd c; move_down n' buf' (lastd - 1) (lasts - 1)
  end.

(** [dest] and [src] are offsets in the same object. *)
Definition memmove (buf : list Z) (dest src : Z) (n : nat) : res (list Z) :=
  if dest <? src then move_up n buf dest src
  else move_down n buf (dest + (Z.of_nat n - 1)) (src + (Z.of_nat n - 1)).

(** The offset of the first [c], None for NULL. *)
Fixpoint strchr (s : list Z) (c : Z) (i : Z) : res (option Z) :=
  match s with
  | [] => Crash OutOfBounds
  | x :: s' => if x =? u8 c then Ok (Some i) else if x =? 0 then Ok None else strchr s' c (i + 1)
  end.

(** Second loop of [strtok]; the answer holds the new [strtok_backup]. *)
Fixpoint strtok_cut (fuel : nat) (buf : list Z) (i : Z) (delim : list Z) : res (list Z * option Z) :=
  match fuel with
  | O => Crash OutOfFuel
  | S fuel' =>
    c ← nth_byte buf i;
    if c =? 0 then Ok (buf, None) else
    b ← is_delim c delim;
    if b : bool then Ok (zinsert i 0 buf, Some (i + 1)) else strtok_cut fuel' buf (i + 1) delim
  end.

(** The static [strtok_backup] is passed in and out as the last component. *)
Definition strtok (buf : list Z) (str : option Z) (delim : list Z) (backup : option Z)
  : res (list Z * option Z * option Z) :=
  let backup := match str with Some p => Some p | None => backup end in
  match backup with
  | None => Ok (buf, None, None)
  | Some p =>
    let fuel := S (length buf) in
    ret ← skip_delims fuel buf p delim;
    c ← nth_byte buf ret;
    if c =? 0 then Ok (buf, None, None) else
    r ← strtok_cut fuel buf ret delim;
    Ok (r.1, Some ret, r.2)
  end.

(** * stdlib.c *)

Fixpoint atoi_loop (s : list Z) (r : Z) : res Z :=
  match s with
  | [] => Crash OutOfBounds
  | c :: s' =>
    if c =? 0 then Ok r
    else if (48 <=? c) && (c <=? 57) then atoi_loop s' (i32 (r * 10 + c - 48))
    else atoi_loop s' r
  end.
Definition atoi (str : list Z) : res Z :=
  match str with
  | [] => Crash OutOfBounds
  | c :: s' =>
    if c =? 45 then r ← atoi_loop s' 0; Ok (i32 (-1 * r))
    else r ← atoi_loop str 0; Ok (i32 (1 * r))
  end.

(** * stdio.c *)

(** Standard output: the bytes [write(1, ...)] has sent, oldest first. *)
Definition out_st : Type := list Z.
Definition write (bytes : list Z) : M out_st unit := modify (λ out, out ++ bytes).
Definition putchar (c : Z) : M out_st unit := write [c].

(** [do { *p++ = digit(ud % divisor); } while (ud /= divisor);] *)
Fixpoint utoa_loop (fuel : nat) (buf : list Z) (p ud divisor : Z) : res (list Z * Z) :=
  match fuel with
  | O => Crash OutOfFuel
  | S fuel' =>
    let remainder := ud mod divisor in
    buf ← set_byte buf p (if remainder <? 10 then remainder + 48 else remainder + 97 - 10);
    let ud := ud / divisor in
    if ud =? 0 then Ok (buf, p + 1) else utoa_loop fuel' buf (p + 1) ud divisor
  end.

(** The in-place reversal between [p1] and [p2]. *)
Fixpoint reverse_loop (fuel : nat) (buf : list Z) (p1 p2 : Z) : res (list Z) :=
  match fuel with
  | O => Crash OutOfFuel
  | S fuel' =>
    if p1 <? p2 then
      tmp ← nth_byte buf p1;
      c ← nth_byte buf p2;
      buf ← set_byte buf p1 c;
      buf ← set_byte buf p2 tmp;
      reverse_loop fuel' buf (p1 + 1) (p2 - 1)
    else Ok buf
  end.

Definition itoa (buf : list Z) (base d : Z) : res (list Z) :=
  let neg := (base =? 10) && (d <? 0) in
  let ud := if neg then u64 (i32 (- d)) else u64 d in
  let divisor := if neg then 10 else if base =? 16 then 16 else 10 in
  buf ← (if neg then set_byte buf 0 45 else Ok buf);
  let start := if neg then 1 else 0 in
  r ← utoa_loop 64 buf start ud divisor;
  buf ← set_byte r.1 r.2 0;
  reverse_loop (S (length buf)) buf start (r.2 - 1).

(** The loop that prints a string up to its terminator. *)
Fixpoint put_str (s : list Z) : M out_st unit :=
  match s with
  | [] => crash OutOfBounds
  | c :: s' => if c =? 0 then mret tt else putchar c;; put_str s'
  end.

(** A variadic argument: an [int] or a [const char *] (None for NULL). *)
Inductive parg :=
  | PInt (z : Z)
  | PStr (s : option (list Z)).

Definition next_int (args : list parg) : M out_st (Z * list parg) :=
  match args with PInt z :: rest => mret (z, rest) | _ => crash OutOfBounds end.
Definition next_str (args : list parg) : M out_st (option (list Z) * list parg) :=
  match args with PStr s :: rest => mret (s, rest) | _ => crash OutOfBounds end.

(** One conversion, [c] being the character behind the percent sign. *)
Definition convert (c : Z) (args : list parg) (buf : list Z) : M out_st (list parg * list Z) :=
  if c =? 99 then
    r ← next_int args; putchar (u8 r.1);; mret (r.2, buf)
  else if c =? 115 then
    r ← next_str args;
    put_str (match r.1 with Some s => s | None => lit "(null)" end);; mret (r.2, buf)
  else if c =? 100 then
    r ← next_int args; buf ← lift_res (itoa buf 10 r.1); put_str buf;; mret (r.2, buf)
  else if c =? 120 then
    r ← next_int args; buf ← lift_res (itoa buf 16 r.1); put_str buf;; mret (r.2, buf)
  else putchar 37;; putchar c;; mret (args, buf).

(** The loop of [printf]; [buf] is its 32-byte scratch array. *)
Fixpoint printf_loop (format : list Z) (args : list parg) (buf : list Z) : M out_st unit :=
  match format with
  | [] => crash OutOfBounds
  | c :: rest =>
    if c =? 0 then mret tt
    else if negb (c =? 37) then putchar c;; printf_loop rest args buf
    else
      match rest with
      | [] => crash OutOfBounds
      | c' :: rest' => r ← convert c' args buf; printf_loop rest' r.1 r.2
      end
  end.
Definition printf (format : list Z) (args : list parg) : M out_st unit :=
  printf_loop format args (replicate 32 0).

(** [len] is counted in an [int]. *)
Definition puts (s : list Z) : M out_st unit :=
  len ← lift_res (strlen s);
  write (take (Z.to_nat (i32 len)) s);; putchar 10.

(** * Theory *)

Lemma set_byte_ok l i b : 0 ≤ i < zlen l → set_byte l i b = Ok (zinsert i b l).
Proof. intros Hi. unfold set_byte. by destruct (zlookup_is_Some l i Hi) as [x ->]. Qed.
Lemma nth_byte_ok l i : 0 ≤ i < zlen l → ∃ c, nth_byte l i = Ok c ∧ zlookup l i = Some c.
Proof. intros Hi. unfold nth_byte. destruct (zlookup_is_Some l i Hi) as [x ->]. by exists x. Qed.

(** ** memmove *)

(** [n] bytes from [s] on in [buf] are at [d] in [r], the rest is unchanged. *)
Definition moved (n : nat) (buf r : list Z) (d s : Z) : Prop :=
  zlen r = zlen buf ∧
  ∀ j, zlookup r j = if decide (d ≤ j < d + Z.of_nat n) then zlookup buf (s + (j - d)) else zlookup buf j.

Lemma move_up_spec n buf d s :
  d < s → 0 ≤ d → s + Z.of_nat n ≤ zlen buf → ∃ r, move_up n buf d s = Ok r ∧ moved n buf r d s.
Proof.
  revert buf d s. induction n as [|n IH]; intros buf d s Hds Hd Hs; cbn [move_up].
  { exists buf. split; [done|]. split; [done|]. intros j. by rewrite decide_False by lia. }
  destruct (nth_byte_ok buf s ltac:(lia)) as (c & -> & Hc). cbn [mbind res_bind].
  rewrite set_byte_ok by lia. cbn [mbind res_bind].
  destruct (IH (zinsert d c buf) (d + 1) (s + 1)) as (r & -> & Hl & Hr); [lia|lia|rewrite zlen_zinsert; lia|].
  exists r. split; [done|]. split; [by rewrite Hl, zlen_zinsert|]. intros j. rewrite Hr.
  destruct (decide (j = d)) as [->|Hjd].
  - rewrite decide_False by lia. rewrite decide_True by lia.
    rewrite zlookup_zinsert_eq by lia. by rewrite Z.sub_diag, Z.add_0_r.
  - case_decide; [rewrite decide_True by lia|rewrite decide_False by lia];
      rewrite zlookup_zinsert_ne by lia; [f_equal; lia|done].
Qed.

Lemma move_down_spec n buf d s :
  s ≤ d → 0 ≤ s → d + Z.of_nat n ≤ zlen buf →
  ∃ r, move_down n buf (d + (Z.of_nat n - 1)) (s + (Z.of_nat n - 1)) = Ok r ∧ moved n buf r d s.
Proof.
  revert buf. induction n as [|n IH]; intros buf Hds Hd Hs; cbn [move_down].
  { exists buf. split; [done|]. split; [done|]. intros j. by rewrite decide_False by lia. }
  replace (d + (Z.of_nat (S n) - 1)) with (d + Z.of_nat n) by lia.
  replace (s + (Z.of_nat (S n) - 1)) with (s + Z.of_nat n) by lia.
  destruct (nth_byte_ok buf (s + Z.of_nat n) ltac:(lia)) as (c & -> & Hc). cbn [mbind res_bind].
  rewrite set_byte_ok by lia. cbn [mbind res_bind].
  replace (d + Z.of_nat n - 1) with (d + (Z.of_nat n - 1)) by lia.
  replace (s + Z.of_nat n - 1) with (s + (Z.of_nat n - 1)) by lia.
  destruct (IH (zinsert (d + Z.of_nat n) c buf)) as (r & -> & Hl & Hr); [lia|lia|rewrite zlen_zinsert; lia|].
  exists r. split; [done|]. split; [by rewrite Hl, zlen_zinsert|]. intros j. rewrite Hr.
  destruct (decide (j = d + Z.of_nat n)) as [->|Hjd].
  - rewrite decide_False by lia. rewrite decide_True by lia.
    rewrite zlookup_zinsert_eq by lia. rewrite <- Hc. f_equal. lia.
  - case_decide; [rewrite decide_True by lia|rewrite decide_False by lia];
      by rewrite zlookup_zinsert_ne by lia.
Qed.

(** ** itoa *)

Lemma set_byte_app pre c c' post : set_byte (pre ++ c :: post) (zlen pre) c' = Ok (pre ++ c' :: post).
Proof.
  rewrite set_byte_ok by (rewrite zlen_app; unfold zlen; simpl; lia). by rewrite zinsert_app.
Qed.

Lemma reverse_loop_spec fuel pre mid post :
  (length mid < fuel)%nat →
  reverse_loop fuel (pre ++ mid ++ post) (zlen pre) (zlen pre + zlen mid - 1) = Ok (pre ++ rev mid ++ post).
Proof.
  revert pre mid post. induction fuel as [|fuel IH]; intros pre mid post Hf; [lia|]. cbn [reverse_loop].
  destruct mid as [|x mid]; [rewrite (proj2 (Z.ltb_ge _ _)) by (unfold zlen; simpl; lia); done|].
  destruct mid as [|y m _] using rev_ind.
  { by rewrite (proj2 (Z.ltb_ge _ _)) by (unfold zlen; simpl; lia). }
  rewrite (proj2 (Z.ltb_lt _ _)) by (unfold zlen; simpl; rewrite length_app; simpl; lia).
  simpl app. rewrite nth_byte_app. cbn [mbind res_bind].
  assert (zlen pre + zlen (x :: m ++ [y]) - 1 = zlen (pre ++ x :: m)) as El.
  { rewrite zlen_app. unfold zlen. simpl. rewrite length_app. simpl. lia. }
  rewrite El.
  replace (pre ++ x :: (m ++ [y]) ++ post) with ((pre ++ x :: m) ++ y :: post) by by rewrite <- !app_assoc.
  rewrite nth_byte_app. cbn [mbind res_bind].
  replace ((pre ++ x :: m) ++ y :: post) with (pre ++ x :: m ++ y :: post) by by rewrite <- !app_assoc.
  rewrite set_byte_app. cbn [mbind res_bind].
  replace (pre ++ y :: m ++ y :: post) with ((pre ++ y :: m) ++ y :: post) by by rewrite <- !app_assoc.
  replace (zlen (pre ++ x :: m)) with (zlen (pre ++ y :: m)) by by rewrite !zlen_app.
  rewrite set_byte_app. cbn [mbind res_bind].
  replace ((pre ++ y :: m) ++ x :: post) with ((pre ++ [y]) ++ m ++ x :: post) by by rewrite <- !app_assoc.
  replace (zlen pre + 1) with (zlen (pre ++ [y])) by (rewrite zlen_app; done).
  replace (zlen (pre ++ y :: m) - 1) with (zlen (pre ++ [y]) + zlen m - 1)
    by (rewrite !zlen_app; unfold zlen; simpl; lia).
  rewrite IH by (simpl in Hf; rewrite length_app in Hf; lia).
  rewrite rev_app_distr. simpl. by rewrite <- !app_assoc.
Qed.

Lemma utoa_loop_spec fuel pre room ud :
  0 ≤ ud → ud < 10 ^ Z.of_nat fuel → ud < 10 ^ Z.of_nat (length room) → (0 < fuel)%nat →  (0 < length room)%nat →
  ∃ ds, utoa_loop fuel (pre ++ room) (zlen pre) ud 10 = Ok (pre ++ ds ++ drop (length ds) room, zlen pre + zlen ds)
    ∧ ds ≠ [] ∧ (∀ k, ud < 10 ^ Z.of_nat k → (0 < k)%nat → (length ds ≤ k)%nat)
    ∧ Forall (is_digit 10) ds ∧ parse 10 (rev ds) = ud.
Proof.
  revert pre room ud. induction fuel as [|fuel IH]; intros pre room ud Hud Hf Hr Hf0 Hr0; [lia|].
  destruct room as [|b room]; [simpl in Hr0; lia|]. cbn [utoa_loop].
  pose proof (Z.mod_pos_bound ud 10 ltac:(lia)) as Hm. pose proof (Z.div_mod ud 10 ltac:(lia)) as Hdm.
  rewrite (proj2 (Z.ltb_lt (ud mod 10) 10)) by lia. rewrite set_byte_app. cbn [mbind res_bind].
  set (c := ud mod 10 + 48). assert (digit_val c = ud mod 10) as Hc.
  { unfold digit_val. rewrite (proj2 (Z.leb_le c 57)) by lia. lia. }
  assert (is_digit 10 c) as Hdc by (unfold is_digit; rewrite Hc; lia).
  destruct (Z.eqb_spec (ud / 10) 0) as [Hz|Hnz].
  - exists [c]. split; [done|]. split; [done|]. split; [simpl; lia|]. split; [by apply (Forall_singleton (is_digit 10))|].
    unfold parse. simpl. rewrite Hc. lia.
  - replace (pre ++ c :: room) with ((pre ++ [c]) ++ room) by by rewrite <- app_assoc.
    replace (zlen pre + 1) with (zlen (pre ++ [c])) by (rewrite zlen_app; done).
    assert (∀ k, ud < 10 ^ Z.of_nat (S k) → ud / 10 < 10 ^ Z.of_nat k) as Hdiv.
    { intros k Hk. apply Z.div_lt_upper_bound; [lia|]. by rewrite Nat2Z.inj_succ, Z.pow_succ_r in Hk by lia. }
    assert (0 < ud / 10) as Hpos by (assert (0 ≤ ud / 10) by (apply Z.div_pos; lia); lia).
    destruct (IH (pre ++ [c]) room (ud / 10)) as (ds & -> & Hn & Hlen & Hds & Hp); [lia|by apply Hdiv|by apply Hdiv|..].
    { destruct fuel; [|lia]. specialize (Hdiv 0%nat Hf). simpl in Hdiv. lia. }
    { destruct room; [|simpl; lia]. specialize (Hdiv 0%nat Hr). simpl in Hdiv. lia. }
    exists (c :: ds). split; [rewrite <- !app_assoc, zlen_app; f_equal; f_equal; unfold zlen; simpl; lia|].
    split; [done|]. split.
    { intros [|k] Hk Hk0; [lia|]. simpl. apply le_n_S, Hlen; [by apply Hdiv|].
      destruct k; [|lia]. specialize (Hdiv 0%nat Hk). simpl in Hdiv. lia. }
    split; [by constructor|]. simpl rev. rewrite parse_snoc, Hp, Hc. lia.
Qed.

(** The characters [itoa] prints for a decimal: at most 11, sign included. *)
Definition decimal (s : list Z) (d : Z) : Prop :=
  chars_ok s ∧ Forall (λ c, c ≠ 37) s ∧ (length s ≤ 11)%nat ∧ parse_signed s = d
  ∧ ∃ neg ds, s = (if neg : bool then 45 :: ds else ds) ∧ Forall (is_digit 10) ds ∧ ds ≠ []
      ∧ d = if neg then - parse 10 ds else parse 10 ds.

Lemma decimal_intro (neg : bool) ds d :
  Forall (is_digit 10) ds → ds ≠ [] → (length ds ≤ 10)%nat → d = (if neg then - parse 10 ds else parse 10 ds) →
  decimal (if neg then 45 :: ds else ds) d.
Proof.
  intros Hds Hn Hl Hd.
  assert (chars_ok ds ∧ Forall (λ c, c ≠ 37) ds) as [H0 H37].
  { split; (eapply Forall_impl; [exact Hds|]); cbn beta; intros c [? ?]; lia. }
  split; [destruct neg; [by constructor|done]|]. split; [destruct neg; [by constructor|done]|].
  split; [destruct neg; simpl; lia|]. split; [|by exists neg, ds].
  destruct neg; [done|]. rewrite <- (rev_involutive ds), parse_signed_digits, rev_involutive; [done|].
  by apply Forall_rev.
Qed.

Lemma itoa_spec buf d :
  - 2 ^ 31 < d < 2 ^ 31 → (12 ≤ length buf)%nat →
  ∃ r s, itoa buf 10 d = Ok r ∧ cstring r s ∧ decimal s d ∧ length r = length buf.
Proof.
  intros Hd Hl. unfold itoa. change (10 =? 10) with true. change (10 =? 16) with false. simpl andb. cbv iota.
  set (ud := if d <? 0 then u64 (i32 (- d)) else u64 d). assert (ud = Z.abs d) as Eud.
  { unfold ud. destruct (Z.ltb_spec d 0); [rewrite i32_small by lia|]; rewrite u64_small; lia. }
  assert ((if d <? 0 then 10 else 10) = 10) as -> by by destruct (d <? 0).
  assert (∃ pre room, (if d <? 0 then set_byte buf 0 45 else Ok buf) = Ok (pre ++ room)
    ∧ pre = (if d <? 0 then [45] else []) ∧ (11 ≤ length room)%nat ∧ length (pre ++ room) = length buf) as (pre & room & E & Epre & Hroom & Hlen).
  { destruct buf as [|b buf]; [simpl in Hl; lia|]. destruct (d <? 0).
    - exists [45], buf. rewrite set_byte_ok by (unfold zlen; simpl; lia). simpl in *. repeat split; lia.
    - exists [], (b :: buf). simpl in *. repeat split; lia. }
  rewrite E. cbn [mbind res_bind].
  assert ((if d <? 0 then 1 else 0) = zlen pre) as -> by (rewrite Epre; by destruct (d <? 0)).
  assert (ud < 10 ^ Z.of_nat 10) as H10 by (change (10 ^ Z.of_nat 10) with 10000000000; lia).
  destruct (utoa_loop_spec 64 pre room ud) as (ds & -> & Hn & Hk & Hds & Hp); [lia| | |lia|lia|].
  { eapply Z.lt_le_trans; [exact H10|]. apply Z.pow_le_mono_r; lia. }
  { eapply Z.lt_le_trans; [exact H10|]. apply Z.pow_le_mono_r; lia. }
  apply Hk in H10 as Hdl; [|lia]. cbn [mbind res_bind fst snd].
  assert (length ds < length room)%nat as Hdr by lia.
  destruct (drop (length ds) room) as [|b room'] eqn:Edr.
  { apply (f_equal length) in Edr. rewrite length_drop in Edr. simpl in Edr. lia. }
  replace (zlen pre + zlen ds) with (zlen (pre ++ ds)) by apply zlen_app.
  replace (pre ++ ds ++ b :: room') with ((pre ++ ds) ++ b :: room') by by rewrite <- app_assoc.
  rewrite set_byte_app. cbn [mbind res_bind]. rewrite zlen_app, <- app_assoc, reverse_loop_spec
    by (rewrite !length_app; lia).
  eexists _, (pre ++ rev ds). split; [done|].
  assert (decimal (pre ++ rev ds) d) as Hdec.
  { replace (pre ++ rev ds) with (if d <? 0 then 45 :: rev ds else rev ds) by (rewrite Epre; by destruct (d <? 0)).
    apply decimal_intro; [by apply Forall_rev|by intros H%(f_equal (@rev Z)); rewrite rev_involutive in H|rewrite length_rev; lia|].
    destruct (Z.ltb_spec d 0); lia. }
  split; [|split; [done|]].
  - split; [apply Hdec|]. exists room'. by rewrite <- app_assoc.
  - rewrite <- Hlen, !length_app, length_rev. apply (f_equal length) in Edr. rewrite length_drop in Edr.
    simpl in *. lia.
Qed.

(** ** Output *)

Lemma put_str_spec s l out : cstring s l → put_str s out = Ok (tt, out ++ l).
Proof.
  revert l out. induction s as [|c s IH]; intros l out Hs;
    apply cstring_inv in Hs as [(t & E & ->)|(c1 & s1 & l1 & E & -> & Hc & Hs)]; simplify_eq; cbn [put_str].
  - by rewrite app_nil_r.
  - rewrite (proj2 (Z.eqb_neq c1 0) Hc). unfold putchar, write, modify, mbind, M_bind.
    rewrite (IH l1) by done. by rewrite <- app_assoc.
Qed.

(** Text without conversions is copied. *)
Lemma printf_text pre rest args buf out :
  chars_ok pre → Forall (λ c, c ≠ 37) pre →
  printf_loop (pre ++ rest) args buf out = printf_loop rest args buf (out ++ pre).
Proof.
  revert out. induction pre as [|c pre IH]; intros out Hz Hp; [by rewrite app_nil_r|].
  apply Forall_cons in Hz as [Hc Hz]. apply Forall_cons in Hp as [Hcp Hp].
  cbn [printf_loop app]. rewrite (proj2 (Z.eqb_neq c 0) Hc), (proj2 (Z.eqb_neq c 37) Hcp). cbn [negb].
  unfold putchar, write, modify, mbind, M_bind. rewrite IH by done. by rewrite <- app_assoc.
Qed.

(** ** atoi *)

Lemma foldl_digits_mono ds r :
  Forall (is_digit 10) ds → 0 ≤ r → r ≤ foldl (λ acc c, acc * 10 + digit_val c) r ds.
Proof.
  intros H. revert r. induction H as [|c ds [_ Hc] _ IH]; intros r Hr; simpl; [lia|].
  etrans; [|apply IH]; lia.
Qed.

Lemma digit10 c : is_digit 10 c → c ≠ 0 ∧ 48 ≤ c ≤ 57 ∧ c - 48 = digit_val c.
Proof.
  intros [H0 Hc]. unfold digit_val in *. destruct (Z.leb_spec c 57); lia.
Qed.

Lemma atoi_loop_spec ds t r :
  Forall (is_digit 10) ds → 0 ≤ r → foldl (λ acc c, acc * 10 + digit_val c) r ds < 2 ^ 31 →
  atoi_loop (ds ++ 0 :: t) r = Ok (foldl (λ acc c, acc * 10 + digit_val c) r ds).
Proof.
  intros H. revert r. induction H as [|c ds Hc Hds IH]; intros r Hr Hb; [done|].
  cbn [atoi_loop app foldl] in *. apply digit10 in Hc as (H0 & H1 & H2).
  rewrite (proj2 (Z.eqb_neq c 0) H0), (proj2 (Z.leb_le 48 c)), (proj2 (Z.leb_le c 57)) by lia. cbn [andb].
  assert (r * 10 + digit_val c < 2 ^ 31).
  { eapply Z.le_lt_trans; [|exact Hb]. apply foldl_digits_mono; [done|lia]. }
  rewrite i32_small by lia. replace (r * 10 + c - 48) with (r * 10 + digit_val c) by lia. apply IH; lia.
Qed.

Lemma atoi_spec s l d :
  cstring s l → decimal l d → - 2 ^ 31 < d < 2 ^ 31 → atoi s = Ok d.
Proof.
  intros [_ [t ->]] (_ & _ & _ & _ & neg & ds & -> & Hds & Hn & Ed) Hd.
  destruct neg; simpl app; cbn [atoi].
  - change (45 =? 45) with true. cbv iota. pose proof (foldl_digits_mono ds 0 Hds ltac:(lia)) as Hm.
    fold (parse 10 ds) in Hm. unfold parse in *. rewrite atoi_loop_spec by (done || lia). cbn [mbind res_bind].
    rewrite i32_small by lia. f_equal. lia.
  - destruct ds as [|c ds]; [done|]. simpl app. cbn [atoi].
    assert (is_digit 10 c) as [H45 _] by by apply Forall_cons in Hds as [? _].
    rewrite (proj2 (Z.eqb_neq c 45)) by lia. unfold parse in *.
    change (c :: ds ++ 0 :: t) with ((c :: ds) ++ 0 :: t).
    rewrite atoi_loop_spec by (done || lia). cbn [mbind res_bind]. rewrite i32_small by lia. f_equal. lia.
Qed.

(** * Properties *)

(** [memmove] copies correctly between overlapping regions of one object in
    either direction: afterwards the destination holds what the source held, and
    nothing else changed. *)
Theorem memmove_copies buf dest src n :
  0 ≤ dest → 0 ≤ src → dest + Z.of_nat n ≤ zlen buf → src + Z.of_nat n ≤ zlen buf →
  ∃ r, memmove buf dest src n = Ok r ∧ zlen r = zlen buf
    ∧ ∀ j, zlookup r j = if decide (dest ≤ j < dest + Z.of_nat n)
                         then zlookup buf (src + (j - dest)) else zlookup buf j.
Proof.
  intros Hd Hs Hdl Hsl. unfold memmove. destruct (Z.ltb_spec dest src).
  - destruct (move_up_spec n buf dest src) as (r & E & Hr); [done..|]. by exists r.
  - destruct (move_down_spec n buf dest src) as (r & E & Hr); [done..|]. by exists r.
Qed.

Lemma memmove_copies_witness :
  ∃ r, memmove [1; 2; 3; 4; 5] 1 0 3 = Ok r ∧ zlookup r 3 = Some 3.
Proof.
  destruct (memmove_copies [1; 2; 3; 4; 5] 1 0 3) as (r & E & _ & Hr); [lia|lia|by vm_compute|by vm_compute|].
  exists r. split; [exact E|]. rewrite Hr. by vm_compute.
Defined.

(** Printing and reading numbers: [printf] with ["%d"] between ordinary text
    sends the text and, in between, a decimal which [atoi] reads back as the
    number, for every [int] but the most negative one. *)
Theorem printf_atoi_roundtrip d pre post out :
  - 2 ^ 31 < d < 2 ^ 31 → chars_ok pre → chars_ok post →
  Forall (λ c, c ≠ 37) pre → Forall (λ c, c ≠ 37) post →
  ∃ s, printf (pre ++ [37; 100] ++ post ++ [0]) [PInt d] out = Ok (tt, out ++ pre ++ s ++ post)
    ∧ atoi (s ++ [0]) = Ok d.
Proof.
  intros Hd Hz Hz' Hp Hp'. destruct (itoa_spec (replicate 32 0) d Hd) as (r & s & E & Hs & Hdec & _); [simpl; lia|].
  exists s. split.
  - unfold printf. rewrite printf_text by done. cbn [printf_loop app].
    change (negb (37 =? 37)) with false. change (37 =? 0) with false. cbv iota.
    unfold convert. change (100 =? 99) with false. change (100 =? 115) with false. change (100 =? 100) with true.
    cbv iota. unfold next_int. cbv [mbind M_bind mret M_ret lift_res]. cbn [fst snd]. rewrite E.
    rewrite (put_str_spec r s) by done. cbn [fst snd]. rewrite printf_text by done. simpl.
    by rewrite <- !app_assoc.
  - apply (atoi_spec _ s); [|done|done]. split; [apply Hdec|]. by exists [].
Qed.

Lemma printf_atoi_roundtrip_witness :
  ∃ s, printf (lit "pid=%d!") [PInt (-42)] [] = Ok (tt, chars "pid=" ++ s ++ chars "!") ∧ atoi (s ++ [0]) = Ok (-42).
Proof.
  apply (printf_atoi_roundtrip (-42) (chars "pid=") (chars "!") []); [lia| | | |];
    by apply (bool_decide_unpack _); vm_compute.
Defined.

(** A format that ends in a lone percent sign makes [printf] print the
    terminator and read past the end of the format. *)
Theorem printf_trailing_percent pre args out :
  chars_ok pre → Forall (λ c, c ≠ 37) pre →
  printf (pre ++ [37; 0]) args out = Crash OutOfBounds.
Proof. intros Hz Hp. unfold printf. by rewrite printf_text. Qed.

Lemma printf_trailing_percent_witness : printf (lit "100%") [] [] = Crash OutOfBounds.
Proof.
  apply (printf_trailing_percent (chars "100") [] []); by apply (bool_decide_unpack _); vm_compute.
Defined.
