(* ===== verification/Malloc.v ===== *)
(** Malloc: [malloc] and [free] of [usr/lib/stdlib.c] and [sbrk] of
    [usr/lib/syscall.c].  The headers are bytes of the process's memory, in front of
    the bytes handed out: the same memory the program writes and [brk] extends.  What
    the library needs of memory and kernel is the interface [UserMem] with the laws
    [BrkHeap]; [Userheap] discharges them with [sys_brk]. *)
From S2P Require Import Prelude CString.

(** * Memory *)

(** Loads and stores of one byte, and the system call [brk]. *)
Class UserMem (K : Type) := {
  u_load : Z → M K Z;
  u_store : Z → Z → M K unit;
  u_brk : Z → M K Z
}.

(** Objects of [n] bytes, little-endian. *)
Section access.
  Context {K : Type} `{UM : UserMem K}.

Fixpoint load_le (n : nat) (a : Z) : M K Z :=
  match n with
  | O => mret 0
  | S n' => b ← u_load a; r ← load_le n' (u64 (a + 1)); mret (b + 2 ^ 8 * r)
  end.
Fixpoint store_le (n : nat) (a v : Z) : M K unit :=
  match n with
  | O => mret tt
  | S n' => u_store a (u8 v);; store_le n' (u64 (a + 1)) (v / 2 ^ 8)
  end.
End access.

(** * The heap *)

(** What the three fields of a header hold; [free] is an [int], at offset 16 and
    followed by padding. *)
Record header := Header { size : Z; next : Z; free_ : bool }.
Definition sizeof_header : Z := 24.

(** The process: memory and kernel, and the two static variables. *)
Record malloc_st (K : Type) := MallocSt {
  kernel : K;
  head : Z;
  tail : Z
}.
Arguments MallocSt {K} _ _ _.
Arguments kernel {K} _.
Arguments head {K} _.
Arguments tail {K} _.

Definition i64 (z : Z) : Z := (z + 2 ^ 63) mod 2 ^ 64 - 2 ^ 63.

Section malloc.
  Context {K : Type} `{UM : UserMem K}.
  Abbreviation St := (malloc_st K).

Definition set_kernel (k : K) (s : St) : St := MallocSt k (head s) (tail s).
Definition set_head (p : Z) (s : St) : St := MallocSt (kernel s) p (tail s).
Definition set_tail (p : Z) (s : St) : St := MallocSt (kernel s) (head s) p.
Definition on_kernel {R} (m : M K R) : M St R := zoom kernel set_kernel m.

Definition get_size (p : Z) : M St Z := on_kernel (load_le 8 p).
Definition get_next (p : Z) : M St Z := on_kernel (load_le 8 (u64 (p + 8))).
Definition get_free (p : Z) : M St Z := on_kernel (load_le 4 (u64 (p + 16))).
Definition put_size (p v : Z) : M St unit := on_kernel (store_le 8 p v).
Definition put_next (p v : Z) : M St unit := on_kernel (store_le 8 (u64 (p + 8)) v).
Definition put_free (p v : Z) : M St unit := on_kernel (store_le 4 (u64 (p + 16)) v).

(** [sbrk], with -1 as 2^64 - 1; [increment] is signed. *)
Definition sbrk (increment : Z) : M St Z :=
  current_brk ← on_kernel (u_brk 0);
  if current_brk =? u64 (-1) then mret (u64 (-1)) else
  if increment =? 0 then mret current_brk else
  let new_brk := u64 (current_brk + increment) in
  ret ← on_kernel (u_brk new_brk);
  if ret <? new_brk then mret (u64 (-1)) else mret current_brk.

(** [while (curr)]: the first free block of at least [sz] bytes is taken. *)
Fixpoint malloc_search (fuel : nat) (curr sz : Z) : M St (option Z) :=
  match fuel with
  | O => crash OutOfFuel
  | S fuel' =>
    if curr =? 0 then mret None else
    f ← get_free curr;
    fits ← (if f =? 0 then mret false else n ← get_size curr; mret (sz <=? n));
    if fits : bool then put_free curr 0;; mret (Some (u64 (curr + sizeof_header)))
    else nx ← get_next curr; malloc_search fuel' nx sz
  end.

(** Blocks are listed in the order of their addresses, so this many are enough. *)
Definition search_fuel (s : St) : nat := Z.to_nat ((tail s - head s) / sizeof_header + 2).

Definition malloc (sz : Z) : M St Z :=
  if sz =? 0 then mret 0 else
  fuel ← gets search_fuel;
  curr ← gets head;
  r ← malloc_search fuel curr sz;
  match r with
  | Some p => mret p
  | None =>
    let total_size := u64 (sizeof_header + sz) in
    block ← sbrk (i64 total_size);
    if block =? u64 (-1) then mret 0 else
    put_size block sz;;
    put_free block 0;;
    put_next block 0;;
    hd ← gets head;
    (if hd =? 0 then modify (set_head block) else mret tt);;
    tl ← gets tail;
    (if tl =? 0 then mret tt else put_next tl block);;
    modify (set_tail block);;
    mret (u64 (block + sizeof_header))
  end.

Definition free (ptr : Z) : M St unit :=
  if ptr =? 0 then mret tt else
  let header := u64 (ptr - sizeof_header) in
  put_free header 1.
End malloc.

(** * What the library relies on *)

(** [holds k base bytes]: the memory from [base] to the break is the process's to read
    and write, and holds [bytes].  [can_extend k n]: the kernel can answer a request
    for [n] bytes more, by moving the break or leaving it; in both cases what lay below
    the break is still there. *)
Class BrkHeap (K : Type) `{UM : UserMem K} := {
  holds : K → Z → list Z → Prop;
  can_extend : K → Z → Prop;
  holds_range k base bytes : holds k base bytes → 0 ≤ base ∧ base + zlen bytes < 2 ^ 62;
  load_holds k base bytes i b : holds k base bytes → zlookup bytes i = Some b → u_load (base + i) k = Ok (b, k);
  store_holds k base bytes i b : holds k base bytes → 0 ≤ i < zlen bytes → 0 ≤ b < 2 ^ 8 →
    wp (u_store (base + i) b) k (λ _ k', holds k' base (zinsert i b bytes));
  brk_asks k base bytes : holds k base bytes → u_brk 0 k = Ok (base + zlen bytes, k);
  extend_range k base bytes n : holds k base bytes → can_extend k n → base + zlen bytes + n < 2 ^ 62;
  brk_extends k base bytes n : holds k base bytes → 0 < n → can_extend k n →
    wp (u_brk (base + zlen bytes + n)) k (λ r k',
      (r = base + zlen bytes + n ∧ ∃ new, zlen new = n ∧ holds k' base (bytes ++ new))
      ∨ (r = base + zlen bytes ∧ holds k' base bytes))
}.

(** * Bytes and objects *)

Section bytes.
  Implicit Types bytes : list Z.

Definition byte_at bytes (i : Z) : Z := default 0 (zlookup bytes i).
Fixpoint peek bytes (n : nat) (i : Z) : Z :=
  match n with O => 0 | S n' => byte_at bytes i + 2 ^ 8 * peek bytes n' (i + 1) end.
Fixpoint poke (n : nat) (i v : Z) bytes : list Z :=
  match n with O => bytes | S n' => poke n' (i + 1) (v / 2 ^ 8) (zinsert i (u8 v) bytes) end.

Lemma zlen_poke n i v bytes : zlen (poke n i v bytes) = zlen bytes.
Proof. revert i v bytes. induction n as [|n IH]; intros i v bytes; [done|]. simpl. by rewrite IH, zlen_zinsert. Qed.

Lemma poke_other n i v bytes j : ¬ i ≤ j < i + Z.of_nat n → zlookup (poke n i v bytes) j = zlookup bytes j.
Proof.
  revert i v bytes. induction n as [|n IH]; intros i v bytes Hj; [done|]. cbn [poke].
  rewrite IH by lia. apply zlookup_zinsert_ne. lia.
Qed.

Lemma peek_ext n i bytes bytes' :
  (∀ j, i ≤ j < i + Z.of_nat n → zlookup bytes' j = zlookup bytes j) → peek bytes' n i = peek bytes n i.
Proof.
  revert i. induction n as [|n IH]; intros i Hj; [done|]. cbn [peek]. unfold byte_at.
  rewrite Hj by lia. rewrite IH; [done|]. intros j Hj'. apply Hj. lia.
Qed.

Lemma peek_poke n i v bytes :
  0 ≤ i → i + Z.of_nat n ≤ zlen bytes → 0 ≤ v < 2 ^ (8 * Z.of_nat n) → peek (poke n i v bytes) n i = v.
Proof.
  revert i v bytes. induction n as [|n IH]; intros i v bytes Hi Hl Hv.
  { change (2 ^ (8 * Z.of_nat 0)) with 1 in Hv. simpl. lia. }
  cbn [peek poke]. unfold byte_at. rewrite poke_other by lia. rewrite zlookup_zinsert_eq by lia.
  rewrite IH; [|lia|rewrite zlen_zinsert; lia|].
  - simpl. unfold u8. pose proof (Z.div_mod v (2 ^ 8)). lia.
  - replace (8 * Z.of_nat (S n)) with (8 + 8 * Z.of_nat n) in Hv by lia. rewrite Z.pow_add_r in Hv by lia.
    split; [apply Z.div_pos; lia|]. apply Z.div_lt_upper_bound; lia.
Qed.

Lemma zlookup_app_l bytes new i : i < zlen bytes → zlookup (bytes ++ new) i = zlookup bytes i.
Proof. intros Hi. unfold zlookup, zlen in *. case_decide; [|done]. apply lookup_app_l. lia. Qed.
End bytes.

(** * Loads and stores *)

Section access_theory.
  Context {K : Type} `{BH : BrkHeap K}.
  Implicit Types (k : K) (bytes : list Z).

Lemma load_le_ok n k base bytes i :
  holds k base bytes → 0 ≤ i → i + Z.of_nat n ≤ zlen bytes → load_le n (base + i) k = Ok (peek bytes n i, k).
Proof.
  intros Hh. destruct (holds_range k base bytes Hh). revert i. induction n as [|n IH]; intros i Hi Hl; [done|]. cbn [load_le peek].
  destruct (zlookup_is_Some bytes i) as [b Hb]; [lia|]. rewrite (bind_ok _ _ _ _ _ (load_holds k base bytes i b Hh Hb)).
  rewrite u64_small by lia. rewrite <- Z.add_assoc, (bind_ok _ _ _ _ _ (IH (i + 1) ltac:(lia) ltac:(lia))).
  unfold byte_at. by rewrite Hb.
Qed.

Lemma store_le_ok n k base bytes i v :
  holds k base bytes → 0 ≤ i → i + Z.of_nat n ≤ zlen bytes →
  wp (store_le n (base + i) v) k (λ _ k', holds k' base (poke n i v bytes)).
Proof.
  revert k bytes i v. induction n as [|n IH]; intros k bytes i v Hh Hi Hl; cbn [store_le poke]; [by apply wp_ret|].
  destruct (holds_range k base bytes Hh).
  eapply wp_bind_mono; [apply (store_holds k base bytes i (u8 v) Hh); [lia|apply u8_range]|]. cbn beta. intros _ k' Hk'.
  rewrite u64_small by lia. rewrite <- Z.add_assoc. apply IH; [done|lia|rewrite zlen_zinsert; lia].
Qed.
End access_theory.

(** * Blocks *)

(** The header at address [a], in memory that starts at [base]. *)
Definition hdr (base : Z) (bytes : list Z) (a : Z) : header :=
  Header (peek bytes 8 (a - base)) (peek bytes 8 (a - base + 8)) (negb (peek bytes 4 (a - base + 16) =? 0)).

Section headers.
  Implicit Types bytes : list Z.

Lemma hdr_ext base bytes bytes' a :
  (∀ x, a ≤ x < a + sizeof_header → zlookup bytes' (x - base) = zlookup bytes (x - base)) → hdr base bytes' a = hdr base bytes a.
Proof.
  unfold sizeof_header. intros Hx. unfold hdr.
  rewrite !(peek_ext _ _ bytes bytes'); [done|intros j Hj; replace j with (j + base - base) by lia; apply Hx; lia..].
Qed.

Context (base : Z) bytes (a : Z) (Ha : base ≤ a) (Hl : a + sizeof_header ≤ base + zlen bytes).

Lemma hdr_put_size v : 0 ≤ v < 2 ^ 64 → let h := hdr base bytes a in
  hdr base (poke 8 (a - base) v bytes) a = Header v (next h) (free_ h).
Proof using Ha Hl.
  unfold sizeof_header in *. intros Hv. unfold hdr. rewrite peek_poke by lia. simpl next. simpl free_.
  rewrite !(peek_ext _ _ bytes (poke _ _ _ _)); [done|intros; apply poke_other; lia..].
Qed.
Lemma hdr_put_next v : 0 ≤ v < 2 ^ 64 → let h := hdr base bytes a in
  hdr base (poke 8 (a - base + 8) v bytes) a = Header (size h) v (free_ h).
Proof using Ha Hl.
  unfold sizeof_header in *. intros Hv. unfold hdr. rewrite peek_poke by lia. simpl size. simpl free_.
  rewrite !(peek_ext _ _ bytes (poke _ _ _ _)); [done|intros; apply poke_other; lia..].
Qed.
Lemma hdr_put_free v : 0 ≤ v < 2 ^ 32 → let h := hdr base bytes a in
  hdr base (poke 4 (a - base + 16) v bytes) a = Header (size h) (next h) (negb (v =? 0)).
Proof using Ha Hl.
  unfold sizeof_header in *. intros Hv. unfold hdr. rewrite peek_poke by lia. simpl size. simpl next.
  rewrite !(peek_ext _ _ bytes (poke _ _ _ _)); [done|intros; apply poke_other; lia..].
Qed.
End headers.

Section blocks.
  Implicit Types (hf : Z → header) (l : list Z).

(** The singly linked list from [p] on. *)
Fixpoint chain hf (p : Z) l : Prop :=
  match l with [] => p = 0 | a :: l' => p = a ∧ a ≠ 0 ∧ chain hf (next (hf a)) l' end.

(** Blocks lie in increasing order between [lo] and [hi], header first. *)
Fixpoint layout hf (lo hi : Z) l : Prop :=
  match l with
  | [] => lo ≤ hi
  | a :: l' => lo ≤ a ∧ 0 ≤ size (hf a) ∧ layout hf (a + sizeof_header + size (hf a)) hi l'
  end.

Lemma chain_ext hf hf' p l : (∀ a, a ∈ l → next (hf' a) = next (hf a)) → chain hf p l → chain hf' p l.
Proof.
  revert p. induction l as [|a l IH]; intros p Hs; simpl; [done|]. intros (-> & Ha & Hr). split; [done|]. split; [done|].
  rewrite Hs by by left. apply IH; [|done]. intros b Hb. apply Hs. by right.
Qed.

Lemma chain_snoc hf hf' p l t b :
  chain hf p (l ++ [t]) → (∀ a, a ∈ l → next (hf' a) = next (hf a)) → next (hf' t) = b → next (hf' b) = 0 → b ≠ 0 →
  chain hf' p ((l ++ [t]) ++ [b]).
Proof.
  revert p. induction l as [|a l IH]; intros p; simpl.
  - intros (-> & Ht & _) _ E1 E2 Hb. rewrite E1, E2. done.
  - intros (-> & Ha & Hr) Hs E1 E2 Hb. split; [done|]. split; [done|]. rewrite Hs by by left.
    apply IH; [done| |done..]. intros c Hc. apply Hs. by right.
Qed.

Lemma layout_ext hf hf' lo hi l : (∀ a, a ∈ l → size (hf' a) = size (hf a)) → layout hf lo hi l → layout hf' lo hi l.
Proof.
  revert lo. induction l as [|a l IH]; intros lo Hs; simpl; [done|]. intros (Hlo & Hz & Hr). rewrite Hs by by left.
  split; [done|]. split; [done|]. apply IH; [|done]. intros b Hb. apply Hs. by right.
Qed.

Lemma layout_le hf lo hi l : layout hf lo hi l → lo ≤ hi.
Proof. revert lo. induction l as [|a l IH]; intros lo; simpl; [done|]. unfold sizeof_header. intros (Hlo & Hz & Hr%IH). lia. Qed.

Lemma layout_lower hf lo lo' hi l : layout hf lo hi l → lo' ≤ lo → layout hf lo' hi l.
Proof. destruct l; simpl; [lia|]. intros (? & ? & ?) ?. split; [lia|done]. Qed.

Lemma layout_filter hf lo hi l : layout hf lo hi l → layout hf lo hi (filter (λ a, a ≠ 0) l).
Proof.
  revert lo. induction l as [|a l IH]; intros lo; simpl layout; [done|]. intros (Hlo & Hz & Hr).
  rewrite filter_cons. case_decide; simpl.
  - by auto.
  - eapply layout_lower; [by apply IH|]. unfold sizeof_header. lia.
Qed.

Lemma layout_snoc hf lo mid a hi l :
  layout hf lo mid l → mid ≤ a → 0 ≤ size (hf a) → a + sizeof_header + size (hf a) ≤ hi → layout hf lo hi (l ++ [a]).
Proof. revert lo. induction l as [|b l IH]; intros lo; simpl; [lia|]. intros (Hlo & Hz & Hr) Hma Hz' Hhi. auto. Qed.

(** Where a block lies, and that two blocks do not overlap. *)
Lemma layout_block hf lo hi l a : layout hf lo hi l → a ∈ l → lo ≤ a ∧ 0 ≤ size (hf a) ∧ a + sizeof_header + size (hf a) ≤ hi.
Proof.
  unfold sizeof_header. revert lo. induction l as [|b l IH]; intros lo; simpl; [by inversion 2|]. unfold sizeof_header in *.
  intros (Hlo & Hz & Hr) [->|Hin]%elem_of_cons; [apply layout_le in Hr; lia|]. destruct (IH _ Hr Hin). lia.
Qed.

Lemma layout_disjoint hf lo hi l a b :
  layout hf lo hi l → a ∈ l → b ∈ l → a ≠ b → a + sizeof_header + size (hf a) ≤ b ∨ b + sizeof_header + size (hf b) ≤ a.
Proof.
  revert lo. induction l as [|c l IH]; intros lo; simpl; [by inversion 2|]. intros (Hlo & Hz & Hr) Ha Hb Hne.
  apply elem_of_cons in Ha as [->|Ha]; apply elem_of_cons in Hb as [->|Hb]; try done.
  - left. by destruct (layout_block _ _ _ _ _ Hr Hb).
  - right. by destruct (layout_block _ _ _ _ _ Hr Ha).
  - by eapply IH.
Qed.

Lemma layout_nodup hf lo hi l : layout hf lo hi l → NoDup l.
Proof.
  revert lo. induction l as [|a l IH]; intros lo; simpl; [constructor|]. intros (Hlo & Hz & Hr). apply NoDup_cons. split; [|by eapply IH].
  intros Hin. destruct (layout_block _ _ _ _ _ Hr Hin). unfold sizeof_header in *. lia.
Qed.

(** The blocks up to the last one need room for a header each. *)
Lemma layout_last hf lo hi l t : layout hf lo hi l → last l = Some t → lo + sizeof_header * (zlen l - 1) ≤ t.
Proof.
  unfold sizeof_header. revert lo. induction l as [|a l IH]; intros lo; simpl; [done|]. unfold zlen in *. unfold sizeof_header in *.
  intros (Hlo & Hz & Hr) Hl. destruct l as [|b l]; [injection Hl as <-; simpl; lia|].
  specialize (IH _ Hr Hl). simpl in *. lia.
Qed.
End blocks.

(** * The invariant of the heap *)

(** The blocks the search sees: all but one at address 0, where the list cannot hold
    it. *)
Definition listed (bl : list Z) : list Z := filter (λ a, a ≠ 0) bl.

Section heap.
  Context {K : Type} `{BH : BrkHeap K}.
  Implicit Types (k : K) (s : malloc_st K) (bytes bl : list Z).

(** The memory from [base] to the break is laid out as the blocks [bl]. *)
Record heap_ok s base bytes bl : Prop := {
  hk_holds : holds (kernel s) base bytes;
  hk_layout : layout (hdr base bytes) base (base + zlen bytes) bl;
  hk_chain : chain (hdr base bytes) (head s) (listed bl);
  hk_tail : tail s = default 0 (last (listed bl))
}.

Definition header_in base bytes (a : Z) : Prop := base ≤ a ∧ a + sizeof_header ≤ base + zlen bytes.

Lemma set_kernel_same s : set_kernel (kernel s) s = s.
Proof. by destruct s. Qed.

Lemma on_kernel_load n s a v : load_le n a (kernel s) = Ok (v, kernel s) → on_kernel (load_le n a) s = Ok (v, s).
Proof. unfold on_kernel, zoom. intros ->. by rewrite set_kernel_same. Qed.

Lemma load_at n k base bytes a i :
  holds k base bytes → a = base + i → 0 ≤ i → i + Z.of_nat n ≤ zlen bytes → load_le n a k = Ok (peek bytes n i, k).
Proof. intros Hh ->. by apply load_le_ok. Qed.

Lemma fields_ok s base bytes a :
  holds (kernel s) base bytes → header_in base bytes a → let h := hdr base bytes a in
  get_size a s = Ok (size h, s) ∧ get_next a s = Ok (next h, s) ∧ ∃ f, get_free a s = Ok (f, s) ∧ negb (f =? 0) = free_ h.
Proof.
  unfold header_in, sizeof_header. intros Hh [Ha Hl]. destruct (holds_range _ _ _ Hh). split; [|split].
  - apply on_kernel_load, (load_at _ _ base bytes); [done|lia..].
  - apply on_kernel_load, (load_at _ _ base bytes); [done|rewrite u64_small; lia|lia..].
  - exists (peek bytes 4 (a - base + 16)). split; [|done]. apply on_kernel_load, (load_at _ _ base bytes); [done|rewrite u64_small; lia|lia..].
Qed.

(** A store changes the kernel's side only. *)
Definition stored s base bytes' s' : Prop := ∃ k', s' = set_kernel k' s ∧ holds k' base bytes'.

Lemma on_kernel_store n s base bytes i a v :
  holds (kernel s) base bytes → a = base + i → 0 ≤ i → i + Z.of_nat n ≤ zlen bytes →
  wp (on_kernel (store_le n a v)) s (λ _ s', stored s base (poke n i v bytes) s').
Proof. intros Hh -> Hi Hl. apply wp_zoom. eapply wp_mono; [by apply (store_le_ok n _ base bytes)|]. cbn beta. intros _ k' Hk'. by exists k'. Qed.

Lemma store_size_ok s base bytes a v :
  holds (kernel s) base bytes → header_in base bytes a → wp (put_size a v) s (λ _ s', stored s base (poke 8 (a - base) v bytes) s').
Proof. unfold header_in, sizeof_header. intros Hh [Ha Hl]. apply on_kernel_store; [done|lia..]. Qed.
Lemma store_next_ok s base bytes a v :
  holds (kernel s) base bytes → header_in base bytes a → wp (put_next a v) s (λ _ s', stored s base (poke 8 (a - base + 8) v bytes) s').
Proof. unfold header_in, sizeof_header. intros Hh [Ha Hl]. destruct (holds_range _ _ _ Hh). apply on_kernel_store; [done|rewrite u64_small; lia|lia..]. Qed.
Lemma store_free_ok s base bytes a v :
  holds (kernel s) base bytes → header_in base bytes a → wp (put_free a v) s (λ _ s', stored s base (poke 4 (a - base + 16) v bytes) s').
Proof. unfold header_in, sizeof_header. intros Hh [Ha Hl]. destruct (holds_range _ _ _ Hh). apply on_kernel_store; [done|rewrite u64_small; lia|lia..]. Qed.

(** The search ends, at the first free block that fits or at the end of the list. *)
Lemma malloc_search_ok fuel s base bytes p l sz :
  holds (kernel s) base bytes → chain (hdr base bytes) p l → (∀ a, a ∈ l → header_in base bytes a) → (length l < fuel)%nat →
  wp (malloc_search fuel p sz) s (λ r s', (r = None ∧ s' = s) ∨ ∃ a, a ∈ l ∧ free_ (hdr base bytes a) = true ∧ sz ≤ size (hdr base bytes a)
    ∧ r = Some (a + sizeof_header) ∧ stored s base (poke 4 (a - base + 16) 0 bytes) s').
Proof.
  intros Hh. revert p l. induction fuel as [|fuel IH]; intros p l Hc Hin Hf; [lia|]. cbn [malloc_search].
  destruct l as [|a l]; simpl in Hc; [subst p; apply wp_ret; by left|]. destruct Hc as (-> & Ha & Hc).
  rewrite (proj2 (Z.eqb_neq a 0) Ha). pose proof (Hin a ltac:(by left)) as Hia.
  destruct (fields_ok s base bytes a Hh Hia) as (E1 & E2 & f & E3 & Hfr).
  apply wp_bind. eapply wp_ok; [exact E3|]. apply wp_bind.
  assert ((if f =? 0 then mret false else n ← get_size a; mret (sz <=? n)) s
    = Ok (free_ (hdr base bytes a) && (sz <=? size (hdr base bytes a)), s)) as E.
  { rewrite <- Hfr. destruct (f =? 0); [done|]. by rewrite (bind_ok _ _ _ _ _ E1). }
  eapply wp_ok; [exact E|]. cbn beta. destruct (free_ (hdr base bytes a) && (sz <=? size (hdr base bytes a))) eqn:Hfit.
  - apply andb_true_iff in Hfit as [F1 F2%Z.leb_le]. eapply wp_bind_mono; [by apply store_free_ok|]. cbn beta. intros _ s' Hs'.
    apply wp_ret. right. exists a. split; [by left|]. split; [done|]. split; [done|]. split; [|done].
    destruct Hia, (holds_range _ _ _ Hh). rewrite u64_small by (unfold sizeof_header in *; lia). done.
  - apply wp_bind. eapply wp_ok; [exact E2|]. cbn beta. eapply wp_mono; [apply (IH _ l Hc)|].
    + intros b Hb. apply Hin. by right.
    + simpl in Hf. lia.
    + cbn beta. intros r s' [Hr|(b & Hb & Hr)]; [by left|]. right. exists b. split; [by right|done].
Qed.

Lemma i64_small z : 0 ≤ z < 2 ^ 63 → i64 z = z.
Proof. intros. unfold i64. rewrite Z.mod_small by lia. lia. Qed.

Lemma sbrk_ok s base bytes n :
  holds (kernel s) base bytes → 0 < n → can_extend (kernel s) n →
  wp (sbrk n) s (λ r s', (r = u64 (-1) ∧ stored s base bytes s')
    ∨ r = base + zlen bytes ∧ ∃ new, zlen new = n ∧ stored s base (bytes ++ new) s').
Proof.
  intros Hh Hn Hc. destruct (holds_range _ _ _ Hh). pose proof (extend_range _ _ _ _ Hh Hc). pose proof (zlen_nonneg bytes).
  unfold sbrk. apply wp_bind, wp_zoom. eapply wp_ok; [by apply brk_asks|]. rewrite set_kernel_same.
  change (u64 (-1)) with (2 ^ 64 - 1). rewrite (proj2 (Z.eqb_neq _ _)) by lia.
  rewrite (proj2 (Z.eqb_neq n 0)) by lia. rewrite u64_small by lia. apply wp_bind, wp_zoom.
  eapply wp_mono; [by apply (brk_extends _ base bytes)|]. cbn beta. intros r k' [(-> & new & Hnew & Hk')|(-> & Hk')].
  - rewrite (proj2 (Z.ltb_ge _ _)) by lia. apply wp_ret. right. split; [done|]. exists new. split; [done|]. by exists k'.
  - rewrite (proj2 (Z.ltb_lt _ _)) by lia. apply wp_ret. left. split; [done|]. by exists k'.
Qed.

(** The fuel of the search. *)
Lemma search_fuel_ok s base bytes bl : heap_ok s base bytes bl → (length (listed bl) < search_fuel s)%nat.
Proof.
  intros [_ Hl Hc Ht]. apply layout_filter in Hl. fold (listed bl) in Hl. unfold search_fuel. rewrite Ht.
  destruct (listed bl) as [|a l] eqn:E; [simpl in *; rewrite Hc; apply Nat.ltb_lt; by vm_compute|].
  destruct Hc as (-> & _ & _). simpl layout in Hl. destruct Hl as (_ & Hz & Hl).
  destruct (last (a :: l)) as [t|] eqn:El; [|discriminate (proj1 (last_None _) El)].
  assert (a + sizeof_header * (zlen (a :: l) - 1) ≤ t) as Hb.
  { apply (layout_last (hdr base bytes) a (base + zlen bytes) (a :: l) t); [|done]. simpl. split; [lia|]. done. }
  simpl default. assert (zlen (a :: l) - 1 ≤ (t - a) / sizeof_header).
  { apply Z.div_le_lower_bound; unfold sizeof_header in *; lia. }
  unfold zlen in *. lia.
Qed.

(** Where the blocks lie. *)
Lemma heap_block s base bytes bl a :
  heap_ok s base bytes bl → a ∈ bl → header_in base bytes a ∧ 0 ≤ size (hdr base bytes a) ∧ a + sizeof_header + size (hdr base bytes a) ≤ base + zlen bytes.
Proof. intros Hok Ha. destruct (layout_block _ _ _ _ _ (hk_layout _ _ _ _ Hok) Ha) as (? & ? & ?). unfold header_in. lia. Qed.

Lemma heap_disjoint s base bytes bl a b :
  heap_ok s base bytes bl → a ∈ bl → b ∈ bl → a ≠ b →
  a + sizeof_header + size (hdr base bytes a) ≤ b ∨ b + sizeof_header + size (hdr base bytes b) ≤ a.
Proof. intros Hok. apply (layout_disjoint _ _ _ _ _ _ (hk_layout _ _ _ _ Hok)). Qed.

Lemma listed_in bl a : a ∈ listed bl ↔ a ≠ 0 ∧ a ∈ bl.
Proof. unfold listed. by rewrite list_elem_of_filter. Qed.

(** Changing the flag of one block. *)
Lemma heap_flag s base bytes bl a v s' :
  heap_ok s base bytes bl → a ∈ bl → 0 ≤ v < 2 ^ 32 → let bytes' := poke 4 (a - base + 16) v bytes in stored s base bytes' s' →
  heap_ok s' base bytes' bl ∧ free_ (hdr base bytes' a) = negb (v =? 0)
  ∧ (∀ b, b ∈ bl → size (hdr base bytes' b) = size (hdr base bytes b))
  ∧ ∀ b, b ∈ bl → b ≠ a → hdr base bytes' b = hdr base bytes b.
Proof.
  intros Hok Ha Hv bytes' (k' & -> & Hk'). destruct (heap_block _ _ _ _ _ Hok Ha) as ([B1 B2] & B3 & B4).
  pose proof (hdr_put_free base bytes a B1 B2 v Hv) as Ea. cbn zeta in Ea. fold bytes' in Ea.
  assert (∀ b, b ∈ bl → b ≠ a → hdr base bytes' b = hdr base bytes b) as Hoth.
  { intros b Hb Hne. destruct (heap_block _ _ _ _ _ Hok Hb) as ([C1 C2] & C3 & C4). apply hdr_ext. intros x Hx. apply poke_other.
    destruct (heap_disjoint _ _ _ _ _ _ Hok Ha Hb ltac:(congruence)); unfold sizeof_header in *; lia. }
  assert (∀ b, b ∈ bl → size (hdr base bytes' b) = size (hdr base bytes b) ∧ next (hdr base bytes' b) = next (hdr base bytes b)) as Hsame.
  { intros b Hb. destruct (decide (b = a)) as [->|Hne]; [by rewrite Ea|by rewrite Hoth]. }
  destruct Hok as [H1 H2 H3 H4]. split; [|split; [by rewrite Ea|split; [intros b Hb; by apply Hsame|done]]].
  constructor; [done| | |done].
  - unfold bytes'. rewrite zlen_poke. eapply layout_ext; [|exact H2]. intros b Hb. by apply Hsame.
  - eapply chain_ext; [|exact H3]. intros b [_ Hb]%listed_in. by apply Hsame.
Qed.

(** A new block, its header written behind the old break. *)
Lemma new_block_ok s base bytes new sz :
  holds (kernel s) base (bytes ++ new) → zlen new = sizeof_header + sz → 0 < sz →
  let block := base + zlen bytes in
  wp (put_size block sz;; put_free block 0;; put_next block 0) s (λ _ s', ∃ bytes', stored s base bytes' s'
    ∧ zlen bytes' = zlen bytes + (sizeof_header + sz) ∧ hdr base bytes' block = Header sz 0 false
    ∧ ∀ x, x < base + zlen bytes → zlookup bytes' (x - base) = zlookup bytes (x - base)).
Proof.
  intros Hh Hn Hsz block. destruct (holds_range _ _ _ Hh) as [R1 R2]. rewrite zlen_app, Hn in R2.
  assert (∀ l, zlen l = zlen (bytes ++ new) → header_in base l block) as Hin.
  { intros l Hl. rewrite zlen_app, Hn in Hl. unfold header_in, block. pose proof (zlen_nonneg bytes). lia. }
  eapply wp_bind_mono; [by apply store_size_ok, Hin|]. cbn beta. intros _ s1 (k1 & -> & Hk1). set (b1 := poke _ _ _ _) in *.
  assert (zlen b1 = zlen (bytes ++ new)) as L1 by apply zlen_poke.
  eapply wp_bind_mono; [by apply (store_free_ok _ base b1), Hin|]. cbn beta. intros _ s2 (k2 & -> & Hk2). set (b2 := poke _ _ _ b1) in *.
  assert (zlen b2 = zlen (bytes ++ new)) as L2 by (rewrite <- L1; apply zlen_poke).
  eapply wp_mono; [by apply (store_next_ok _ base b2), Hin|]. cbn beta. intros _ s3 (k3 & -> & Hk3). set (b3 := poke _ _ _ b2) in *.
  assert (zlen b3 = zlen (bytes ++ new)) as L3 by (rewrite <- L2; apply zlen_poke).
  exists b3. split; [by exists k3|]. split; [by rewrite L3, zlen_app, Hn|]. split.
  - unfold b3. destruct (Hin b2 L2). rewrite hdr_put_next by (done || lia). unfold b2. destruct (Hin b1 L1). rewrite hdr_put_free by (done || lia).
    unfold b1. destruct (Hin (bytes ++ new) eq_refl). rewrite hdr_put_size by (done || (pose proof (zlen_nonneg bytes); unfold sizeof_header in *; lia)). done.
  - intros x Hx. unfold b3, b2, b1. rewrite !poke_other by (unfold block; lia). apply zlookup_app_l. lia.
Qed.

(** The block at [p] was granted: it was free or new, and nothing outside the headers of
    the old blocks has changed. *)
Definition granted (sz base : Z) bytes bl (p : Z) (bytes' bl' : list Z) : Prop :=
  ∃ a, p = a + sizeof_header ∧ a ∈ bl' ∧ free_ (hdr base bytes' a) = false ∧ sz ≤ size (hdr base bytes' a)
  ∧ (a ∈ bl → free_ (hdr base bytes a) = true)
  ∧ (∀ b, b ∈ bl → b ∈ bl' ∧ (b ≠ a → size (hdr base bytes' b) = size (hdr base bytes b) ∧ free_ (hdr base bytes' b) = free_ (hdr base bytes b)))
  ∧ ∀ x, x < base + zlen bytes → (∀ b, b ∈ bl → ¬ b ≤ x < b + sizeof_header) → zlookup bytes' (x - base) = zlookup bytes (x - base).

Lemma listed_snoc bl b : listed (bl ++ [b]) = listed bl ++ (if decide (b = 0) then [] else [b]).
Proof.
  unfold listed. rewrite filter_app, filter_cons, filter_nil. f_equal.
  destruct (decide (b = 0)) as [->|Hne]; [by rewrite decide_False by tauto|by rewrite decide_True].
Qed.

Section append.
  Context s base bytes bl sz (Hok : heap_ok s base bytes bl) (Hsz : 0 < sz).
Let block := base + zlen bytes.

Lemma append_new : block ∉ bl.
Proof using Hok.
  intros Hin. destruct (heap_block _ _ _ _ _ Hok Hin) as ([B1 B2] & _ & _). unfold block, sizeof_header in *. lia.
Qed.

(** The heap once the block is in the list. *)
Lemma heap_append s2 bytes2 :
  holds (kernel s2) base bytes2 → zlen bytes2 = zlen bytes + (sizeof_header + sz) → hdr base bytes2 block = Header sz 0 false →
  (∀ b, b ∈ bl → size (hdr base bytes2 b) = size (hdr base bytes b) ∧ free_ (hdr base bytes2 b) = free_ (hdr base bytes b)) →
  (∀ x, x < base + zlen bytes → (∀ b, b ∈ bl → ¬ b ≤ x < b + sizeof_header) → zlookup bytes2 (x - base) = zlookup bytes (x - base)) →
  chain (hdr base bytes2) (head s2) (listed (bl ++ [block])) → tail s2 = default 0 (last (listed (bl ++ [block]))) →
  heap_ok s2 base bytes2 (bl ++ [block]) ∧ granted sz base bytes bl (block + sizeof_header) bytes2 (bl ++ [block]).
Proof using Hok Hsz.
  intros E1 E2 E3 E4 E5 E6 E7. destruct Hok as [H1 H2 H3 H4]. split.
  - constructor; [done| |done|done].
    apply (layout_snoc _ _ (base + zlen bytes)); rewrite ?E2, ?E3; [|unfold block; lia|simpl; lia|simpl; unfold block; lia].
    eapply layout_ext; [|done]. intros b Hb. by apply E4.
  - exists block. rewrite E3. split; [done|]. split; [apply elem_of_app; right; by left|].
    split; [done|]. split; [simpl; lia|]. split; [intros Hin; by destruct append_new|]. split; [|exact E5].
    intros b Hin. split; [apply elem_of_app; by left|]. intros _. by apply E4.
Qed.

Context bytes' (Hl : zlen bytes' = zlen bytes + (sizeof_header + sz)) (Hb : hdr base bytes' block = Header sz 0 false).
Context (Hold : ∀ x, x < base + zlen bytes → zlookup bytes' (x - base) = zlookup bytes (x - base)).

Lemma append_same b : b ∈ bl → hdr base bytes' b = hdr base bytes b.
Proof using Hok Hold.
  intros Hin. destruct (heap_block _ _ _ _ _ Hok Hin) as ([B1 B2] & B3 & B4). apply hdr_ext. intros x Hx. apply Hold. lia.
Qed.

(** The old last block, made to point to the new one. *)
Lemma append_link l0 t :
  0 ≤ block < 2 ^ 64 → block ≠ 0 → listed bl = l0 ++ [t] → let bytes2 := poke 8 (t - base + 8) block bytes' in
  hdr base bytes2 block = Header sz 0 false
  ∧ (∀ b, b ∈ bl → size (hdr base bytes2 b) = size (hdr base bytes b) ∧ free_ (hdr base bytes2 b) = free_ (hdr base bytes b))
  ∧ (∀ x, x < base + zlen bytes → (∀ b, b ∈ bl → ¬ b ≤ x < b + sizeof_header) → zlookup bytes2 (x - base) = zlookup bytes (x - base))
  ∧ chain (hdr base bytes2) (head s) ((l0 ++ [t]) ++ [block]).
Proof using Hok Hsz Hl Hb Hold.
  intros Hbr Hb0 El bytes2. assert (t ∈ bl) as Hin0 by (apply (listed_in bl t); rewrite El; apply elem_of_app; right; by left).
  destruct (heap_block _ _ _ _ _ Hok Hin0) as ([B1 B2] & B3 & B4).
  assert (hdr base bytes2 t = Header (size (hdr base bytes t)) block (free_ (hdr base bytes t))) as Et.
  { unfold bytes2. rewrite hdr_put_next by (done || (unfold sizeof_header in *; lia)). by rewrite append_same. }
  assert (∀ b, b ∈ bl → b ≠ t → hdr base bytes2 b = hdr base bytes b) as Hoth.
  { intros b Hin Hne. rewrite <- (append_same b Hin). destruct (heap_block _ _ _ _ _ Hok Hin) as ([C1 C2] & C3 & C4).
    apply hdr_ext. intros x Hx. apply poke_other.
    destruct (heap_disjoint _ _ _ _ _ _ Hok Hin0 Hin ltac:(congruence)); unfold sizeof_header in *; lia. }
  assert (hdr base bytes2 block = Header sz 0 false) as Ebk.
  { rewrite <- Hb. apply hdr_ext. intros x Hx. apply poke_other. unfold block, sizeof_header in *. lia. }
  split; [done|]. split; [|split].
  - intros b Hin. destruct (decide (b = t)) as [->|Hne]; [by rewrite Et|by rewrite Hoth].
  - intros x Hx Hno. unfold bytes2. rewrite poke_other; [by apply Hold|]. specialize (Hno t Hin0). unfold sizeof_header in *. lia.
  - pose proof (hk_chain _ _ _ _ Hok) as Hc. rewrite El in Hc.
    apply (chain_snoc (hdr base bytes)); [done| |by rewrite Et|by rewrite Ebk|done]. intros b Hin.
    assert (b ∈ bl) as Hinb by (apply (listed_in bl b); rewrite El; apply elem_of_app; by left).
    rewrite Hoth; [done|done|]. intros ->.
    pose proof (layout_nodup _ _ _ _ (layout_filter _ _ _ _ (hk_layout _ _ _ _ Hok))) as Hnd. fold (listed bl) in Hnd. rewrite El in Hnd.
    apply NoDup_app in Hnd as (_ & Hnd & _). apply (Hnd t Hin). by left.
Qed.

(** Putting the new block in the list. *)
Lemma link_block_ok k' :
  holds k' base bytes' →
  wp (hd ← gets head;
      (if hd =? 0 then modify (set_head block) else mret tt);;
      tl ← gets tail;
      (if tl =? 0 then mret tt else put_next tl block);;
      modify (set_tail block);;
      mret (u64 (block + sizeof_header))) (set_kernel k' s)
    (λ p s', ∃ bytes2 bl', heap_ok s' base bytes2 bl' ∧ granted sz base bytes bl p bytes2 bl').
Proof using Hok Hsz Hl Hb Hold.
  intros Hh. destruct (holds_range _ _ _ Hh) as [R1 R2]. pose proof (zlen_nonneg bytes) as R3.
  assert (u64 (block + sizeof_header) = block + sizeof_header) as Eu by (apply u64_small; unfold block, sizeof_header in *; lia).
  apply wp_bind, wp_gets. cbn [head set_kernel].
  pose proof (hk_chain _ _ _ _ Hok) as H3. pose proof (hk_tail _ _ _ _ Hok) as H4. pose proof (listed_snoc bl block) as Ebl.
  destruct (listed bl) as [|t l0 _] eqn:El using rev_ind.
  - simpl in H3, H4. rewrite H3. apply wp_bind, wp_modify, wp_bind, wp_gets. cbn [tail set_head set_kernel]. rewrite H4.
    apply wp_bind, wp_ret, wp_bind, wp_modify, wp_ret. rewrite Eu. exists bytes', (bl ++ [block]).
    apply heap_append; [done..| | | |]; [intros b Hin; by rewrite append_same|intros x Hx _; by apply Hold| |];
      rewrite Ebl; case_decide as Hz; cbn [app chain]; [done| |by rewrite Hz|done].
    by rewrite Hb.
  - rewrite last_snoc in H4. simpl in H4.
    assert (t ≠ 0 ∧ t ∈ bl) as [Ht0 Hin0] by (apply listed_in; rewrite El; apply elem_of_app; right; by left).
    assert (head s ≠ 0) as Hh0 by (destruct l0; simpl in H3; by destruct H3 as (-> & ? & _)).
    rewrite (proj2 (Z.eqb_neq _ _) Hh0). apply wp_bind, wp_ret, wp_bind, wp_gets. cbn [tail set_kernel]. rewrite H4, (proj2 (Z.eqb_neq _ _) Ht0).
    destruct (heap_block _ _ _ _ _ Hok Hin0) as ([B1 B2] & B3 & B4).
    eapply wp_bind_mono; [apply (store_next_ok _ base bytes'); [done|split; unfold sizeof_header in *; lia]|]. cbn beta. intros _ s2 (k2 & -> & Hk2).
    apply wp_bind, wp_modify, wp_ret. rewrite Eu.
    assert (0 ≤ block < 2 ^ 64 ∧ block ≠ 0) as [Hbr Hb0] by (unfold block, sizeof_header in *; lia).
    destruct (append_link l0 t Hbr Hb0 El) as (L1 & L2 & L3 & L4). rewrite decide_False in Ebl by done.
    eexists _, (bl ++ [block]). apply heap_append; [exact Hk2|by rewrite zlen_poke|done..| |]; rewrite Ebl; [done|by rewrite last_snoc].
Qed.
End append.

(** What a call of [malloc] answers: NULL with the heap as it was, or a block. *)
Lemma malloc_ok s base bytes bl sz :
  heap_ok s base bytes bl → 0 < sz → can_extend (kernel s) (sizeof_header + sz) →
  wp (malloc sz) s (λ p s', ∃ bytes' bl', heap_ok s' base bytes' bl' ∧ ((p = 0 ∧ bytes' = bytes ∧ bl' = bl) ∨ granted sz base bytes bl p bytes' bl')).
Proof.
  intros Hok Hsz Hext. pose proof Hok as [H1 H2 H3 H4]. destruct (holds_range _ _ _ H1) as [R1 R2]. pose proof (extend_range _ _ _ _ H1 Hext) as R3.
  pose proof (zlen_nonneg bytes). unfold malloc. rewrite (proj2 (Z.eqb_neq sz 0)) by lia. apply wp_bind, wp_gets, wp_bind, wp_gets.
  eapply wp_bind_mono; [apply (malloc_search_ok _ s base bytes _ (listed bl) sz H1 H3)|].
  { intros a [_ Ha]%listed_in. by apply (heap_block _ _ _ _ _ Hok). }
  { by apply (search_fuel_ok s base bytes bl). }
  cbn beta. intros r s1 [(-> & ->)|(a & [_ Ha]%listed_in & Hfr & Hfit & -> & Hst)].
  - rewrite (u64_small (sizeof_header + sz)), i64_small by (unfold sizeof_header in *; lia).
    eapply wp_bind_mono; [apply (sbrk_ok s base bytes); [done|unfold sizeof_header in *; lia|done]|].
    cbn beta. intros r s2 [[-> (k' & -> & Hk')]|(-> & new & Hnew & k' & -> & Hk')].
    + rewrite Z.eqb_refl. apply wp_ret. exists bytes, bl. split; [by constructor|by left].
    + change (u64 (-1)) with (2 ^ 64 - 1). rewrite (proj2 (Z.eqb_neq _ _)) by (unfold sizeof_header in *; lia).
      pose proof (new_block_ok (set_kernel k' s) base bytes new sz Hk' Hnew Hsz) as Hnb. cbn zeta in Hnb.
      apply wp_inv in Hnb as ([] & s3 & E & bytes' & (k3 & -> & Hk3) & L & Hb & Hold).
      assert (∀ (m : M (malloc_st K) Z) Q, wp m (set_kernel k3 (set_kernel k' s)) Q →
        wp (put_size (base + zlen bytes) sz;; put_free (base + zlen bytes) 0;; put_next (base + zlen bytes) 0;; m) (set_kernel k' s) Q) as Hseq.
      { intros m Q Hm. unfold wp in *. rewrite <- (bind_ok _ (λ _, m) _ _ _ E) in Hm. rewrite bind_assoc in Hm.
        revert Hm. unfold mbind, M_bind. destruct (put_size _ _ _) as [[]|]; [|done]. by destruct (put_free _ _ _) as [[]|]. }
      apply Hseq. eapply wp_mono; [by apply (link_block_ok s base bytes bl sz Hok Hsz bytes' L Hb Hold)|].
      cbn beta. intros p s' (bytes2 & bl' & Hok' & Hg). exists bytes2, bl'. split; [done|by right].
  - apply wp_ret. destruct (heap_flag s base bytes bl a 0 s1 Hok Ha ltac:(lia) Hst) as (Hok' & Hf & Hs & Ho).
    eexists _, bl. split; [exact Hok'|]. right. exists a. split; [done|]. split; [done|]. split; [exact Hf|]. split; [by rewrite Hs|].
    split; [done|]. split; [intros b Hb; split; [done|]; intros Hne; by rewrite Ho|].
    intros x Hx Hno. apply poke_other. specialize (Hno a Ha). unfold sizeof_header in *. lia.
Qed.

Lemma free_ok s base bytes bl a :
  heap_ok s base bytes bl → a ∈ bl → wp (free (a + sizeof_header)) s (λ _ s', let bytes' := poke 4 (a - base + 16) 1 bytes in
    heap_ok s' base bytes' bl ∧ free_ (hdr base bytes' a) = true ∧ (∀ b, b ∈ bl → size (hdr base bytes' b) = size (hdr base bytes b))
    ∧ ∀ b, b ∈ bl → b ≠ a → hdr base bytes' b = hdr base bytes b).
Proof.
  intros Hok Ha. destruct (heap_block _ _ _ _ _ Hok Ha) as ([B1 B2] & B3 & B4). destruct (holds_range _ _ _ (hk_holds _ _ _ _ Hok)).
  unfold free. rewrite (proj2 (Z.eqb_neq _ _)) by (unfold sizeof_header in *; lia).
  replace (a + sizeof_header - sizeof_header) with a by lia. rewrite u64_small by (unfold sizeof_header in *; lia).
  eapply wp_mono; [apply (store_free_ok s base bytes); [apply Hok|done]|]. cbn beta. intros _ s' Hs'.
  by apply (heap_flag s base bytes bl a 1 s' Hok Ha).
Qed.
End heap.

(** * Histories of the heap *)

(** A program that writes only into what it holds and frees only what it holds:
    [r_live] gives the size it asked for at each pointer it holds, [r_data] what it wrote
    last at each address there. *)
Record run (K : Type) := Run { r_st : malloc_st K; r_live : gmap Z Z; r_data : gmap Z Z }.
Arguments Run {K} _ _ _.
Arguments r_st {K} _.
Arguments r_live {K} _.
Arguments r_data {K} _.

Section histories.
  Context {K : Type} `{BH : BrkHeap K}.
  Implicit Types (s : malloc_st K) (bytes bl : list Z) (L D : gmap Z Z).

Inductive heap_step : run K → run K → Prop :=
  | step_malloc s L D sz p s' :
      0 < sz → can_extend (kernel s) (sizeof_header + sz) → malloc sz s = Ok (p, s') → p ≠ 0 → heap_step (Run s L D) (Run s' (<[p := sz]> L) D)
  | step_malloc_null s L D sz s' :
      0 < sz → can_extend (kernel s) (sizeof_header + sz) → malloc sz s = Ok (0, s') → heap_step (Run s L D) (Run s' L D)
  | step_write s L D p n x b k' :
      L !! p = Some n → p ≤ x < p + n → 0 ≤ b < 2 ^ 8 → u_store x b (kernel s) = Ok (tt, k') →
      heap_step (Run s L D) (Run (set_kernel k' s) L (<[x := b]> D))
  | step_free s L D p n s' :
      L !! p = Some n → free p s = Ok (tt, s') →
      heap_step (Run s L D) (Run s' (delete p L) (filter (λ xb, ¬ p ≤ xb.1 < p + n) D)).

(** Every pointer held is behind the header of a block in use, and what was written is
    still there. *)
Record held_in (base : Z) bytes bl (c : run K) : Prop := {
  hi_heap : heap_ok (r_st c) base bytes bl;
  hi_live p n : r_live c !! p = Some n → ∃ a, p = a + sizeof_header ∧ a ∈ bl ∧ free_ (hdr base bytes a) = false ∧ 0 < n ≤ size (hdr base bytes a);
  hi_data x b : r_data c !! x = Some b → zlookup bytes (x - base) = Some b ∧ ∃ p n, r_live c !! p = Some n ∧ p ≤ x < p + n
}.
Definition held_ok (base : Z) (c : run K) : Prop := ∃ bytes bl, held_in base bytes bl c.

(** The bytes of a block are below the break and in no header. *)
Lemma block_bytes s base bytes bl a x :
  heap_ok s base bytes bl → a ∈ bl → a + sizeof_header ≤ x < a + sizeof_header + size (hdr base bytes a) →
  base ≤ x < base + zlen bytes ∧ ∀ b, b ∈ bl → ¬ b ≤ x < b + sizeof_header.
Proof.
  intros Hok Ha Hx. destruct (heap_block _ _ _ _ _ Hok Ha) as ([B1 B2] & B3 & B4). unfold sizeof_header in *. split; [lia|]. intros b Hb.
  destruct (heap_block _ _ _ _ _ Hok Hb) as (_ & C3 & _). destruct (decide (b = a)) as [->|Hne]; [lia|].
  destruct (heap_disjoint _ _ _ _ _ _ Hok Ha Hb ltac:(congruence)); unfold sizeof_header in *; lia.
Qed.

Lemma live_bytes base bytes bl c p n x :
  held_in base bytes bl c → r_live c !! p = Some n → p ≤ x < p + n →
  base ≤ x < base + zlen bytes ∧ ∀ b, b ∈ bl → ¬ b ≤ x < b + sizeof_header.
Proof.
  intros [H1 H2 _] Hp Hx. destruct (H2 p n Hp) as (a & -> & Ha & _ & Hn). apply (block_bytes _ _ _ _ a x H1 Ha). lia.
Qed.

Lemma live_disjoint base bytes bl c p n q m :
  held_in base bytes bl c → r_live c !! p = Some n → r_live c !! q = Some m → p ≠ q → p + n ≤ q ∨ q + m ≤ p.
Proof.
  intros [H1 H2 _] Hp Hq Hne. destruct (H2 p n Hp) as (a & -> & Ha & _ & Hn), (H2 q m Hq) as (b & -> & Hb & _ & Hm).
  destruct (heap_disjoint _ _ _ _ _ _ H1 Ha Hb ltac:(congruence)); unfold sizeof_header in *; lia.
Qed.

(** Writing a byte of a block. *)
Lemma heap_write s base bytes bl x b k' :
  heap_ok s base bytes bl → (∀ a, a ∈ bl → ¬ a ≤ x < a + sizeof_header) → holds k' base (zinsert (x - base) b bytes) →
  heap_ok (set_kernel k' s) base (zinsert (x - base) b bytes) bl ∧ ∀ a, a ∈ bl → hdr base (zinsert (x - base) b bytes) a = hdr base bytes a.
Proof.
  intros [H1 H2 H3 H4] Hx Hk'. assert (∀ a, a ∈ bl → hdr base (zinsert (x - base) b bytes) a = hdr base bytes a) as Hs.
  { intros a Ha. apply hdr_ext. intros y Hy. apply zlookup_zinsert_ne. intros E. apply (Hx a Ha). lia. }
  split; [|done]. constructor; [done| | |done].
  - rewrite zlen_zinsert. eapply layout_ext; [|done]. intros a Ha. by rewrite Hs.
  - eapply chain_ext; [|done]. intros a [_ Ha]%listed_in. by rewrite Hs.
Qed.

Lemma held_malloc base bytes bl s L D sz p s' bytes' bl' :
  held_in base bytes bl (Run s L D) → 0 < sz → heap_ok s' base bytes' bl' → granted sz base bytes bl p bytes' bl' →
  held_in base bytes' bl' (Run s' (<[p := sz]> L) D).
Proof.
  intros Hc Hsz Hok' (a & -> & Ha & Hf & Hfit & Hold & Hoth & Hby). pose proof Hc as [H1 H2 H3]. cbn [r_st r_live r_data] in *.
  assert (∀ q m, L !! q = Some m → ∃ b, q = b + sizeof_header ∧ b ∈ bl ∧ b ≠ a ∧ free_ (hdr base bytes b) = false ∧ 0 < m ≤ size (hdr base bytes b)) as Hl.
  { intros q m Hq. destruct (H2 q m Hq) as (b & -> & Hb & Hfb & Hm). exists b. split; [done|]. split; [done|]. split; [|done].
    intros ->. rewrite Hold in Hfb by done. done. }
  constructor; cbn [r_st r_live r_data]; [done| |].
  - intros q m. rewrite lookup_insert. case_decide as E; [intros [= <-]; subst q; exists a; split; [done|split; [done|split; [done|lia]]]|].
    intros Hq. destruct (Hl q m Hq) as (b & -> & Hb & Hne & Hfb & Hm). destruct (Hoth b Hb) as [Hb' Hs]. destruct (Hs Hne) as [Hs1 Hs2].
    exists b. rewrite Hs1, Hs2. done.
  - intros x b Hx. destruct (H3 x b Hx) as (Hbx & q & m & Hq & Hr). destruct (live_bytes base bytes bl _ q m x Hc Hq Hr) as [Hin Hno].
    split; [rewrite Hby; [done|lia|done]|]. exists q, m. split; [|done]. destruct (Hl q m Hq) as (c & -> & _ & Hne & _).
    rewrite lookup_insert_ne; [done|]. intros E. apply Hne. lia.
Qed.

Lemma held_free base bytes bl s L D p n s' :
  held_in base bytes bl (Run s L D) → L !! p = Some n → free p s = Ok (tt, s') →
  held_ok base (Run s' (delete p L) (filter (λ xb, ¬ p ≤ xb.1 < p + n) D)).
Proof.
  intros Hc Hp E. pose proof Hc as [H1 H2 H3]. cbn [r_st r_live r_data] in *. destruct (H2 p n Hp) as (a & -> & Ha & Hf & Hn).
  pose proof (free_ok s base bytes bl a H1 Ha) as Hw. unfold wp in Hw. rewrite E in Hw. destruct Hw as (Hok' & Hfr & Hs & Ho).
  eexists _, bl. constructor; cbn [r_st r_live r_data]; [exact Hok'| |].
  - intros q m [Hne Hq]%lookup_delete_Some. destruct (H2 q m Hq) as (b & -> & Hb & Hfb & Hm). exists b. rewrite Ho by (done || congruence). done.
  - intros x b [Hx Hno]%map_lookup_filter_Some. simpl in Hno. destruct (H3 x b Hx) as (Hbx & q & m & Hq & Hr).
    destruct (live_bytes base bytes bl _ q m x Hc Hq Hr) as [Hin Hnoh].
    split; [rewrite poke_other; [done|]; specialize (Hnoh a Ha); unfold sizeof_header in *; lia|].
    exists q, m. split; [|done]. apply lookup_delete_Some. split; [|done]. intros <-. rewrite Hp in Hq. injection Hq as <-. done.
Qed.

Lemma held_write base bytes bl s L D p n x b k' :
  held_in base bytes bl (Run s L D) → L !! p = Some n → p ≤ x < p + n → 0 ≤ b < 2 ^ 8 → u_store x b (kernel s) = Ok (tt, k') →
  held_ok base (Run (set_kernel k' s) L (<[x := b]> D)).
Proof.
  intros Hc Hp Hx Hb E. pose proof Hc as [H1 H2 H3]. cbn [r_st r_live r_data] in *. destruct (live_bytes base bytes bl _ p n x Hc Hp Hx) as [Hin Hno].
  pose proof (store_holds (kernel s) base bytes (x - base) b (hk_holds _ _ _ _ H1) ltac:(lia) Hb) as Hw.
  replace (base + (x - base)) with x in Hw by lia. unfold wp in Hw. rewrite E in Hw.
  destruct (heap_write s base bytes bl x b k' H1 Hno Hw) as [Hok' Hs].
  eexists _, bl. constructor; cbn [r_st r_live r_data]; [exact Hok'| |].
  - intros q m Hq. destruct (H2 q m Hq) as (a & -> & Ha & Hf & Hm). exists a. by rewrite Hs.
  - intros y c. rewrite lookup_insert. case_decide as Ey.
    + intros [= <-]. subst y. split; [apply zlookup_zinsert_eq; lia|]. by exists p, n.
    + intros Hy. destruct (H3 y c Hy) as [Hyb Hl]. split; [|done]. rewrite zlookup_zinsert_ne; [done|lia].
Qed.

Lemma held_step base c c' : held_ok base c → heap_step c c' → held_ok base c'.
Proof.
  intros (bytes & bl & Hc) Hst. pose proof (hi_heap _ _ _ _ Hc) as Hok.
  destruct Hst as [s L D sz p s' Hsz Hext E Hp|s L D sz s' Hsz Hext E|s L D p n x b k' Hp Hx Hb E|s L D p n s' Hp E]; cbn [r_st r_live r_data] in *.
  - pose proof (malloc_ok s base bytes bl sz Hok Hsz Hext) as Hw. unfold wp in Hw. rewrite E in Hw.
    destruct Hw as (bytes' & bl' & Hok' & [(-> & _)|Hg]); [done|]. exists bytes', bl'. by eapply held_malloc.
  - pose proof (malloc_ok s base bytes bl sz Hok Hsz Hext) as Hw. unfold wp in Hw. rewrite E in Hw.
    destruct Hw as (bytes' & bl' & Hok' & [(_ & -> & ->)|Hg]).
    + exists bytes, bl. constructor; [done|apply Hc|apply Hc].
    + destruct Hg as (a & E0 & Ha & _). destruct (heap_block _ _ _ _ _ Hok' Ha) as ([B1 _] & _).
      destruct (holds_range _ _ _ (hk_holds _ _ _ _ Hok)). unfold sizeof_header in *. lia.
  - by eapply held_write.
  - by eapply held_free.
Qed.

Lemma held_steps base c c' : held_ok base c → rtc heap_step c c' → held_ok base c'.
Proof. intros Hc Hs. induction Hs; [done|]. eauto using held_step. Qed.

(** What a history comes to: the live allocations are apart and below the break, what was
    written is there, and the next call of [malloc] or [free] comes back. *)
Record heap_sound (c : run K) : Prop := {
  hs_below : ∃ b, u_brk 0 (kernel (r_st c)) = Ok (b, kernel (r_st c)) ∧ ∀ p n, r_live c !! p = Some n → 0 < p ∧ p + n ≤ b;
  hs_apart p n q m : r_live c !! p = Some n → r_live c !! q = Some m → p ≠ q → p + n ≤ q ∨ q + m ≤ p;
  hs_data x b : r_data c !! x = Some b → u_load x (kernel (r_st c)) = Ok (b, kernel (r_st c));
  hs_malloc sz : 0 < sz → can_extend (kernel (r_st c)) (sizeof_header + sz) → ∃ p s', malloc sz (r_st c) = Ok (p, s');
  hs_free p : is_Some (r_live c !! p) → ∃ s', free p (r_st c) = Ok (tt, s')
}.

Lemma held_sound base c : held_ok base c → heap_sound c.
Proof.
  intros (bytes & bl & Hc). pose proof Hc as [H1 H2 H3]. pose proof (hk_holds _ _ _ _ H1) as Hh. destruct (holds_range _ _ _ Hh) as [R1 R2]. constructor.
  - exists (base + zlen bytes). split; [by apply brk_asks|]. intros p n Hp. destruct (H2 p n Hp) as (a & -> & Ha & _ & Hn).
    destruct (heap_block _ _ _ _ _ H1 Ha) as ([B1 B2] & B3 & B4). unfold sizeof_header in *. lia.
  - intros p n q m. by apply (live_disjoint base bytes bl).
  - intros x b Hx. destruct (H3 x b Hx) as [Hb _]. replace x with (base + (x - base)) by lia. by apply (load_holds _ _ bytes).
  - intros sz Hsz Hext. destruct (wp_inv _ _ _ (malloc_ok _ base bytes bl sz H1 Hsz Hext)) as (p & s' & E & _). by exists p, s'.
  - intros p [n Hp]. destruct (H2 p n Hp) as (a & -> & Ha & _). destruct (wp_inv _ _ _ (free_ok _ base bytes bl a H1 Ha)) as ([] & s' & E & _). by exists s'.
Qed.

(** From a process that has not called [malloc] yet. *)
Lemma heap_history_sound k base bytes c :
  holds k base bytes → rtc heap_step (Run (MallocSt k 0 0) ∅ ∅) c → heap_sound c.
Proof.
  intros Hh Hs. apply (held_sound base). eapply held_steps; [|exact Hs]. exists bytes, []. constructor; [|done|done].
  constructor; [done| |done|done]. simpl. pose proof (zlen_nonneg bytes). lia.
Qed.
End histories.
