(* ===== verification/Ramfs.v ===== *)
(** Ramfs: the in-memory file system of [kernel/src/fs/ramfs.c].  The static
    tables [files] and [global_file_table] are lists of records; a [file_t*] is
    an index into the latter, [file_t.node] an index into the former.  The bytes
    behind [content] pointers are objects by address; new ones come from
    [kmalloc], reached through the class [Kmalloc].  Of the current process the
    code uses [cwd_inode] and [fd_table]. *)
From S2P Require Import Prelude Layout CString.

Definition RAMFS_TYPE_FILE : Z := 1.
Definition RAMFS_TYPE_DIR : Z := 2.
Definition MAX_FILES : Z := 64.
Definition MAX_SYSTEM_OPEN_FILES : Z := 128.
Definition MAX_FD : Z := 16.
Definition O_CREAT : Z := 64.
Definition DT_DIR : Z := 4.
Definition DT_REG : Z := 8.

Record ramfs_node := RamfsNode {
  n_name : list Z;
  n_content : Z;
  n_size : Z;
  n_is_used : bool;
  n_type : Z;
  n_parent_idx : Z;
  n_inode_idx : Z
}.
Record file_t := FileT { f_node : option Z; f_offset : Z; f_ref_count : Z }.

(** What of [current_proc] the file system uses. *)
Record proc_files := ProcFiles { cwd_inode : Z; fd_table : list (option Z) }.

(** The kernel heap as the file system relies on it: if it answers, the answer is 0 or
    the address of an object nobody else holds.  [km_ok L s]: the heap is in order, and
    the objects in [L] are among those it has handed out. *)
Class Kmalloc (St : Type) := {
  kmalloc : Z → M St Z;
  km_ok : gset Z → St → Prop;
  kmalloc_spec n L s a s' :
    km_ok L s → 0 < n ≤ 4096 → kmalloc n s = Ok (a, s') →
    (a = 0 ∧ km_ok L s') ∨ (0 < a ∧ (a ∉ L) ∧ km_ok ({[a]} ∪ L) s')
}.

Record ramfs_st (A : Type) := RamfsSt {
  files : list ramfs_node;
  global_file_table : list file_t;
  contents : gmap Z (list Z);
  current_proc : option proc_files;
  heap : A;
  rf_trace : list event
}.
Arguments RamfsSt {A} _ _ _ _ _ _.
Arguments files {A} _.
Arguments global_file_table {A} _.
Arguments contents {A} _.
Arguments current_proc {A} _.
Arguments heap {A} _.
Arguments rf_trace {A} _.

#[export] Program Instance ramfs_traced {A} : Traced (ramfs_st A) := {|
  trace := rf_trace;
  push_event e s := RamfsSt (files s) (global_file_table s) (contents s) (current_proc s) (heap s) (e :: rf_trace s)
|}.
Next Obligation. done. Qed.

Section ramfs.
  Context {A : Type} `{!Kmalloc A}.
  Abbreviation St := (ramfs_st A).

Definition set_files fs (s : St) : St :=
  RamfsSt fs (global_file_table s) (contents s) (current_proc s) (heap s) (rf_trace s).
Definition set_gft g (s : St) : St :=
  RamfsSt (files s) g (contents s) (current_proc s) (heap s) (rf_trace s).
Definition set_contents c (s : St) : St :=
  RamfsSt (files s) (global_file_table s) c (current_proc s) (heap s) (rf_trace s).
Definition set_current p (s : St) : St :=
  RamfsSt (files s) (global_file_table s) (contents s) p (heap s) (rf_trace s).
Definition set_heap h (s : St) : St :=
  RamfsSt (files s) (global_file_table s) (contents s) (current_proc s) h (rf_trace s).

(** Array accesses: an index outside the table faults. *)
Definition get_file (i : Z) : M St ramfs_node :=
  fs ← gets files; or_crash OutOfBounds (zlookup fs i).
Definition put_file (i : Z) (n : ramfs_node) : M St unit :=
  fs ← gets files;
  or_crash OutOfBounds (zlookup fs i);;
  modify (set_files (zinsert i n fs)).
Definition get_handle (h : Z) : M St file_t :=
  g ← gets global_file_table; or_crash OutOfBounds (zlookup g h).
Definition put_handle (h : Z) (f : file_t) : M St unit :=
  g ← gets global_file_table;
  or_crash OutOfBounds (zlookup g h);;
  modify (set_gft (zinsert h f g)).

(** [f->node->field]: the node a handle points to. *)
Definition deref_node (f : file_t) : M St (Z * ramfs_node) :=
  i ← or_crash NullDeref (f_node f); n ← get_file i; mret (i, n).

(** The object a content pointer designates. *)
Definition get_content (p : Z) : M St (list Z) :=
  c ← gets contents; or_crash NullDeref (c !! p).
Definition put_content (p : Z) (b : list Z) : M St unit :=
  c ← gets contents; or_crash NullDeref (c !! p);; modify (set_contents (<[p := b]> c)).

(** [kmalloc] of a fresh object of [n] bytes, whose contents are arbitrary ([b]). *)
Definition kmalloc_object (n : Z) (b : list Z) : M St Z :=
  a ← zoom heap set_heap (kmalloc n);
  (if a =? 0 then mret tt else modify (λ s, set_contents (<[a := b]> (contents s)) s));;
  mret a.

(** * Tables *)

Definition node_zero : ramfs_node := RamfsNode (replicate 32 0) 0 0 false 0 0 0.
Definition file_zero : file_t := FileT None 0 0.

Definition with_name (nm : list Z) (n : ramfs_node) : ramfs_node :=
  RamfsNode nm (n_content n) (n_size n) (n_is_used n) (n_type n) (n_parent_idx n) (n_inode_idx n).
Definition with_type (t : Z) (n : ramfs_node) : ramfs_node :=
  RamfsNode (n_name n) (n_content n) (n_size n) (n_is_used n) t (n_parent_idx n) (n_inode_idx n).
Definition with_parent (p : Z) (n : ramfs_node) : ramfs_node :=
  RamfsNode (n_name n) (n_content n) (n_size n) (n_is_used n) (n_type n) p (n_inode_idx n).
Definition with_content (c : Z) (n : ramfs_node) : ramfs_node :=
  RamfsNode (n_name n) c (n_size n) (n_is_used n) (n_type n) (n_parent_idx n) (n_inode_idx n).
Definition with_size (z : Z) (n : ramfs_node) : ramfs_node :=
  RamfsNode (n_name n) (n_content n) z (n_is_used n) (n_type n) (n_parent_idx n) (n_inode_idx n).

Definition update_file (i : Z) (f : ramfs_node → ramfs_node) : M St unit :=
  n ← get_file i; put_file i (f n).
(** [strcpy(files[i].name, name)] *)
Definition set_name (i : Z) (name : list Z) : M St unit :=
  n ← get_file i; nm ← lift_res (strcpy (n_name n) name); put_file i (with_name nm n).

Definition get_cur_fd_table : M St (option (list (option Z))) :=
  p ← gets current_proc; mret (fd_table <$> p).

(** [fds[fd]] and [fds[fd] = v] in the table of the current process. *)
Definition set_fd (fd : Z) (v : option Z) : M St unit :=
  p ← gets current_proc;
  match p with
  | None => crash NullDeref
  | Some pf =>
    or_crash OutOfBounds (zlookup (fd_table pf) fd);;
    modify (set_current (Some (ProcFiles (cwd_inode pf) (zinsert fd v (fd_table pf)))))
  end.

Fixpoint alloc_file_handle_loop (n : nat) (i : Z) : M St (option Z) :=
  match n with
  | O => mret None
  | S n' =>
    f ← get_handle i;
    if f_ref_count f =? 0 then
      put_handle i (FileT (f_node file_zero) (f_offset file_zero) 1);; mret (Some i)
    else alloc_file_handle_loop n' (i + 1)
  end.
Definition alloc_file_handle : M St (option Z) := alloc_file_handle_loop (Z.to_nat MAX_SYSTEM_OPEN_FILES) 0.

Definition free_file_handle (h : Z) : M St unit :=
  f ← get_handle h; put_handle h (FileT None (f_offset f) 0).

Fixpoint alloc_inode_loop (n : nat) (i : Z) : M St Z :=
  match n with
  | O => mret (-1)
  | S n' =>
    nd ← get_file i;
    if n_is_used nd then alloc_inode_loop n' (i + 1)
    else put_file i (RamfsNode (n_name node_zero) 0 0 true 0 0 i);; mret i
  end.
Definition alloc_inode : M St Z := alloc_inode_loop (Z.to_nat MAX_FILES) 0.

(** * Paths *)

(** The search for [token] among the children of [curr]; -1 when there is none. *)
Fixpoint find_child (n : nat) (i curr : Z) (token : list Z) : M St Z :=
  match n with
  | O => mret (-1)
  | S n' =>
    nd ← get_file i;
    if n_is_used nd && (n_parent_idx nd =? curr) then
      c ← lift_res (strcmp (n_name nd) token);
      if c =? 0 then mret i else find_child n' (i + 1) curr token
    else find_child n' (i + 1) curr token
  end.

(** The answer of [resolve_path]: the inode or -1, [*parent_out] and [name_out]
    when they were written. *)
Record resolved := Resolved { r_inode : Z; r_parent : option Z; r_name : option (list Z) }.

(** The token loop; [p] is the position in [temp_path], [outs] whether the caller
    passes [parent_out] and [name_out] (both or none). *)
Fixpoint resolve_loop (fuel : nat) (temp : list Z) (p curr : Z) (outs : bool) : M St resolved :=
  match fuel with
  | O => crash OutOfFuel
  | S fuel' =>
    r ← lift_res (strtok_r temp (Some p) (lit "/") 0);
    let temp := r.1.1 in
    let p := r.2 in
    match r.1.2 with
    | None =>
      nd ← get_file curr;
      mret (Resolved curr (if outs then Some (n_parent_idx nd) else None) None)
    | Some t =>
      let token := drop (Z.to_nat t) temp in
      len ← lift_res (strlen token);
      if len =? 0 then resolve_loop fuel' temp p curr outs else
      dot ← lift_res (strcmp token (lit "."));
      if dot =? 0 then resolve_loop fuel' temp p curr outs else
      dotdot ← lift_res (strcmp token (lit ".."));
      if dotdot =? 0 then
        nd ← get_file curr;
        resolve_loop fuel' temp p (if negb (n_parent_idx nd =? -1) then n_parent_idx nd else curr) outs
      else
      found ← find_child (Z.to_nat MAX_FILES) 0 curr token;
      c ← lift_res (nth_byte temp p);
      if negb (c =? 0) then
        if found =? -1 then mret (Resolved (-1) None None) else
        nd ← get_file found;
        if negb (n_type nd =? RAMFS_TYPE_DIR) then mret (Resolved (-1) None None)
        else resolve_loop fuel' temp p found outs
      else if outs then
        nm ← lift_res (strcpy (replicate 32 0) token);
        mret (Resolved found (Some curr) (Some nm))
      else mret (Resolved found None None)
    end
  end.

(** The first [len] bytes of the path in a buffer of 128. *)
Definition temp_path (path : list Z) : res (list Z) :=
  len ← strlen path;
  let len := i32 len in
  let len := if 127 <? len then 127 else len in
  if len <? 0 then Crash OutOfBounds else
  temp ← memcpy (replicate 128 0) path (Z.to_nat len);
  Ok (zinsert len 0 temp).

Definition resolve_path (path : option (list Z)) (outs : bool) : M St resolved :=
  cp ← gets current_proc;
  let curr := match cp with Some pf => cwd_inode pf | None => 0 end in
  match path with
  | None => mret (Resolved (-1) None None)
  | Some path =>
    c ← lift_res (nth_byte path 0);
    let curr := if c =? 47 then 0 else curr in
    let path := if c =? 47 then drop 1 path else path in
    temp ← lift_res (temp_path path);
    resolve_loop (S (length temp)) temp 0 curr outs
  end.

(** * Operations *)

(** One entry of the initial tree. *)
Definition init_node (name : string) (type parent : Z) : M St Z :=
  i ← alloc_inode;
  set_name i (lit name);;
  update_file i (with_type type);;
  update_file i (with_parent parent);;
  mret i.

(** [content = kmalloc(PAGE_SIZE); strcpy(content, text); size = strlen(text)];
    [junk] is what the new object holds before. *)
Definition init_text (i : Z) (text : list Z) (junk : list Z) : M St unit :=
  a ← kmalloc_object PAGE_SIZE junk;
  update_file i (with_content a);;
  b ← get_content a;
  b' ← lift_res (strcpy b text);
  put_content a b';;
  len ← lift_res (strlen text);
  update_file i (with_size len).

Definition shell_code : list Z := lit "// This is SudoOS Shell Source Code...
".
Definition main_code : list Z := lit "// User Main Entry Point
".

Definition ramfs_init (init_addr init_size : Z) (junk : list Z) : M St unit :=
  modify (set_files (replicate (Z.to_nat MAX_FILES) node_zero));;
  modify (set_gft (replicate (Z.to_nat MAX_SYSTEM_OPEN_FILES) file_zero));;
  put_file 0 (RamfsNode (replicate 32 0) 0 0 true RAMFS_TYPE_DIR (-1) 0);;
  init_idx ← init_node "init" RAMFS_TYPE_FILE 0;
  update_file init_idx (with_content init_addr);;
  update_file init_idx (with_size init_size);;
  usr_idx ← init_node "usr" RAMFS_TYPE_DIR 0;
  bin_idx ← init_node "bin" RAMFS_TYPE_DIR usr_idx;
  lib_idx ← init_node "lib" RAMFS_TYPE_DIR usr_idx;
  shell_idx ← init_node "shell.c" RAMFS_TYPE_FILE usr_idx;
  init_text shell_idx shell_code junk;;
  main_idx ← init_node "usrmain.c" RAMFS_TYPE_FILE usr_idx;
  init_text main_idx main_code junk;;
  kprintln "[RamFS] Initialized. Structure: /usr created.".

(** The search for a free descriptor from 3 on. *)
Fixpoint find_fd (n : nat) (i : Z) (fds : list (option Z)) : option Z :=
  match n with
  | O => None
  | S n' => match zlookup fds i with Some None => Some i | _ => find_fd n' (i + 1) fds end
  end.

(** The creation branch of [ramfs_open]. *)
Definition create_file (name : list Z) (parent : Z) (junk : list Z) : M St Z :=
  inode ← alloc_inode;
  if inode =? -1 then mret (-1) else
  set_name inode name;;
  update_file inode (with_type RAMFS_TYPE_FILE);;
  update_file inode (with_parent parent);;
  update_file inode (with_size 0);;
  a ← kmalloc_object 4096 junk;
  update_file inode (with_content a);;
  b ← get_content a;
  b' ← lift_res (memset b 0 4096);
  put_content a b';;
  mret inode.

Definition ramfs_open (path : option (list Z)) (flags : Z) (junk : list Z) : M St Z :=
  r ← resolve_path path true;
  let name := default (replicate 32 0) (r_name r) in
  let parent_idx := default (-1) (r_parent r) in
  inode ← (if (r_inode r =? -1) && negb (Z.land flags O_CREAT =? 0) then
             if parent_idx =? -1 then mret (-1) else create_file name parent_idx junk
           else mret (r_inode r));
  if inode =? -1 then mret (-1) else
  file ← alloc_file_handle;
  match file with
  | None => mret (-1)
  | Some h =>
    f ← get_handle h;
    put_handle h (FileT (Some inode) 0 (f_ref_count f));;
    fds ← get_cur_fd_table;
    match fds with
    | None => free_file_handle h;; mret (-1)
    | Some fds =>
      match find_fd (Z.to_nat (MAX_FD - 3)) 3 fds with
      | Some i => set_fd i (Some h);; mret i
      | None => free_file_handle h;; mret (-1)
      end
    end
  end.

(** The guard all descriptor operations start with: the handle behind [fd], None
    for the [-1] return. *)
Definition fd_handle (fd : Z) : M St (option Z) :=
  fds ← get_cur_fd_table;
  if (fd <? 0) || (MAX_FD <=? fd) then mret None else
  match fds with
  | None => crash NullDeref
  | Some fds => or_crash OutOfBounds (zlookup fds fd)
  end.

(** The bytes delivered and the return value. *)
Definition ramfs_read (fd count : Z) : M St (Z * list Z) :=
  oh ← fd_handle fd;
  match oh with
  | None => mret (-1, [])
  | Some h =>
    f ← get_handle h;
    n ← deref_node f;
    let nd := n.2 in
    if n_type nd =? RAMFS_TYPE_DIR then mret (-1, []) else
    if n_size nd <=? f_offset f then mret (0, []) else
    let read_len :=
      if n_size nd <? u64 (f_offset f + u64 count) then i32 (u64 (n_size nd - f_offset f)) else count in
    if 0 <? read_len then
      b ← get_content (n_content nd);
      data ← (if (f_offset f + read_len <=? zlen b)
              then mret (take (Z.to_nat read_len) (drop (Z.to_nat (f_offset f)) b)) else crash OutOfBounds);
      put_handle h (FileT (f_node f) (u64 (f_offset f + read_len)) (f_ref_count f));;
      mret (read_len, data)
    else mret (read_len, [])
  end.

(** Replacing [length data] bytes of an object at an offset. *)
Definition splice (b : list Z) (off : Z) (data : list Z) : list Z :=
  take (Z.to_nat off) b ++ data ++ drop (Z.to_nat off + length data) b.

Definition ramfs_write (fd : Z) (buf : list Z) (count : Z) : M St Z :=
  oh ← fd_handle fd;
  match oh with
  | None => mret (-1)
  | Some h =>
    f ← get_handle h;
    n ← deref_node f;
    let nd := n.2 in
    if n_type nd =? RAMFS_TYPE_DIR then mret (-1) else
    let max_size := 4096 in
    let count :=
      if max_size <? u64 (f_offset f + u64 count) then i32 (u64 (max_size - f_offset f)) else count in
    if (0 <? count) && negb (n_content nd =? 0) then
      b ← get_content (n_content nd);
      (if (f_offset f + count <=? zlen b) && (count <=? zlen buf) then mret tt else crash OutOfBounds);;
      put_content (n_content nd) (splice b (f_offset f) (take (Z.to_nat count) buf));;
      let off := u64 (f_offset f + count) in
      put_handle h (FileT (f_node f) off (f_ref_count f));;
      (if n_size nd <? off then update_file n.1 (with_size off) else mret tt);;
      mret count
    else mret count
  end.

Definition ramfs_close (fd : Z) : M St unit :=
  oh ← fd_handle fd;
  match oh with
  | None => mret tt
  | Some h => free_file_handle h;; set_fd fd None
  end.

(** [struct linux_dirent64], with the name as a string. *)
Record dirent := Dirent { d_ino : Z; d_off : Z; d_reclen : Z; d_type : Z; d_name : list Z }.

(** [sizeof(struct linux_dirent64)] with its padding. *)
Definition sizeof_dirent : Z := 24.

(** The directory scan: final [search_idx], [bpos] and the records written. *)
Fixpoint getdents_loop (n : nat) (search_idx parent count bpos : Z) (ds : list dirent)
  : M St (Z * Z * list dirent) :=
  match n with
  | O => mret (search_idx, bpos, ds)
  | S n' =>
    nd ← get_file search_idx;
    if n_is_used nd && (n_parent_idx nd =? parent) then
      name_len ← lift_res (strlen (n_name nd));
      let reclen := ALIGN_UP (sizeof_dirent + name_len + 1) 8 in
      if count <? bpos + reclen then mret (search_idx, bpos, ds) else
      nm ← lift_res (read_string (n_name nd));
      getdents_loop n' (search_idx + 1) parent count (bpos + reclen)
        (ds ++ [Dirent (search_idx + 1) (bpos + reclen) (u16 reclen)
                  (if n_type nd =? RAMFS_TYPE_DIR then DT_DIR else DT_REG) nm])
    else getdents_loop n' (search_idx + 1) parent count bpos ds
  end.

Definition ramfs_getdents64 (fd count : Z) : M St (Z * list dirent) :=
  oh ← fd_handle fd;
  match oh with
  | None => mret (-1, [])
  | Some h =>
    f ← get_handle h;
    n ← deref_node f;
    if negb (n_type n.2 =? RAMFS_TYPE_DIR) then mret (-1, []) else
    let target_parent_idx := n_inode_idx n.2 in
    let search_idx := i32 (f_offset f) in
    r ← getdents_loop (Z.to_nat (MAX_FILES - search_idx)) search_idx target_parent_idx count 0 [];
    put_handle h (FileT (f_node f) r.1.1 (f_ref_count f));;
    mret (r.1.2, r.2)
  end.

Definition ramfs_mkdir (path : option (list Z)) : M St Z :=
  r ← resolve_path path true;
  let name := default (replicate 32 0) (r_name r) in
  let parent_idx := default (-1) (r_parent r) in
  if negb (r_inode r =? -1) then mret (-1) else
  if parent_idx =? -1 then mret (-1) else
  new_dir ← alloc_inode;
  if new_dir =? -1 then mret (-1) else
  set_name new_dir name;;
  update_file new_dir (with_type RAMFS_TYPE_DIR);;
  update_file new_dir (with_parent parent_idx);;
  update_file new_dir (with_size 0);;
  mret 0.

Definition ramfs_chdir (path : option (list Z)) : M St Z :=
  r ← resolve_path path false;
  let inode := r_inode r in
  if inode =? -1 then mret (-1) else
  nd ← get_file inode;
  if negb (n_type nd =? RAMFS_TYPE_DIR) then mret (-1) else
  cp ← gets current_proc;
  match cp with
  | Some pf => modify (set_current (Some (ProcFiles inode (fd_table pf))));; mret 0
  | None => mret 0
  end.

(** First walk of [ramfs_getcwd]: the length of the path, None for the NULL return. *)
Fixpoint cwd_length (fuel : nat) (temp len size : Z) : M St (option Z) :=
  match fuel with
  | O => crash OutOfFuel
  | S fuel' =>
    if temp =? 0 then mret (Some len) else
    nd ← get_file temp;
    l ← lift_res (strlen (n_name nd));
    let len := len + (1 + l) in
    let temp := n_parent_idx nd in
    if (temp =? -1) && negb (temp =? 0) then mret (Some len) else
    if size <=? len then mret None else cwd_length fuel' temp len size
  end.

(** Writing bytes into the caller's buffer at a position. *)
Definition put_bytes (buf : list Z) (pos : Z) (bytes : list Z) : res (list Z) :=
  if (0 <=? pos) && (pos + zlen bytes <=? zlen buf) then Ok (splice buf pos bytes) else Crash OutOfBounds.

(** Second walk: the components, last one first. *)
Fixpoint cwd_write (fuel : nat) (temp write_pos : Z) (buf : list Z) : M St (list Z) :=
  match fuel with
  | O => crash OutOfFuel
  | S fuel' =>
    if temp =? 0 then mret buf else
    nd ← get_file temp;
    name_len ← lift_res (strlen (n_name nd));
    let write_pos := write_pos - name_len in
    buf ← lift_res (put_bytes buf write_pos (take (Z.to_nat name_len) (n_name nd)));
    let write_pos := write_pos - 1 in
    buf ← lift_res (put_bytes buf write_pos [47]);
    cwd_write fuel' (n_parent_idx nd) write_pos buf
  end.

(** The buffer afterwards; None for the NULL return.  [fuel] bounds the walks. *)
Definition ramfs_getcwd (buf : option (list Z)) (size : Z) : M St (option (list Z)) :=
  cp ← gets current_proc;
  match buf, cp with
  | Some buf, Some pf =>
    if size =? 0 then mret None else
    let curr := cwd_inode pf in
    if curr =? 0 then
      if size <? 2 then mret None else b ← lift_res (put buf [47; 0]); mret (Some b)
    else
    let fuel := S (Z.to_nat MAX_FILES) in
    olen ← cwd_length fuel curr 0 size;
    match olen with
    | None => mret None
    | Some len =>
      buf ← lift_res (put_bytes buf len [0]);
      b ← cwd_write fuel curr len buf; mret (Some b)
    end
  | _, _ => mret None
  end.

(** The fields [ramfs_stat] writes: [st_ino], [st_size] and [st_mode]. *)
Record dummy_stat := DummyStat { st_ino : Z; st_size : Z; st_mode : Z }.

Definition ramfs_stat (path : option (list Z)) : M St (option dummy_stat) :=
  r ← resolve_path path false;
  let inode := r_inode r in
  if inode =? -1 then mret None else
  nd ← get_file inode;
  mret (Some (DummyStat (inode + 1) (n_size nd)
    (if n_type nd =? RAMFS_TYPE_DIR then 0x41FF else 0x81FF))).

(** The name of the open node, looked up as a path. *)
Definition ramfs_fstat (fd : Z) : M St (option dummy_stat) :=
  oh ← fd_handle fd;
  match oh with
  | None => mret None
  | Some h =>
    f ← get_handle h;
    n ← deref_node f;
    ramfs_stat (Some (n_name n.2))
  end.
End ramfs.

(** * Theory: the tree *)

(** A component a lookup can name. *)
Definition good_name (nm : list Z) : Prop :=
  nm ≠ [] ∧ Forall (λ c, c ≠ 0 ∧ c ≠ 47) nm ∧ nm ≠ chars "." ∧ nm ≠ chars "..".

(** Node [i] of a tree whose nodes are the first [n] entries: parents come
    before children, so there are no cycles. *)
Record node_ok (fs : list ramfs_node) (i : Z) (nd : ramfs_node) : Prop := {
  no_inode : n_inode_idx nd = i;
  no_type : n_type nd = RAMFS_TYPE_FILE ∨ n_type nd = RAMFS_TYPE_DIR;
  no_len : length (n_name nd) = 32%nat;
  no_root : i = 0 → cstring (n_name nd) [] ∧ n_type nd = RAMFS_TYPE_DIR ∧ n_parent_idx nd = -1;
  no_name : i ≠ 0 → ∃ nm, cstring (n_name nd) nm ∧ good_name nm;
  no_parent : i ≠ 0 → 0 ≤ n_parent_idx nd < i ∧
    ∃ pd, zlookup fs (n_parent_idx nd) = Some pd ∧ n_type pd = RAMFS_TYPE_DIR
}.

Record fs_ok (fs : list ramfs_node) (n : Z) : Prop := {
  fo_len : zlen fs = MAX_FILES;
  fo_n : 1 ≤ n ≤ MAX_FILES;
  fo_used i nd : zlookup fs i = Some nd → n_is_used nd = bool_decide (i < n);
  fo_node i nd : zlookup fs i = Some nd → i < n → node_ok fs i nd;
  fo_unique i j ni nj nm : zlookup fs i = Some ni → zlookup fs j = Some nj → 0 < i < n → 0 < j < n →
    n_parent_idx ni = n_parent_idx nj → cstring (n_name ni) nm → cstring (n_name nj) nm → i = j
}.

(** [j] is a child of directory [p] with name [w]. *)
Definition child_at (fs : list ramfs_node) (p : Z) (w : list Z) (j : Z) : Prop :=
  ∃ nd, zlookup fs j = Some nd ∧ n_is_used nd = true ∧ n_parent_idx nd = p ∧ cstring (n_name nd) w.

(** [i] is a directory of the tree. *)
Definition is_dir (fs : list ramfs_node) (i : Z) : Prop :=
  ∃ nd, zlookup fs i = Some nd ∧ n_is_used nd = true ∧ n_type nd = RAMFS_TYPE_DIR.

Lemma fs_lookup fs n i : fs_ok fs n → 0 ≤ i < MAX_FILES → ∃ nd, zlookup fs i = Some nd.
Proof. intros Hok Hi. apply zlookup_is_Some. by rewrite (fo_len fs n Hok). Qed.

Lemma used_node fs n i nd : fs_ok fs n → zlookup fs i = Some nd → n_is_used nd = true → 0 ≤ i < n ∧ node_ok fs i nd.
Proof.
  intros Hok Hi Hu. pose proof (zlookup_Some _ _ _ Hi) as Hr. rewrite (fo_used fs n Hok i nd Hi) in Hu.
  apply bool_decide_eq_true in Hu. split; [lia|]. by apply (fo_node fs n Hok).
Qed.

Lemma dir_range fs n i : fs_ok fs n → is_dir fs i → 0 ≤ i < n.
Proof. intros Hok (nd & Hi & Hu & _). by apply (used_node fs n i nd). Qed.

Lemma node_cstring fs i nd : node_ok fs i nd → ∃ nm, cstring (n_name nd) nm.
Proof.
  intros Hn. destruct (decide (i = 0)) as [->|Hi]; [exists []; by apply (no_root fs 0 nd Hn)|].
  destruct (no_name fs i nd Hn Hi) as (nm & H & _). by exists nm.
Qed.

Lemma child_unique fs n p w i j : fs_ok fs n → 0 ≤ p → child_at fs p w i → child_at fs p w j → i = j.
Proof.
  intros Hok Hp (ni & Hi & Hui & Hpi & Hci) (nj & Hj & Huj & Hpj & Hcj).
  destruct (used_node fs n i ni Hok Hi Hui) as [Hri Hoi]. destruct (used_node fs n j nj Hok Hj Huj) as [Hrj Hoj].
  assert (i ≠ 0) by (intros ->; destruct (no_root _ _ _ Hoi eq_refl) as (_ & _ & ?); lia).
  assert (j ≠ 0) by (intros ->; destruct (no_root _ _ _ Hoj eq_refl) as (_ & _ & ?); lia).
  eapply (fo_unique fs n Hok i j ni nj w); try done; try lia; congruence.
Qed.

(** ** Looking up, as a function of the table *)

Definition string_of (nd : ramfs_node) : list Z :=
  match read_string (n_name nd) with Ok l => l | Crash _ => [] end.
Fixpoint child_from (i : Z) (fs : list ramfs_node) (p : Z) (w : list Z) : Z :=
  match fs with
  | [] => -1
  | nd :: fs' =>
    if n_is_used nd && (n_parent_idx nd =? p) && bool_decide (string_of nd = w) then i
    else child_from (i + 1) fs' p w
  end.
Definition child (fs : list ramfs_node) (p : Z) (w : list Z) : Z := child_from 0 fs p w.
Definition parent_of (fs : list ramfs_node) (i : Z) : Z :=
  match zlookup fs i with Some nd => n_parent_idx nd | None => -1 end.
Definition type_of (fs : list ramfs_node) (i : Z) : Z :=
  match zlookup fs i with Some nd => n_type nd | None => 0 end.

(** The components of a path, each with whether text follows it. *)
Fixpoint tokens_from (p : Z → bool) (s cur : list Z) : list (list Z * bool) :=
  match s with
  | [] => match cur with [] => [] | _ => [(cur, false)] end
  | c :: s' =>
    if p c then
      match cur with [] => tokens_from p s' [] | _ => (cur, negb (bool_decide (s' = []))) :: tokens_from p s' [] end
    else tokens_from p s' (cur ++ [c])
  end.
Definition is_slash (c : Z) : bool := is_sep [47] c.
Definition tokens (s : list Z) : list (list Z * bool) := tokens_from is_slash s [].

Definition name_buf (w : list Z) : list Z := w ++ 0 :: replicate (31 - length w) 0.

(** What a lookup answers; None stands for the overrun of the 32-byte name. *)
Fixpoint lookup_spec (fs : list ramfs_node) (curr : Z) (ts : list (list Z * bool)) (outs : bool) : option resolved :=
  match ts with
  | [] => Some (Resolved curr (if outs then Some (parent_of fs curr) else None) None)
  | (w, more) :: ts' =>
    if bool_decide (w = chars ".") then lookup_spec fs curr ts' outs
    else if bool_decide (w = chars "..") then
      lookup_spec fs (if negb (parent_of fs curr =? -1) then parent_of fs curr else curr) ts' outs
    else
      let found := child fs curr w in
      if more : bool then
        if (found =? -1) || negb (type_of fs found =? RAMFS_TYPE_DIR) then Some (Resolved (-1) None None)
        else lookup_spec fs found ts' outs
      else if outs then
        if bool_decide (length w ≤ 31)%nat then Some (Resolved found (Some curr) (Some (name_buf w))) else None
      else Some (Resolved found None None)
  end.

Lemma child_from_spec fs0 n i p w :
  fs_ok fs0 n → 0 ≤ i ≤ MAX_FILES →
  let r := child_from i (drop (Z.to_nat i) fs0) p w in
  (r = -1 ∧ ∀ j, i ≤ j → ¬ child_at fs0 p w j) ∨ (0 ≤ r ∧ child_at fs0 p w r).
Proof.
  intros Hok. remember (Z.to_nat (MAX_FILES - i)) as k eqn:Ek. revert i Ek.
  induction k as [|k IH]; intros i Ek Hi.
  - pose proof (fo_len _ n Hok) as Hl. rewrite drop_ge by (unfold zlen in Hl; lia). left. split; [done|].
    intros j Hj (nd & Hlk & _). apply zlookup_Some in Hlk. lia.
  - destruct (fs_lookup _ n i Hok) as [nd Hnd]; [lia|].
    assert (fs0 !! Z.to_nat i = Some nd) as Hnd' by (unfold zlookup in Hnd; by rewrite decide_True in Hnd by lia).
    rewrite (drop_S _ _ _ Hnd'). cbn [child_from]. replace (S (Z.to_nat i)) with (Z.to_nat (i + 1)) by lia.
    destruct (_ && _) eqn:Hc.
    + apply andb_true_iff in Hc as [[Hu Hp%Z.eqb_eq]%andb_true_iff Hw%bool_decide_eq_true]. right. split; [lia|].
      exists nd. do 3 (split; [done|]). destruct (used_node _ n i nd Hok Hnd Hu) as [_ Hno].
      destruct (node_cstring _ _ _ Hno) as [nm Hnm]. unfold string_of in Hw. rewrite (read_string_spec _ _ Hnm) in Hw.
      by subst.
    + destruct (IH (i + 1)) as [[-> Hno]|?]; [lia|lia| |by right]. left. split; [done|]. intros j Hj.
      destruct (decide (j = i)) as [->|]; [|apply Hno; lia]. intros (nd' & Hl & Hu & Hp & Hw).
      rewrite Hnd in Hl. injection Hl as <-. unfold string_of in Hc. rewrite (read_string_spec _ _ Hw) in Hc.
      rewrite Hu, Hp, Z.eqb_refl, bool_decide_eq_true_2 in Hc; done.
Qed.

Lemma child_spec fs n p w :
  fs_ok fs n → (child fs p w = -1 ∧ ∀ j, ¬ child_at fs p w j) ∨ (0 ≤ child fs p w ∧ child_at fs p w (child fs p w)).
Proof.
  intros Hok. destruct (child_from_spec fs n 0 p w Hok ltac:(unfold MAX_FILES; lia)) as [[E H]|H]; [left|by right].
  split; [done|]. intros j Hc. destruct (Hc) as (nd & Hl%zlookup_Some & _). apply (H j); [lia|done].
Qed.

Lemma child_eq fs n p w j : fs_ok fs n → 0 ≤ p → child_at fs p w j → child fs p w = j.
Proof.
  intros Hok Hp Hc. destruct (child_spec fs n p w Hok) as [[_ H]|[_ H]]; [by destruct (H j)|]. by eapply child_unique.
Qed.

Lemma strcpy_length dst src r : strcpy dst src = Ok r → length r = length dst.
Proof.
  revert src r. induction dst as [|b dst IH]; intros src r; [done|]. simpl. destruct src as [|c src]; [done|].
  destruct (c =? 0); [by intros [= <-]|]. destruct (strcpy dst src) as [r'|] eqn:E; [|done].
  simpl. intros [= <-]. simpl. by rewrite (IH _ _ E).
Qed.

(** ** Monadic steps *)

Section steps.
  Context {A : Type} `{!Kmalloc A}.
  Implicit Types s : ramfs_st A.

Lemma get_file_ok i nd s : zlookup (files s) i = Some nd → get_file i s = Ok (nd, s).
Proof. intros H. unfold get_file, gets, or_crash. cbv [mbind M_bind]. by rewrite H. Qed.

Lemma put_file_ok i nd nd0 s :
  zlookup (files s) i = Some nd0 → put_file i nd s = Ok (tt, set_files (zinsert i nd (files s)) s).
Proof. intros H. unfold put_file, gets, or_crash, modify. cbv [mbind M_bind]. by rewrite H. Qed.

Lemma find_child_spec n i curr token w s :
  cstring token w → fs_ok (files s) n → 0 ≤ i ≤ MAX_FILES →
  find_child (Z.to_nat (MAX_FILES - i)) i curr token s
    = Ok (child_from i (drop (Z.to_nat i) (files s)) curr w, s).
Proof.
  intros Ht Hok. remember (Z.to_nat (MAX_FILES - i)) as k eqn:Ek. revert i Ek.
  induction k as [|k IH]; intros i Ek Hi; cbn [find_child].
  - rewrite drop_ge; [done|]. pose proof (fo_len _ n Hok) as Hl. unfold zlen in Hl. lia.
  - destruct (fs_lookup _ n i Hok) as [nd Hnd]; [lia|].
    rewrite (bind_ok _ _ _ _ _ (get_file_ok i nd s Hnd)).
    assert (files s !! Z.to_nat i = Some nd) as Hnd' by (unfold zlookup in Hnd; by rewrite decide_True in Hnd by lia).
    rewrite (drop_S _ _ _ Hnd'). cbn [child_from]. replace (S (Z.to_nat i)) with (Z.to_nat (i + 1)) by lia.
    specialize (IH (i + 1) ltac:(lia) ltac:(lia)).
    destruct (n_is_used nd) eqn:Hu; [|exact IH]. cbn [andb].
    destruct (Z.eqb_spec (n_parent_idx nd) curr) as [Hp|Hp]; [|exact IH]. cbn [andb].
    destruct (used_node _ n i nd Hok Hnd Hu) as [_ Hno]. destruct (node_cstring _ _ _ Hno) as [nm Hnm].
    destruct (strcmp_eq (n_name nd) token nm w Hnm Ht) as (c & Ec & Hc).
    unfold lift_res. cbv [mbind M_bind]. rewrite Ec. unfold string_of. rewrite (read_string_spec _ _ Hnm).
    destruct (Z.eqb_spec c 0) as [H0|H0].
    + apply Hc in H0. by rewrite bool_decide_eq_true_2.
    + rewrite bool_decide_eq_false_2; [exact IH|]. intros E. by apply H0, Hc.
Qed.
End steps.

Lemma tokens_from_skip p d s : Forall (λ c, p c = true) d → tokens_from p (d ++ s) [] = tokens_from p s [].
Proof. induction 1 as [|c d Hc _ IH]; simpl; [done|]. by rewrite Hc. Qed.

Lemma tokens_from_run p w s cur :
  Forall (λ c, p c = false) w → tokens_from p (w ++ s) cur = tokens_from p s (cur ++ w).
Proof.
  intros H. revert cur. induction H as [|c w Hc _ IH]; intros cur; simpl; [by rewrite app_nil_r|].
  by rewrite Hc, IH, <- app_assoc.
Qed.

Lemma tokens_cut d w c t :
  Forall (λ c, is_slash c = true) d → Forall (λ c, is_slash c = false) w → w ≠ [] → is_slash c = true →
  tokens (d ++ w ++ c :: t) = (w, negb (bool_decide (t = []))) :: tokens t.
Proof.
  intros Hd Hw Hn Hc. unfold tokens. rewrite tokens_from_skip, tokens_from_run by done. simpl.
  rewrite Hc. by destruct w.
Qed.
Lemma tokens_last d w :
  Forall (λ c, is_slash c = true) d → Forall (λ c, is_slash c = false) w → w ≠ [] → tokens (d ++ w) = [(w, false)].
Proof.
  intros Hd Hw Hn. unfold tokens. rewrite tokens_from_skip by done.
  rewrite <- (app_nil_r w), tokens_from_run by done. simpl. rewrite app_nil_r. by destruct w.
Qed.
Lemma tokens_none d : Forall (λ c, is_slash c = true) d → tokens d = [].
Proof. intros Hd. unfold tokens. rewrite <- (app_nil_r d). by rewrite tokens_from_skip. Qed.

Lemma parent_of_eq fs i nd : zlookup fs i = Some nd → parent_of fs i = n_parent_idx nd.
Proof. intros H. unfold parent_of. by rewrite H. Qed.
Lemma type_of_eq fs i nd : zlookup fs i = Some nd → type_of fs i = n_type nd.
Proof. intros H. unfold type_of. by rewrite H. Qed.

(** [..] stays inside the tree. *)
Lemma dotdot_dir fs n i :
  fs_ok fs n → is_dir fs i → is_dir fs (if negb (parent_of fs i =? -1) then parent_of fs i else i).
Proof.
  intros Hok Hd. destruct (Hd) as (nd & Hi & Hu & Ht). rewrite (parent_of_eq _ _ _ Hi).
  destruct (used_node _ n i nd Hok Hi Hu) as [Hr Hno]. destruct (Z.eqb_spec (n_parent_idx nd) (-1)); [done|].
  destruct (decide (i = 0)) as [->|Hi0]; [by destruct (no_root _ _ _ Hno eq_refl) as (_ & _ & ?)|].
  destruct (no_parent _ _ _ Hno Hi0) as (Hpr & pd & Hpd & Hpt). exists pd. split; [done|]. split; [|done].
  rewrite (fo_used _ n Hok _ _ Hpd). apply bool_decide_eq_true_2. lia.
Qed.

Lemma child_dir fs n p w :
  fs_ok fs n → child fs p w ≠ -1 → type_of fs (child fs p w) = RAMFS_TYPE_DIR → is_dir fs (child fs p w).
Proof.
  intros Hok Hne Ht. destruct (child_spec fs n p w Hok) as [[? _]|[_ (nd & Hl & Hu & _)]]; [done|].
  exists nd. rewrite (type_of_eq _ _ _ Hl) in Ht. done.
Qed.

Section resolve.
  Context {A : Type} `{!Kmalloc A}.
  Implicit Types s : ramfs_st A.

Lemma token_is w (lw : string) token b :
  cstring token w → cstring (lit lw) (chars lw) →
  (c ← strcmp token (lit lw); Ok (c =? 0)) = Ok b → b = bool_decide (w = chars lw).
Proof.
  intros Ht Hl. destruct (strcmp_eq _ _ _ _ Ht Hl) as (c & -> & Hc). simpl. intros [= <-].
  destruct (Z.eqb_spec c 0); symmetry; [apply bool_decide_eq_true_2|apply bool_decide_eq_false_2]; naive_solver.
Qed.

Lemma strcmp_lit {B} w (lw : string) token (k1 k2 : M (ramfs_st A) B) s :
  cstring token w → cstring (lit lw) (chars lw) →
  (c ← lift_res (strcmp token (lit lw)); if c =? 0 then k1 else k2) s
    = (if bool_decide (w = chars lw) then k1 else k2) s.
Proof.
  intros Ht Hl. destruct (strcmp_eq _ _ _ _ Ht Hl) as (c & Ec & Hc).
  unfold lift_res. cbv [mbind M_bind]. rewrite Ec.
  destruct (Z.eqb_spec c 0) as [H0|H0].
  - rewrite bool_decide_eq_true_2; [done|by apply Hc].
  - rewrite bool_decide_eq_false_2; [done|]. intros E. by apply H0, Hc.
Qed.

Lemma lit_dot : cstring (lit ".") (chars ".").
Proof. apply cstring_lit. by apply (bool_decide_unpack _). Qed.
Lemma lit_dotdot : cstring (lit "..") (chars "..").
Proof. apply cstring_lit. by apply (bool_decide_unpack _). Qed.
Lemma lit_slash : cstring (lit "/") [47].
Proof. by apply (cstring_lit (chars "/")), (bool_decide_unpack _). Qed.

(** The component loop of [resolve_path] computes [lookup_spec]. *)
Lemma resolve_loop_spec fuel pre t post curr outs s n :
  fs_ok (files s) n → is_dir (files s) curr → chars_ok t → zlen t < 2 ^ 32 → (length t < fuel)%nat →
  resolve_loop fuel (pre ++ t ++ 0 :: post) (zlen pre) curr outs s =
    match lookup_spec (files s) curr (tokens t) outs with
    | Some r => Ok (r, s) | None => Crash OutOfBounds end.
Proof.
  intros Hok. revert pre t post curr. induction fuel as [|fuel IH]; intros pre t post curr Hd Ht Hsz Hf; [lia|].
  destruct (Hd) as (cd & Hcd & Hcu & _). cbn [resolve_loop].
  destruct (strtok_r_spec (lit "/") [47] lit_slash pre t post (Some (zlen pre)) 0 Ht eq_refl)
    as [(Hw & Hall & E)|(d & w & ws & tail & t' & Hw & Hws & Hwz & Ht' & Hn & Hl & E & Hds & Hwn & Htail)];
    rewrite (lift_ok _ _ _ _ E); cbn [fst snd].
  { rewrite (bind_ok _ _ _ _ _ (get_file_ok curr cd s Hcd)). fold is_slash in Hall.
    rewrite (tokens_none t Hall). simpl. by rewrite (parent_of_eq _ _ _ Hcd). }
  fold is_slash in Hds, Hwn.
  set (buf := (pre ++ d ++ w ++ tail) ++ t' ++ 0 :: post).
  set (token := drop (Z.to_nat (zlen pre + zlen d)) buf).
  assert (cstring token w) as Htok.
  { split; [done|]. unfold token, buf. replace (Z.to_nat (zlen pre + zlen d)) with (length (pre ++ d))
      by (rewrite length_app; unfold zlen; lia).
    destruct Htail as [(-> & _)|(-> & -> & _)]; simpl; rewrite <- !app_assoc; simpl;
      rewrite (app_assoc pre d), drop_app_length; by eexists. }
  assert (tokens t = (w, negb (bool_decide (t' = []))) :: tokens t') as ->.
  { destruct Htail as [(_ & c & Hc & ->)|(_ & -> & ->)]; [by apply tokens_cut|]. by rewrite tokens_last. }
  assert (length w ≤ length t)%nat as Hwl.
  { destruct Htail as [(_ & c & _ & ->)|(_ & _ & ->)]; rewrite !length_app; lia. }
  rewrite (lift_ok _ _ _ _ (strlen_spec token w Htok ltac:(unfold zlen in *; lia))).
  rewrite (proj2 (Z.eqb_neq (zlen w) 0)) by (destruct w; [done|unfold zlen; simpl; lia]).
  rewrite (strcmp_lit w "." token) by (done || apply lit_dot). cbn [lookup_spec].
  assert (∀ c, is_dir (files s) c → resolve_loop fuel buf (zlen (pre ++ d ++ w ++ tail)) c outs s =
    match lookup_spec (files s) c (tokens t') outs with Some r => Ok (r, s) | None => Crash OutOfBounds end) as Hrec.
  { intros c Hc. apply IH; [done|done|unfold zlen in *; lia|lia]. }
  destruct (bool_decide (w = chars ".")); [by apply Hrec|].
  rewrite (strcmp_lit w ".." token) by (done || apply lit_dotdot).
  destruct (bool_decide (w = chars "..")).
  { rewrite (bind_ok _ _ _ _ _ (get_file_ok curr cd s Hcd)). rewrite <- (parent_of_eq _ _ _ Hcd).
    apply Hrec. by eapply dotdot_dir. }
  pose proof (find_child_spec n 0 curr token w s Htok Hok ltac:(unfold MAX_FILES; lia)) as Hfc.
  change (MAX_FILES - 0) with MAX_FILES in Hfc. change (drop (Z.to_nat 0) (files s)) with (files s) in Hfc.
  fold (child (files s) curr w) in Hfc. rewrite (bind_ok _ _ _ _ _ Hfc).
  set (found := child (files s) curr w) in *.
  assert (nth_byte buf (zlen (pre ++ d ++ w ++ tail)) = Ok (hd 0 t')) as Hnext.
  { unfold buf. destruct t' as [|c t']; [|simpl]; apply nth_byte_app. }
  rewrite (lift_ok _ _ _ _ Hnext).
  assert (negb (hd 0 t' =? 0) = negb (bool_decide (t' = []))) as ->.
  { destruct t' as [|c t']; [done|]. apply Forall_cons in Ht' as [Hc _]. simpl.
    by rewrite (proj2 (Z.eqb_neq c 0) Hc). }
  destruct (negb (bool_decide (t' = []))).
  - destruct (Z.eqb_spec found (-1)) as [Hf1|Hf1]; [done|]. cbn [orb].
    destruct (child_spec (files s) n curr w Hok) as [[? _]|[Hge (nd & Hnd & Hnu & _)]]; [done|]. fold found in Hnd.
    rewrite (bind_ok _ _ _ _ _ (get_file_ok found nd s Hnd)). rewrite (type_of_eq _ _ _ Hnd).
    destruct (Z.eqb_spec (n_type nd) RAMFS_TYPE_DIR) as [Hty|Hty]; [|done]. cbn [negb].
    apply Hrec. by exists nd.
  - destruct outs; [|done]. unfold lift_res; unfold mbind, M_bind. rewrite (strcpy_spec _ token w Htok).
    rewrite length_replicate. case_decide as Hlw; case_bool_decide as Hlw'; try lia; [|done].
    unfold name_buf. by rewrite drop_replicate.
Qed.

Lemma temp_path_spec path l :
  cstring path l → zlen l < 2 ^ 31 → ∃ post, temp_path path = Ok (take 127 l ++ 0 :: post) ∧ length (take 127 l ++ 0%Z :: post) = 128%nat.
Proof.
  intros Hp Hl. unfold temp_path. rewrite (strlen_spec path l) by (done || lia). cbn [mbind res_bind].
  rewrite i32_small by (unfold zlen in *; lia).
  set (k := if 127 <? zlen l then 127 else zlen l).
  assert (k = Z.of_nat (length (take 127 l))) as Ek.
  { rewrite length_take. unfold k, zlen. destruct (Z.ltb_spec 127 (Z.of_nat (length l))); lia. }
  rewrite Ek. set (t := take 127 l) in *.
  destruct (Z.ltb_spec (Z.of_nat (length t)) 0); [lia|].
  assert (length t ≤ 127)%nat by (unfold t; rewrite length_take; lia).
  destruct Hp as [_ [tl ->]]. rewrite Nat2Z.id, memcpy_spec.
  - cbn [mbind res_bind]. exists (replicate (127 - length t) 0).
    assert (take (length t) (l ++ 0 :: tl) = t) as ->.
    { rewrite take_app_le by (unfold t; rewrite length_take; lia). unfold t. by rewrite length_take, <- take_take, (take_ge l (length l)). }
    rewrite drop_replicate. replace (128 - length t)%nat with (S (127 - length t)) by lia. simpl replicate.
    rewrite (zinsert_app t). split; [done|]. rewrite length_app. simpl. rewrite length_replicate. lia.
  - rewrite length_replicate. lia.
  - rewrite length_app. unfold t. rewrite length_take. lia.
Qed.

(** The text behind an optional leading slash, and where a lookup starts. *)
Definition path_text (l : list Z) : list Z :=
  match l with c :: l' => if c =? 47 then l' else l | [] => [] end.
Definition path_start (s : ramfs_st A) (l : list Z) : Z :=
  let cwd := match current_proc s with Some pf => cwd_inode pf | None => 0 end in
  match l with c :: _ => if c =? 47 then 0 else cwd | [] => cwd end.

Lemma resolve_path_spec path l outs s n :
  fs_ok (files s) n → is_dir (files s) (path_start s l) → cstring path l → zlen l < 2 ^ 31 →
  resolve_path (Some path) outs s =
    match lookup_spec (files s) (path_start s l) (tokens (take 127 (path_text l))) outs with
    | Some r => Ok (r, s) | None => Crash OutOfBounds end.
Proof.
  intros Hok Hd Hp Hl. unfold resolve_path.
  rewrite (bind_ok _ _ s _ s (eq_refl : gets current_proc s = Ok (current_proc s, s))).
  assert (nth_byte path 0 = Ok (hd 0 l)) as Hnb.
  { destruct Hp as [_ [t ->]]. by destruct l. }
  rewrite (lift_ok _ _ _ _ Hnb).
  assert (∀ c p l', is_dir (files s) c → cstring p l' → zlen l' < 2 ^ 31 →
    (temp ← lift_res (temp_path p); resolve_loop (S (length temp)) temp 0 c outs) s =
    match lookup_spec (files s) c (tokens (take 127 l')) outs with Some r => Ok (r, s) | None => Crash OutOfBounds end) as Hgo.
  { intros c p l' Hc Hcs Hz. destruct (temp_path_spec p l' Hcs Hz) as (post & E & Hlen).
    unfold lift_res, mbind, M_bind. rewrite E.
    apply (resolve_loop_spec _ [] (take 127 l') post c outs s n); try done.
    - destruct Hcs as [Hcs _]. by apply Forall_take.
    - unfold zlen in *. rewrite length_take. lia.
    - rewrite Hlen, length_take. lia. }
  destruct l as [|c l]; [by apply Hgo|].
  simpl path_start in *. simpl path_text. simpl hd. destruct (Z.eqb_spec c 47) as [->|Hne].
  - destruct Hp as [Hz [t ->]]. simpl drop.
    apply Hgo; [done| |clear - Hl; unfold zlen in *; cbn [length] in Hl; lia].
    apply Forall_cons in Hz as [_ Hz]. split; [done|by exists t].
  - by apply Hgo.
Qed.
End resolve.

(** ** Components and what a lookup promises *)

Definition good_comp (w : list Z) : Prop := w ≠ [] ∧ Forall (λ c, c ≠ 0 ∧ c ≠ 47) w.

Lemma is_slash_spec c : is_slash c = (c =? 47).
Proof. unfold is_slash, is_sep. simpl. by rewrite orb_false_r. Qed.

Lemma tokens_from_good s cur :
  chars_ok s → Forall (λ c, c ≠ 0 ∧ c ≠ 47) cur → Forall (λ t, good_comp t.1) (tokens_from is_slash s cur).
Proof.
  revert cur. induction s as [|c s IH]; intros cur Hs Hcur; simpl.
  - destruct cur; [constructor|]. apply Forall_singleton. by split.
  - apply Forall_cons in Hs as [Hc Hs]. rewrite is_slash_spec. destruct (Z.eqb_spec c 47) as [->|Hne].
    + destruct cur; [by apply IH|]. apply Forall_cons. split; [by split|by apply IH].
    + apply IH; [done|]. apply Forall_app. split; [done|]. by apply Forall_cons.
Qed.
Lemma tokens_good s : chars_ok s → Forall (λ t, good_comp t.1) (tokens s).
Proof. intros Hs. by apply tokens_from_good. Qed.

Lemma name_buf_cstring w : chars_ok w → cstring (name_buf w) w.
Proof. intros Hw. split; [done|]. by eexists. Qed.
Lemma name_buf_length w : (length w ≤ 31)%nat → length (name_buf w) = 32%nat.
Proof. intros Hl. unfold name_buf. rewrite length_app. simpl. rewrite length_replicate. lia. Qed.
Lemma good_comp_chars w : good_comp w → chars_ok w.
Proof. intros [_ H]. eapply Forall_impl; [exact H|]. by intros c [? _]. Qed.

(** What a lookup that found nothing tells its caller. *)
Definition missing (fs : list ramfs_node) (r : resolved) : Prop :=
  r = Resolved (-1) None None ∨
  ∃ p w, r = Resolved (-1) (Some p) (Some (name_buf w)) ∧ is_dir fs p ∧ good_name w ∧ (length w ≤ 31)%nat
    ∧ child fs p w = -1.

Lemma lookup_spec_sound fs n curr ts r :
  fs_ok fs n → is_dir fs curr → Forall (λ t, good_comp t.1) ts → lookup_spec fs curr ts true = Some r →
  (∃ nd, zlookup fs (r_inode r) = Some nd ∧ n_is_used nd = true) ∨ missing fs r.
Proof.
  intros Hok. revert curr. induction ts as [|[w more] ts IH]; intros curr Hd Hts; cbn [lookup_spec].
  { intros [= <-]. destruct Hd as (nd & Hi & Hu & _). left. by exists nd. }
  apply Forall_cons in Hts as [Hw Hts]. simpl in Hw.
  case_bool_decide as Hdot; [by apply IH|]. case_bool_decide as Hdd; [apply IH; [by eapply dotdot_dir|done]|].
  destruct more.
  - destruct (Z.eqb_spec (child fs curr w) (-1)) as [Hc|Hc]; [intros [= <-]; by right; left|]. cbn [orb].
    destruct (Z.eqb_spec (type_of fs (child fs curr w)) RAMFS_TYPE_DIR) as [Ht|Ht]; cbn [negb];
      [|intros [= <-]; by right; left].
    apply IH; [by eapply child_dir|done].
  - case_bool_decide as Hl; [|done]. intros [= <-]. simpl.
    destruct (child_spec fs n curr w Hok) as [[Hc _]|[_ (nd & Hnd & Hu & _)]]; [|left; by exists nd].
    right. right. rewrite Hc. exists curr, w. split; [done|]. split; [done|]. split; [|done].
    destruct Hw as [Hn Hf]. split; [done|]. done.
Qed.

(** ** Creating a node *)

Section create.
  Context (fs : list ramfs_node) (n p : Z) (w : list Z) (nd : ramfs_node).
  Context (Hok : fs_ok fs n) (Hn : n < MAX_FILES) (Hp : is_dir fs p) (Hw : good_name w) (Hl : (length w ≤ 31)%nat).
  Context (Hnew : child fs p w = -1).
  Context (Hname : n_name nd = name_buf w) (Hused : n_is_used nd = true) (Hpar : n_parent_idx nd = p).
  Context (Hinode : n_inode_idx nd = n) (Htype : n_type nd = RAMFS_TYPE_FILE ∨ n_type nd = RAMFS_TYPE_DIR).

Let fs' := zinsert n nd fs.

Lemma create_range : 0 ≤ n < zlen fs.
Proof using All. rewrite (fo_len fs n Hok). pose proof (fo_n fs n Hok). lia. Qed.

Lemma create_lookup i : zlookup fs' i = if decide (i = n) then Some nd else zlookup fs i.
Proof using All.
  case_decide as E; [subst i; apply zlookup_zinsert_eq, create_range|by apply zlookup_zinsert_ne].
Qed.

Lemma create_name : cstring (n_name nd) w.
Proof using All. rewrite Hname. apply name_buf_cstring, good_comp_chars. by destruct Hw as (? & ? & _). Qed.

Lemma create_child_at c v j : child_at fs' c v j ↔ child_at fs c v j ∨ (j = n ∧ c = p ∧ v = w).
Proof using All.
  unfold child_at. rewrite create_lookup. split.
  - case_decide as E; [|intros H; by left]. intros (nd' & [= <-] & _ & Hpc & Hc). right.
    split; [done|]. split; [congruence|]. by apply (cstring_unique (n_name nd)), create_name.
  - intros [(nd' & Hj & Hu & H)|(-> & -> & ->)].
    + rewrite decide_False; [by exists nd'|]. intros ->. rewrite (fo_used fs n Hok n nd' Hj) in Hu.
      apply bool_decide_eq_true in Hu. lia.
    + rewrite decide_True by done. exists nd. split; [done|]. split; [done|]. split; [done|]. apply create_name.
Qed.

Lemma create_dir i : is_dir fs i → is_dir fs' i.
Proof using All.
  intros (ndi & Hi & Hu & Ht). exists ndi. rewrite create_lookup, decide_False; [done|].
  intros ->. rewrite (fo_used fs n Hok n ndi Hi) in Hu. apply bool_decide_eq_true in Hu. lia.
Qed.

Lemma create_fs_ok : fs_ok fs' (n + 1).
Proof using All.
  pose proof create_range as Hr. pose proof (fo_n fs n Hok) as Hn1. pose proof (dir_range fs n p Hok Hp) as Hpr.
  constructor.
  - unfold fs'. rewrite zlen_zinsert. by apply (fo_len fs n).
  - lia.
  - intros i ndi. rewrite create_lookup. case_decide as E.
    + intros [= <-]. rewrite Hused. symmetry. apply bool_decide_eq_true_2. lia.
    + intros Hi. rewrite (fo_used fs n Hok i ndi Hi). apply bool_decide_ext. lia.
  - intros i ndi. rewrite create_lookup. case_decide as E.
    + intros [= <-] _. subst i. constructor; try done; try lia.
      * by rewrite Hname, name_buf_length.
      * intros _. exists w. split; [apply create_name|done].
      * intros _. rewrite Hpar. split; [lia|]. destruct Hp as (pd & Hpd & Hpu & Hpt). exists pd.
        rewrite create_lookup, decide_False by lia. done.
    + intros Hi Hlt. destruct (fo_node fs n Hok i ndi Hi ltac:(lia)) as [H1 H2 H3 H4 H5 H6].
      constructor; try done. intros Hi0. destruct (H6 Hi0) as (Hpi & pd & Hpd & Hpt). split; [done|].
      exists pd. rewrite create_lookup, decide_False by lia. done.
  - assert (∀ j nj nm, zlookup fs' j = Some nj → j ≠ n → j < n + 1 → n_parent_idx nj = p → cstring (n_name nj) nm →
      cstring (n_name nd) nm → False) as Hclash.
    { intros j nj nm Hj Hne Hjn Hpj Hnj Hnd. rewrite create_lookup, decide_False in Hj by done.
      assert (nm = w) as -> by (by apply (cstring_unique (n_name nd)), create_name).
      destruct (child_spec fs n p w Hok) as [[_ Hno]|[? _]]; [|lia]. apply (Hno j). exists nj.
      split; [done|]. split; [rewrite (fo_used fs n Hok j nj Hj); apply bool_decide_eq_true_2; lia|done]. }
    intros i j ni nj nm Hi Hj Hri Hrj Hpe Hci Hcj.
    destruct (decide (i = n)) as [->|Hin], (decide (j = n)) as [->|Hjn]; [done| | |].
    + rewrite create_lookup, decide_True in Hi by done. injection Hi as <-. exfalso.
      by eapply (Hclash j nj nm); try done; try lia; congruence.
    + rewrite create_lookup, decide_True in Hj by done. injection Hj as <-. exfalso.
      by eapply (Hclash i ni nm); try done; try lia; congruence.
    + rewrite create_lookup, decide_False in Hi by done. rewrite create_lookup, decide_False in Hj by done.
      by eapply (fo_unique fs n Hok i j ni nj nm); try done; lia.
Qed.

Lemma create_child c v : is_dir fs c → child fs' c v = if decide (c = p ∧ v = w) then n else child fs c v.
Proof using All.
  intros Hc. pose proof (dir_range fs n c Hok Hc). case_decide as E.
  - apply (child_eq fs' (n + 1)); [apply create_fs_ok|lia|]. apply create_child_at. right. tauto.
  - destruct (child_spec fs n c v Hok) as [[Ec Hno]|[_ Hcc]].
    + rewrite Ec. destruct (child_spec fs' (n + 1) c v create_fs_ok) as [[-> _]|[_ Hcc]]; [done|].
      apply create_child_at in Hcc as [Hcc|?]; [by apply Hno in Hcc|tauto].
    + apply (child_eq fs' (n + 1)); [apply create_fs_ok|lia|]. apply create_child_at. by left.
Qed.

(** The lookup that missed the new node now finds it. *)
Lemma lookup_after_create curr ts :
  is_dir fs curr → Forall (λ t, good_comp t.1) ts →
  lookup_spec fs curr ts true = Some (Resolved (-1) (Some p) (Some (name_buf w))) →
  lookup_spec fs' curr ts true = Some (Resolved n (Some p) (Some (name_buf w))).
Proof using All.
  revert curr. induction ts as [|[v more] ts IH]; intros curr Hd Hts; cbn [lookup_spec].
  { done. }
  apply Forall_cons in Hts as [Hv Hts]. simpl in Hv.
  assert (parent_of fs' curr = parent_of fs curr) as Hpe.
  { unfold parent_of. rewrite create_lookup, decide_False; [done|]. intros ->. apply (dir_range fs n) in Hd; [lia|done]. }
  rewrite Hpe. case_bool_decide as Hdot; [by apply IH|].
  case_bool_decide as Hdd; [apply IH; [by eapply dotdot_dir|done]|].
  rewrite create_child by done. destruct more.
  - destruct (Z.eqb_spec (child fs curr v) (-1)) as [Hc|Hc]; [done|].
    rewrite decide_False by (intros [-> ->]; done). rewrite (proj2 (Z.eqb_neq _ _) Hc). cbn [orb].
    destruct (Z.eqb_spec (type_of fs (child fs curr v)) RAMFS_TYPE_DIR) as [Ht|Ht]; cbn [negb]; [|done].
    assert (type_of fs' (child fs curr v) = type_of fs (child fs curr v)) as ->.
    { unfold type_of. rewrite create_lookup, decide_False; [done|].
      pose proof (dir_range fs n _ Hok (child_dir fs n curr v Hok Hc Ht)). lia. }
    rewrite Ht. cbn [negb Z.eqb]. apply IH; [by eapply child_dir|done].
  - case_bool_decide as Hlv; [|done]. intros [= Hc -> Hb].
    assert (v = w) as ->.
    { apply (cstring_unique (name_buf v)); [by apply name_buf_cstring, good_comp_chars|].
      rewrite Hb. apply name_buf_cstring, good_comp_chars. by destruct Hw as (? & ? & _). }
    by rewrite decide_True.
Qed.
End create.

(** ** Allocation of nodes and [mkdir] *)

Lemma zinsert_zinsert {B} i (x y : B) l : zinsert i x (zinsert i y l) = zinsert i x l.
Proof. unfold zinsert. case_decide; [apply list_insert_insert_eq|done]. Qed.

Lemma lookup_spec_total fs curr ts outs :
  Forall (λ t : list Z * bool, (length t.1 ≤ 31)%nat) ts → ∃ r, lookup_spec fs curr ts outs = Some r.
Proof.
  revert curr. induction ts as [|[w more] ts IH]; intros curr H; cbn [lookup_spec]; [by eexists|].
  apply Forall_cons in H as [Hw H]. simpl in Hw.
  case_bool_decide; [by apply IH|]. case_bool_decide; [by apply IH|].
  destruct more; [case_match; [by eexists|by apply IH]|]. destruct outs; [|by eexists].
  rewrite bool_decide_eq_true_2 by done. by eexists.
Qed.

Lemma lookup_spec_outs fs curr ts r :
  lookup_spec fs curr ts true = Some r → ∃ r', lookup_spec fs curr ts false = Some r' ∧ r_inode r' = r_inode r.
Proof.
  revert curr. induction ts as [|[w more] ts IH]; intros curr; cbn [lookup_spec]; [intros [= <-]; by eexists|].
  case_bool_decide; [by apply IH|]. case_bool_decide; [by apply IH|].
  destruct more; [case_match; [intros [= <-]; by eexists|by apply IH]|].
  case_bool_decide; [intros [= <-]; by eexists|done].
Qed.

(** The table after node [n] was set to [nd]. *)
Definition fresh_node (i : Z) : ramfs_node := RamfsNode (replicate 32 0) 0 0 true 0 0 i.

Section mkdir.
  Context {A : Type} `{!Kmalloc A}.
  Implicit Types s : ramfs_st A.

Lemma alloc_inode_spec s n :
  fs_ok (files s) n →
  alloc_inode s = if decide (n < MAX_FILES) then Ok (n, set_files (zinsert n (fresh_node n) (files s)) s) else Ok (-1, s).
Proof.
  intros Hok. unfold alloc_inode. pose proof (fo_n _ n Hok) as Hn.
  assert (∀ k i, i = MAX_FILES - Z.of_nat k → 0 ≤ i ≤ n →
    alloc_inode_loop k i s = if decide (n < MAX_FILES) then Ok (n, set_files (zinsert n (fresh_node n) (files s)) s) else Ok (-1, s)) as H.
  { induction k as [|k IH]; intros i Ei Hi; cbn [alloc_inode_loop].
    - rewrite decide_False by lia. done.
    - destruct (fs_lookup _ n i Hok) as [nd Hnd]; [lia|]. rewrite (bind_ok _ _ _ _ _ (get_file_ok i nd s Hnd)).
      rewrite (fo_used _ n Hok i nd Hnd). case_bool_decide as Hlt.
      + apply IH; lia.
      + assert (i = n) as -> by lia. rewrite (bind_ok _ _ _ _ _ (put_file_ok n _ nd s Hnd)).
        rewrite decide_True by lia. done. }
  apply H; [|lia]. unfold MAX_FILES. lia.
Qed.

(** Updating the node that was just put at [n]. *)
Lemma update_file_new s fs n nd f :
  0 ≤ n < zlen fs → update_file n f (set_files (zinsert n nd fs) s) = Ok (tt, set_files (zinsert n (f nd) fs) s).
Proof.
  intros Hn. assert (zlookup (files (set_files (zinsert n nd fs) s)) n = Some nd) as Hl by by apply zlookup_zinsert_eq.
  unfold update_file. rewrite (bind_ok _ _ _ _ _ (get_file_ok _ _ _ Hl)), (put_file_ok _ _ nd) by done.
  simpl. by rewrite zinsert_zinsert.
Qed.

Lemma set_name_new s fs n nd w :
  0 ≤ n < zlen fs → chars_ok w → (length w ≤ 31)%nat → n_name nd = replicate 32 0 →
  set_name n (name_buf w) (set_files (zinsert n nd fs) s) = Ok (tt, set_files (zinsert n (with_name (name_buf w) nd) fs) s).
Proof.
  intros Hn Hw Hl Hnm. assert (zlookup (files (set_files (zinsert n nd fs) s)) n = Some nd) as Hlk by by apply zlookup_zinsert_eq.
  unfold set_name. rewrite (bind_ok _ _ _ _ _ (get_file_ok _ _ _ Hlk)).
  assert (strcpy (n_name nd) (name_buf w) = Ok (name_buf w)) as E.
  { rewrite Hnm, (strcpy_spec _ _ w) by by apply name_buf_cstring.
    rewrite length_replicate, decide_True by lia. unfold name_buf. by rewrite drop_replicate. }
  rewrite (lift_ok _ _ _ _ E), (put_file_ok _ _ nd) by done. simpl. by rewrite zinsert_zinsert.
Qed.

(** The lookup a path operation performs. *)
Definition lookup (s : ramfs_st A) (l : list Z) (outs : bool) : option resolved :=
  lookup_spec (files s) (path_start s l) (tokens (take 127 (path_text l))) outs.

(** A path as the system calls pass it, with components that fit a name. *)
Definition path_ok s (path l : list Z) : Prop :=
  cstring path l ∧ zlen l < 2 ^ 31 ∧ is_dir (files s) (path_start s l)
  ∧ Forall (λ t : list Z * bool, (length t.1 ≤ 31)%nat) (tokens (take 127 (path_text l))).

Lemma path_tokens_good path l : cstring path l → Forall (λ t, good_comp t.1) (tokens (take 127 (path_text l))).
Proof.
  intros [Hl _]. apply tokens_good, Forall_take. unfold path_text. destruct l as [|c l]; [done|].
  case_match; [|done]. by apply Forall_cons in Hl as [_ Hl].
Qed.

Lemma resolve_path_ok s n path l outs :
  fs_ok (files s) n → path_ok s path l →
  ∃ r, lookup s l outs = Some r ∧ resolve_path (Some path) outs s = Ok (r, s).
Proof.
  intros Hok (Hp & Hl & Hd & Ht). destruct (lookup_spec_total (files s) (path_start s l) _ outs Ht) as [r Hr].
  exists r. split; [done|]. rewrite (resolve_path_spec path l outs s n) by done. by rewrite Hr.
Qed.

Definition dir_node (n p : Z) (w : list Z) : ramfs_node := RamfsNode (name_buf w) 0 0 true RAMFS_TYPE_DIR p n.

Lemma mkdir_spec s n path l r :
  fs_ok (files s) n → path_ok s path l → lookup s l true = Some r →
  ∃ ret s', ramfs_mkdir (Some path) s = Ok (ret, s') ∧
    ((ret = -1 ∧ s' = s ∧ (0 ≤ r_inode r ∨ r = Resolved (-1) None None ∨ n = MAX_FILES))
     ∨ (ret = 0 ∧ n < MAX_FILES ∧ ∃ p w, r = Resolved (-1) (Some p) (Some (name_buf w)) ∧ is_dir (files s) p
          ∧ good_name w ∧ (length w ≤ 31)%nat ∧ child (files s) p w = -1
          ∧ s' = set_files (zinsert n (dir_node n p w) (files s)) s)).
Proof.
  intros Hok Hpath Hr. destruct (resolve_path_ok s n path l true Hok Hpath) as (r' & Hr' & E).
  assert (r' = r) as -> by congruence. unfold ramfs_mkdir. rewrite (bind_ok _ _ _ _ _ E).
  destruct Hpath as (Hp & Hl & Hd & Ht).
  destruct (lookup_spec_sound _ n _ _ r Hok Hd (path_tokens_good path l Hp) Hr) as [(nd & Hnd & Hu)|[->|(p & w & -> & Hpd & Hw & Hwl & Hc)]].
  - apply zlookup_Some in Hnd. rewrite (proj2 (Z.eqb_neq _ _)) by lia. simpl.
    eexists _, s. split; [done|]. left. split; [done|]. split; [done|]. left. lia.
  - simpl. eexists _, s. split; [done|]. left. auto.
  - simpl. pose proof (dir_range _ n p Hok Hpd). pose proof (fo_n _ n Hok). rewrite (proj2 (Z.eqb_neq _ _)) by lia.
    pose proof (alloc_inode_spec s n Hok) as Ha. case_decide as Hn.
    + rewrite (bind_ok _ _ _ _ _ Ha). rewrite (proj2 (Z.eqb_neq n (-1))) by lia.
      assert (0 ≤ n < zlen (files s)) as Hnl by (rewrite (fo_len _ n Hok); lia).
      rewrite (bind_ok _ _ _ _ _ (set_name_new s (files s) n (fresh_node n) w Hnl
        ltac:(destruct Hw as (? & ? & _); by apply good_comp_chars) Hwl eq_refl)).
      do 3 rewrite (bind_ok _ _ _ _ _ (update_file_new s (files s) n _ _ Hnl)).
      eexists _, _. split; [done|]. right. split; [done|]. split; [done|]. exists p, w. done.
    + rewrite (bind_ok _ _ _ _ _ Ha). simpl. eexists _, s. split; [done|]. left. split; [done|]. split; [done|].
      right. right. lia.
Qed.
End mkdir.

(** ** Paths of nodes *)

(** The components from the root to a node. *)
Inductive path_to (fs : list ramfs_node) : Z → list (list Z) → Prop :=
  | pt_root : path_to fs 0 []
  | pt_child i nd comps nm :
      zlookup fs i = Some nd → n_is_used nd = true → i ≠ 0 → path_to fs (n_parent_idx nd) comps →
      cstring (n_name nd) nm → path_to fs i (comps ++ [nm]).

Lemma path_exists fs n i nd : fs_ok fs n → zlookup fs i = Some nd → n_is_used nd = true → ∃ comps, path_to fs i comps.
Proof.
  intros Hok. remember (Z.to_nat i) as k eqn:Ek. revert i nd Ek.
  induction k as [k IH] using lt_wf_ind. intros i nd -> Hi Hu.
  destruct (used_node _ n i nd Hok Hi Hu) as [Hr Hno].
  destruct (decide (i = 0)) as [->|Hi0]; [by exists []; constructor|].
  destruct (no_parent _ _ _ Hno Hi0) as (Hp & pd & Hpd & _). destruct (no_name _ _ _ Hno Hi0) as (nm & Hnm & _).
  assert (n_is_used pd = true) as Hpu by (rewrite (fo_used _ n Hok _ _ Hpd); apply bool_decide_eq_true_2; lia).
  destruct (IH (Z.to_nat (n_parent_idx nd)) ltac:(lia) _ pd eq_refl Hpd Hpu) as [comps Hc].
  exists (comps ++ [nm]). by econstructor.
Qed.

Lemma path_range fs n i comps : fs_ok fs n → path_to fs i comps → 0 ≤ i < n ∧ (length comps ≤ Z.to_nat i)%nat.
Proof.
  intros Hok. induction 1 as [|i nd comps nm Hi Hu Hne _ [IH1 IH2] _]; [pose proof (fo_n fs n Hok); simpl; lia|].
  destruct (used_node _ n i nd Hok Hi Hu) as [Hr Hno]. destruct (no_parent _ _ _ Hno Hne) as [Hp _].
  rewrite length_app. simpl. lia.
Qed.

Lemma path_good fs n i comps : fs_ok fs n → path_to fs i comps → Forall good_name comps.
Proof.
  intros Hok. induction 1 as [|i nd comps nm Hi Hu Hne Hp IH Hnm]; [constructor|].
  apply Forall_app. split; [done|]. apply Forall_singleton.
  destruct (used_node _ n i nd Hok Hi Hu) as [Hr Hno]. destruct (no_name _ _ _ Hno Hne) as (nm' & Hnm' & Hg).
  by rewrite (cstring_unique _ _ _ Hnm Hnm').
Qed.

(** The text [getcwd] writes for a node that is not the root. *)
Definition render (comps : list (list Z)) : list Z := concat (map (cons 47) comps).

Lemma render_snoc comps nm : render (comps ++ [nm]) = render comps ++ 47 :: nm.
Proof. unfold render. rewrite map_app, concat_app. simpl. by rewrite app_nil_r. Qed.

Lemma good_name_comp nm : good_name nm → good_comp nm.
Proof. intros (? & ? & _). by split. Qed.

Lemma render_chars comps : Forall good_name comps → chars_ok (render comps).
Proof.
  induction 1 as [|nm comps Hg _ IH]; [constructor|]. unfold render in *. simpl. apply Forall_cons. split; [done|].
  apply Forall_app. split; [|done]. by apply good_comp_chars, good_name_comp.
Qed.

Lemma tokens_render c cs :
  Forall good_name (c :: cs) →
  tokens (tl (render (c :: cs))) = map (λ w, (w, true)) (removelast (c :: cs)) ++ [(List.last (c :: cs) [], false)].
Proof.
  revert c. induction cs as [|c' cs IH]; intros c Hg; apply Forall_cons in Hg as [(Hn & Hc & _) Hg].
  - simpl. rewrite app_nil_r. apply (tokens_last [] c); [constructor| |done].
    eapply Forall_impl; [exact Hc|]. intros x [_ Hx]. rewrite is_slash_spec. by apply Z.eqb_neq.
  - specialize (IH c' Hg). change (tl (render (c :: c' :: cs))) with ([] ++ c ++ 47 :: tl (render (c' :: cs))).
    rewrite tokens_cut; [|constructor| |done|done].
    + rewrite IH. simpl. apply Forall_cons in Hg as [(Hn' & _) _].
      rewrite bool_decide_eq_false_2; [done|]. by destruct c'.
    + eapply Forall_impl; [exact Hc|]. intros x [_ Hx]. rewrite is_slash_spec. by apply Z.eqb_neq.
Qed.

(** Looking the components up one after the other reaches the node. *)
Lemma lookup_descend fs n i comps ts outs :
  fs_ok fs n → path_to fs i comps → is_dir fs i →
  lookup_spec fs 0 (map (λ w, (w, true)) comps ++ ts) outs = lookup_spec fs i ts outs.
Proof.
  intros Hok Hp. revert ts. induction Hp as [|i nd comps nm Hi Hu Hne Hp IH Hnm]; intros ts Hd; [done|].
  destruct (used_node _ n i nd Hok Hi Hu) as [Hr Hno]. destruct (no_parent _ _ _ Hno Hne) as (Hpr & pd & Hpd & Hpt).
  assert (is_dir fs (n_parent_idx nd)) as Hdp.
  { exists pd. split; [done|]. split; [|done]. rewrite (fo_used _ n Hok _ _ Hpd). apply bool_decide_eq_true_2. lia. }
  rewrite map_app, <- app_assoc, IH by done. cbn [map app lookup_spec].
  destruct (no_name _ _ _ Hno Hne) as (nm' & Hnm' & Hg). rewrite (cstring_unique _ _ _ Hnm' Hnm) in Hg.
  destruct Hg as (_ & _ & Hdot & Hdd). rewrite !bool_decide_eq_false_2 by done.
  assert (child fs (n_parent_idx nd) nm = i) as -> by (apply (child_eq fs n); [done|lia|by exists nd]).
  rewrite (proj2 (Z.eqb_neq i (-1))) by lia. destruct Hd as (nd' & Hi' & _ & Ht). rewrite (type_of_eq _ _ _ Hi'), Ht. done.
Qed.

Lemma lookup_path fs n i comps :
  fs_ok fs n → path_to fs i comps → comps ≠ [] →
  lookup_spec fs 0 (tokens (tl (render comps))) false = Some (Resolved i None None).
Proof.
  intros Hok Hp Hne. pose proof (path_good fs n i comps Hok Hp) as Hg.
  destruct Hp as [|i nd comps nm Hi Hu Hi0 Hp Hnm]; [done|].
  destruct (used_node _ n i nd Hok Hi Hu) as [Hr Hno]. destruct (no_parent _ _ _ Hno Hi0) as (Hpr & pd & Hpd & Hpt).
  assert (is_dir fs (n_parent_idx nd)) as Hdp.
  { exists pd. split; [done|]. split; [|done]. rewrite (fo_used _ n Hok _ _ Hpd). apply bool_decide_eq_true_2. lia. }
  assert (∃ c cs, comps ++ [nm] = c :: cs) as (c & cs & E) by (destruct comps; by eexists _, _).
  rewrite E, tokens_render by by rewrite <- E. rewrite <- E, removelast_last, List.last_last.
  rewrite (lookup_descend fs n (n_parent_idx nd)) by done. cbn [lookup_spec].
  apply Forall_app in Hg as [_ Hg]. apply (Forall_singleton good_name) in Hg. destruct Hg as (_ & _ & Hdot & Hdd).
  rewrite !bool_decide_eq_false_2 by done. do 2 f_equal. apply (child_eq fs n); [done|lia|by exists nd].
Qed.

(** ** getcwd *)

Lemma splice_app (pre mid post bytes : list Z) :
  length mid = length bytes → splice (pre ++ mid ++ post) (zlen pre) bytes = pre ++ bytes ++ post.
Proof.
  intros Hl. unfold splice, zlen. rewrite Nat2Z.id, take_app_length. f_equal. f_equal.
  rewrite <- drop_drop, drop_app_length, <- Hl. apply drop_app_length.
Qed.

Lemma put_bytes_app (pre mid post bytes : list Z) :
  length mid = length bytes → put_bytes (pre ++ mid ++ post) (zlen pre) bytes = Ok (pre ++ bytes ++ post).
Proof.
  intros Hl. unfold put_bytes. rewrite (proj2 (Z.leb_le 0 (zlen pre))) by apply zlen_nonneg.
  rewrite (proj2 (Z.leb_le _ _)) by (rewrite !zlen_app; unfold zlen; lia). simpl. by rewrite splice_app.
Qed.

Section getcwd.
  Context {A : Type} `{!Kmalloc A}.
  Implicit Types s : ramfs_st A.

Lemma name_short fs i nd nm : node_ok fs i nd → cstring (n_name nd) nm → (length nm < 32)%nat.
Proof.
  intros Hno [_ [t E]]. pose proof (no_len _ _ _ Hno) as Hl. rewrite E, length_app in Hl. simpl in Hl. lia.
Qed.

Lemma cwd_length_spec s n i comps fuel len sz :
  fs_ok (files s) n → path_to (files s) i comps → (length comps < fuel)%nat → 0 ≤ len →
  cwd_length fuel i len sz s =
    Ok (if decide (comps = [] ∨ len + zlen (render comps) < sz) then Some (len + zlen (render comps)) else None, s).
Proof.
  intros Hok Hp. revert fuel len. induction Hp as [|i nd comps nm Hi Hu Hne Hp IH Hnm]; intros fuel len Hf Hlen;
    (destruct fuel as [|fuel]; [lia|]); cbn [cwd_length].
  - rewrite decide_True by by left. unfold render. simpl. by rewrite Z.add_0_r.
  - rewrite (proj2 (Z.eqb_neq i 0)) by done. rewrite (bind_ok _ _ _ _ _ (get_file_ok i nd s Hi)).
    destruct (used_node _ n i nd Hok Hi Hu) as [Hr Hno]. destruct (no_parent _ _ _ Hno Hne) as (Hpr & _).
    pose proof (name_short _ _ _ _ Hno Hnm) as Hsh.
    rewrite (lift_ok _ _ _ _ (strlen_spec _ nm Hnm ltac:(unfold zlen; lia))).
    rewrite (proj2 (Z.eqb_neq (n_parent_idx nd) (-1))) by lia. cbn [andb].
    rewrite render_snoc, zlen_app.
    assert (zlen (47 :: nm) = 1 + zlen nm) as E1 by (unfold zlen; cbn [length]; lia). rewrite E1.
    rewrite length_app in Hf. simpl in Hf. destruct (Z.leb_spec sz (len + (1 + zlen nm))) as [Hle|Hlt].
    + rewrite decide_False; [done|]. intros [H|H]; [by destruct comps|]. pose proof (zlen_nonneg (render comps)). lia.
    + rewrite IH by (unfold zlen; lia). do 2 f_equal.
      destruct (decide (comps = [])) as [->|Hc].
      * rewrite decide_True by by left. rewrite decide_True by (right; unfold render, zlen in *; simpl; lia).
        f_equal. unfold render, zlen. simpl. lia.
      * destruct (decide (len + (1 + zlen nm) + zlen (render comps) < sz)) as [H|H].
        -- rewrite !decide_True by (right; lia). f_equal. lia.
        -- rewrite !decide_False; [done|..]; intros [?|?]; (done || lia || by destruct comps).
Qed.

Lemma cwd_write_spec s n i comps fuel buf post :
  fs_ok (files s) n → path_to (files s) i comps → (length comps < fuel)%nat → zlen buf = zlen (render comps) →
  cwd_write fuel i (zlen (render comps)) (buf ++ post) s = Ok (render comps ++ post, s).
Proof.
  intros Hok Hp. revert fuel buf post. induction Hp as [|i nd comps nm Hi Hu Hne Hp IH Hnm]; intros fuel buf post Hf Hb;
    (destruct fuel as [|fuel]; [lia|]); cbn [cwd_write].
  - unfold render, zlen in *. simpl in Hb. destruct buf; [done|]. simpl in Hb. lia.
  - rewrite (proj2 (Z.eqb_neq i 0)) by done. rewrite (bind_ok _ _ _ _ _ (get_file_ok i nd s Hi)).
    destruct (used_node _ n i nd Hok Hi Hu) as [Hr Hno]. pose proof (name_short _ _ _ _ Hno Hnm) as Hsh.
    rewrite (lift_ok _ _ _ _ (strlen_spec _ nm Hnm ltac:(unfold zlen; lia))).
    rewrite render_snoc in *. rewrite zlen_app in *.
    assert (zlen (47 :: nm) = 1 + zlen nm) as E1 by (unfold zlen; cbn [length]; lia). rewrite E1 in *.
    pose proof (zlen_nonneg (render comps)) as Hnn.
    set (b0 := take (length (render comps)) buf). set (b1 := drop (length (render comps)) buf).
    assert (buf = b0 ++ b1) as Eb by (symmetry; apply take_drop).
    assert (length b0 = length (render comps)) as Hl0 by (unfold b0; rewrite length_take; unfold zlen in *; lia).
    assert (∃ x b2, b1 = x :: b2 ∧ length b2 = length nm) as (x & b2 & Eb1 & Hl2).
    { assert (length b1 = S (length nm)) as Hl1 by (unfold b1; rewrite length_drop; unfold zlen in *; lia).
      destruct b1 as [|x b2]; [done|]. exists x, b2. simpl in Hl1. split; [done|lia]. }
    rewrite Eb, Eb1.
    replace (zlen (render comps) + (1 + zlen nm) - zlen nm) with (zlen (b0 ++ [x])) by (rewrite zlen_app; unfold zlen in *; simpl; lia).
    assert (take (Z.to_nat (zlen nm)) (n_name nd) = nm) as ->.
    { destruct Hnm as [_ [t ->]]. unfold zlen. by rewrite Nat2Z.id, take_app_length. }
    replace ((b0 ++ x :: b2) ++ post) with ((b0 ++ [x]) ++ b2 ++ post) by by rewrite <- !app_assoc.
    rewrite (lift_ok _ _ _ _ (put_bytes_app _ b2 post nm Hl2)).
    replace (zlen (b0 ++ [x]) - 1) with (zlen b0) by (rewrite zlen_app; unfold zlen; simpl; lia).
    replace ((b0 ++ [x]) ++ nm ++ post) with (b0 ++ [x] ++ nm ++ post) by by rewrite <- !app_assoc.
    rewrite (lift_ok _ _ _ _ (put_bytes_app b0 [x] (nm ++ post) [47] eq_refl)).
    replace (zlen b0) with (zlen (render comps)) by (unfold zlen; lia).
    rewrite length_app in Hf. simpl in Hf. rewrite IH by (unfold zlen; lia). by rewrite <- !app_assoc.
Qed.

(** The text of a working directory. *)
Definition cwd_text (comps : list (list Z)) : list Z := match comps with [] => [47] | _ => render comps end.

Lemma getcwd_spec s n pf comps buf sz :
  fs_ok (files s) n → current_proc s = Some pf → path_to (files s) (cwd_inode pf) comps →
  zlen (cwd_text comps) < sz ≤ zlen buf →
  ∃ b, ramfs_getcwd (Some buf) sz s = Ok (Some b, s) ∧ cstring b (cwd_text comps).
Proof.
  intros Hok Hcp Hp Hsz. unfold ramfs_getcwd.
  rewrite (bind_ok _ _ s _ s (eq_refl : gets current_proc s = Ok (current_proc s, s))), Hcp.
  pose proof (zlen_nonneg (cwd_text comps)). rewrite (proj2 (Z.eqb_neq sz 0)) by lia.
  destruct (decide (cwd_inode pf = 0)) as [E0|Hne].
  - rewrite E0 in *. simpl. assert (comps = []) as ->.
    { destruct (path_range _ n _ _ Hok Hp) as [_ Hl]. destruct comps; [done|]. simpl in Hl. lia. }
    simpl in Hsz. assert (zlen [47] = 1) as E1 by done. rewrite E1 in Hsz.
    rewrite (proj2 (Z.ltb_ge sz 2)) by lia.
    rewrite (lift_ok _ _ _ _ (put_spec buf [47; 0] ltac:(unfold zlen in *; simpl; lia))).
    eexists. split; [done|]. split; [by repeat constructor|by eexists].
  - rewrite (proj2 (Z.eqb_neq _ 0) Hne). destruct (path_range _ n _ _ Hok Hp) as [Hr Hl].
    assert (comps ≠ []) as Hcn by (intros ->; by inversion Hp; [|destruct comps]).
    assert (cwd_text comps = render comps) as Ect by by destruct comps. rewrite Ect in *.
    pose proof (fo_n _ n Hok) as Hn. unfold MAX_FILES in Hn.
    assert (length comps < S (Z.to_nat MAX_FILES))%nat as Hfuel by (unfold MAX_FILES; lia).
    rewrite (bind_ok _ _ _ _ _ (cwd_length_spec s n _ comps _ 0 sz Hok Hp Hfuel ltac:(lia))).
    rewrite decide_True by (right; lia). rewrite Z.add_0_l.
    set (b0 := take (length (render comps)) buf). set (b1 := drop (length (render comps)) buf).
    assert (buf = b0 ++ b1) as Eb by (symmetry; apply take_drop).
    assert (length b0 = length (render comps)) as Hl0 by (unfold b0; rewrite length_take; unfold zlen in *; lia).
    destruct b1 as [|x b2] eqn:Eb1.
    { exfalso. apply (f_equal length) in Eb1. unfold b1 in Eb1. rewrite length_drop in Eb1. simpl in Eb1. unfold zlen in *. lia. }
    rewrite Eb. pose proof (put_bytes_app b0 [x] b2 [0] eq_refl) as Hpb.
    assert (zlen b0 = zlen (render comps)) as Ez by (unfold zlen; lia). rewrite Ez in Hpb.
    change ([x] ++ b2) with (x :: b2) in Hpb. rewrite (lift_ok _ _ _ _ Hpb).
    rewrite (bind_ok _ _ _ _ _ (cwd_write_spec s n _ comps _ b0 ([0] ++ b2) Hok Hp Hfuel ltac:(unfold zlen; lia))).
    eexists. split; [done|]. split; [|by exists b2].
    apply render_chars. by eapply path_good.
Qed.
End getcwd.

(** ** Reading and writing *)

Section io.
  Context {A : Type} `{!Kmalloc A}.
  Implicit Types s : ramfs_st A.

(** [fd] is open on the regular file [i] through handle [h]. *)
Record opened s (fd h : Z) (f : file_t) (i : Z) (nd : ramfs_node) (b : list Z) : Prop := {
  op_proc : ∃ pf, current_proc s = Some pf ∧ zlookup (fd_table pf) fd = Some (Some h);
  op_fd : 0 ≤ fd < MAX_FD;
  op_handle : zlookup (global_file_table s) h = Some f;
  op_node : f_node f = Some i;
  op_file : zlookup (files s) i = Some nd;
  op_type : n_type nd = RAMFS_TYPE_FILE;
  op_content : n_content nd ≠ 0 ∧ contents s !! n_content nd = Some b
}.

Lemma get_handle_ok h f s : zlookup (global_file_table s) h = Some f → get_handle h s = Ok (f, s).
Proof. intros H. unfold get_handle, gets, or_crash. cbv [mbind M_bind]. by rewrite H. Qed.
Lemma put_handle_ok h f f0 s :
  zlookup (global_file_table s) h = Some f0 → put_handle h f s = Ok (tt, set_gft (zinsert h f (global_file_table s)) s).
Proof. intros H. unfold put_handle, gets, or_crash, modify. cbv [mbind M_bind]. by rewrite H. Qed.
Lemma deref_node_ok f i nd s : f_node f = Some i → zlookup (files s) i = Some nd → deref_node f s = Ok ((i, nd), s).
Proof.
  intros Hf Hi. unfold deref_node. rewrite Hf. rewrite (bind_ok _ _ s i s eq_refl).
  by rewrite (bind_ok _ _ _ _ _ (get_file_ok i nd s Hi)).
Qed.
Lemma get_content_ok p b s : contents s !! p = Some b → get_content p s = Ok (b, s).
Proof. intros H. unfold get_content, gets, or_crash. cbv [mbind M_bind]. by rewrite H. Qed.
Lemma put_content_ok p b b0 s :
  contents s !! p = Some b0 → put_content p b s = Ok (tt, set_contents (<[p := b]> (contents s)) s).
Proof. intros H. unfold put_content, gets, or_crash, modify. cbv [mbind M_bind]. by rewrite H. Qed.

Lemma fd_handle_ok s fd h f i nd b : opened s fd h f i nd b → fd_handle fd s = Ok (Some h, s).
Proof.
  intros [(pf & Hpf & Hfd) Hr _ _ _ _ _]. unfold fd_handle, get_cur_fd_table, gets. cbv [mbind M_bind mret M_ret].
  rewrite Hpf. simpl. rewrite (proj2 (Z.ltb_ge fd 0)), (proj2 (Z.leb_gt MAX_FD fd)) by lia. simpl.
  unfold or_crash. by rewrite Hfd.
Qed.

(** The state after writing [data] at the offset of [f]. *)
Definition written s (h : Z) (f : file_t) (i : Z) (nd : ramfs_node) (b data : list Z) : ramfs_st A :=
  let off := f_offset f + zlen data in
  let s1 := set_gft (zinsert h (FileT (Some i) off (f_ref_count f)) (global_file_table s))
              (set_contents (<[n_content nd := splice b (f_offset f) data]> (contents s)) s) in
  if n_size nd <? off then set_files (zinsert i (with_size off nd) (files s)) s1 else s1.

Lemma write_spec s fd h f i nd b data :
  opened s fd h f i nd b → 0 < zlen data → 0 ≤ f_offset f → f_offset f + zlen data ≤ 4096 ≤ zlen b →
  ramfs_write fd data (zlen data) s = Ok (zlen data, written s h f i nd b data).
Proof.
  intros Hop Hd Ho Hb. unfold ramfs_write. rewrite (bind_ok _ _ _ _ _ (fd_handle_ok _ _ _ _ _ _ _ Hop)).
  destruct Hop as [_ _ Hh Hn Hf Ht [Hc0 Hc]]. rewrite (bind_ok _ _ _ _ _ (get_handle_ok _ _ _ Hh)).
  rewrite (bind_ok _ _ _ _ _ (deref_node_ok f i nd s Hn Hf)). cbn [fst snd]. rewrite Ht. cbn [Z.eqb].
  change (RAMFS_TYPE_FILE =? RAMFS_TYPE_DIR) with false. cbv iota zeta.
  rewrite (u64_small (zlen data)), (u64_small (f_offset f + zlen data)) by lia.
  rewrite (proj2 (Z.ltb_ge 4096 (f_offset f + zlen data))) by lia. rewrite (proj2 (Z.ltb_lt 0 (zlen data))) by lia.
  rewrite (u64_small (f_offset f + zlen data)) by lia.
  rewrite (proj2 (Z.eqb_neq _ _) Hc0). cbn [negb andb].
  rewrite (bind_ok _ _ _ _ _ (get_content_ok _ _ _ Hc)).
  rewrite (proj2 (Z.leb_le _ (zlen b))) by lia. rewrite (Z.leb_refl (zlen data)). cbn [andb].
  rewrite (bind_ok _ _ s tt s eq_refl). rewrite (bind_ok _ _ _ _ _ (put_content_ok _ _ _ s Hc)).
  assert (take (Z.to_nat (zlen data)) data = data) as -> by (apply take_ge; unfold zlen; lia).
  rewrite (bind_ok _ _ _ _ _ (put_handle_ok h _ f (set_contents _ s) Hh)). rewrite Hn. unfold written.
  destruct (n_size nd <? f_offset f + zlen data); [|done].
  match goal with |- (update_file ?i ?g ≫= ?k) ?s1 = _ =>
    assert (update_file i g s1 = Ok (tt, set_files (zinsert i (g nd) (files s)) s1)) as E end.
  { unfold update_file. erewrite bind_ok by (by apply (get_file_ok i nd)).
    by rewrite (put_file_ok i _ nd). }
  by rewrite (bind_ok _ _ _ _ _ E).
Qed.

Lemma read_spec s fd h f i nd b count :
  opened s fd h f i nd b → 0 ≤ f_offset f → f_offset f + count ≤ n_size nd → 0 < count → n_size nd ≤ zlen b → n_size nd < 2 ^ 31 →
  ramfs_read fd count s = Ok ((count, take (Z.to_nat count) (drop (Z.to_nat (f_offset f)) b)),
    set_gft (zinsert h (FileT (Some i) (f_offset f + count) (f_ref_count f)) (global_file_table s)) s).
Proof.
  intros Hop Ho Hs Hc Hb Hn31. unfold ramfs_read. rewrite (bind_ok _ _ _ _ _ (fd_handle_ok _ _ _ _ _ _ _ Hop)).
  destruct Hop as [_ _ Hh Hn Hf Ht [Hc0 Hct]]. rewrite (bind_ok _ _ _ _ _ (get_handle_ok _ _ _ Hh)).
  rewrite (bind_ok _ _ _ _ _ (deref_node_ok f i nd s Hn Hf)). cbn [fst snd]. rewrite Ht.
  change (RAMFS_TYPE_FILE =? RAMFS_TYPE_DIR) with false. cbv iota zeta.
  rewrite (proj2 (Z.leb_gt (n_size nd) _)) by lia.
  rewrite (u64_small count), (u64_small (f_offset f + count)) by lia.
  rewrite (proj2 (Z.ltb_ge (n_size nd) (f_offset f + count))) by lia. rewrite (proj2 (Z.ltb_lt 0 count)) by lia.
  rewrite (u64_small (f_offset f + count)) by lia.
  rewrite (bind_ok _ _ _ _ _ (get_content_ok _ _ _ Hct)). rewrite (proj2 (Z.leb_le _ (zlen b))) by lia.
  rewrite (bind_ok _ _ s _ s eq_refl). rewrite (bind_ok _ _ _ _ _ (put_handle_ok h _ f s Hh)). by rewrite Hn.
Qed.

(** A read with a negative count at offset 0 takes the whole file. *)
Lemma read_negative_spec s fd h f i nd b count :
  opened s fd h f i nd b → f_offset f = 0 → count < 0 → - 2 ^ 31 ≤ count → 0 < n_size nd ≤ zlen b → n_size nd < 2 ^ 31 →
  ∃ s', ramfs_read fd count s = Ok ((n_size nd, take (Z.to_nat (n_size nd)) b), s').
Proof.
  intros Hop Ho Hc Hc' Hs Hb. unfold ramfs_read. rewrite (bind_ok _ _ _ _ _ (fd_handle_ok _ _ _ _ _ _ _ Hop)).
  destruct Hop as [_ _ Hh Hn Hf Ht [Hc0 Hct]]. rewrite (bind_ok _ _ _ _ _ (get_handle_ok _ _ _ Hh)).
  rewrite (bind_ok _ _ _ _ _ (deref_node_ok f i nd s Hn Hf)). cbn [fst snd]. rewrite Ht, Ho.
  change (RAMFS_TYPE_FILE =? RAMFS_TYPE_DIR) with false. cbv iota zeta.
  rewrite (proj2 (Z.leb_gt (n_size nd) 0)) by lia.
  assert (u64 count = count + 2 ^ 64) as Eu.
  { unfold u64. rewrite <- (Z.mod_add count 1) by lia. rewrite Z.mul_1_l. apply Z.mod_small. lia. }
  rewrite Z.add_0_l, Eu, (u64_small (count + 2 ^ 64)) by lia. rewrite (proj2 (Z.ltb_lt (n_size nd) _)) by lia.
  rewrite Z.sub_0_r, (u64_small (n_size nd)), i32_small by lia. rewrite (proj2 (Z.ltb_lt 0 (n_size nd))) by lia.
  rewrite (bind_ok _ _ _ _ _ (get_content_ok _ _ _ Hct)). rewrite (proj2 (Z.leb_le _ (zlen b))) by lia.
  rewrite (bind_ok _ _ s _ s eq_refl). rewrite (bind_ok _ _ _ _ _ (put_handle_ok h _ f s Hh)). by eexists.
Qed.

(** ** Listing a directory *)

(** The entries of directory [p] with an index in [idxs]. *)
Definition entries_of (fs : list ramfs_node) (p : Z) (idxs : list Z) : list (Z * list Z) :=
  omap (λ i, nd ← zlookup fs i;
             if n_is_used nd && (n_parent_idx nd =? p) then Some (i, string_of nd) else None) idxs.

Lemma reclen_bounds l : 0 ≤ l ≤ 31 → 32 ≤ ALIGN_UP (sizeof_dirent + l + 1) 8 ≤ 56.
Proof.
  intros Hl. unfold sizeof_dirent. destruct (word_align_up (24 + l + 1)) as [Hm Hr]; [lia|lia|].
  Z.to_euclidean_division_equations; lia.
Qed.

Lemma getdents_loop_spec s n k i p count bpos ds :
  fs_ok (files s) n → i = MAX_FILES - Z.of_nat k → 0 ≤ i → bpos + 56 * Z.of_nat k ≤ count → 0 ≤ bpos →
  ∃ bpos' ds', getdents_loop k i p count bpos ds s = Ok ((MAX_FILES, bpos', ds ++ ds'), s)
    ∧ map (λ d, (d_ino d - 1, d_name d)) ds' = entries_of (files s) p (seqZ i (Z.of_nat k))
    ∧ bpos ≤ bpos' ≤ bpos + 56 * Z.of_nat k.
Proof.
  intros Hok. revert i bpos ds. induction k as [|k IH]; intros i bpos ds Ei Hi Hc Hb; cbn [getdents_loop].
  - exists bpos, []. rewrite app_nil_r. replace i with MAX_FILES by lia. split; [done|]. split; [done|lia].
  - destruct (fs_lookup _ n i Hok) as [nd Hnd]; [lia|]. rewrite (bind_ok _ _ _ _ _ (get_file_ok i nd s Hnd)).
    rewrite seqZ_cons by lia. replace (Z.pred (Z.of_nat (S k))) with (Z.of_nat k) by lia. replace (Z.succ i) with (i + 1) by lia.
    unfold entries_of. cbn [omap list_omap]. rewrite Hnd. cbn [mbind option_bind].
    destruct (n_is_used nd && (n_parent_idx nd =? p)) eqn:Hup.
    + apply andb_true_iff in Hup as [Hu _]. destruct (used_node _ n i nd Hok Hnd Hu) as [_ Hno].
      destruct (node_cstring _ _ _ Hno) as [nm Hnm]. pose proof (name_short _ _ _ _ Hno Hnm) as Hsh.
      rewrite (lift_ok _ _ _ _ (strlen_spec _ nm Hnm ltac:(unfold zlen; lia))). cbv zeta.
      pose proof (reclen_bounds (zlen nm) ltac:(unfold zlen; lia)) as Hrl.
      rewrite (proj2 (Z.ltb_ge count _)) by lia.
      rewrite (lift_ok _ _ _ _ (read_string_spec _ nm Hnm)).
      edestruct (IH (i + 1) (bpos + ALIGN_UP (sizeof_dirent + zlen nm + 1) 8)) as (bpos' & ds' & E & Hds & Hb');
        [lia|lia|lia|lia|]. rewrite E, <- app_assoc. eexists _, _. split; [done|]. simpl. rewrite Hds.
      split; [|lia]. f_equal. f_equal; [lia|]. unfold string_of. by rewrite (read_string_spec _ nm Hnm).
    + destruct (IH (i + 1) bpos ds) as (bpos' & ds' & E & Hds & Hb'); [lia|lia|lia|lia|].
      exists bpos', ds'. split; [done|]. split; [exact Hds|lia].
Qed.
End io.

(** ** Opening *)

Section open.
  Context {A : Type} `{!Kmalloc A}.
  Implicit Types s : ramfs_st A.

(** A free handle, and a free descriptor of the current process. *)
Definition has_handle s : Prop := zlen (global_file_table s) = MAX_SYSTEM_OPEN_FILES ∧
  ∃ h f, zlookup (global_file_table s) h = Some f ∧ f_ref_count f = 0.
Definition has_fd (pf : proc_files) : Prop := zlen (fd_table pf) = MAX_FD ∧
  ∃ fd, 3 ≤ fd < MAX_FD ∧ zlookup (fd_table pf) fd = Some None.

Lemma alloc_file_handle_spec s :
  has_handle s →
  ∃ h f, zlookup (global_file_table s) h = Some f ∧ f_ref_count f = 0
    ∧ alloc_file_handle s = Ok (Some h, set_gft (zinsert h (FileT None 0 1) (global_file_table s)) s).
Proof.
  intros (Hlen & h0 & f0 & Hh0 & Hr0). pose proof (zlookup_Some _ _ _ Hh0) as Hrange. unfold alloc_file_handle.
  assert (∀ k i, i = MAX_SYSTEM_OPEN_FILES - Z.of_nat k → 0 ≤ i ≤ h0 →
    ∃ h f, zlookup (global_file_table s) h = Some f ∧ f_ref_count f = 0
      ∧ alloc_file_handle_loop k i s = Ok (Some h, set_gft (zinsert h (FileT None 0 1) (global_file_table s)) s)) as H.
  { induction k as [|k IH]; intros i Ei Hi; cbn [alloc_file_handle_loop]; [lia|].
    destruct (zlookup_is_Some (global_file_table s) i) as [f Hf]; [lia|].
    destruct (Z.eqb_spec (f_ref_count f) 0) as [Hz|Hz].
    - exists i, f. split; [done|]. split; [done|]. rewrite (bind_ok _ _ _ _ _ (get_handle_ok _ _ _ Hf)).
      rewrite (proj2 (Z.eqb_eq _ _) Hz). by rewrite (bind_ok _ _ _ _ _ (put_handle_ok i _ f s Hf)).
    - destruct (IH (i + 1)) as (h & f' & Hh & Hr & E); [lia|split; [lia|]|].
      + assert (i ≠ h0) by congruence. lia.
      + exists h, f'. split; [done|]. split; [done|]. rewrite (bind_ok _ _ _ _ _ (get_handle_ok _ _ _ Hf)).
        by rewrite (proj2 (Z.eqb_neq _ _) Hz). }
  apply H; [unfold MAX_SYSTEM_OPEN_FILES; lia|lia].
Qed.

Lemma find_fd_spec pf :
  has_fd pf → ∃ fd, find_fd (Z.to_nat (MAX_FD - 3)) 3 (fd_table pf) = Some fd ∧ 3 ≤ fd < MAX_FD
    ∧ zlookup (fd_table pf) fd = Some None.
Proof.
  intros (Hlen & fd0 & Hr0 & Hf0).
  assert (∀ k i, i = MAX_FD - Z.of_nat k → 3 ≤ i ≤ fd0 →
    ∃ fd, find_fd k i (fd_table pf) = Some fd ∧ 3 ≤ fd < MAX_FD ∧ zlookup (fd_table pf) fd = Some None) as H.
  { induction k as [|k IH]; intros i Ei Hi; cbn [find_fd]; [lia|].
    destruct (zlookup (fd_table pf) i) as [[h|]|] eqn:E.
    - apply IH; [lia|]. assert (i ≠ fd0) by congruence. lia.
    - exists i. split; [done|]. split; [lia|done].
    - exfalso. destruct (zlookup_is_Some (fd_table pf) i) as [x Hx]; [lia|]. congruence. }
  apply H; [unfold MAX_FD; lia|lia].
Qed.

(** The second half of [ramfs_open], on a node that exists. *)
Definition open_node (inode : Z) : M (ramfs_st A) Z :=
  file ← alloc_file_handle;
  match file with
  | None => mret (-1)
  | Some h =>
    f ← get_handle h;
    put_handle h (FileT (Some inode) 0 (f_ref_count f));;
    fds ← get_cur_fd_table;
    match fds with
    | None => free_file_handle h;; mret (-1)
    | Some fds =>
      match find_fd (Z.to_nat (MAX_FD - 3)) 3 fds with
      | Some i => set_fd i (Some h);; mret i
      | None => free_file_handle h;; mret (-1)
      end
    end
  end.

Lemma get_cur_fd_table_ok s pf : current_proc s = Some pf → get_cur_fd_table s = Ok (Some (fd_table pf), s).
Proof. intros H. unfold get_cur_fd_table, gets. cbv [mbind M_bind mret M_ret]. by rewrite H. Qed.

Lemma set_fd_ok s pf fd v old :
  current_proc s = Some pf → zlookup (fd_table pf) fd = Some old →
  set_fd fd v s = Ok (tt, set_current (Some (ProcFiles (cwd_inode pf) (zinsert fd v (fd_table pf)))) s).
Proof.
  intros H Hl. unfold set_fd, gets, modify, or_crash. cbv [mbind M_bind mret M_ret]. rewrite H, Hl. done.
Qed.

Lemma open_node_spec s i pf :
  current_proc s = Some pf → has_handle s → has_fd pf →
  ∃ fd h f0, zlookup (global_file_table s) h = Some f0 ∧ f_ref_count f0 = 0 ∧ 3 ≤ fd < MAX_FD
    ∧ zlookup (fd_table pf) fd = Some None
    ∧ open_node i s = Ok (fd,
        set_current (Some (ProcFiles (cwd_inode pf) (zinsert fd (Some h) (fd_table pf))))
          (set_gft (zinsert h (FileT (Some i) 0 1) (global_file_table s)) s)).
Proof.
  intros Hpf Hh Hfd. destruct (alloc_file_handle_spec s Hh) as (h & f & Hlh & Hr & E).
  destruct (find_fd_spec pf Hfd) as (fd & Efd & Hfr & Hfn). exists fd, h, f. do 4 (split; [done|]).
  pose proof (zlookup_Some _ _ _ Hlh) as Hhr.
  unfold open_node. rewrite (bind_ok _ _ _ _ _ E). set (s1 := set_gft _ s).
  assert (zlookup (global_file_table s1) h = Some (FileT None 0 1)) as Hl1 by by apply zlookup_zinsert_eq.
  rewrite (bind_ok _ _ _ _ _ (get_handle_ok _ _ _ Hl1)). cbn [f_ref_count].
  rewrite (bind_ok _ _ _ _ _ (put_handle_ok h _ _ s1 Hl1)).
  set (s2 := set_gft _ s1). assert (current_proc s2 = Some pf) as Hpf2 by exact Hpf.
  rewrite (bind_ok _ _ _ _ _ (get_cur_fd_table_ok s2 pf Hpf2)), Efd.
  rewrite (bind_ok _ _ _ _ _ (set_fd_ok s2 pf fd (Some h) None Hpf2 Hfn)). unfold s2, s1.
  change (global_file_table (set_gft ?g s)) with g. rewrite zinsert_zinsert. done.
Qed.

Definition file_node (n p : Z) (w : list Z) (a : Z) : ramfs_node := RamfsNode (name_buf w) a 0 true RAMFS_TYPE_FILE p n.

Lemma create_file_spec s n p w junk a h' :
  fs_ok (files s) n → n < MAX_FILES → good_name w → (length w ≤ 31)%nat → length junk = 4096%nat →
  kmalloc 4096 (heap s) = Ok (a, h') → a ≠ 0 →
  create_file (name_buf w) p junk s =
    Ok (n, set_contents (<[a := replicate 4096 0]> (contents s))
         (set_files (zinsert n (file_node n p w a) (files s)) (set_heap h' s))).
Proof.
  intros Hok Hn Hw Hl Hj Hk Ha. unfold create_file. pose proof (alloc_inode_spec s n Hok) as E.
  rewrite decide_True in E by done. rewrite (bind_ok _ _ _ _ _ E). pose proof (fo_n _ n Hok).
  rewrite (proj2 (Z.eqb_neq n (-1))) by lia.
  assert (0 ≤ n < zlen (files s)) as Hnl by (rewrite (fo_len _ n Hok); lia).
  rewrite (bind_ok _ _ _ _ _ (set_name_new s (files s) n (fresh_node n) w Hnl
    ltac:(destruct Hw as (? & ? & _); by apply good_comp_chars) Hl eq_refl)).
  do 3 rewrite (bind_ok _ _ _ _ _ (update_file_new s (files s) n _ _ Hnl)).
  set (nd := with_size 0 _). set (s1 := set_files _ s).
  assert (kmalloc_object 4096 junk s1 = Ok (a, set_contents (<[a := junk]> (contents s)) (set_heap h' s1))) as Ek.
  { unfold kmalloc_object, zoom. cbv [mbind M_bind]. change (heap s1) with (heap s). rewrite Hk.
    by rewrite (proj2 (Z.eqb_neq a 0) Ha). }
  rewrite (bind_ok _ _ _ _ _ Ek).
  change (set_contents ?c (set_heap ?h s1)) with (set_files (zinsert n nd (files s)) (set_contents c (set_heap h s))).
  rewrite (bind_ok _ _ _ _ _ (update_file_new _ (files s) n _ _ Hnl)). set (s2 := set_files _ _).
  assert (contents s2 !! a = Some junk) as Hc by apply lookup_insert_eq.
  rewrite (bind_ok _ _ _ _ _ (get_content_ok _ _ _ Hc)).
  pose proof (memset_spec junk 0 4096) as Em. rewrite decide_True in Em by lia. rewrite drop_ge, app_nil_r in Em by lia.
  rewrite (lift_ok _ _ _ _ Em), (bind_ok _ _ _ _ _ (put_content_ok a _ junk s2 Hc)).
  change (u8 0) with 0. unfold s2. simpl contents. by rewrite insert_insert_eq.
Qed.
End open.

(** * Properties *)

Section properties.
  Context {A : Type} `{!Kmalloc A}.
  Implicit Types s : ramfs_st A.

(** C25: [ramfs_mkdir] on any path whose components fit a name, 31 characters, does not
    fault (a longer component overruns the name buffer).  It
    returns 0 exactly when the path names a missing entry of an existing directory
    and a node is free; then the tree is still well formed, every other node is
    unchanged, and looking the same path up now finds the new directory.
    Otherwise it returns -1 and changes nothing. *)
Theorem ramfs_mkdir_creates s n path l :
  fs_ok (files s) n → path_ok s path l →
  ∃ ret s', ramfs_mkdir (Some path) s = Ok (ret, s') ∧
    ((ret = -1 ∧ s' = s ∧
        (n = MAX_FILES ∨ ∃ r, lookup s l true = Some r ∧ (0 ≤ r_inode r ∨ r_parent r = None)))
     ∨ (ret = 0 ∧ fs_ok (files s') (n + 1) ∧ is_dir (files s') n
        ∧ (∃ r, resolve_path (Some path) false s' = Ok (r, s') ∧ r_inode r = n)
        ∧ s' = set_files (files s') s ∧ ∀ i, i ≠ n → zlookup (files s') i = zlookup (files s) i)).
Proof.
  intros Hok Hp. destruct (resolve_path_ok s n path l true Hok Hp) as (r & Hr & _).
  destruct (mkdir_spec s n path l r Hok Hp Hr) as (ret & s' & E & Hcase). exists ret, s'. split; [done|].
  destruct Hcase as [(-> & -> & Hwhy)|(-> & Hn & p & w & -> & Hpd & Hw & Hl & Hc & ->)].
  - left. split; [done|]. split; [done|]. destruct Hwhy as [H|[->|H]]; [right; exists r; auto|right; eexists; simpl; eauto|by left].
  - right. split; [done|]. simpl.
    assert (Hcr := λ H, create_fs_ok (files s) n p w (dir_node n p w) Hok Hn Hpd Hw Hl Hc eq_refl eq_refl eq_refl eq_refl H).
    specialize (Hcr ltac:(by right)). split; [done|]. split.
    { exists (dir_node n p w). split; [|done]. apply zlookup_zinsert_eq. rewrite (fo_len _ n Hok). pose proof (fo_n _ n Hok). lia. }
    split; [|split; [done|intros i Hi; by apply zlookup_zinsert_ne]].
    destruct Hp as (Hcs & Hlen & Hd & Ht).
    assert (lookup_spec (files s) (path_start s l) (tokens (take 127 (path_text l))) true = Some (Resolved (-1) (Some p) (Some (name_buf w)))) as Hlk by done.
    eapply (lookup_after_create (files s) n p w (dir_node n p w)) in Hlk; try done; [|by right|by eapply path_tokens_good].
    apply lookup_spec_outs in Hlk as (r' & Hr' & Hi). exists r'. split; [|done].
    rewrite (resolve_path_spec path l false _ (n + 1)); [|done| |done|done].
    + change (path_start (set_files (zinsert n (dir_node n p w) (files s)) s) l) with (path_start s l). simpl. by rewrite Hr'.
    + eapply (create_dir (files s) n p w (dir_node n p w)); try done. by right.
Qed.

(** C24: opening a missing file with [O_CREAT] (a node, a handle, a descriptor and
    a page of heap being available) creates it: the tree stays well formed, the
    path now resolves to the new node, and the descriptor returned is open on it
    at offset 0, empty, with a cleared page of content that no other file has. *)
Theorem ramfs_open_creates s n pf path l flags junk p w :
  fs_ok (files s) n → n < MAX_FILES → path_ok s path l → lookup s l true = Some (Resolved (-1) (Some p) (Some (name_buf w))) →
  current_proc s = Some pf → has_handle s → has_fd pf → Z.land flags O_CREAT ≠ 0 → length junk = 4096%nat →
  km_ok (dom (contents s)) (heap s) → wp (kmalloc 4096) (heap s) (λ a _, a ≠ 0) →
  ∃ fd h nd s', ramfs_open (Some path) flags junk s = Ok (fd, s')
    ∧ fs_ok (files s') (n + 1)
    ∧ (∃ r, resolve_path (Some path) false s' = Ok (r, s') ∧ r_inode r = n)
    ∧ opened s' fd h (FileT (Some n) 0 1) n nd (replicate 4096 0) ∧ n_size nd = 0
    ∧ (n_content nd ∉ dom (contents s)) ∧ contents s' = <[n_content nd := replicate 4096 0]> (contents s)
    ∧ km_ok (dom (contents s')) (heap s').
Proof.
  intros Hok Hn Hp Hr Hpf Hh Hfd Hfl Hj Hkm Hroom. unfold wp in Hroom.
  destruct (kmalloc 4096 (heap s)) as [[a h']|c] eqn:Hk; [|done]. rename Hroom into Ha.
  destruct (kmalloc_spec 4096 _ _ _ _ Hkm ltac:(lia) Hk) as [[? _]|(Ha0 & Hnew & Hkm')]; [done|].
  destruct (resolve_path_ok s n path l true Hok Hp) as (r & Hr' & E). rewrite Hr in Hr'. injection Hr' as <-.
  pose proof Hp as (Hcs & Hlen & Hd & Ht).
  destruct (lookup_spec_sound _ n _ _ _ Hok Hd (path_tokens_good path l Hcs) Hr) as [(nd & Hnd & _)|[[=]|(p' & w' & [= <- Hb] & Hpd & Hw & Hl & Hc)]].
  { apply zlookup_Some in Hnd. simpl in Hnd. lia. }
  assert (chars_ok w') as Hw'c by (destruct Hw as (? & ? & _); by apply good_comp_chars).
  rewrite Hb in *. clear Hb w. rename w' into w.
  assert (Hcr := λ H, create_fs_ok (files s) n p w (file_node n p w a) Hok Hn Hpd Hw Hl Hc eq_refl eq_refl eq_refl eq_refl H).
  specialize (Hcr ltac:(by left)).
  pose proof (create_file_spec s n p w junk a h' Hok Hn Hw Hl Hj Hk Ha) as Ec. set (s1 := set_contents _ _) in Ec.
  destruct (open_node_spec s1 n pf Hpf Hh Hfd) as (fd & h & f0 & Hh0 & _ & Hfr & Hfn & Eo).
  set (s2 := set_current _ _) in Eo. exists fd, h, (file_node n p w a), s2. split.
  { unfold ramfs_open. rewrite (bind_ok _ _ _ _ _ E). cbn [r_inode r_parent r_name from_option id].
    change (-1 =? -1) with true. rewrite (proj2 (Z.eqb_neq _ _) Hfl). cbn [andb negb].
    pose proof (dir_range _ n p Hok Hpd). rewrite (proj2 (Z.eqb_neq p (-1))) by lia.
    rewrite (bind_ok _ _ _ _ _ Ec). pose proof (fo_n _ n Hok). rewrite (proj2 (Z.eqb_neq n (-1))) by lia. exact Eo. }
  split; [done|]. split; [|split; [|split; [done|]]].
  - assert (lookup_spec (files s) (path_start s l) (tokens (take 127 (path_text l))) true = Some (Resolved (-1) (Some p) (Some (name_buf w)))) as Hlk by done.
    eapply (lookup_after_create (files s) n p w (file_node n p w a)) in Hlk; try done; [|by left|by eapply path_tokens_good].
    apply lookup_spec_outs in Hlk as (r' & Hr' & Hi). exists r'. split; [|done].
    assert (path_start s2 l = path_start s l) as Eps by (unfold path_start; simpl; by rewrite Hpf).
    rewrite (resolve_path_spec path l false _ (n + 1)); [|done| |done|done]; rewrite Eps.
    + simpl. by rewrite Hr'.
    + eapply (create_dir (files s) n p w (file_node n p w a)); try done. by left.
  - pose proof (zlookup_Some _ _ _ Hh0) as Hhr. pose proof (zlookup_Some _ _ _ Hfn) as Hfnr.
    constructor; try done.
    + eexists. split; [done|]. by apply zlookup_zinsert_eq.
    + lia.
    + by apply zlookup_zinsert_eq.
    + apply zlookup_zinsert_eq. rewrite (fo_len _ n Hok). pose proof (fo_n _ n Hok). lia.
    + split; [done|]. apply lookup_insert_eq.
  - split; [exact Hnew|]. split; [done|]. simpl. by rewrite dom_insert_L.
Qed.

Lemma path_to_nil fs i : path_to fs i [] → i = 0.
Proof.
  intros H. remember (@nil (list Z)) as cs eqn:E. destruct H as [|? ? ? ? ? ? ? ? ?]; [done|]. by apply app_nil in E as [_ [=]].
Qed.

(** C21: [ramfs_getcwd] and path lookup are inverse.  Every directory has a path of
    components from the root, and for the working directory [comps] leads to, a
    buffer with room receives [/] and the components separated by slashes; that
    text resolves, from anywhere, back to the same directory (a lookup keeps 127
    characters after the slash). *)
Theorem ramfs_getcwd_resolves s n pf :
  fs_ok (files s) n → current_proc s = Some pf → is_dir (files s) (cwd_inode pf) →
  ∃ comps, path_to (files s) (cwd_inode pf) comps
    ∧ (∀ buf size, zlen (cwd_text comps) < size ≤ zlen buf →
        ∃ b, ramfs_getcwd (Some buf) size s = Ok (Some b, s) ∧ cstring b (cwd_text comps))
    ∧ (zlen (cwd_text comps) ≤ 128 → ∀ b s', files s' = files s → cstring b (cwd_text comps) →
        ∃ r, resolve_path (Some b) false s' = Ok (r, s') ∧ r_inode r = cwd_inode pf).
Proof.
  intros Hok Hpf Hd. destruct (Hd) as (nd & Hi & Hu & _).
  destruct (path_exists _ n _ nd Hok Hi Hu) as [comps Hpath].
  exists comps. split; [done|]. split.
  - intros buf sz Hsz. by apply (getcwd_spec s n pf comps).
  - intros H128 b s' Hfs Hb. rewrite <- Hfs in Hok, Hpath, Hd.
    assert (is_dir (files s') 0) as Hroot.
    { destruct (fs_lookup _ n 0 Hok) as [rd Hrd]; [unfold MAX_FILES; lia|]. pose proof (fo_n _ n Hok).
      destruct (fo_node _ n Hok 0 rd Hrd ltac:(lia)) as [_ _ _ Hr _ _]. destruct (Hr eq_refl) as (_ & Ht & _).
      exists rd. split; [done|]. split; [|done]. rewrite (fo_used _ n Hok _ _ Hrd). apply bool_decide_eq_true_2. lia. }
    destruct comps as [|c cs].
    + apply path_to_nil in Hpath as ->.
      rewrite (resolve_path_spec b [47] false s' n) by (by unfold zlen in *; simpl in *). by eexists.
    + assert (∃ t, cwd_text (c :: cs) = 47 :: t ∧ t = tl (render (c :: cs))) as (t & Et & Ett).
      { eexists. split; [|done]. done. }
      rewrite Et in *. rewrite (resolve_path_spec b (47 :: t) false s' n); [|done|done|done|unfold zlen in *; lia].
      change (path_start s' (47 :: t)) with 0. change (path_text (47 :: t)) with t.
      rewrite take_ge by (unfold zlen in *; cbn [length] in *; lia). rewrite Ett.
      rewrite (lookup_path (files s') n (cwd_inode pf) (c :: cs) Hok Hpath) by done. by eexists.
Qed.

(** C13: what is written is what is read: writing through one descriptor and
    reading the same number of bytes through another that stands at the offset of
    the write returns exactly the data; other objects are not touched. *)
Theorem ramfs_write_read s fd h f fd2 h2 f2 i nd b data :
  opened s fd h f i nd b → opened s fd2 h2 f2 i nd b → h ≠ h2 → f_offset f2 = f_offset f →
  0 < zlen data → 0 ≤ f_offset f → f_offset f + zlen data ≤ 4096 ≤ zlen b → 0 ≤ n_size nd ≤ zlen b → n_size nd < 2 ^ 31 →
  ∃ s1 s2, ramfs_write fd data (zlen data) s = Ok (zlen data, s1)
    ∧ ramfs_read fd2 (zlen data) s1 = Ok ((zlen data, data), s2)
    ∧ ∀ p, p ≠ n_content nd → contents s1 !! p = contents s !! p.
Proof.
  intros Hop Hop2 Hne Hoff Hd Ho Hb Hs Hs31. pose proof (write_spec s fd h f i nd b data Hop Hd Ho Hb) as E.
  set (off := f_offset f + zlen data) in *.
  set (nd' := if n_size nd <? off then with_size off nd else nd).
  set (b' := splice b (f_offset f) data).
  destruct Hop as [_ _ Hh Hn Hf Ht [Hc0 Hc]]. destruct Hop2 as [Hproc Hfd2 Hh2 Hn2 _ _ _].
  assert (zlen b' = zlen b) as Hlb.
  { unfold b', splice, zlen in *. rewrite !length_app, length_take, length_drop. lia. }
  assert (take (Z.to_nat (zlen data)) (drop (Z.to_nat (f_offset f)) b') = data) as Hdata.
  { unfold b', splice. rewrite drop_app_ge by (rewrite length_take; lia).
    rewrite length_take. replace (Z.to_nat (f_offset f) - _)%nat with 0%nat by (unfold zlen in *; lia).
    rewrite drop_0. unfold zlen. by rewrite Nat2Z.id, take_app_length. }
  assert (opened (written s h f i nd b data) fd2 h2 f2 i nd' b') as Hop2'.
  { unfold written, nd'. cbv zeta. fold off b'. destruct (n_size nd <? off) eqn:Hlt; constructor; simpl;
      try (by rewrite zlookup_zinsert_ne); try done; try (split; [done|apply lookup_insert_eq]).
    apply zlookup_zinsert_eq. by eapply zlookup_Some. }
  assert (n_size nd' = Z.max (n_size nd) off) as Hns.
  { unfold nd'. destruct (Z.ltb_spec (n_size nd) off); simpl; lia. }
  eexists _, _. split; [exact E|]. split.
  - rewrite (read_spec _ fd2 h2 f2 i nd' b' (zlen data) Hop2') by lia. by rewrite Hoff, Hdata.
  - intros p Hp. unfold written. destruct (n_size nd <? _); simpl; by rewrite lookup_insert_ne.
Qed.

(** A directory read from its start with room for 64 records lists exactly
    its children, each once, in index order, and leaves the descriptor at the end. *)
Theorem ramfs_getdents_lists s n pf fd h f i nd count :
  fs_ok (files s) n → current_proc s = Some pf → 0 ≤ fd < MAX_FD → zlookup (fd_table pf) fd = Some (Some h) →
  zlookup (global_file_table s) h = Some f → f_node f = Some i → f_offset f = 0 →
  zlookup (files s) i = Some nd → n_is_used nd = true → n_type nd = RAMFS_TYPE_DIR → 56 * MAX_FILES ≤ count →
  ∃ bpos ds, ramfs_getdents64 fd count s = Ok ((bpos, ds),
      set_gft (zinsert h (FileT (Some i) MAX_FILES (f_ref_count f)) (global_file_table s)) s)
    ∧ map (λ d, (d_ino d - 1, d_name d)) ds = entries_of (files s) i (seqZ 0 MAX_FILES)
    ∧ 0 ≤ bpos ≤ count.
Proof.
  intros Hok Hpf Hfd Hfdt Hh Hn Ho Hi Hu Ht Hc.
  destruct (used_node _ n i nd Hok Hi Hu) as [Hir Hno].
  destruct (getdents_loop_spec s n (Z.to_nat MAX_FILES) 0 i count 0 [] Hok) as (bpos & ds & E & Hds & Hb); [done|lia|unfold MAX_FILES in *; lia|lia|].
  exists bpos, ds. split; [|split; [exact Hds|unfold MAX_FILES in *; lia]].
  unfold ramfs_getdents64. assert (fd_handle fd s = Ok (Some h, s)) as Efd.
  { unfold fd_handle, get_cur_fd_table, gets. cbv [mbind M_bind mret M_ret]. rewrite Hpf. simpl.
    rewrite (proj2 (Z.ltb_ge fd 0)), (proj2 (Z.leb_gt MAX_FD fd)) by lia. simpl. unfold or_crash. by rewrite Hfdt. }
  rewrite (bind_ok _ _ _ _ _ Efd), (bind_ok _ _ _ _ _ (get_handle_ok _ _ _ Hh)).
  rewrite (bind_ok _ _ _ _ _ (deref_node_ok f i nd s Hn Hi)). cbn [fst snd]. rewrite Ht, Ho, (no_inode _ _ _ Hno).
  change (negb (RAMFS_TYPE_DIR =? RAMFS_TYPE_DIR)) with false. cbv iota zeta.
  change (i32 0) with 0. change (Z.to_nat (MAX_FILES - 0)) with (Z.to_nat MAX_FILES).
  rewrite (bind_ok _ _ _ _ _ E), (bind_ok _ _ _ _ _ (put_handle_ok h _ f s Hh)). by rewrite Hn.
Qed.

(** A negative count defeats the bound of [ramfs_read]: at offset 0 the whole
    file is copied into the caller's buffer, whatever its size. *)
Theorem ramfs_read_negative_count s fd h f i nd b count :
  opened s fd h f i nd b → f_offset f = 0 → - 2 ^ 31 ≤ count < 0 → 0 < n_size nd ≤ zlen b → n_size nd < 2 ^ 31 →
  ∃ s', ramfs_read fd count s = Ok ((n_size nd, take (Z.to_nat (n_size nd)) b), s').
Proof. intros. by eapply read_negative_spec; eauto; lia. Qed.
End properties.

(** * Checking a tree by computation *)

(** The string in a name field. *)
Definition name_of (b : list Z) : list Z := match read_string b with Ok l => l | Crash _ => [] end.
Definition terminated (b : list Z) : bool := match read_string b with Ok _ => true | Crash _ => false end.

Lemma read_string_cstring s l : read_string s = Ok l → cstring s l.
Proof.
  revert l. induction s as [|c s IH]; intros l; simpl; [done|]. destruct (Z.eqb_spec c 0) as [->|Hc].
  - intros [= <-]. apply cstring_nil.
  - destruct (read_string s) as [r|] eqn:E; [|done]. intros [= <-]. apply cstring_cons. auto.
Qed.

Lemma name_of_spec b : terminated b = true → cstring b (name_of b).
Proof.
  unfold terminated, name_of. destruct (read_string b) eqn:E; [|done]. intros _. by apply read_string_cstring.
Qed.

#[export] Instance good_name_dec nm : Decision (good_name nm).
Proof. unfold good_name. apply _. Defined.

Definition node_okb (fs : list ramfs_node) (i : Z) (nd : ramfs_node) : bool :=
  (n_inode_idx nd =? i) && ((n_type nd =? RAMFS_TYPE_FILE) || (n_type nd =? RAMFS_TYPE_DIR))
  && (length (n_name nd) =? 32)%nat && terminated (n_name nd)
  && if i =? 0 then bool_decide (name_of (n_name nd) = []) && (n_type nd =? RAMFS_TYPE_DIR) && (n_parent_idx nd =? -1)
     else bool_decide (good_name (name_of (n_name nd))) && (0 <=? n_parent_idx nd) && (n_parent_idx nd <? i)
          && (type_of fs (n_parent_idx nd) =? RAMFS_TYPE_DIR).

Definition clash (ni nj : ramfs_node) : bool :=
  (n_parent_idx ni =? n_parent_idx nj) && bool_decide (name_of (n_name ni) = name_of (n_name nj)).

Definition fs_okb (fs : list ramfs_node) (n : Z) : bool :=
  (zlen fs =? MAX_FILES) && (1 <=? n) && (n <=? MAX_FILES)
  && forallb (λ i, match zlookup fs i with
       | None => false
       | Some nd => eqb (n_is_used nd) (i <? n) && (negb (i <? n) || node_okb fs i nd)
       end) (seqZ 0 MAX_FILES)
  && forallb (λ i, forallb (λ j, (i =? j) || match zlookup fs i, zlookup fs j with
       | Some ni, Some nj => negb (clash ni nj)
       | _, _ => false
       end) (seqZ 1 (n - 1))) (seqZ 1 (n - 1)).

Lemma node_okb_sound fs i nd : node_okb fs i nd = true → node_ok fs i nd.
Proof.
  unfold node_okb. rewrite !andb_true_iff. intros [[[[Hi Ht] Hl] Hn] H]. apply Z.eqb_eq in Hi. apply Nat.eqb_eq in Hl.
  apply name_of_spec in Hn. rewrite orb_true_iff, !Z.eqb_eq in Ht.
  destruct (Z.eqb_spec i 0) as [E0|H0].
  - rewrite !andb_true_iff, !Z.eqb_eq, bool_decide_eq_true in H. destruct H as [[En Hd] Hp]. rewrite En in Hn.
    split; (done || by intros).
  - rewrite !andb_true_iff, bool_decide_eq_true, Z.leb_le, Z.ltb_lt, Z.eqb_eq in H. destruct H as [[[Hg H1] H2] H3].
    split; try done; intros _; [by exists (name_of (n_name nd))|]. split; [done|]. unfold type_of in H3.
    destruct (zlookup fs (n_parent_idx nd)) as [pd|]; [|done]. by exists pd.
Qed.

Lemma fs_okb_sound fs n : fs_okb fs n = true → fs_ok fs n.
Proof.
  unfold fs_okb. rewrite !andb_true_iff, !forallb_forall, Z.eqb_eq, !Z.leb_le. intros [[[[Hl H1] H2] Hnode] Huniq].
  assert (∀ i nd, zlookup fs i = Some nd → n_is_used nd = (i <? n) ∧ (i < n → node_ok fs i nd)) as Hat.
  { intros i nd Hi. pose proof (zlookup_Some _ _ _ Hi) as Hr. specialize (Hnode i).
    rewrite <- list_elem_of_In, elem_of_seqZ, Hi in Hnode. specialize (Hnode ltac:(lia)).
    apply andb_true_iff in Hnode as [Hu Hn]. split; [by apply eqb_prop|]. intros Hin.
    rewrite (proj2 (Z.ltb_lt i n) Hin) in Hn. by apply node_okb_sound. }
  split; [done|done| | |].
  - intros i nd Hi. rewrite (proj1 (Hat i nd Hi)). by destruct (Z.ltb_spec i n); [rewrite bool_decide_eq_true_2|rewrite bool_decide_eq_false_2 by lia].
  - intros i nd Hi. by apply Hat.
  - intros i j ni nj nm Hi Hj Hin Hjn Hp Hci Hcj. specialize (Huniq i). rewrite <- list_elem_of_In, elem_of_seqZ in Huniq.
    specialize (Huniq ltac:(lia)). rewrite forallb_forall in Huniq. specialize (Huniq j).
    rewrite <- list_elem_of_In, elem_of_seqZ, Hi, Hj in Huniq. specialize (Huniq ltac:(lia)).
    destruct (Z.eqb_spec i j) as [|Hne]; [done|]. simpl in Huniq. unfold clash in Huniq.
    rewrite (proj2 (Z.eqb_eq _ _) Hp) in Huniq. simpl in Huniq. rewrite bool_decide_eq_true_2 in Huniq; [done|].
    unfold name_of. by rewrite (read_string_spec _ _ Hci), (read_string_spec _ _ Hcj).
Qed.

(** * Witnesses *)

(** A heap that hands out pages in order; the state is the number of the next. *)
#[export] Program Instance page_kmalloc : Kmalloc Z := {|
  kmalloc n := (λ k, Ok (4096 * k, k + 1));
  km_ok L k := 1 ≤ k ∧ ∀ a, a ∈ L → a < 4096 * k
|}.
Next Obligation.
  intros n L k a s' [Hk HL] Hn [= <- <-]. right. split; [lia|]. split; [intros Ha; specialize (HL _ Ha); lia|].
  split; [lia|]. set_unfold. intros x [->|Hx]; [lia|]. specialize (HL _ Hx). lia.
Qed.

(** The state after [ramfs_init], with a process in the root directory. *)
Definition blank : ramfs_st Z := RamfsSt [] [] ∅ (Some (ProcFiles 0 (replicate 16 None))) 1 [].
Definition boot : ramfs_st Z :=
  match ramfs_init 0x400000 16 (replicate 4096 7) blank with Ok (_, s) => s | Crash _ => blank end.

Lemma boot_ok : fs_ok (files boot) 7.
Proof. apply fs_okb_sound. by vm_compute. Qed.

Definition path_okb {A} (s : ramfs_st A) (l : list Z) : bool :=
  bool_decide (chars_ok l) && (zlen l <? 2 ^ 31)
  && match zlookup (files s) (path_start s l) with Some nd => n_is_used nd && (n_type nd =? RAMFS_TYPE_DIR) | None => false end
  && forallb (λ t : list Z * bool, length t.1 <=? 31)%nat (tokens (take 127 (path_text l))).

Lemma path_okb_sound {A} (s : ramfs_st A) l : path_okb s l = true → path_ok s (l ++ [0]) l.
Proof.
  unfold path_okb. rewrite !andb_true_iff, bool_decide_eq_true, Z.ltb_lt, forallb_forall. intros [[[Hc Hl] Hd] Ht].
  split; [by apply cstring_lit|]. split; [done|]. split.
  - unfold is_dir. destruct (zlookup (files s) (path_start s l)) as [nd|]; [|done]. exists nd.
    apply andb_true_iff in Hd as [Hu Hd]. apply Z.eqb_eq in Hd. done.
  - apply Forall_forall. intros t Hin. apply Nat.leb_le, Ht. by apply list_elem_of_In.
Qed.

Lemma ramfs_mkdir_creates_witness :
  path_ok boot (lit "usr/./docs") (chars "usr/./docs") ∧
  ∃ s', ramfs_mkdir (Some (lit "usr/./docs")) boot = Ok (0, s') ∧ fs_ok (files s') 8 ∧ is_dir (files s') 7.
Proof.
  assert (path_ok boot (lit "usr/./docs") (chars "usr/./docs")) as Hp by (apply path_okb_sound; by vm_compute).
  split; [exact Hp|]. destruct (ramfs_mkdir_creates boot 7 _ _ boot_ok Hp) as (ret & s' & E & H). exists s'.
  destruct H as [(_ & _ & [H|(r & Hr & H)])|(-> & Hok & Hd & _)].
  - discriminate H.
  - exfalso. clear E Hp. vm_compute in Hr. injection Hr as <-. destruct H as [H|H]; [exact (H eq_refl)|discriminate H].
  - split; [exact E|]. split; [exact Hok|exact Hd].
Defined.

(** Descriptors 0 to 2 taken, the rest free. *)
Lemma boot_has_fd : has_fd (ProcFiles 0 (replicate 16 None)).
Proof. split; [by vm_compute|]. exists 3. by vm_compute. Qed.

Lemma boot_has_handle : has_handle boot.
Proof. split; [by vm_compute|]. exists 0, file_zero. by vm_compute. Qed.

Lemma boot_heap : km_ok (dom (contents boot)) (heap boot).
Proof.
  assert (set_Forall (λ a, a < 4096 * heap boot) (dom (contents boot))) as H by (apply (bool_decide_unpack _); by vm_compute).
  split; [by vm_compute|exact H].
Qed.

Lemma ramfs_open_creates_witness :
  ∃ fd p s', ramfs_open (Some (lit "/usr/new.txt")) O_CREAT (replicate 4096 9) boot = Ok (fd, s') ∧ fs_ok (files s') 8
    ∧ contents boot !! p = None ∧ contents s' !! p = Some (replicate 4096 0).
Proof.
  assert (path_ok boot (lit "/usr/new.txt") (chars "/usr/new.txt")) as Hp.
  { refine (path_okb_sound boot (chars "/usr/new.txt") _). by vm_compute. }
  destruct (ramfs_open_creates boot 7 (ProcFiles 0 (replicate 16 None)) _ _ O_CREAT (replicate 4096 9) 2 (chars "new.txt")
    boot_ok ltac:(by vm_compute) Hp ltac:(by vm_compute) ltac:(by vm_compute) boot_has_handle boot_has_fd ltac:(by vm_compute)
    ltac:(by vm_compute) boot_heap ltac:(by vm_compute))
    as (fd & h & nd & s' & E & Hok & _ & _ & _ & Hnew & Hc & _). exists fd, (n_content nd), s'.
  split; [exact E|]. split; [exact Hok|]. split; [exact (proj1 (not_elem_of_dom _ _) Hnew)|].
  rewrite Hc. apply lookup_insert_eq.
Defined.

(** The path of the current node, by walking up. *)
Lemma path_to_det fs i c1 c2 : path_to fs i c1 → path_to fs i c2 → c1 = c2.
Proof.
  intros H. revert c2. induction H as [|i nd comps nm Hi Hu Hne Hp IH Hnm]; intros c2 H2.
  - inversion H2; [done|congruence].
  - inversion H2 as [|? nd' comps' nm' Hi' _ _ Hp' Hnm']; [congruence|]. subst.
    assert (nd' = nd) as -> by congruence. rewrite (IH _ Hp'). by rewrite (cstring_unique _ _ _ Hnm Hnm').
Qed.

(** A process in [/usr/bin]. *)
Definition in_bin : ramfs_st Z := set_current (Some (ProcFiles 3 (replicate 16 None))) boot.

(** The components, by walking up from the node. *)
Fixpoint comps_of (fuel : nat) (fs : list ramfs_node) (i : Z) : option (list (list Z)) :=
  match fuel with
  | O => None
  | S fuel' =>
    if i =? 0 then Some [] else
    nd ← zlookup fs i;
    if n_is_used nd && terminated (n_name nd)
    then (λ cs, cs ++ [name_of (n_name nd)]) <$> comps_of fuel' fs (n_parent_idx nd)
    else None
  end.

Lemma comps_of_sound fuel fs i comps : comps_of fuel fs i = Some comps → path_to fs i comps.
Proof.
  revert i comps. induction fuel as [|fuel IH]; intros i comps; [done|]. cbn [comps_of].
  destruct (Z.eqb_spec i 0) as [->|Hi]; [intros [= <-]; constructor|].
  destruct (zlookup fs i) as [nd|] eqn:Hnd; [|done]. simpl. destruct (n_is_used nd) eqn:Hu; [|done].
  destruct (terminated (n_name nd)) eqn:Ht; [|done]. simpl. intros (cs & Hcs & ->)%fmap_Some.
  eapply pt_child; [done|done|done|by apply IH|by apply name_of_spec].
Qed.

Lemma in_bin_path : path_to (files in_bin) 3 [chars "usr"; chars "bin"].
Proof. refine (comps_of_sound 4 _ _ _ _). by vm_compute. Qed.

Lemma in_bin_ok : fs_ok (files in_bin) 7.
Proof. apply fs_okb_sound. by vm_compute. Qed.

Lemma ramfs_getcwd_resolves_witness :
  ∃ b, ramfs_getcwd (Some (replicate 64 0)) 64 in_bin = Ok (Some b, in_bin) ∧ cstring b (chars "/usr/bin").
Proof.
  destruct (ramfs_getcwd_resolves in_bin 7 (ProcFiles 3 (replicate 16 None)) in_bin_ok ltac:(by vm_compute)) as (comps & Hp & Hg & _).
  { eexists. split; [vm_compute; reflexivity|]. split; vm_compute; reflexivity. }
  rewrite (path_to_det _ _ _ _ Hp in_bin_path) in Hg. refine (Hg _ _ _). by vm_compute.
Defined.

(** "/usr/usrmain.c" (node 6) open on descriptors 3 and 4, "/usr" (node 2) on 5. *)
Definition three_open : ramfs_st Z :=
  match (ramfs_open (Some (lit "/usr/usrmain.c")) 0 [];; ramfs_open (Some (lit "/usr/usrmain.c")) 0 [];;
         ramfs_open (Some (lit "/usr")) 0 []) boot with Ok (_, s) => s | Crash _ => boot end.

Definition main_node : ramfs_node :=
  match zlookup (files three_open) 6 with Some nd => nd | None => node_zero end.
Definition main_bytes : list Z := match contents three_open !! 8192 with Some b => b | None => [] end.

Lemma opened_3 : opened three_open 3 0 (FileT (Some 6) 0 1) 6 main_node main_bytes.
Proof.
  constructor; try (by vm_compute). eexists. split; [vm_compute; reflexivity|]. by vm_compute.
Qed.

Lemma opened_4 : opened three_open 4 1 (FileT (Some 6) 0 1) 6 main_node main_bytes.
Proof.
  constructor; try (by vm_compute). eexists. split; [vm_compute; reflexivity|]. by vm_compute.
Qed.

Lemma ramfs_write_read_witness :
  ∃ s1 s2, ramfs_write 3 (chars "int x;") 6 three_open = Ok (6, s1) ∧ ramfs_read 4 6 s1 = Ok ((6, chars "int x;"), s2).
Proof.
  destruct (ramfs_write_read three_open 3 0 _ 4 1 _ 6 main_node main_bytes (chars "int x;") opened_3 opened_4 ltac:(done)
    ltac:(done) ltac:(by vm_compute) ltac:(by vm_compute) ltac:(by vm_compute) ltac:(by vm_compute) ltac:(by vm_compute))
    as (s1 & s2 & E1 & E2 & _). exists s1, s2. split; [exact E1|exact E2].
Defined.

Lemma ramfs_read_negative_count_witness :
  ∃ data s', ramfs_read 3 (-1) three_open = Ok ((25, data), s') ∧ data ++ [0] = main_code.
Proof.
  destruct (ramfs_read_negative_count three_open 3 0 _ 6 main_node main_bytes (-1) opened_3 ltac:(done)
    ltac:(by vm_compute) ltac:(by vm_compute) ltac:(by vm_compute)) as (s' & E).
  assert (n_size main_node = 25) as Hn by by vm_compute. rewrite Hn in E.
  eexists _, s'. split; [exact E|]. by vm_compute.
Defined.

Lemma three_open_ok : fs_ok (files three_open) 7.
Proof. apply fs_okb_sound. by vm_compute. Qed.

Lemma ramfs_getdents_lists_witness :
  ∃ bpos ds s', ramfs_getdents64 5 4096 three_open = Ok ((bpos, ds), s')
    ∧ map (λ d, (d_ino d - 1, d_name d)) ds
      = [(3, chars "bin"); (4, chars "lib"); (5, chars "shell.c"); (6, chars "usrmain.c")].
Proof.
  set (pf := ProcFiles 0 ([None; None; None; Some 0; Some 1; Some 2] ++ replicate 10 None)).
  set (nd := match zlookup (files three_open) 2 with Some nd => nd | None => node_zero end).
  destruct (ramfs_getdents_lists three_open 7 pf 5 2 (FileT (Some 2) 0 1) 2 nd 4096 three_open_ok ltac:(by vm_compute)
    ltac:(done) ltac:(by vm_compute) ltac:(by vm_compute) ltac:(by vm_compute) ltac:(by vm_compute) ltac:(by vm_compute)
    ltac:(by vm_compute) ltac:(by vm_compute) ltac:(by vm_compute))
    as (bpos & ds & E & Hds & _).
  eexists _, ds, _. split; [exact E|]. rewrite Hds. by vm_compute.
Defined.
