(* ===== verification/Shell.v ===== *)
(** Shell: the first user program, [usr/usrmain.c], and its command interpreter,
    [usr/shell.c].  Strings and buffers are as in [CString]; a pointer into the input
    line is its offset.  The system calls and the heap are the operations of [UserSys];
    a path reaches them as the characters before its NUL. *)
From S2P Require Import Prelude CString UserLib.

Definition MAX_CMD_LEN : Z := 256.
Definition MAX_ARGS : Z := 16.
Definition BUF_SIZE : Z := 1024.

(** The raw answers of the kernel, and what it stored in the caller's buffer. *)
Class UserSys (K : Type) := {
  raw_read : Z → Z → M K (Z * list Z);
  raw_write : Z → list Z → M K Z;
  raw_open : list Z → Z → M K Z;
  raw_getdents64 : Z → Z → M K (Z * list Z);
  raw_getcwd : Z → M K (Z * list Z);
  raw_chdir : list Z → M K Z;
  raw_mkdir : list Z → Z → M K Z;
  raw_exit : Z → M K unit;
  (** the calls without a buffer: number and first argument *)
  raw_syscall : Z → Z → M K Z;
  u_malloc : Z → M K Z;
  u_free : Z → M K unit
}.

(** What a program sees: the terminal it writes to, and the kernel. *)
Record term (K : Type) := Term { t_out : out_st; t_kern : K }.
Arguments Term {K} _ _.
Arguments t_out {K} _.
Arguments t_kern {K} _.

(** A line of text for [printf]; a C string that ends behind it. *)
Definition ln (s : string) : list Z := chars s ++ [10; 0].

Section shell.
  Context {K : Type} `{!UserSys K}.
  (** What a local array holds before it is written, and the heap's memory. *)
  Context (junk : list Z).
  Abbreviation St := (term K).

Definition say (format : list Z) (args : list parg) : M St unit := zoom t_out (λ o s, Term o (t_kern s)) (printf format args).
Definition sys {R} (m : M K R) : M St R := zoom t_kern (λ k s, Term (t_out s) k) m.
Definition local_array (n : Z) : list Z := take (Z.to_nat n) junk.

(** The kernel's stores into [buf]. *)
Definition stored (bytes buf : list Z) : M St (list Z) :=
  if (length bytes <=? length buf)%nat then mret (bytes ++ drop (length bytes) buf) else crash OutOfBounds.

(** The wrappers of [usr/lib/syscall.c]: the answer is cast to [int]. *)
Definition read (fd : Z) (buf : list Z) (count : Z) : M St (Z * list Z) :=
  r ← sys (raw_read fd count); buf ← stored r.2 buf; mret (i32 r.1, buf).
Definition write (fd : Z) (buf : list Z) (count : Z) : M St Z := r ← sys (raw_write fd (take (Z.to_nat count) buf)); mret (i32 r).
Definition open (path : list Z) (flags : Z) : M St Z := p ← lift_res (read_string path); r ← sys (raw_open p flags); mret (i32 r).
Definition close (fd : Z) : M St Z := r ← sys (raw_syscall 3 fd); mret (i32 r).
Definition getdents64 (fd : Z) (buf : list Z) (count : Z) : M St (Z * list Z) :=
  r ← sys (raw_getdents64 fd count); buf ← stored r.2 buf; mret (i32 r.1, buf).
Definition getcwd (buf : list Z) (size : Z) : M St (Z * list Z) := r ← sys (raw_getcwd size); buf ← stored r.2 buf; mret (i32 r.1, buf).
Definition chdir (path : list Z) : M St Z := p ← lift_res (read_string path); r ← sys (raw_chdir p); mret (i32 r).
Definition mkdir (path : list Z) (mode : Z) : M St Z := p ← lift_res (read_string path); r ← sys (raw_mkdir p mode); mret (i32 r).
Definition exit (status : Z) : M St unit := sys (raw_exit status);; crash Halted.

(** * Reading a line *)

(** [fuel] bounds the number of reads. *)
Fixpoint getline_loop (fuel : nat) (buf : list Z) (i max_len : Z) : M St (list Z * Z) :=
  match fuel with
  | O => crash OutOfFuel
  | S fuel' =>
    if negb (i <? max_len - 1) then mret (buf, i) else
    r ← read 0 [0] 1;
    if 0 <? r.1 then
      c ← lift_res (nth_byte r.2 0);
      if (c =? 10) || (c =? 13) then say [10; 0] [];; mret (buf, i)
      else if (c =? 8) || (c =? 127) then
        if 0 <? i then say [8; 32; 8; 0] [];; getline_loop fuel' buf (i - 1) max_len
        else getline_loop fuel' buf i max_len
      else
        buf ← lift_res (set_byte buf i c);
        say (lit "%c") [PInt c];;
        getline_loop fuel' buf (i + 1) max_len
    else getline_loop fuel' buf i max_len
  end.
Definition getline (fuel : nat) (buf : list Z) (max_len : Z) : M St (list Z) :=
  r ← getline_loop fuel buf 0 max_len;
  lift_res (set_byte r.1 r.2 0).

Definition prompt_int (fuel : nat) (prompt : list Z) : M St Z :=
  say (lit "    -> %s") [PStr (Some prompt)];;
  buf ← getline fuel (local_array 64) 64;
  lift_res (atoi buf).
Definition prompt_str (fuel : nat) (prompt buf : list Z) (max_len : Z) : M St (list Z) :=
  say (lit "    -> %s") [PStr (Some prompt)];;
  getline fuel buf max_len.

(** * Commands *)

Fixpoint say_lines (l : list (list Z)) : M St unit :=
  match l with [] => mret tt | x :: l' => say x [];; say_lines l' end.

Definition cmd_help : M St unit := say_lines [
  10 :: ln "=== SudoOS Shell Help ===";
  ln "Filesystem:";
  ln "  ls [path]       List directory contents";
  ln "  cd <path>       Change working directory";
  ln "  mkdir <path>    Create a new directory";
  ln "  pwd             Print current working directory";
  ln "  touch <file>    Create a new empty file";
  ln "  cat <file>      Display file content";
  ln "  echo <text>     Print text (use > to write to file)";
  10 :: ln "System:";
  ln "  clear           Clear the screen";
  ln "  run <id>        Interactive Syscall Runner";
  ln "  exit            Exit the shell";
  10 :: ln "[Debug] Syscall Table (ID : Name):";
  ln "   0 : READ          1 : WRITE         2 : OPEN";
  ln "   3 : CLOSE         4 : STAT          5 : FSTAT";
  ln "   8 : LSEEK         9 : MMAP         11 : MUNMAP";
  ln "  12 : BRK          24 : YIELD        35 : NANOSLEEP";
  ln "  39 : GETPID       57 : FORK         59 : EXECVE";
  ln "  60 : EXIT         61 : WAIT4        79 : GETCWD";
  ln "  80 : CHDIR        83 : MKDIR        96 : GETTIMEOFDAY";
  ln " 110 : GETPPID     217 : GETDENTS64"].

(** Fields of a [struct linux_dirent64] at [p]. *)
Definition dirent_reclen (buf : list Z) (p : Z) : res Z := lo ← nth_byte buf (p + 16); hi ← nth_byte buf (p + 17); Ok (lo + 256 * hi).
Definition dirent_type (buf : list Z) (p : Z) : res Z := nth_byte buf (p + 18).
Definition dirent_name (buf : list Z) (p : Z) : list Z := drop (Z.to_nat (p + 19)) buf.

(** The loop over one buffer of records. *)
Fixpoint ls_records (fuel : nat) (buf : list Z) (nread bpos count : Z) : M St Z :=
  match fuel with
  | O => crash OutOfFuel
  | S fuel' =>
    if negb (bpos <? nread) then mret count else
    d_type ← lift_res (dirent_type buf bpos);
    (if d_type =? 4 then say (lit "[%s]  ") [PStr (Some (dirent_name buf bpos))]
     else say (lit "%s  ") [PStr (Some (dirent_name buf bpos))]);;
    d_reclen ← lift_res (dirent_reclen buf bpos);
    ls_records fuel' buf nread (i32 (bpos + d_reclen)) (i32 (count + 1))
  end.
Fixpoint ls_loop (fuel : nat) (fd : Z) (buf : list Z) (count : Z) : M St Z :=
  match fuel with
  | O => crash OutOfFuel
  | S fuel' =>
    r ← getdents64 fd buf BUF_SIZE;
    if negb (0 <? r.1) then mret count else
    count ← ls_records fuel' r.2 r.1 0 count;
    ls_loop fuel' fd r.2 count
  end.

(** [path] is [None] for NULL. *)
Definition cmd_ls (fuel : nat) (path : option (list Z)) : M St unit :=
  let path := default (lit ".") path in
  fd ← open path 0;
  if fd <? 0 then say (chars "ls: cannot access '%s': No such file or directory" ++ [10; 0]) [PStr (Some path)] else
  count ← ls_loop fuel fd (local_array BUF_SIZE) 0;
  (if 0 <? count then say [10; 0] [] else mret tt);;
  close fd;;
  mret tt.

Definition cmd_cd (path : option (list Z)) : M St unit :=
  let path := default (lit "/usr") path in
  r ← chdir path;
  if r <? 0 then say (ln "cd: no such file or directory: %s") [PStr (Some path)] else mret tt.

(** The branch [cat] of the loop. *)
Fixpoint cat_loop (fuel : nat) (fd : Z) (buf : list Z) : M St unit :=
  match fuel with
  | O => crash OutOfFuel
  | S fuel' =>
    r ← read fd buf 127;
    if negb (0 <? r.1) then mret tt else
    buf ← lift_res (set_byte r.2 r.1 0);
    say (lit "%s") [PStr (Some buf)];;
    cat_loop fuel' fd buf
  end.
Definition cmd_cat (fuel : nat) (path : list Z) : M St unit :=
  fd ← open path 0;
  if 0 <=? fd then cat_loop fuel fd (local_array 128);; say [10; 0] [];; close fd;; mret tt
  else say (ln "File not found.") [].

Definition cmd_touch (path : list Z) : M St unit :=
  fd ← open path 64; if 0 <=? fd then close fd;; mret tt else mret tt.

Definition cmd_mkdir (path : list Z) : M St unit :=
  r ← mkdir path 493; if r <? 0 then say (ln "mkdir failed.") [] else mret tt.

(** [strlen] and [take]: a buffer up to its terminator. *)
Definition write_string (fd : Z) (buf : list Z) : M St Z := n ← lift_res (strlen buf); write fd buf n.

(** The cases of [cmd_run]. *)
Definition run_read (fuel : nat) : M St unit :=
  fd ← prompt_int fuel (lit "File Descriptor (0 for stdin): ");
  len ← prompt_int fuel (lit "Bytes to read: ");
  let n := i32 (len + 1) in
  p ← sys (u_malloc (u64 n));
  if p =? 0 then say (ln "Error: malloc failed") [] else
  say (ln "    [Executing read...]") [];;
  r ← sys (raw_read fd len);
  buf ← stored r.2 (local_array n);
  (if 0 <=? r.1 then
     buf ← lift_res (set_byte buf r.1 0);
     say (chars "    Result: %d bytes" ++ [10] ++ chars "    Data: " ++ [34] ++ chars "%s" ++ [34; 10; 0]) [PInt (i32 r.1); PStr (Some buf)]
   else say (ln "    Error: %d") [PInt (i32 r.1)]);;
  sys (u_free p).
Definition run_write (fuel : nat) : M St unit :=
  fd ← prompt_int fuel (lit "File Descriptor (1 for stdout): ");
  buf ← prompt_str fuel (lit "Content to write: ") (local_array 128) 128;
  n ← lift_res (strlen buf);
  ret ← sys (raw_write fd (take (Z.to_nat n) buf));
  say (ln "    Result: %d") [PInt (i32 ret)].
Definition run_open (fuel : nat) : M St unit :=
  path ← prompt_str fuel (lit "Path: ") (local_array 64) 64;
  flags ← prompt_int fuel (lit "Flags (0=RD, 64=CREAT): ");
  p ← lift_res (read_string path);
  ret ← sys (raw_open p flags);
  say (ln "    Result (New FD): %d") [PInt (i32 ret)].
Definition run_mkdir (fuel : nat) : M St unit :=
  path ← prompt_str fuel (lit "Directory Name: ") (local_array 64) 64;
  p ← lift_res (read_string path);
  ret ← sys (raw_mkdir p 493);
  say (ln "    Result: %d") [PInt (i32 ret)].
Definition run_chdir (fuel : nat) : M St unit :=
  path ← prompt_str fuel (lit "Target Path: ") (local_array 64) 64;
  p ← lift_res (read_string path);
  ret ← sys (raw_chdir p);
  if ret =? 0 then say (ln "    Success.") [] else say (ln "    Failed (ret=%d)") [PInt (i32 ret)].
Definition run_getcwd : M St unit :=
  r ← sys (raw_getcwd 128);
  buf ← stored r.2 (local_array 128);
  if negb (r.1 =? 0) then say (ln "    CWD: %s") [PStr (Some buf)] else say (ln "    Error (ret=0)") [].
Definition run_brk (fuel : nat) : M St unit :=
  addr ← prompt_int fuel (lit "New Break Address (0 for current): ");
  ret ← sys (raw_syscall 12 (u64 addr));
  say (ln "    Current Break: 0x%x") [PInt (i32 ret)].

Definition cmd_run (fuel : nat) (arg_id : option (list Z)) : M St unit :=
  match arg_id with
  | None => say (ln "Usage: run <syscall_id>") []
  | Some arg_id =>
    id ← lift_res (atoi arg_id);
    say (ln "--- Interactive Syscall Run [ID: %d] ---") [PInt id];;
    if id =? 0 then run_read fuel
    else if id =? 1 then run_write fuel
    else if id =? 2 then run_open fuel
    else if id =? 39 then ret ← sys (raw_syscall 39 0); say (ln "    My PID: %d") [PInt (i32 ret)]
    else if id =? 83 then run_mkdir fuel
    else if id =? 80 then run_chdir fuel
    else if id =? 79 then run_getcwd
    else if id =? 12 then run_brk fuel
    else if id =? 60 then ret ← prompt_int fuel (lit "Exit Code: "); exit ret
    else
      say (ln "    [Generic Mode] Executing syscall %d with 0 arguments...") [PInt id];;
      ret ← sys (raw_syscall id 0);
      say (ln "    Result: %d") [PInt (i32 ret)]
  end.

(** * The command loop *)

(** The locals of [shell_main] that survive a round, and the static of [strtok].
    [args] holds offsets into [input]; [None] was never written. *)
Record vars := Vars { input : list Z; args : list (option Z); cwd_buf : list Z; strtok_backup : option Z }.

(** [while (token && argc < MAX_ARGS)], with [n] entries of [args] left. *)
Fixpoint parse_args (n : nat) (buf : list Z) (token : option Z) (args : list (option Z)) (argc : Z) (backup : option Z)
  : res (list Z * list (option Z) * Z * option Z) :=
  match token, n with
  | Some t, S n' =>
    r ← strtok buf None (lit " ") backup;
    parse_args n' r.1.1 r.1.2 (zinsert argc (Some t) args) (argc + 1) r.2
  | _, _ => Ok (buf, args, argc, backup)
  end.

(** The string at [args[i]]. *)
Definition arg (v : vars) (i : Z) : M St (list Z) :=
  a ← or_crash OutOfBounds (zlookup (args v) i);
  p ← or_crash PageFault a;
  mret (drop (Z.to_nat p) (input v)).
Definition is_cmd (w : list Z) (name : string) : M St bool := r ← lift_res (strcmp w (lit name)); mret (r =? 0).

Definition cmd_echo (v : vars) (argc : Z) : M St unit :=
  to_file ← (if 4 <=? argc then a2 ← arg v 2; is_cmd a2 ">" else mret false);
  a1 ← arg v 1;
  if to_file : bool then
    a3 ← arg v 3;
    fd ← open a3 64;
    if 0 <=? fd then
      write_string fd a1;;
      write fd [10] 1;;
      close fd;;
      mret tt
    else mret tt
  else say (ln "%s") [PStr (Some a1)].

Definition cmd_pwd (v : vars) : M St vars :=
  r ← getcwd (cwd_buf v) 128;
  (if negb (r.1 =? 0) then say (ln "%s") [PStr (Some r.2)] else mret tt);;
  mret (Vars (input v) (args v) r.2 (strtok_backup v)).

Definition clear_screen : M St unit := for_n 30 0 (λ _, say [10; 0] []).

(** The dispatch over [args[0]]. *)
Definition dispatch (fuel : nat) (v : vars) (argc : Z) : M St vars :=
  w ← arg v 0;
  b ← is_cmd w "help"; if b : bool then cmd_help;; mret v else
  b ← is_cmd w "ls"; if b : bool then a ← arg v 1; cmd_ls fuel (Some a);; mret v else
  b ← is_cmd w "cd"; if b : bool then a ← arg v 1; cmd_cd (Some a);; mret v else
  b ← is_cmd w "pwd"; if b : bool then cmd_pwd v else
  b ← is_cmd w "mkdir"; if b : bool then a ← arg v 1; cmd_mkdir a;; mret v else
  b ← is_cmd w "cat"; if b : bool then a ← arg v 1; cmd_cat fuel a;; mret v else
  b ← is_cmd w "touch"; if b : bool then a ← arg v 1; cmd_touch a;; mret v else
  b ← is_cmd w "echo"; if b : bool then cmd_echo v argc;; mret v else
  b ← is_cmd w "clear"; if b : bool then clear_screen;; mret v else
  b ← is_cmd w "exit"; if b : bool then exit 0;; mret v else
  b ← is_cmd w "run"; if b : bool then a ← arg v 1; cmd_run fuel (Some a);; mret v else
  say (ln "Unknown command: %s") [PStr (Some w)];; mret v.

(** The prompt: the working directory, and [cwd_buf] with it. *)
Definition prompt (v : vars) : M St vars :=
  r ← getcwd (cwd_buf v) 128;
  (if negb (r.1 =? 0) then say (lit "root@SudoOS:%s$ ") [PStr (Some r.2)] else say (lit "root@SudoOS:?$ ") []);;
  mret (Vars (input v) (args v) r.2 (strtok_backup v)).

(** One round of [while (1)]. *)
Definition shell_round (fuel : nat) (v : vars) : M St vars :=
  v ← prompt v;
  input ← getline fuel (input v) MAX_CMD_LEN;
  len ← lift_res (strlen input);
  if len =? 0 then mret (Vars input (args v) (cwd_buf v) (strtok_backup v)) else
  r ← lift_res (strtok input (Some 0) (lit " ") (strtok_backup v));
  p ← lift_res (parse_args (Z.to_nat MAX_ARGS) r.1.1 r.1.2 (args v) 0 r.2);
  let v := Vars p.1.1.1 p.1.1.2 (cwd_buf v) p.2 in
  if p.1.2 =? 0 then mret v else dispatch fuel v p.1.2.

Fixpoint shell_rounds (n fuel : nat) (v : vars) : M St vars :=
  match n with O => mret v | S n' => v ← shell_round fuel v; shell_rounds n' fuel v end.

(** The first [n] rounds. *)
Definition shell_main (n fuel : nat) : M St vars :=
  say (10 :: ln "Welcome to SudoOS Shell v3.1") [];;
  say (ln "Type 'help' for available commands.") [];;
  r ← chdir (lit "/usr");
  (if r <? 0 then say (ln "Warning: Could not cd to /usr. Falling back to root.") [];; chdir (lit "/");; mret tt else mret tt);;
  shell_rounds n fuel (Vars (local_array MAX_CMD_LEN) (replicate (Z.to_nat MAX_ARGS) None) (local_array 128) None).

(** [usrmain.c] up to the [n]-th round of the shell: what the parent, or the child, of
    the test [fork] does goes by the answer of the call. *)
Definition fork_test : M St unit :=
  r ← sys (raw_syscall 57 0);
  let pid := i32 r in
  if pid =? 0 then
    p ← sys (raw_syscall 39 0);
    say (ln "[System Check] Fork test: Child (PID %d) works.") [PInt (i32 p)];;
    exit 0
  else
    sys (raw_syscall 61 (u64 pid));;
    say (ln "[System Check] Fork test: Parent received child exit.") [].
Definition usrmain (n fuel : nat) : M St vars :=
  say_lines [[10; 0]; ln "================================"; ln "        Welcome to SudoOS       "; ln "================================"];;
  fork_test;;
  say (ln "Starting Shell...") [];;
  shell_main n fuel.
End shell.

(** * Theory *)

Section theory.
  Context {K : Type} `{!UserSys K} (junk : list Z).
  Implicit Types s : term K.
  Implicit Types k : K.

Lemma say_ok fmt ps o s : printf fmt ps (t_out s) = Ok (tt, o) → say fmt ps s = Ok (tt, Term o (t_kern s)).
Proof. intros E. unfold say, zoom. by rewrite E. Qed.

Lemma say_text (l : list Z) s : chars_ok l → Forall (λ c, c ≠ 37) l → say (l ++ [0]) [] s = Ok (tt, Term (t_out s ++ l) (t_kern s)).
Proof. intros H1 H2. apply say_ok. unfold printf. by rewrite printf_text. Qed.

Lemma say_char c s : 0 < c < 256 → say (lit "%c") [PInt c] s = Ok (tt, Term (t_out s ++ [c]) (t_kern s)).
Proof.
  intros Hc. apply say_ok. assert (u8 c = c) as E by (apply u8_small; lia).
  change (printf (lit "%c") [PInt c] (t_out s)) with (Ok (tt, t_out s ++ [u8 c])). by rewrite E.
Qed.

(** ** The line editor *)

Definition is_newline (c : Z) : bool := (c =? 10) || (c =? 13).
Definition is_backspace (c : Z) : bool := (c =? 8) || (c =? 127).

(** The line that the keys of [os] make of [line], on a line of [room] characters;
    [None] stands for a read without a key.  The last key is the one that ends it. *)
Fixpoint edit (room : nat) (line : list Z) (os : list (option Z)) : option (list Z) :=
  match os with
  | [] => if decide (length line = room) then Some line else None
  | o :: os' =>
    if decide (length line = room) then None else
    match o with
    | None => edit room line os'
    | Some c =>
      if is_newline c then match os' with [] => Some line | _ => None end
      else if is_backspace c then edit room (take (length line - 1) line) os'
      else edit room (line ++ [c]) os'
    end
  end.

(** [k] delivers the keys of [os] one by one and is [k'] then. *)
Inductive types : K → list (option Z) → K → Prop :=
  | types_end k : types k [] k
  | types_key k c k1 os k' : raw_read 0 1 k = Ok ((1, [c]), k1) → 0 < c < 256 → types k1 os k' → types k (Some c :: os) k'
  | types_none k a k1 os k' : raw_read 0 1 k = Ok ((a, []), k1) → i32 a ≤ 0 → types k1 os k' → types k (None :: os) k'.

(** A terminal line: what is left of the cursor, and what is at the cursor and behind. *)
Definition term_step (t : list Z * list Z) (c : Z) : list Z * list Z :=
  if c =? 8 then (take (length t.1 - 1) t.1, drop (length t.1 - 1) t.1 ++ t.2) else (t.1 ++ [c], drop 1 t.2).
Definition shows (echo : list Z) (t : list Z * list Z) : list Z := (foldl term_step t echo).1.

Lemma read_key c k1 s : raw_read 0 1 (t_kern s) = Ok ((1, [c]), k1) → read 0 [0] 1 s = Ok ((1, [c]), Term (t_out s) k1).
Proof. intros E. unfold read, sys, zoom. cbv [mbind M_bind]. by rewrite E. Qed.

Lemma read_none a k1 s : raw_read 0 1 (t_kern s) = Ok ((a, []), k1) → read 0 [0] 1 s = Ok ((i32 a, [0]), Term (t_out s) k1).
Proof. intros E. unfold read, sys, zoom. cbv [mbind M_bind]. by rewrite E. Qed.

(** Backspace, blank, backspace. *)
Lemma rubout l0 x r : foldl term_step (l0 ++ [x], r) [8; 32; 8] = (l0, 32 :: r).
Proof.
  assert (∀ y t, term_step (l0 ++ [y], t) 8 = (l0, y :: t)) as H.
  { intros y t. unfold term_step. cbn [Z.eqb Pos.eqb fst snd]. by rewrite length_app, Nat.add_sub, take_app_length, drop_app_length. }
  cbn [foldl]. rewrite H. change (term_step (l0, x :: r) 32) with (l0 ++ [32], r). apply H.
Qed.

Lemma zlookup_app_cons {T} (l : list T) x r : zlookup (l ++ x :: r) (zlen l) = Some x.
Proof. unfold zlookup, zlen. rewrite decide_True by lia. rewrite Nat2Z.id. by apply list_lookup_middle. Qed.

(** What has been typed is in the first [zlen line] bytes and left of the cursor. *)
Lemma getline_loop_ok room os line' : ∀ line rest r s k' fuel,
  types (t_kern s) os k' → edit room line os = Some line' → (length line ≤ room)%nat → (room < length (line ++ rest))%nat → (length os < fuel)%nat →
  ∃ rest' echo, getline_loop fuel (line ++ rest) (zlen line) (Z.of_nat room + 1) s = Ok ((line' ++ rest', zlen line'), Term (t_out s ++ echo) k')
    ∧ length (line' ++ rest') = length (line ++ rest) ∧ drop room (line' ++ rest') = drop room (line ++ rest) ∧ (length line' ≤ room)%nat
    ∧ (shows echo (line, r) = line' ∨ shows echo (line, r) = line' ++ [10]) ∧ (chars_ok line → chars_ok line').
Proof.
  induction os as [|o os IH]; intros line rest r s k' fuel Ht He Hl Hroom Hf; (destruct fuel as [|fuel]; [simpl in Hf; lia|]); cbn [edit] in He; cbn [getline_loop];
    case_decide as Hd; try done.
  - injection He as <-. inversion Ht; subst. rewrite (proj2 (Z.ltb_ge _ _)) by (unfold zlen; lia). exists rest, [].
    rewrite app_nil_r. split; [by destruct s|]. split; [done|]. split; [done|]. split; [done|]. split; [by left|done].
  - simpl in Hf. rewrite (proj2 (Z.ltb_lt _ _)) by (unfold zlen; lia). cbn [negb]. inversion Ht as [|? c k1 ? ? E Hc Ht1|? a k1 ? ? E Ha Ht1]; subst.
    2:{ rewrite (bind_ok _ _ _ _ _ (read_none _ _ _ E)). cbn [fst]. rewrite (proj2 (Z.ltb_ge _ _)) by lia.
        exact (IH line rest r (Term (t_out s) k1) k' fuel Ht1 He Hl Hroom ltac:(lia)). }
    rewrite (bind_ok _ _ _ _ _ (read_key _ _ _ E)). cbn [fst snd Z.ltb Z.compare]. set (s1 := Term (t_out s) k1).
    rewrite (lift_ok (nth_byte [c] 0) _ s1 c) by done. unfold is_newline, is_backspace in He.
    destruct ((c =? 10) || (c =? 13)) eqn:Hn.
    { destruct os; [|done]. injection He as <-. inversion Ht1; subst.
      rewrite (bind_ok _ _ _ _ _ (say_text [10] s1 ltac:(by repeat constructor) ltac:(by repeat constructor))).
      exists rest, [10]. split; [done|]. split; [done|]. split; [done|]. split; [done|]. split; [by right|done]. }
    apply orb_false_iff in Hn as [Hn1 Hn2]. rewrite Z.eqb_neq in Hn1, Hn2.
    destruct ((c =? 8) || (c =? 127)) eqn:Hb.
    + destruct (Z.ltb_spec 0 (zlen line)) as [Hpos|Hz].
      2:{ destruct line; [|unfold zlen in Hz; simpl in Hz; lia]. exact (IH [] rest r s1 k' fuel Ht1 He Hl Hroom ltac:(lia)). }
      destruct (exists_last (l := line)) as (l0 & x & ->); [by intros ->|].
      rewrite (bind_ok _ _ _ _ _ (say_text [8; 32; 8] s1 ltac:(by repeat constructor) ltac:(by repeat constructor))).
      rewrite length_app, Nat.add_sub, take_app_length in He. rewrite length_app in Hl, Hd. simpl in Hl, Hd.
      destruct (IH l0 (x :: rest) (32 :: r) (Term (t_out s1 ++ [8; 32; 8]) k1) k' fuel Ht1 He) as (rest' & echo & E' & H1 & H2 & H3 & H4 & H5); [lia| |lia|].
      { rewrite <- app_assoc in Hroom. exact Hroom. }
      exists rest', ([8; 32; 8] ++ echo). replace (zlen (l0 ++ [x]) - 1) with (zlen l0) by (unfold zlen; rewrite length_app; simpl; lia).
      rewrite <- (app_assoc l0). change ([x] ++ rest) with (x :: rest). split; [etrans; [exact E'|]; simpl; by rewrite <- app_assoc|]. split; [done|]. split; [done|]. split; [done|].
      split; [|intros Hc0; apply H5; by apply Forall_app in Hc0 as [? _]].
      assert (shows ([8; 32; 8] ++ echo) (l0 ++ [x], r) = shows echo (l0, 32 :: r)) as ->; [|exact H4].
      unfold shows. rewrite foldl_app. f_equal. f_equal. by apply rubout.
    + assert (length line < room)%nat as Hlt by lia. destruct rest as [|x rest]; [rewrite length_app in Hroom; simpl in Hroom; lia|].
      rewrite (lift_ok _ _ _ (line ++ c :: rest)).
      2:{ unfold set_byte. rewrite (zlookup_app_cons line x rest). by rewrite zinsert_app. }
      rewrite (bind_ok _ _ _ _ _ (say_char c s1 Hc)).
      destruct (IH (line ++ [c]) rest (drop 1 r) (Term (t_out s1 ++ [c]) k1) k' fuel Ht1 He) as (rest' & echo & E' & H1 & H2 & H3 & H4 & H5);
        [rewrite length_app; simpl; lia|rewrite !length_app in *; simpl in *; lia|lia|].
      exists rest', (c :: echo). replace (zlen line + 1) with (zlen (line ++ [c])) by (unfold zlen; rewrite length_app; simpl; lia).
      replace (line ++ c :: rest) with ((line ++ [c]) ++ rest) by by rewrite <- app_assoc.
      split; [etrans; [exact E'|]; simpl; by rewrite <- app_assoc|]. split; [rewrite H1, !length_app; simpl; lia|]. split; [|split; [done|split]].
      * rewrite H2, <- app_assoc. simpl. by rewrite !drop_app_ge by lia; replace (room - length line)%nat with (S (room - length line - 1)) by lia.
      * apply orb_false_iff in Hb as [Hb%Z.eqb_neq _]. unfold shows in *. cbn [foldl]. unfold term_step at 2 4. rewrite (proj2 (Z.eqb_neq c 8) Hb). exact H4.
      * intros Hc0. apply H5. apply Forall_app. split; [done|]. apply Forall_singleton. lia.
Qed.

Lemma getline_ok os line buf max_len s k' fuel :
  types (t_kern s) os k' → edit (Z.to_nat (max_len - 1)) [] os = Some line → 1 ≤ max_len ≤ zlen buf → (length os < fuel)%nat →
  ∃ buf' echo, getline fuel buf max_len s = Ok (buf', Term (t_out s ++ echo) k')
    ∧ cstring buf' line ∧ zlen line < max_len ∧ length buf' = length buf ∧ drop (Z.to_nat max_len) buf' = drop (Z.to_nat max_len) buf
    ∧ (shows echo ([], []) = line ∨ shows echo ([], []) = line ++ [10]).
Proof.
  intros Ht He Hm Hf. unfold zlen in Hm. set (room := Z.to_nat (max_len - 1)) in *.
  destruct (getline_loop_ok room os line [] buf [] s k' fuel Ht He) as (rest & echo & E & H1 & H2 & H3 & H4 & H5); [simpl; lia|simpl; lia|lia|].
  simpl app in *. unfold getline. replace max_len with (Z.of_nat room + 1) by lia. rewrite (bind_ok _ _ _ _ _ E). cbn [fst snd].
  destruct rest as [|x rest]; [rewrite app_nil_r in H1; lia|]. exists (line ++ 0 :: rest), echo.
  unfold set_byte. rewrite zlookup_app_cons, zinsert_app. split; [done|]. split; [split; [apply H5; constructor|by exists rest]|].
  split; [unfold zlen; lia|]. split; [rewrite <- H1, !length_app; done|]. split; [|done].
  replace (Z.to_nat (Z.of_nat room + 1)) with (S room) by lia. rewrite <- !(Nat.add_1_r room), <- !drop_drop, <- H2, !drop_drop.
  rewrite !drop_app_ge by lia. by replace (room + 1 - length line)%nat with (S (room - length line)) by lia.
Qed.

(** C17: whatever is typed, [getline] refines a line editor: it waits while no key is
    there, ends at the first newline or when the line is full, and the buffer then holds
    exactly the edited line with its NUL, behind which at most its first [max_len] bytes
    have changed; the terminal shows the same line left of the cursor, backspaces
    included. *)
Theorem getline_edits os line buf max_len s k' fuel :
  types (t_kern s) os k' → edit (Z.to_nat (max_len - 1)) [] os = Some line → 1 ≤ max_len ≤ zlen buf → (length os < fuel)%nat →
  ∃ buf' echo, getline fuel buf max_len s = Ok (buf', Term (t_out s ++ echo) k')
    ∧ cstring buf' line ∧ zlen line < max_len ∧ length buf' = length buf ∧ drop (Z.to_nat max_len) buf' = drop (Z.to_nat max_len) buf
    ∧ (shows echo ([], []) = line ∨ shows echo ([], []) = line ++ [10]).
Proof. apply getline_ok. Qed.

(** ** Words *)

(** [strtok_cut] is the third loop of [strtok_r], but forgets the end of the text. *)
Lemma strtok_cut_token fuel buf i delim b q :
  cut_token fuel buf i delim = Ok (b, q) →
  strtok_cut fuel buf i delim = Ok (b, Some q) ∨ (strtok_cut fuel buf i delim = Ok (b, None) ∧ nth_byte b q = Ok 0).
Proof.
  revert i. induction fuel as [|fuel IH]; intros i; cbn [cut_token strtok_cut]; [done|].
  destruct (nth_byte buf i) as [c|] eqn:Ec; [|done]. cbn [mbind res_bind]. destruct (Z.eqb_spec c 0) as [->|Hc].
  { intros [= <- <-]. by right. }
  destruct (is_delim c delim) as [[]|]; cbn [mbind res_bind]; [|by apply IH|done]. intros [= <- <-]. by left.
Qed.

(** What [strtok] goes on with: a position, or nothing at the end of the text [r]. *)
Definition resumes (backup : option Z) (at_ : Z) (r : list Z) : Prop := backup = Some at_ ∨ (backup = None ∧ r = []).

Lemma strtok_spec delim ds pre r post str backup :
  cstring delim ds → chars_ok r → resumes (match str with Some q => Some q | None => backup end) (zlen pre) r → let p := is_sep ds in
  (words p r = [] ∧ strtok (pre ++ r ++ 0 :: post) str delim backup = Ok (pre ++ r ++ 0 :: post, None, None))
  ∨ ∃ d w tail r' backup', words p r = w :: words p r' ∧ chars_ok w ∧ chars_ok r' ∧ (length r' < length r)%nat
      ∧ strtok (pre ++ r ++ 0 :: post) str delim backup = Ok ((pre ++ d ++ w ++ tail) ++ r' ++ 0 :: post, Some (zlen pre + zlen d), backup')
      ∧ resumes backup' (zlen (pre ++ d ++ w ++ tail)) r' ∧ (tail = [0] ∨ tail = [] ∧ r' = []) ∧ length (d ++ w ++ tail ++ r') = length r.
Proof.
  intros Hd Hr Hb p. unfold strtok. destruct Hb as [->|[-> ->]]; [|left; done].
  destruct (strtok_r_spec delim ds Hd pre r post (Some (zlen pre)) 0 Hr eq_refl) as [(Hw & _ & E)|(d & w & ws & tail & r' & Hw & Hws & Hwo & Hro & Hne & Hl & E & _ & _ & Ht)];
    unfold strtok_r in E; set (buf := pre ++ r ++ 0 :: post) in *;
    (destruct (skip_delims _ buf (zlen pre) delim) as [t|]; [|done]); cbn [mbind res_bind] in *;
    (destruct (nth_byte buf t) as [c|]; [|done]); cbn [mbind res_bind] in *; destruct (c =? 0); try done.
  - left. split; [done|]. by injection E as ->.
  - destruct (cut_token _ buf t delim) as [[b q]|]; [|done]. by injection E.
  - destruct (cut_token _ buf t delim) as [[b q]|] eqn:Ec; [|done]. cbn [mbind res_bind fst snd] in E. injection E as -> -> ->.
    right. destruct (strtok_cut_token _ _ _ _ _ _ Ec) as [E|[E E0]]; rewrite E; cbn [mbind res_bind fst snd];
      eexists d, w, tail, r', _; (split; [unfold p; by rewrite Hws|]); do 3 (split; [done|]); (split; [done|]).
    + split; [by left|]. split; [destruct Ht as [[-> _]|(-> & -> & _)]; auto|].
      destruct Ht as [[-> (x & _ & ->)]|(-> & -> & ->)]; rewrite !length_app; simpl; lia.
    + split; [right; split; [done|]|split; [destruct Ht as [[-> _]|(-> & -> & _)]; auto|]].
      * destruct r' as [|x r']; [done|]. change ((x :: r') ++ 0 :: post) with (x :: r' ++ 0 :: post) in E0. rewrite nth_byte_app in E0. injection E0 as ->. by apply Forall_cons in Hro as [? _].
      * destruct Ht as [[-> (x & _ & ->)]|(-> & -> & ->)]; rewrite !length_app; simpl; lia.
Qed.

(** The entries of [args] from [m] on are the words [ws], in what has become of the line. *)
Record parsed (buf : list Z) (args : list (option Z)) (m n : nat) (ws : list (list Z)) (buf' : list Z) (args' : list (option Z)) : Prop := {
  pd_len : length buf' = length buf;
  pd_args : length args' = length args;
  pd_word i u : take n ws !! i = Some u → ∃ a, args' !! (m + i)%nat = Some (Some a) ∧ cstring (drop (Z.to_nat a) buf') u;
  pd_other i : (i < m)%nat ∨ (m + length (take n ws) ≤ i)%nat → args' !! i = args !! i
}.

Lemma parse_none n buf args argc backup : parse_args n buf None args argc backup = Ok (buf, args, argc, backup).
Proof. by destruct n. Qed.

Lemma string_behind pre1 w q : chars_ok w → cstring (drop (Z.to_nat (zlen pre1)) (pre1 ++ w ++ 0 :: q)) w.
Proof. intros Hw. unfold zlen. rewrite Nat2Z.id, drop_app_length. split; [done|by exists q]. Qed.

Lemma zinsert_nat {T} (l : list T) (m : nat) x : zinsert (Z.of_nat m) x l = <[m := x]> l.
Proof. unfold zinsert. by rewrite decide_True, Nat2Z.id by lia. Qed.

Lemma parse_args_ok n : ∀ pre1 w tail r post args (m : nat) backup,
  chars_ok w → chars_ok r → (tail = [0] ∨ tail = [] ∧ r = []) → (m + n)%nat = length args →
  let pre := pre1 ++ w ++ tail in let buf := pre ++ r ++ 0 :: post in let ws := w :: words (is_sep [32]) r in
  resumes backup (zlen pre) r →
  ∃ buf' args' backup', parse_args n buf (Some (zlen pre1)) args (Z.of_nat m) backup = Ok (buf', args', Z.of_nat (m + length (take n ws)), backup')
    ∧ parsed buf args m n ws buf' args' ∧ ∃ q, buf' = pre ++ q.
Proof.
  induction n as [|n IH]; intros pre1 w tail r post args m backup Hw Hr Ht Hm pre buf ws Hb.
  { exists buf, args, backup. cbn [parse_args take length]. rewrite Nat.add_0_r. split; [done|]. split; [|by eexists]. constructor; try done. }
  cbn [parse_args]. rewrite zinsert_nat. replace (Z.of_nat m + 1) with (Z.of_nat (S m)) by lia.
  destruct (strtok_spec (lit " ") [32] pre r post None backup) as [[Hn E]|(d & w2 & tail2 & r' & backup' & Hn & Hw2 & Hr' & _ & E & Hb' & Ht' & Hlen)]; try done.
  { apply (cstring_lit [32]). by repeat constructor. }
  - fold buf in E. rewrite E. cbn [mbind res_bind fst snd]. rewrite parse_none. exists buf, (<[m := Some (zlen pre1)]> args), None. unfold ws. rewrite Hn. simpl length.
    rewrite take_nil. simpl length. replace (m + 1)%nat with (S m) by lia. split; [done|]. split; [|by eexists]. constructor; try done.
    + by rewrite length_insert.
    + intros i u Hi. simpl in Hi. rewrite take_nil in Hi. destruct i; [|done]. injection Hi as <-. exists (zlen pre1). rewrite Nat.add_0_r, list_lookup_insert_eq by lia. split; [done|].
      unfold buf, pre. destruct Ht as [->|[-> ->]]; rewrite <- !app_assoc; [|rewrite app_nil_l]; by apply string_behind.
    + intros i Hi. simpl in Hi. rewrite take_nil in Hi. simpl in Hi. apply list_lookup_insert_ne. lia.
  - fold buf in E. rewrite E. cbn [mbind res_bind fst snd].
    replace (zlen pre + zlen d) with (zlen (pre ++ d)) by apply zlen_app.
    destruct (IH (pre ++ d) w2 tail2 r' post (<[m := Some (zlen pre1)]> args) (S m) backup' Hw2 Hr') as (buf' & args' & bk & E' & [P1 P2 P3 P4] & q & Eq); try done.
    { rewrite length_insert. lia. }
    { by rewrite <- !app_assoc in *. }
    assert (((pre ++ d) ++ w2 ++ tail2) ++ r' ++ 0 :: post = (pre ++ d ++ w2 ++ tail2) ++ r' ++ 0 :: post) as Eb by by rewrite <- !app_assoc.
    rewrite Eb in E'. exists buf', args', bk. split; [rewrite E'; unfold ws; rewrite Hn; simpl; do 3 f_equal; lia|]. split; [|exists (d ++ w2 ++ tail2 ++ q); rewrite Eq; by rewrite <- !app_assoc].
    assert (tail = [0]) as ->. { destruct Ht as [?|[_ ->]]; [done|]. destruct d, w2, tail2, r'; done. }
    constructor.
    + rewrite P1. unfold buf. rewrite !length_app in *. simpl in *. lia.
    + by rewrite P2, length_insert.
    + intros [|i] u Hi.
      * injection Hi as <-. exists (zlen pre1). rewrite Nat.add_0_r, P4, list_lookup_insert_eq by lia. split; [done|].
        rewrite Eq. unfold pre. rewrite <- !app_assoc. by apply string_behind.
      * unfold ws in Hi. simpl in Hi. rewrite Hn in Hi. replace (m + S i)%nat with (S m + i)%nat by lia. by apply P3.
    + intros i Hi. unfold ws in Hi. simpl in Hi. rewrite Hn in Hi. rewrite P4 by lia. apply list_lookup_insert_ne. lia.
Qed.

(** ** Commands by their words *)

(** Two places hold the same string. *)
Definition same_string (a b : list Z) : Prop := ∃ u, cstring a u ∧ cstring b u.

Lemma same_read a b : same_string a b → read_string a = read_string b.
Proof. intros (u & Ha & Hb). by rewrite (read_string_spec a u Ha), (read_string_spec b u Hb). Qed.

Lemma same_open a b fl s : same_string a b → open a fl s = open b fl s.
Proof. intros H. unfold open. by rewrite (same_read a b H). Qed.

Lemma same_printf a b fmt : same_string a b → ∀ buf o, printf_loop fmt [PStr (Some a)] buf o = printf_loop fmt [PStr (Some b)] buf o.
Proof.
  intros (u & Ha & Hb). induction fmt as [fmt IH] using (well_founded_induction (Wf_nat.well_founded_ltof _ (@length Z))). intros buf o.
  destruct fmt as [|c fmt]; [done|]. cbn [printf_loop]. destruct (c =? 0); [done|]. destruct (negb (c =? 37)).
  { cbv [mbind M_bind putchar UserLib.write modify]. apply IH. unfold Wf_nat.ltof. simpl. lia. }
  destruct fmt as [|c' fmt]; [done|]. unfold convert. destruct (c' =? 99); [done|]. destruct (c' =? 115).
  - unfold next_str, mret, M_ret. cbv [mbind M_bind]. cbn [fst snd]. by rewrite (put_str_spec a u), (put_str_spec b u).
  - destruct (c' =? 100); [done|]. destruct (c' =? 120); [done|]. cbv [mbind M_bind mret M_ret putchar UserLib.write modify]. cbn [fst snd].
    apply IH. unfold Wf_nat.ltof. simpl. lia.
Qed.

Lemma same_say fmt a b s : same_string a b → say fmt [PStr (Some a)] s = say fmt [PStr (Some b)] s.
Proof. intros H. unfold say, zoom, printf. by rewrite (same_printf a b fmt H). Qed.

Lemma same_atoi_loop a b u : cstring a u → cstring b u → ∀ r, atoi_loop a r = atoi_loop b r.
Proof.
  revert a b. induction u as [|c u IH]; intros a b Ha Hb r; apply cstring_inv in Ha as [(t & -> & E)|(c1 & a' & u1 & -> & E & H1 & Ha)]; try done;
    apply cstring_inv in Hb as [(t' & -> & E')|(c2 & b' & u2 & -> & E' & H2 & Hb)]; try done.
  simplify_eq. cbn [atoi_loop]. rewrite (proj2 (Z.eqb_neq _ 0) H1). case_match; by apply IH.
Qed.

Lemma same_atoi a b : same_string a b → atoi a = atoi b.
Proof.
  intros (u & Ha & Hb). pose proof (same_atoi_loop a b u Ha Hb 0) as Hl.
  apply cstring_inv in Ha as [(t & -> & E)|(c1 & a' & u1 & -> & E & H1 & Ha)]; apply cstring_inv in Hb as [(t' & -> & E')|(c2 & b' & u2 & -> & E' & H2 & Hb)];
    simplify_eq; try done. unfold atoi. by rewrite Hl, (same_atoi_loop a' b' u2 Ha Hb).
Qed.

(** The commands do not look behind the end of their argument. *)
Lemma same_ls fuel a b s : same_string a b → cmd_ls junk fuel (Some a) s = cmd_ls junk fuel (Some b) s.
Proof.
  intros H. unfold cmd_ls. cbv [mbind M_bind]. cbn [from_option id]. rewrite (same_open a b 0 s H). destruct (open b 0 s) as [[fd s1]|]; [|done].
  destruct (fd <? 0); [by apply same_say|done].
Qed.
Lemma same_cd a b s : same_string a b → cmd_cd (Some a) s = cmd_cd (Some b) s.
Proof.
  intros H. unfold cmd_cd, chdir. cbn [from_option id]. rewrite (same_read a b H). cbv [mbind M_bind].
  repeat case_match; try done. by apply same_say.
Qed.
Lemma same_mkdir a b s : same_string a b → cmd_mkdir a s = cmd_mkdir b s.
Proof. intros H. unfold cmd_mkdir, mkdir. by rewrite (same_read a b H). Qed.
Lemma same_cat fuel a b s : same_string a b → cmd_cat junk fuel a s = cmd_cat junk fuel b s.
Proof. intros H. unfold cmd_cat. cbv [mbind M_bind]. by rewrite (same_open a b 0 s H). Qed.
Lemma same_touch a b s : same_string a b → cmd_touch a s = cmd_touch b s.
Proof. intros H. unfold cmd_touch. cbv [mbind M_bind]. by rewrite (same_open a b 64 s H). Qed.
Lemma same_run fuel a b s : same_string a b → cmd_run junk fuel (Some a) s = cmd_run junk fuel (Some b) s.
Proof. intros H. unfold cmd_run. by rewrite (same_atoi a b H). Qed.

(** The interpreter of words: what a line of the words [ws] means.  The answer is what
    [cwd_buf] holds then. *)
Definition word (ws : list (list Z)) (i : nat) : list Z := default [] (ws !! i) ++ [0].
Definition keep {R} (m : M (term K) unit) (r : R) : M (term K) R := m;; mret r.

(** What [args[1]] is for a line of the words [ws]: the second word, or else the string
    that the entry [args] kept from the rounds before points to in the new line. *)
Definition argument (args : list (option Z)) (line : list Z) (ws : list (list Z)) : M (term K) (list Z) :=
  match ws !! 1%nat with
  | Some _ => mret (word ws 1)
  | None =>
    a ← or_crash OutOfBounds (zlookup args 1);
    p ← or_crash PageFault a;
    mret (drop (Z.to_nat p) line)
  end.

Definition echo_words (ws : list (list Z)) (arg1 : M (term K) (list Z)) : M (term K) unit :=
  if bool_decide (4 ≤ length ws)%nat && bool_decide (ws !! 2%nat = Some (chars ">")) then
    fd ← open (word ws 3) 64;
    if 0 <=? fd then write fd (word ws 1) (zlen (word ws 1) - 1);; write fd [10] 1;; close fd;; mret tt else mret tt
  else a ← arg1; say (ln "%s") [PStr (Some a)].

Definition command (fuel : nat) (cwd : list Z) (ws : list (list Z)) (arg1 : M (term K) (list Z)) : M (term K) (list Z) :=
  match ws with
  | [] => mret cwd
  | w :: _ =>
    if decide (w = chars "help") then keep cmd_help cwd
    else if decide (w = chars "ls") then keep (a ← arg1; cmd_ls junk fuel (Some a)) cwd
    else if decide (w = chars "cd") then keep (a ← arg1; cmd_cd (Some a)) cwd
    else if decide (w = chars "pwd") then
      r ← getcwd cwd 128; keep (if negb (r.1 =? 0) then say (ln "%s") [PStr (Some r.2)] else mret tt) r.2
    else if decide (w = chars "mkdir") then keep (a ← arg1; cmd_mkdir a) cwd
    else if decide (w = chars "cat") then keep (a ← arg1; cmd_cat junk fuel a) cwd
    else if decide (w = chars "touch") then keep (a ← arg1; cmd_touch a) cwd
    else if decide (w = chars "echo") then keep (echo_words ws arg1) cwd
    else if decide (w = chars "clear") then keep clear_screen cwd
    else if decide (w = chars "exit") then keep (exit 0) cwd
    else if decide (w = chars "run") then keep (a ← arg1; cmd_run junk fuel (Some a)) cwd
    else keep (say (ln "Unknown command: %s") [PStr (Some (word ws 0))]) cwd
  end.

(** [v] holds the words [ws] in [args]. *)
Definition holds (v : vars) (ws : list (list Z)) : Prop :=
  ∀ i u, ws !! i = Some u → ∃ a, args v !! i = Some (Some a) ∧ cstring (drop (Z.to_nat a) (input v)) u.

Lemma arg_ok v ws i u s : holds v ws → ws !! i = Some u → ∃ a, arg v (Z.of_nat i) s = Ok (a, s) ∧ cstring a u.
Proof.
  intros Hv Hi. destruct (Hv i u Hi) as (a & Ha & Hc). exists (drop (Z.to_nat a) (input v)). split; [|done].
  unfold arg, zlookup, or_crash. rewrite decide_True, Nat2Z.id by lia. cbv [mbind M_bind]. by rewrite Ha.
Qed.

Lemma word_string ws i u : ws !! i = Some u → chars_ok u → cstring (word ws i) u.
Proof. intros E Hu. unfold word. rewrite E. by apply cstring_lit. Qed.

Lemma arg_same v ws i u s : holds v ws → ws !! i = Some u → ∃ a, arg v (Z.of_nat i) s = Ok (a, s) ∧ same_string a (word ws i).
Proof.
  intros Hv Hi. destruct (arg_ok v ws i u s Hv Hi) as (a & E & Hc). exists a. split; [done|]. exists u. split; [done|].
  apply word_string; [done|]. apply Hc.
Qed.

Lemma is_cmd_ok a u (name : string) s : cstring a u → chars_ok (chars name) → is_cmd a name s = Ok (bool_decide (u = chars name), s).
Proof.
  intros Ha Hn. destruct (strcmp_eq a (lit name) u (chars name) Ha) as (r & E & Hr); [by apply cstring_lit|].
  unfold is_cmd. rewrite (lift_ok _ _ _ r E). unfold mret, M_ret. do 2 f_equal.
  destruct (Z.eqb_spec r 0) as [->|Hne]; symmetry; [apply bool_decide_eq_true; by apply Hr|apply bool_decide_eq_false; by intros ?%Hr].
Qed.

(** What a round goes on with. *)
Definition with_cwd (v : vars) (cwd : list Z) : M (term K) vars := mret (Vars (input v) (args v) cwd (strtok_backup v)).

Lemma keep_round v (m : M (term K) unit) s : (m;; mret v) s = (keep m (cwd_buf v) ≫= with_cwd v) s.
Proof. unfold keep, with_cwd. cbv [mbind M_bind mret M_ret]. destruct (m s) as [[]|]; [by destruct v|done]. Qed.

Lemma arg_second v ws {R} (f : list Z → M (term K) R) s :
  (∀ a b s, same_string a b → f a s = f b s) → holds v ws →
  (a ← arg v 1; f a) s = (a ← argument (args v) (input v) ws; f a) s.
Proof.
  intros Hf Hv. unfold argument. destruct (ws !! 1%nat) as [u|] eqn:Hu; [|done].
  destruct (arg_same v ws 1 u s Hv Hu) as (a & E & Hs). rewrite (bind_ok _ _ _ _ _ E). by apply Hf.
Qed.

Lemma arg_round v ws (f : list Z → M (term K) unit) s :
  (∀ a b s, same_string a b → f a s = f b s) → holds v ws →
  (a ← arg v 1; f a;; mret v) s = (keep (a ← argument (args v) (input v) ws; f a) (cwd_buf v) ≫= with_cwd v) s.
Proof.
  intros Hf Hv. rewrite <- keep_round. change ((a ← arg v 1; f a;; mret v) s = ((a ← argument (args v) (input v) ws; f a);; mret v) s).
  rewrite bind_assoc. apply arg_second; [|done]. intros a b s' Hs. cbv [mbind M_bind]. by rewrite (Hf a b s' Hs).
Qed.

Lemma is_cmd_branch a u (name : string) (X Y : M (term K) vars) (A B : M (term K) (list Z)) (f : list Z → M (term K) vars) s :
  cstring a u → chars_ok (chars name) → (u = chars name → X s = (A ≫= f) s) → (u ≠ chars name → Y s = (B ≫= f) s) →
  (b ← is_cmd a name; if b : bool then X else Y) s = ((if decide (u = chars name) then A else B) ≫= f) s.
Proof.
  intros Ha Hn HX HY. rewrite (bind_ok _ _ _ _ _ (is_cmd_ok a u name s Ha Hn)).
  destruct (decide (u = chars name)) as [Hu|Hu]; [rewrite bool_decide_eq_true_2 by done; by apply HX|rewrite bool_decide_eq_false_2 by done; by apply HY].
Qed.

Lemma same_write fd a b u s : cstring a u → cstring b u → zlen u < 2 ^ 64 → write_string fd a s = write fd b (zlen u) s.
Proof.
  intros Ha Hb Hl. unfold write_string, UserLib.strlen. rewrite (lift_ok _ _ _ _ (strlen_spec a u Ha Hl)). unfold write.
  destruct Ha as [_ [ta ->]], Hb as [_ [tb ->]]. unfold zlen. by rewrite Nat2Z.id, !take_app_length.
Qed.

Lemma holds_chars v ws i u : holds v ws → ws !! i = Some u → chars_ok u.
Proof. intros Hv Hi. destruct (Hv i u Hi) as (a & _ & [H _]). exact H. Qed.

Lemma echo_round v ws s :
  holds v ws → Forall (λ w, zlen w < 2 ^ 64) ws → cmd_echo v (zlen ws) s = echo_words ws (argument (args v) (input v) ws) s.
Proof.
  intros Hv Hlen. unfold cmd_echo, echo_words.
  assert (∀ s, (a ← arg v 1; say (ln "%s") [PStr (Some a)]) s = (a ← argument (args v) (input v) ws; say (ln "%s") [PStr (Some a)]) s) as Hsay.
  { intros s'. apply arg_second; [|done]. intros a b s2 Hs. by apply same_say. }
  destruct (Z.leb_spec 4 (zlen ws)) as [H4|H4]; unfold zlen in H4.
  - destruct (lookup_lt_is_Some_2 ws 1) as [u Hu]; [lia|]. destruct (arg_same v ws 1 u s Hv Hu) as (a1 & E1 & Hs1).
    assert (chars_ok u) as Hcu by by eapply holds_chars.
    rewrite (bool_decide_eq_true_2 (4 ≤ length ws)%nat) by lia. cbn [andb].
    destruct (lookup_lt_is_Some_2 ws 2) as [u2 Hu2]; [lia|]. destruct (lookup_lt_is_Some_2 ws 3) as [u3 Hu3]; [lia|].
    destruct (arg_ok v ws 2 u2 s Hv Hu2) as (a2 & E2 & Hc2). change (Z.of_nat 2) with 2 in E2.
    assert ((a2 ← arg v 2; is_cmd a2 ">") s = Ok (bool_decide (u2 = chars ">"), s)) as E.
    { rewrite (bind_ok _ _ _ _ _ E2). apply is_cmd_ok; [done|]. by repeat constructor. }
    rewrite (bind_ok _ _ _ _ _ E).
    assert (bool_decide (ws !! 2%nat = Some (chars ">")) = bool_decide (u2 = chars ">")) as -> by (apply bool_decide_ext; rewrite Hu2; split; [by intros [=]|by intros ->]).
    destruct (bool_decide (u2 = chars ">")); [|apply Hsay]. change (Z.of_nat 1) with 1 in E1. rewrite (bind_ok _ _ _ _ _ E1).
    destruct (arg_same v ws 3 u3 s Hv Hu3) as (a3 & E3 & Hs3). change (Z.of_nat 3) with 3 in E3. rewrite (bind_ok _ _ _ _ _ E3).
    cbv [mbind M_bind]. rewrite (same_open a3 _ 64 s Hs3). destruct (open (word ws 3) 64 s) as [[fd s1]|]; [|done]. destruct (0 <=? fd); [|done].
    assert (zlen (word ws 1) - 1 = zlen u) as -> by (unfold word, zlen; rewrite Hu, length_app; simpl; lia).
    destruct Hs1 as (u' & Ha1 & Hb1). pose proof (cstring_unique _ _ _ Hb1 (word_string ws 1 u Hu Hcu)) as ->.
    rewrite (same_write fd a1 (word ws 1) u s1 Ha1 Hb1); [done|]. exact (Forall_lookup_1 _ ws 1%nat u Hlen Hu).
  - rewrite (bool_decide_eq_false_2 (4 ≤ length ws)%nat) by lia. cbn [andb]. rewrite (bind_ok _ _ _ _ _ (eq_refl : (mret false : M (term K) bool) s = Ok (false, s))).
    apply Hsay.
Qed.

(** The dispatch does what the words say. *)
Lemma dispatch_words fuel v ws s :
  holds v ws → ws ≠ [] → Forall (λ w, zlen w < 2 ^ 64) ws →
  dispatch junk fuel v (zlen ws) s = (command fuel (cwd_buf v) ws (argument (args v) (input v) ws) ≫= with_cwd v) s.
Proof.
  intros Hv Hne Hlen. destruct ws as [|w ws]; [done|]. destruct (arg_ok v _ 0 w s Hv eq_refl) as (a & E & Hc). change (Z.of_nat 0) with 0 in E.
  assert (same_string a (word (w :: ws) 0)) as Hs0 by (exists w; split; [done|]; apply word_string; [done|apply Hc]).
  unfold dispatch. rewrite (bind_ok _ _ _ _ _ E). unfold command.
  assert (∀ f : list Z → M (term K) unit, (∀ a b s, same_string a b → f a s = f b s) →
    (a ← arg v 1; f a;; mret v) s = (keep (a ← argument (args v) (input v) (w :: ws); f a) (cwd_buf v) ≫= with_cwd v) s) as Harg
    by (intros f Hf; by apply arg_round).
  apply is_cmd_branch; [done|by repeat constructor|intros _; apply keep_round|intros _].
  apply is_cmd_branch; [done|by repeat constructor|intros _; apply Harg; intros; by apply same_ls|intros _].
  apply is_cmd_branch; [done|by repeat constructor|intros _; apply (Harg (λ a, cmd_cd (Some a))); intros; by apply same_cd|intros _].
  apply is_cmd_branch; [done|by repeat constructor|intros _|intros _].
  { unfold cmd_pwd, keep, with_cwd. cbv [mbind M_bind mret M_ret]. repeat case_match; by simplify_eq. }
  apply is_cmd_branch; [done|by repeat constructor|intros _; apply Harg; intros; by apply same_mkdir|intros _].
  apply is_cmd_branch; [done|by repeat constructor|intros _; apply Harg; intros; by apply same_cat|intros _].
  apply is_cmd_branch; [done|by repeat constructor|intros _; apply Harg; intros; by apply same_touch|intros _].
  apply is_cmd_branch; [done|by repeat constructor|intros _|intros _].
  { rewrite <- keep_round. cbv [mbind M_bind]. by rewrite (echo_round v _ s Hv Hlen). }
  apply is_cmd_branch; [done|by repeat constructor|intros _; apply keep_round|intros _].
  apply is_cmd_branch; [done|by repeat constructor|intros _; apply keep_round|intros _].
  apply is_cmd_branch; [done|by repeat constructor|intros _; apply (Harg (λ a, cmd_run junk fuel (Some a))); intros; by apply same_run|intros _].
  rewrite <- keep_round. cbv [mbind M_bind]. by rewrite (same_say _ a _ s Hs0).
Qed.

(** The arrays have their sizes. *)
Record vars_ok (v : vars) : Prop := { vo_input : zlen (input v) = MAX_CMD_LEN; vo_args : zlen (args v) = MAX_ARGS }.

Lemma prompt_keeps v s v1 s1 : prompt v s = Ok (v1, s1) → input v1 = input v ∧ args v1 = args v ∧ strtok_backup v1 = strtok_backup v.
Proof. unfold prompt. cbv [mbind M_bind mret M_ret]. repeat case_match; try done; by intros [= <- <-]. Qed.

Lemma holds_short v ws : vars_ok v → holds v ws → Forall (λ w, zlen w < 2 ^ 64) ws.
Proof.
  intros [Hi _] Hv. apply Forall_lookup. intros i u Hu. destruct (Hv i u Hu) as (a & _ & _ & t & E).
  assert (length (drop (Z.to_nat a) (input v)) = length (u ++ 0 :: t)) as El by by rewrite E. rewrite length_drop, length_app in El. simpl in El.
  unfold zlen, MAX_CMD_LEN in *. lia.
Qed.

(** From the text of the line to the words in [args]. *)
Lemma parse_line (line post : list Z) (args : list (option Z)) backup :
  chars_ok line → length args = 16%nat → let ws := take 16 (words (is_sep [32]) line) in let buf := line ++ 0 :: post in
  ∃ r p, strtok buf (Some 0) (lit " ") backup = Ok r ∧ parse_args (Z.to_nat MAX_ARGS) r.1.1 r.1.2 args 0 r.2 = Ok p
    ∧ p.1.2 = zlen ws ∧ length p.1.1.1 = length buf ∧ length p.1.1.2 = length args
    ∧ (∀ i u, ws !! i = Some u → ∃ a, p.1.1.2 !! i = Some (Some a) ∧ cstring (drop (Z.to_nat a) p.1.1.1) u)
    ∧ ∀ i, (length ws ≤ i)%nat → p.1.1.2 !! i = args !! i.
Proof.
  intros Hl Ha ws buf. destruct (strtok_spec (lit " ") [32] [] line post (Some 0) backup) as [[Hn E]|(d & w & tail & r' & bk & Hn & Hw & Hr & _ & E & Hb & Ht & Hlen)];
    [by apply (cstring_lit [32]); repeat constructor|done|by left|..]; change ([] ++ ?x) with x in E; change (zlen (@nil Z)) with 0 in E.
  - eexists _, _. split; [exact E|]. cbn [fst snd]. split; [by rewrite parse_none|]. unfold ws. by rewrite Hn.
  - replace (0 + zlen d) with (zlen d) in E by lia.
    destruct (parse_args_ok 16 d w tail r' post args 0 bk Hw Hr Ht) as (buf' & args' & bk' & E' & [P1 P2 P3 P4] & _); [by rewrite Ha|done|].
    eexists _, _. split; [exact E|]. cbn [fst snd]. split; [exact E'|]. cbn [fst snd]. rewrite <- Hn in *. fold ws in P3, P4.
    split; [done|]. split; [|split; [done|split; [exact P3|intros i Hi; apply P4; by right]]].
    rewrite P1. unfold buf. rewrite !length_app in *. simpl in *. lia.
Qed.

(** C15: a round of the shell refines the interpreter of words: whatever line the keys
    edit, with whatever runs of blanks, the round behind the prompt is [command] on the
    first sixteen words of it.  [args] then holds these words as C strings in the line
    buffer, the entries behind them are those of the rounds before, and the arrays keep
    their sizes.  A command that wants an argument and has none takes what the entry of
    a round before points to in the new line, or faults if there was none. *)
Theorem shell_round_runs v s v1 s1 os line k' fuel :
  prompt v s = Ok (v1, s1) → vars_ok v → types (t_kern s1) os k' → edit 255 [] os = Some line → (length os < fuel)%nat →
  let ws := take 16 (words (is_sep [32]) line) in
  ∃ echo v2, shell_round junk fuel v s
      = (command fuel (cwd_buf v1) ws (argument (args v) (input v2) ws) ≫= with_cwd v2) (Term (t_out s1 ++ echo) k')
    ∧ vars_ok v2 ∧ holds v2 ws ∧ (∀ i, (length ws ≤ i)%nat → args v2 !! i = args v !! i)
    ∧ (shows echo ([], []) = line ∨ shows echo ([], []) = line ++ [10]).
Proof.
  intros Hp [V1 V2] Ht He Hf ws. destruct (prompt_keeps _ _ _ _ Hp) as (P1 & P2 & P3).
  destruct (getline_ok os line (input v) MAX_CMD_LEN s1 k' fuel Ht He) as (buf & echo & E & Hcs & Hlt & Hlen & _ & Hecho); [rewrite V1; unfold MAX_CMD_LEN; lia|done|].
  unfold shell_round. rewrite (bind_ok _ _ _ _ _ Hp), P1, (bind_ok _ _ _ _ _ E). set (s2 := Term _ _). unfold MAX_CMD_LEN in *.
  unfold UserLib.strlen. rewrite (lift_ok _ _ _ _ (strlen_spec buf line Hcs ltac:(lia))). exists echo.
  destruct (Z.eqb_spec (zlen line) 0) as [Hz|Hz].
  { assert (line = []) as El by (destruct line; [done|unfold zlen in Hz; simpl in Hz; lia]). unfold ws. rewrite El in *.
    exists (Vars buf (args v1) (cwd_buf v1) (strtok_backup v1)). rewrite P2. split; [done|]. split; [|done]. constructor; [unfold zlen, MAX_CMD_LEN in *; simpl; lia|done]. }
  destruct Hcs as [Hl [post Eb]]. destruct (parse_line line post (args v) (strtok_backup v) Hl) as (r & p & E1 & E2 & Q1 & Q2 & Q3 & Q4 & Q5);
    [unfold zlen, MAX_ARGS in V2; lia|].
  fold ws in Q1, Q4, Q5. rewrite Eb, P2, P3. rewrite (lift_ok _ _ _ _ E1), (lift_ok _ _ _ _ E2). set (v2 := Vars _ _ _ _).
  exists v2. assert (vars_ok v2) as Hv2 by (constructor; unfold zlen, MAX_CMD_LEN in *; simpl; [rewrite Q2, <- Eb; lia|rewrite Q3; lia]).
  assert (holds v2 ws) as Hh by exact Q4. split; [|done]. rewrite Q1. destruct (Z.eqb_spec (zlen ws) 0) as [Hn|Hn].
  - clearbody ws. destruct ws; [done|]. unfold zlen in Hn. simpl in Hn. lia.
  - assert (argument (args v) (input v2) ws = argument (args v2) (input v2) ws) as ->.
    { unfold argument. destruct (ws !! 1%nat) eqn:Hu; [done|]. apply lookup_ge_None in Hu.
      assert (zlookup (args v) 1 = zlookup (args v2) 1) as ->; [|done]. symmetry. exact (Q5 1%nat Hu). }
    change (cwd_buf v1) with (cwd_buf v2). apply dispatch_words; [done| |by eapply holds_short]. intros E0. by rewrite E0 in Hn.
Qed.
End theory.

(** * Witnesses *)

(** A kernel with the keys that will be typed, in which only "x" can be opened (and is
    empty); it keeps the paths that were asked for. *)
Record keys_st := Keys { typed : list (option Z); asked : list (list Z) }.

#[export] Instance keys_sys : UserSys keys_st := {|
  raw_read fd count k :=
    match fd, typed k with
    | 0, Some c :: l => Ok ((1, [c]), Keys l (asked k))
    | 0, None :: l => Ok ((0, []), Keys l (asked k))
    | _, _ => Ok ((0, []), k)
    end;
  raw_write fd buf := mret (zlen buf);
  raw_open path flags k := Ok (if decide (path = chars "x") then 3 else -1, Keys (typed k) (asked k ++ [path]));
  raw_getdents64 fd count := mret (0, []);
  raw_getcwd size := mret (1, lit "/usr");
  raw_chdir path := mret 0;
  raw_mkdir path mode := mret 0;
  raw_exit status := mret tt;
  raw_syscall n a := mret 0;
  u_malloc n := mret 0;
  u_free p := mret tt
|}.

Definition keys (l : list Z) : list (option Z) := Some <$> l.

Lemma keys_types os a : Forall (λ o, match o with Some c => 0 < c < 256 | None => True end) os → types (Keys os a) os (Keys [] a).
Proof.
  intros H. induction H as [|[c|] os Hc _ IH]; [constructor|by eapply types_key|by eapply (types_none _ 0)].
Qed.

(** "lx", backspace, "s" and the newline, with a pause. *)
Definition ls_keys : list (option Z) := keys [108; 120] ++ [None] ++ keys [127; 115; 10].

Lemma getline_edits_witness :
  ∃ buf' echo, getline 9 (replicate 16 7) 16 (Term [] (Keys ls_keys [])) = Ok (buf', Term echo (Keys [] []))
    ∧ cstring buf' (chars "ls") ∧ shows echo ([], []) = chars "ls" ++ [10].
Proof.
  destruct (getline_edits ls_keys (chars "ls") (replicate 16 7) 16 (Term [] (Keys ls_keys [])) (Keys [] []) 9) as (b & echo & E & Hc & _ & _ & _ & Hs).
  - apply keys_types. by repeat constructor.
  - by vm_compute.
  - by vm_compute.
  - apply Nat.ltb_lt. by vm_compute.
  - exists b, echo. split; [exact E|]. split; [exact Hc|]. vm_compute in E. injection E as <- <-. by vm_compute.
Defined.

Definition fresh_vars : vars := Vars (replicate 256 7) (replicate 16 None) (replicate 128 7) None.

Lemma fresh_vars_ok : vars_ok fresh_vars.
Proof. by constructor. Qed.

Lemma shell_round_runs_witness :
  ∃ echo v2, shell_round (replicate 1024 7) 20 fresh_vars (Term [] (Keys (keys (chars "echo hi" ++ [10])) []))
      = (say (ln "%s") [PStr (Some (lit "hi"))];; mret v2) (Term (chars "root@SudoOS:/usr$ " ++ echo) (Keys [] []))
    ∧ holds v2 [chars "echo"; chars "hi"].
Proof.
  set (s := Term [] (Keys (keys (chars "echo hi" ++ [10])) [])).
  destruct (shell_round_runs (replicate 1024 7) fresh_vars s (Vars (replicate 256 7) (replicate 16 None) (lit "/usr" ++ replicate 123 7) None)
    (Term (chars "root@SudoOS:/usr$ ") (t_kern s)) (keys (chars "echo hi" ++ [10])) (chars "echo hi") (Keys [] []) 20) as (echo & v2 & E & _ & Hh & _).
  - by vm_compute.
  - apply fresh_vars_ok.
  - apply keys_types. by repeat constructor.
  - by vm_compute.
  - apply Nat.ltb_lt. by vm_compute.
  - exists echo, (Vars (input v2) (args v2) (lit "/usr" ++ replicate 123 7) (strtok_backup v2)). split; [rewrite E; by vm_compute|exact Hh].
Defined.

(** Of two rounds, "cat x" and then "ls": the second one opens "x" again, not ".". *)
Example stale_argument :
  match shell_rounds (replicate 1024 7) 2 20 fresh_vars (Term [] (Keys (keys (chars "cat x" ++ [10] ++ chars "ls" ++ [10])) [])) with
  | Ok (_, s) => asked (t_kern s) = [chars "x"; chars "x"]
  | Crash _ => False
  end.
Proof. by vm_compute. Qed.

(** In the first round "ls" passes a pointer that was never set. *)
Example unset_argument : shell_main (replicate 1024 7) 1 20 (Term [] (Keys (keys (chars "ls" ++ [10])) [])) = Crash PageFault.
Proof. by vm_compute. Qed.
