(* ===== verification/Ls.v ===== *)
(** Ls: the command [ls] of [usr/shell.c] on the RAM file system: what
    [ramfs_getdents64] writes, buffer by buffer, is what [cmd_ls] prints. *)
From S2P Require Import Prelude Layout CString Ramfs UserLib Shell.

(** * The records as bytes (struct linux_dirent64) *)

Definition le_bytes (n : nat) (x : Z) : list Z := map (λ i : nat, Z.land (Z.shiftr x (8 * Z.of_nat i)) 255) (seq 0 n).
Definition name_off : Z := 19.

(** [pad] stands for the bytes between the name and the next record, which nothing writes. *)
Definition dirent_bytes (pad : Z) (d : dirent) : list Z :=
  le_bytes 8 (d_ino d) ++ le_bytes 8 (d_off d) ++ le_bytes 2 (d_reclen d) ++ [d_type d] ++ d_name d ++ 0
    :: replicate (Z.to_nat (d_reclen d - name_off - zlen (d_name d) - 1)) pad.

(** A record as the kernel writes it. *)
Record dirent_ok (d : dirent) : Prop := {
  do_name : chars_ok (d_name d) ∧ zlen (d_name d) ≤ 31;
  do_reclen : d_reclen d = ALIGN_UP (sizeof_dirent + zlen (d_name d) + 1) 8
}.

Lemma dirent_reclen_range d : dirent_ok d → 32 ≤ d_reclen d ≤ 56 ∧ name_off + zlen (d_name d) + 1 ≤ d_reclen d.
Proof.
  intros [[_ Hn] ->]. pose proof (zlen_nonneg (d_name d)). split; [by apply reclen_bounds|].
  unfold sizeof_dirent, name_off. destruct (word_align_up (24 + zlen (d_name d) + 1)) as [Hm Hr]; [lia|lia|]. lia.
Qed.

Lemma dirent_bytes_len pad d : dirent_ok d → zlen (dirent_bytes pad d) = d_reclen d.
Proof.
  intros H. destruct (dirent_reclen_range d H) as [H1 H2]. unfold dirent_bytes, name_off, zlen in *.
  rewrite !length_app. simpl. rewrite length_replicate. lia.
Qed.

Definition reclens (ds : list dirent) : Z := foldr (λ d n, d_reclen d + n) 0 ds.

Lemma reclens_ge ds : Forall dirent_ok ds → 32 * zlen ds ≤ reclens ds.
Proof.
  intros H. induction H as [|d ds Hd _ IH]; [done|]. destruct (dirent_reclen_range d Hd). unfold reclens, zlen in *. cbn [foldr length]. lia.
Qed.

Lemma records_len pad ds : Forall dirent_ok ds → zlen (concat (map (dirent_bytes pad) ds)) = reclens ds.
Proof.
  intros H. induction H as [|d ds Hd _ IH]; [done|]. cbn [map concat]. rewrite zlen_app, dirent_bytes_len, IH by done. done.
Qed.

(** What [ls] shows of an entry: whether it is a directory, and its name. *)
Definition entry_of (d : dirent) : bool * list Z := (d_type d =? DT_DIR, d_name d).
Definition entry_text (e : bool * list Z) : list Z := if e.1 then [91] ++ e.2 ++ [93; 32; 32] else e.2 ++ [32; 32].
Definition ls_text (es : list (bool * list Z)) : list Z := concat (map entry_text es).

Section records.
  Context {K : Type} `{!UserSys K} (pad : Z).
  Implicit Types s : term K.

(** The fields of a record at [zlen pre]. *)
Lemma dirent_fields pre d post :
  dirent_ok d → let buf := pre ++ dirent_bytes pad d ++ post in let p := zlen pre in
  dirent_type buf p = Ok (d_type d) ∧ dirent_reclen buf p = Ok (d_reclen d) ∧ cstring (dirent_name buf p) (d_name d).
Proof.
  intros Hd buf p. destruct (dirent_reclen_range d Hd) as [H1 H2]. destruct Hd as [[Hc _] _].
  set (name := d_name d ++ 0 :: replicate (Z.to_nat (d_reclen d - name_off - zlen (d_name d) - 1)) pad ++ post).
  assert (buf = (pre ++ le_bytes 8 (d_ino d) ++ le_bytes 8 (d_off d)) ++ le_bytes 2 (d_reclen d) ++ d_type d :: name) as ->.
  { unfold buf, dirent_bytes, name. by rewrite <- !app_assoc. }
  set (h := pre ++ le_bytes 8 (d_ino d) ++ le_bytes 8 (d_off d)).
  assert (zlen h = p + 16) as Eh by (unfold h; rewrite !zlen_app; done).
  change (le_bytes 2 (d_reclen d)) with [Z.land (Z.shiftr (d_reclen d) 0) 255; Z.land (Z.shiftr (d_reclen d) 8) 255].
  rewrite Z.shiftr_0_r, Z.shiftr_div_pow2 by lia. change 255 with (Z.ones 8). rewrite !Z.land_ones by lia.
  rewrite (Z.mod_small (d_reclen d)), (Z.div_small (d_reclen d)), (Z.mod_small 0) by lia.
  set (a := d_reclen d). cbn [app].
  assert (nth_byte (h ++ a :: 0 :: d_type d :: name) (p + 16) = Ok a) as E1 by (rewrite <- Eh; apply nth_byte_app).
  assert (nth_byte (h ++ a :: 0 :: d_type d :: name) (p + 17) = Ok 0) as E2.
  { replace (p + 17) with (zlen (h ++ [a])) by (rewrite zlen_app, Eh; unfold zlen; simpl; lia). change (h ++ a :: 0 :: d_type d :: name) with (h ++ [a] ++ 0 :: d_type d :: name). rewrite app_assoc. apply nth_byte_app. }
  assert (nth_byte (h ++ a :: 0 :: d_type d :: name) (p + 18) = Ok (d_type d)) as E3.
  { replace (p + 18) with (zlen (h ++ [a; 0])) by (rewrite zlen_app, Eh; unfold zlen; simpl; lia). change (h ++ a :: 0 :: d_type d :: name) with (h ++ [a; 0] ++ d_type d :: name). rewrite app_assoc. apply nth_byte_app. }
  split; [exact E3|]. split; [unfold dirent_reclen; rewrite E1; cbn [mbind res_bind]; rewrite E2; cbn [mbind res_bind]; f_equal; lia|].
  unfold dirent_name. replace (Z.to_nat (p + 19)) with (length (h ++ [a; 0; d_type d])) by (rewrite length_app; simpl; unfold zlen in Eh; lia).
  change (h ++ a :: 0 :: d_type d :: name) with (h ++ [a; 0; d_type d] ++ name). rewrite app_assoc, drop_app_length. split; [done|by eexists].
Qed.

Lemma say_name (pre post : list Z) name l s :
  chars_ok pre → Forall (λ c, c ≠ 37) pre → chars_ok post → Forall (λ c, c ≠ 37) post → cstring name l →
  say (pre ++ [37; 115] ++ post ++ [0]) [PStr (Some name)] s = Ok (tt, Term (t_out s ++ pre ++ l ++ post) (t_kern s)).
Proof.
  intros H1 H2 H3 H4 Hl. apply say_ok. unfold printf. rewrite printf_text by done. cbn [app printf_loop Z.eqb Pos.eqb negb]. unfold convert.
  cbn [Z.eqb Pos.eqb]. unfold next_str, mret, M_ret. cbv [mbind M_bind]. cbn [fst snd]. rewrite (put_str_spec name l _ Hl), printf_text by done.
  cbn [app printf_loop Z.eqb]. unfold mret, M_ret. by rewrite <- !app_assoc.
Qed.

(** One buffer. *)
Lemma ls_records_ok ds : ∀ pre post count s fuel,
  Forall dirent_ok ds → let buf := pre ++ concat (map (dirent_bytes pad) ds) ++ post in
  zlen pre + reclens ds < 2 ^ 31 → 0 ≤ count → count + zlen ds < 2 ^ 31 → (length ds < fuel)%nat →
  ls_records fuel buf (zlen pre + reclens ds) (zlen pre) count s = Ok (count + zlen ds, Term (t_out s ++ ls_text (map entry_of ds)) (t_kern s)).
Proof.
  induction ds as [|d ds IH]; intros pre post count s fuel Hds buf Hb Hc0 Hc Hf; (destruct fuel as [|fuel]; [simpl in Hf; lia|]); cbn [ls_records].
  - unfold reclens. cbn [foldr]. rewrite (proj2 (Z.ltb_ge _ _)) by lia. cbn [negb ls_text map concat]. rewrite app_nil_r. change (zlen []) with 0. rewrite Z.add_0_r. by destruct s.
  - apply Forall_cons in Hds as [Hd Hds]. destruct (dirent_reclen_range d Hd) as [H1 H2]. pose proof (reclens_ge ds Hds). pose proof (zlen_nonneg ds).
    assert (reclens (d :: ds) = d_reclen d + reclens ds) as Er by done. assert (zlen (d :: ds) = zlen ds + 1) as El by (unfold zlen; simpl; lia).
    rewrite Er in *. rewrite (proj2 (Z.ltb_lt _ _)) by lia. cbn [negb].
    assert (buf = pre ++ dirent_bytes pad d ++ concat (map (dirent_bytes pad) ds) ++ post) as Eb by (unfold buf; simpl; by rewrite <- app_assoc).
    destruct (dirent_fields pre d (concat (map (dirent_bytes pad) ds) ++ post) Hd) as (F1 & F2 & F3). rewrite <- Eb in F1, F2, F3.
    rewrite (lift_ok _ _ _ _ F1).
    assert ((if d_type d =? 4 then say (lit "[%s]  ") [PStr (Some (dirent_name buf (zlen pre)))] else say (lit "%s  ") [PStr (Some (dirent_name buf (zlen pre)))]) s
      = Ok (tt, Term (t_out s ++ entry_text (entry_of d)) (t_kern s))) as Esay.
    { unfold entry_text, entry_of. cbn [fst snd]. change DT_DIR with 4. destruct (d_type d =? 4).
      - apply (say_name [91] [93; 32; 32]); try done; by repeat constructor.
      - apply (say_name [] [32; 32]); try done; by repeat constructor. }
    rewrite (bind_ok _ _ _ _ _ Esay), (lift_ok _ _ _ _ F2). pose proof (zlen_nonneg pre).
    rewrite (i32_small (zlen pre + d_reclen d)), (i32_small (count + 1)) by lia.
    replace (zlen pre + d_reclen d) with (zlen (pre ++ dirent_bytes pad d)) by (rewrite zlen_app, dirent_bytes_len; done).
    replace (zlen pre + (d_reclen d + reclens ds)) with (zlen (pre ++ dirent_bytes pad d) + reclens ds) by (rewrite zlen_app, dirent_bytes_len by done; lia).
    rewrite Eb, app_assoc, IH; [|done|rewrite zlen_app, dirent_bytes_len by done; lia|lia|lia|simpl in Hf; lia].
    cbn [t_out t_kern]. unfold ls_text. cbn [map concat].
    rewrite <- app_assoc, El. by replace (count + 1 + zlen ds) with (count + (zlen ds + 1)) by lia.
Qed.
End records.

(** * The kernel's side: a directory, buffer by buffer *)

Section files.
  Context {A : Type} `{!Kmalloc A}.
  Implicit Types k : ramfs_st A.

(** The children of directory [p] among the indices [idxs]. *)
Definition dir_entries (fs : list ramfs_node) (p : Z) (idxs : list Z) : list (bool * list Z) :=
  omap (λ i, nd ← zlookup fs i;
             if n_is_used nd && (n_parent_idx nd =? p) then Some (n_type nd =? RAMFS_TYPE_DIR, string_of nd) else None) idxs.

Lemma dir_entries_app fs p l1 l2 : dir_entries fs p (l1 ++ l2) = dir_entries fs p l1 ++ dir_entries fs p l2.
Proof. unfold dir_entries. apply omap_app. Qed.

(** The scan stops at the end of the table, or when less than a record's room is left. *)
Lemma getdents_chunk k n p count m : ∀ i bpos ds,
  fs_ok (files k) n → i = MAX_FILES - Z.of_nat m → 0 ≤ i → 0 ≤ bpos ≤ count →
  ∃ j ds', getdents_loop m i p count bpos ds k = Ok ((j, bpos + reclens ds', ds ++ ds'), k)
    ∧ i ≤ j ≤ MAX_FILES ∧ bpos + reclens ds' ≤ count ∧ Forall dirent_ok ds'
    ∧ map entry_of ds' = dir_entries (files k) p (seqZ i (j - i)) ∧ (j = MAX_FILES ∨ count < bpos + reclens ds' + 56).
Proof.
  induction m as [|m IH]; intros i bpos ds Hok Ei Hi Hb; cbn [getdents_loop].
  - exists i, []. rewrite app_nil_r, Z.sub_diag. unfold reclens. cbn [foldr]. rewrite Z.add_0_r. split; [done|]. split; [lia|]. split; [lia|]. split; [done|].
    split; [done|]. left. lia.
  - destruct (fs_lookup _ n i Hok) as [nd Hnd]; [lia|]. rewrite (bind_ok _ _ _ _ _ (get_file_ok i nd k Hnd)).
    assert (∀ j, i + 1 ≤ j → dir_entries (files k) p (seqZ i (j - i)) = dir_entries (files k) p [i] ++ dir_entries (files k) p (seqZ (i + 1) (j - (i + 1)))) as Hseq.
    { intros j Hj. rewrite <- dir_entries_app, seqZ_cons by lia. cbn [app]. do 3 f_equal; lia. }
    unfold dir_entries at 2 in Hseq. cbn [omap list_omap] in Hseq. rewrite Hnd in Hseq. cbn [mbind option_bind] in Hseq.
    destruct (n_is_used nd && (n_parent_idx nd =? p)) eqn:Hup.
    + apply andb_true_iff in Hup as [Hu _]. destruct (used_node _ n i nd Hok Hnd Hu) as [_ Hno].
      destruct (node_cstring _ _ _ Hno) as [nm Hnm]. pose proof (name_short _ _ _ _ Hno Hnm) as Hsh.
      rewrite (lift_ok _ _ _ _ (strlen_spec _ nm Hnm ltac:(unfold zlen; lia))). cbv zeta.
      pose proof (reclen_bounds (zlen nm) ltac:(unfold zlen; lia)) as Hrl. set (rl := ALIGN_UP _ 8) in *.
      destruct (Z.ltb_spec count (bpos + rl)) as [Hfull|Hroom].
      * exists i, []. rewrite app_nil_r, Z.sub_diag. unfold reclens. cbn [foldr]. rewrite Z.add_0_r. split; [done|]. split; [lia|]. split; [lia|]. split; [done|].
        split; [done|]. right. lia.
      * rewrite (lift_ok _ _ _ _ (read_string_spec _ nm Hnm)). set (d := Dirent _ _ _ _ _).
        destruct (IH (i + 1) (bpos + rl) (ds ++ [d]) Hok) as (j & ds' & E & Hj & Hc & Hds & He & Hend); [lia|lia|lia|].
        assert (d_reclen d = rl) as Erl by (apply Z.mod_small; lia).
        assert (bpos + reclens (d :: ds') = bpos + rl + reclens ds') as Eb by (unfold reclens; cbn [foldr]; lia).
        exists j, (d :: ds'). rewrite Eb. split; [by rewrite E, <- app_assoc|]. split; [lia|]. split; [lia|]. split; [|split; [|done]].
        -- constructor; [|done]. constructor; [split; [apply Hnm|unfold zlen; simpl; lia]|exact Erl].
        -- rewrite Hseq by lia. cbn [map app]. rewrite He. f_equal. unfold entry_of, d. cbn [d_type d_name]. f_equal; [by destruct (n_type nd =? RAMFS_TYPE_DIR)|].
           unfold string_of. by rewrite (read_string_spec _ nm Hnm).
    + destruct (IH (i + 1) bpos ds Hok) as (j & ds' & E & Hj & Hc & Hds & He & Hend); [lia|lia|lia|].
      exists j, ds'. split; [done|]. split; [lia|]. split; [done|]. split; [done|]. split; [|done]. rewrite Hseq by lia. done.
Qed.

(** The descriptor [fd] designates the directory [i] at the entry [off]. *)
Record dir_open k (pf : proc_files) (fd h i off rc : Z) (nd : ramfs_node) : Prop := {
  dr_proc : current_proc k = Some pf ∧ zlookup (fd_table pf) fd = Some (Some h);
  dr_fd : 0 ≤ fd < MAX_FD;
  dr_handle : zlookup (global_file_table k) h = Some (FileT (Some i) off rc);
  dr_node : zlookup (files k) i = Some nd ∧ n_is_used nd = true ∧ n_type nd = RAMFS_TYPE_DIR
}.

Lemma dir_handle k pf fd h i off rc nd : dir_open k pf fd h i off rc nd → fd_handle fd k = Ok (Some h, k).
Proof.
  intros [[Hp Hl] Hr _ _]. unfold fd_handle. rewrite (bind_ok _ _ _ _ _ (get_cur_fd_table_ok k pf Hp)).
  rewrite (proj2 (Z.ltb_ge fd 0)), (proj2 (Z.leb_gt MAX_FD fd)) by lia. simpl. unfold or_crash. by rewrite Hl.
Qed.

Lemma getdents_next k n pf fd h i off rc nd count :
  fs_ok (files k) n → dir_open k pf fd h i off rc nd → 0 ≤ off ≤ MAX_FILES → 56 ≤ count →
  ∃ j ds, ramfs_getdents64 fd count k = Ok ((reclens ds, ds), set_gft (zinsert h (FileT (Some i) j rc) (global_file_table k)) k)
    ∧ off ≤ j ≤ MAX_FILES ∧ reclens ds ≤ count ∧ Forall dirent_ok ds ∧ map entry_of ds = dir_entries (files k) i (seqZ off (j - off))
    ∧ (ds = [] → j = MAX_FILES).
Proof.
  intros Hok Hop Hoff Hc. pose proof (dir_handle _ _ _ _ _ _ _ _ Hop) as Eh. destruct Hop as [_ _ Hh (Hi & Hu & Ht)].
  destruct (used_node _ n i nd Hok Hi Hu) as [_ Hno].
  destruct (getdents_chunk k n i count (Z.to_nat (MAX_FILES - off)) off 0 [] Hok) as (j & ds & E & Hj & Hb & Hds & He & Hend); [lia|lia|lia|].
  exists j, ds. split; [|split; [done|split; [lia|split; [done|split; [done|]]]]].
  2:{ intros ->. destruct Hend as [|Hend]; [done|]. unfold reclens in Hend. simpl in Hend. lia. }
  unfold ramfs_getdents64. rewrite (bind_ok _ _ _ _ _ Eh), (bind_ok _ _ _ _ _ (get_handle_ok _ _ _ Hh)).
  rewrite (bind_ok _ _ _ _ _ (deref_node_ok (FileT (Some i) off rc) i nd k eq_refl Hi)). cbn [fst snd f_offset f_node f_ref_count]. rewrite Ht, (no_inode _ _ _ Hno).
  change (negb (RAMFS_TYPE_DIR =? RAMFS_TYPE_DIR)) with false. cbv iota zeta. rewrite i32_small by (unfold MAX_FILES in *; lia).
  by rewrite (bind_ok _ _ _ _ _ E), (bind_ok _ _ _ _ _ (put_handle_ok h _ _ k Hh)).
Qed.

Lemma close_ok k pf fd h i off rc nd :
  dir_open k pf fd h i off rc nd →
  ramfs_close fd k = Ok (tt, set_current (Some (ProcFiles (cwd_inode pf) (zinsert fd None (fd_table pf)))) (set_gft (zinsert h (FileT None off 0) (global_file_table k)) k)).
Proof.
  intros Hop. unfold ramfs_close. rewrite (bind_ok _ _ _ _ _ (dir_handle _ _ _ _ _ _ _ _ Hop)). destruct Hop as [[Hp Hl] _ Hh _].
  assert (free_file_handle h k = Ok (tt, set_gft (zinsert h (FileT None off 0) (global_file_table k)) k)) as E.
  { unfold free_file_handle. rewrite (bind_ok _ _ _ _ _ (get_handle_ok _ _ _ Hh)). exact (put_handle_ok h _ _ k Hh). }
  rewrite (bind_ok _ _ _ _ _ E). by apply (set_fd_ok _ pf fd None (Some h)).
Qed.
End files.

(** * The shell over the file system *)

Section ls.
  Context {A : Type} `{!Kmalloc A}.
  (** What the file system does not have: the keyboard, the other calls and the heap of
      the program; what padding, new objects and local arrays hold. *)
  Context (kbd : M (ramfs_st A) (Z * list Z)) (other : Z → Z → M (ramfs_st A) Z) (u_exit : Z → M (ramfs_st A) unit).
  Context (user_malloc : Z → M (ramfs_st A) Z) (user_free : Z → M (ramfs_st A) unit) (pad : Z) (page junk : list Z).

(** The cases of the system call table that reach [ramfs.c]. *)
#[local] Instance fs_sys : UserSys (ramfs_st A) := {|
  raw_read fd count := if fd =? 0 then kbd else ramfs_read fd count;
  raw_write fd buf := ramfs_write fd buf (zlen buf);
  raw_open path flags := ramfs_open (Some (path ++ [0])) flags page;
  raw_getdents64 fd count := r ← ramfs_getdents64 fd count; mret (r.1, concat (map (dirent_bytes pad) r.2));
  raw_getcwd size := r ← ramfs_getcwd (Some (replicate (Z.to_nat size) pad)) size; mret (if r is Some b then (1, b) else (0, []));
  raw_chdir path := ramfs_chdir (Some (path ++ [0]));
  raw_mkdir path mode := ramfs_mkdir (Some (path ++ [0]));
  raw_exit := u_exit;
  raw_syscall n a := if n =? 3 then ramfs_close a;; mret 0 else other n a;
  u_malloc := user_malloc;
  u_free := user_free
|}.
Abbreviation St := (term (ramfs_st A)).
Implicit Types s : St.

Lemma getdents_buffer s k1 ds buf fd :
  ramfs_getdents64 fd BUF_SIZE (t_kern s) = Ok ((reclens ds, ds), k1) → Forall dirent_ok ds → reclens ds ≤ BUF_SIZE → zlen buf = BUF_SIZE →
  getdents64 fd buf BUF_SIZE s = Ok ((reclens ds, concat (map (dirent_bytes pad) ds) ++ drop (length (concat (map (dirent_bytes pad) ds))) buf), Term (t_out s) k1).
Proof using.
  intros E Hds Hb Hl. pose proof (records_len pad ds Hds) as Er. pose proof (reclens_ge ds Hds). pose proof (zlen_nonneg ds). unfold BUF_SIZE in *.
  unfold getdents64, sys, zoom. cbn [raw_getdents64 fs_sys]. cbv [mbind M_bind mret M_ret]. rewrite E. cbn [fst snd].
  unfold stored. rewrite (proj2 (Nat.leb_le _ _)) by (unfold zlen in *; lia). unfold mret, M_ret. rewrite i32_small by lia. done.
Qed.

(** All buffers from the entry [off] on. *)
Lemma ls_loop_ok n pf fd h i rc nd m : ∀ off s buf count fuel,
  (Z.to_nat (MAX_FILES - off) ≤ m)%nat → (m + 40 < fuel)%nat → 0 ≤ off ≤ MAX_FILES → zlen buf = BUF_SIZE → 0 ≤ count → count + 32 * (Z.of_nat m + 1) < 2 ^ 31 →
  fs_ok (files (t_kern s)) n → dir_open (t_kern s) pf fd h i off rc nd →
  let es := dir_entries (files (t_kern s)) i (seqZ off (MAX_FILES - off)) in
  ls_loop fuel fd buf count s = Ok (count + zlen es, Term (t_out s ++ ls_text es) (set_gft (zinsert h (FileT (Some i) MAX_FILES rc) (global_file_table (t_kern s))) (t_kern s))).
Proof using.
  induction m as [|m IH]; intros off s buf count fuel Hm Hf Hoff Hbuf Hc0 Hc Hok Hop es; (destruct fuel as [|fuel]; [lia|]); cbn [ls_loop];
    destruct (getdents_next (t_kern s) n pf fd h i off rc nd BUF_SIZE Hok Hop Hoff ltac:(by apply Z.leb_le)) as (j & ds & E & Hj & Hb & Hds & He & Hend);
    rewrite (bind_ok _ _ _ _ _ (getdents_buffer s _ ds buf fd E Hds Hb Hbuf)); cbn [fst snd]; pose proof (reclens_ge ds Hds) as Hge;
    (destruct ds as [|d ds0]; [rewrite (Hend eq_refl) in *; cbn [map] in He; fold es in He; unfold reclens; cbn [foldr Z.ltb Z.compare negb]; rewrite <- He; unfold ls_text; cbn [map concat];
      rewrite app_nil_r; change (zlen (@nil (bool * list Z))) with 0; by rewrite Z.add_0_r|]).
  - exfalso. assert (off = MAX_FILES) as -> by lia. assert (j = MAX_FILES) as -> by lia. by rewrite Z.sub_diag in He.
  - set (ds := d :: ds0) in *. assert (1 ≤ zlen ds) as Hpos by (unfold ds, zlen; simpl; lia). rewrite (proj2 (Z.ltb_lt _ _)) by lia. cbn [negb].
    unfold BUF_SIZE in Hb. assert (zlen ds ≤ 32) as H32 by lia.
    rewrite (bind_ok _ _ _ _ _ (ls_records_ok pad ds [] (drop (length (concat (map (dirent_bytes pad) ds))) buf) count _ fuel Hds ltac:(change (zlen []) with 0; lia) Hc0 ltac:(lia) ltac:(unfold zlen in H32; lia))).
    cbn [t_out t_kern]. set (k1 := set_gft _ (t_kern s)).
    assert (off < j) as Hlt. { destruct (decide (off = j)) as [<-|]; [|lia]. rewrite Z.sub_diag in He. done. }
    assert (dir_open k1 pf fd h i j rc nd) as Hop1.
    { destruct Hop as [D1 D2 D3 D4]. constructor; try done. apply zlookup_zinsert_eq. by eapply zlookup_Some. }
    rewrite (IH j (Term _ k1)); [|lia|lia|lia| |lia|lia|exact Hok|exact Hop1].
    2:{ rewrite zlen_app, records_len by done. unfold zlen, BUF_SIZE in *. rewrite length_drop. pose proof (records_len pad ds Hds). unfold zlen in *. lia. }
    cbn [t_out t_kern]. change (files k1) with (files (t_kern s)). rewrite He.
    assert (es = dir_entries (files (t_kern s)) i (seqZ off (j - off)) ++ dir_entries (files (t_kern s)) i (seqZ j (MAX_FILES - j))) as ->.
    { rewrite <- dir_entries_app. unfold es. f_equal. replace (MAX_FILES - off) with ((j - off) + (MAX_FILES - j)) by lia.
      rewrite seqZ_app by lia. by replace (off + (j - off)) with j by lia. }
    unfold ls_text. rewrite map_app, concat_app, zlen_app, <- He, app_assoc. unfold k1.
    assert (zlen (map entry_of ds) = zlen ds) as -> by (unfold zlen; by rewrite length_map). rewrite Z.add_assoc.
    change (global_file_table (set_gft ?g (t_kern s))) with g. by rewrite zinsert_zinsert.
Qed.

(** The children of directory [p], in the order of the node table. *)
Definition children (fs : list ramfs_node) (p : Z) : list (bool * list Z) := dir_entries fs p (seqZ 0 MAX_FILES).

Lemma dir_entries_short fs p l : zlen (dir_entries fs p l) ≤ zlen l.
Proof using.
  unfold dir_entries, zlen. induction l as [|i l IH]; [done|]. cbn [omap list_omap] in *. case_match; cbn [length]; lia.
Qed.

Lemma open_ok s n pf l path r i :
  fs_ok (files (t_kern s)) n → cstring path l → path_ok (t_kern s) (l ++ [0]) l → lookup (t_kern s) l true = Some r → r_inode r = i → i ≠ -1 →
  current_proc (t_kern s) = Some pf → has_handle (t_kern s) → has_fd pf →
  ∃ fd h f0, zlookup (global_file_table (t_kern s)) h = Some f0 ∧ f_ref_count f0 = 0 ∧ 3 ≤ fd < MAX_FD ∧ zlookup (fd_table pf) fd = Some None
    ∧ open path 0 s = Ok (fd, Term (t_out s) (set_current (Some (ProcFiles (cwd_inode pf) (zinsert fd (Some h) (fd_table pf))))
        (set_gft (zinsert h (FileT (Some i) 0 1) (global_file_table (t_kern s))) (t_kern s)))).
Proof using.
  intros Hok Hs Hp Hl Hi Hne Hpf Hh Hfd. destruct (open_node_spec (t_kern s) i pf Hpf Hh Hfd) as (fd & h & f0 & H1 & H2 & H3 & H4 & E).
  exists fd, h, f0. do 4 (split; [done|]). unfold open. rewrite (lift_ok _ _ _ _ (read_string_spec path l Hs)).
  destruct (resolve_path_ok (t_kern s) n (l ++ [0]) l true Hok Hp) as (r' & Hr & Er). rewrite Hl in Hr. injection Hr as <-.
  unfold sys, zoom. cbn [raw_open fs_sys]. unfold ramfs_open. cbv [mbind M_bind] in E, Er |- *. rewrite Er, Hi, (proj2 (Z.eqb_neq i (-1)) Hne). cbn [andb].
  unfold mret, M_ret. cbn beta iota. rewrite (proj2 (Z.eqb_neq i (-1)) Hne). unfold open_node in E. cbv [mbind M_bind mret M_ret] in E. rewrite E.
  by rewrite i32_small by (unfold MAX_FD in *; lia).
Qed.

Lemma ls_close s pf fd h i off rc nd :
  dir_open (t_kern s) pf fd h i off rc nd →
  (close fd;; mret tt) s = Ok (tt, Term (t_out s) (set_current (Some (ProcFiles (cwd_inode pf) (zinsert fd None (fd_table pf))))
    (set_gft (zinsert h (FileT None off 0) (global_file_table (t_kern s))) (t_kern s)))).
Proof using.
  intros Hop. pose proof (close_ok _ _ _ _ _ _ _ _ Hop) as E. unfold close, sys, zoom. cbn [raw_syscall fs_sys Z.eqb Pos.eqb].
  cbv [mbind M_bind mret M_ret] in *. by rewrite E.
Qed.

(** C16: [ls] of a directory that exists prints its entries, each once and in the order of
    the node table, directories in brackets, and a newline when there are any; however
    many calls of [getdents64] the buffer takes, none is lost or doubled between two
    buffers and no name is read past its record.  The descriptor and the handle it
    took are free again, and the files are untouched. *)
Theorem ls_prints_directory s n pf l path r i nd fuel :
  fs_ok (files (t_kern s)) n → cstring path l → path_ok (t_kern s) (l ++ [0]) l → lookup (t_kern s) l true = Some r → r_inode r = i →
  zlookup (files (t_kern s)) i = Some nd → n_is_used nd = true → n_type nd = RAMFS_TYPE_DIR →
  current_proc (t_kern s) = Some pf → has_handle (t_kern s) → has_fd pf → BUF_SIZE ≤ zlen junk → (Z.to_nat MAX_FILES + 40 < fuel)%nat →
  let es := children (files (t_kern s)) i in
  ∃ h f0, zlookup (global_file_table (t_kern s)) h = Some f0 ∧ f_ref_count f0 = 0
    ∧ cmd_ls junk fuel (Some path) s
      = Ok (tt, Term (t_out s ++ ls_text es ++ (if decide (es = []) then [] else [10])) (set_gft (zinsert h (FileT None MAX_FILES 0) (global_file_table (t_kern s))) (t_kern s))).
Proof using.
  intros Hok Hs Hp Hl Hi Hnd Hu Ht Hpf Hh Hfd Hj Hf es. pose proof (zlookup_Some _ _ _ Hnd) as Hr.
  destruct (open_ok s n pf l path r i Hok Hs Hp Hl Hi ltac:(lia) Hpf Hh Hfd) as (fd & h & f0 & H1 & H2 & H3 & H4 & E).
  exists h, f0. do 2 (split; [done|]). unfold cmd_ls. cbn [default from_option id]. rewrite (bind_ok _ _ _ _ _ E), (proj2 (Z.ltb_ge fd 0)) by lia.
  set (pf1 := ProcFiles _ _). set (k1 := set_current _ _). pose proof (zlookup_Some _ _ _ H1) as Hhr. pose proof (zlookup_Some _ _ _ H4) as Hfr.
  assert (dir_open k1 pf1 fd h i 0 1 nd) as Hop.
  { constructor; [split; [done|by apply zlookup_zinsert_eq]|lia|by apply zlookup_zinsert_eq|done]. }
  assert (zlen es ≤ MAX_FILES) as Hes by (etrans; [apply dir_entries_short|unfold zlen; by rewrite length_seqZ]).
  assert (zlen (local_array junk BUF_SIZE) = BUF_SIZE) as Hla by (unfold local_array, zlen, BUF_SIZE in *; rewrite length_take; lia).
  rewrite (bind_ok _ _ _ _ _ (ls_loop_ok n pf1 fd h i 1 nd (Z.to_nat MAX_FILES) 0 (Term (t_out s) k1) _ 0 fuel
    ltac:(by rewrite Z.sub_0_r) Hf ltac:(done) Hla ltac:(done) ltac:(done) Hok Hop)).
  cbn [t_out t_kern]. change (files k1) with (files (t_kern s)). rewrite Z.sub_0_r. assert (dir_entries (files (t_kern s)) i (seqZ 0 MAX_FILES) = es) as -> by exact eq_refl. clearbody es. set (s2 := Term _ _).
  set (nl := if decide (es = []) then [] else [10]).
  assert ((if 0 <? 0 + zlen es then say [10; 0] [] else mret tt) s2 = Ok (tt, Term (t_out s2 ++ nl) (t_kern s2))) as Enl.
  { unfold nl. destruct (decide (es = [])) as [->|Hne]; [cbn; by rewrite app_nil_r|].
    assert (0 < 0 + zlen es) as Hpos%Z.ltb_lt by (destruct es; [done|unfold zlen; simpl; lia]). rewrite Hpos.
    exact (say_text [10] s2 ltac:(by repeat constructor) ltac:(by repeat constructor)). }
  rewrite (bind_ok _ _ _ _ _ Enl).
  assert (dir_open (t_kern s2) pf1 fd h i MAX_FILES 1 nd) as Hop2.
  { destruct Hop as [D1 D2 D3 D4]. constructor; try done. apply zlookup_zinsert_eq. by eapply zlookup_Some. }
  etrans; [exact (ls_close (Term (t_out s2 ++ nl) (t_kern s2)) _ _ _ _ _ _ _ Hop2)|]. do 2 f_equal. cbn [t_out t_kern s2]. rewrite <- app_assoc. f_equal.
  unfold k1. cbn [cwd_inode fd_table pf1]. rewrite zinsert_zinsert.
  assert (zinsert fd None (fd_table pf) = fd_table pf) as ->.
  { unfold zlookup, zinsert in *. case_decide; [|done]. by apply list_insert_id. }
  change (global_file_table (set_gft ?g ?k)) with g. change (global_file_table (set_current ?c (set_gft ?g ?k))) with g. rewrite !zinsert_zinsert.
  destruct (t_kern s), pf. cbn in Hpf |- *. by rewrite Hpf.
Qed.

End ls.

(** * Witness *)

(** [ls /usr] after [ramfs_init]. *)
Definition quiet : M (ramfs_st Z) (Z * list Z) := mret (0, []).
Definition boot_shell : UserSys (ramfs_st Z) :=
  fs_sys quiet (λ _ _, mret (-1)) (λ _, mret tt) (λ _, mret 0) (λ _, mret tt) 0 (replicate 4096 0).

Lemma ls_prints_directory_witness :
  ∃ s', cmd_ls (UserSys0 := boot_shell) (replicate 1024 0) 200 (Some (lit "/usr")) (Term [] boot) = Ok (tt, s')
    ∧ t_out s' = chars "[bin]  [lib]  shell.c  usrmain.c  " ++ [10].
Proof.
  set (nd := match zlookup (files boot) 2 with Some nd => nd | None => node_zero end).
  set (r := match lookup boot (chars "/usr") true with Some r => r | None => Resolved 0 None None end).
  assert (path_ok boot (lit "/usr") (chars "/usr")) as Hp by (apply (path_okb_sound boot (chars "/usr")); by vm_compute).
  destruct (ls_prints_directory quiet (λ _ _, mret (-1)) (λ _, mret tt) (λ _, mret 0) (λ _, mret tt) 0 (replicate 4096 0) (replicate 1024 0)
    (Term [] boot) 7 (ProcFiles 0 (replicate 16 None)) (chars "/usr") (lit "/usr") r 2 nd 200 boot_ok (proj1 Hp) Hp
    ltac:(by vm_compute) ltac:(by vm_compute) ltac:(by vm_compute) ltac:(by vm_compute) ltac:(by vm_compute) ltac:(by vm_compute)
    boot_has_handle boot_has_fd ltac:(by vm_compute) ltac:(apply Nat.ltb_lt; by vm_compute)) as (h & f0 & _ & _ & E).
  eexists. split; [exact E|]. by vm_compute.
Defined.
