(* ===== verification/Klist.v ===== *)
(** Klist: the intrusive circular lists of [kernel/src/lib/list.h].  A
    [list_node_t] is two words of memory, [next] and [prev], at an address inside
    the object it links; the heap's free list, the areas of an address space, the
    process list and the ready queue are all such rings.  [LinkStore] is what the
    lists need of the state they live in. *)
From S2P Require Import Prelude.

(** The [next] and [prev] fields by node address; a field never written reads as
    garbage, which the model makes a fault. *)
Record links := Links { l_next : gmap Z Z; l_prev : gmap Z Z }.

(** States that hold list nodes.  [ls_ok] says which addresses can be accessed
    (mapped); list operations do not change it. *)
Class LinkStore (St : Type) := {
  ls_links : St → links;
  ls_set : links → St → St;
  ls_ok : St → Z → bool;
  ls_links_set l s : ls_links (ls_set l s) = l;
  ls_set_set l l' s : ls_set l (ls_set l' s) = ls_set l s;
  ls_set_links s : ls_set (ls_links s) s = s;
  ls_ok_set l s a : ls_ok (ls_set l s) a = ls_ok s a
}.

#[export] Hint Rewrite @ls_links_set @ls_set_set @ls_set_links @ls_ok_set : ksimpl.

(** [container_of(ptr, type, member)], the offset of the member given. *)
Definition container_of (ptr offset : Z) : Z := u64 (ptr - offset).

Section klist.
  Context {St : Type} `{LinkStore St}.

Definition list_touch (a : Z) : M St unit :=
  ok ← gets (λ s, ls_ok s a); if ok : bool then mret tt else crash PageFault.
Definition get_next (a : Z) : M St Z :=
  list_touch a;; l ← gets ls_links; or_crash OutOfBounds (l_next l !! a).
Definition get_prev (a : Z) : M St Z :=
  list_touch a;; l ← gets ls_links; or_crash OutOfBounds (l_prev l !! a).
Definition put_next (a v : Z) : M St unit :=
  list_touch a;; modify (λ s, ls_set (Links (<[a := v]> (l_next (ls_links s))) (l_prev (ls_links s))) s).
Definition put_prev (a v : Z) : M St unit :=
  list_touch a;; modify (λ s, ls_set (Links (l_next (ls_links s)) (<[a := v]> (l_prev (ls_links s)))) s).

Definition list_init (node : Z) : M St unit :=
  put_next node node;; put_prev node node.

Definition __list_add (new_node prev next : Z) : M St unit :=
  put_prev next new_node;;
  put_next new_node next;;
  put_prev new_node prev;;
  put_next prev new_node.

Definition list_add_after (new_node head : Z) : M St unit :=
  n ← get_next head; __list_add new_node head n.

Definition list_add_before (new_node head : Z) : M St unit :=
  p ← get_prev head; __list_add new_node p head.

Definition list_del (node : Z) : M St unit :=
  n ← get_next node; p ← get_prev node;
  put_prev n p;;
  p ← get_prev node; n ← get_next node;
  put_next p n;;
  put_next node node;;
  put_prev node node.
End klist.

(** * Rings *)

(** The nodes [xs] link [a] to [b] in both directions. *)
Fixpoint dpath (l : links) (a : Z) (xs : list Z) (b : Z) : Prop :=
  match xs with
  | [] => l_next l !! a = Some b ∧ l_prev l !! b = Some a
  | x :: xs' => l_next l !! a = Some x ∧ l_prev l !! x = Some a ∧ dpath l x xs' b
  end.

(** The list headed by [head] holds exactly the nodes [xs], in this order. *)
Definition ring (l : links) (head : Z) (xs : list Z) : Prop := NoDup (head :: xs) ∧ dpath l head xs head.

Definition last_or (a : Z) (xs : list Z) : Z := default a (last xs).
Definition head_or (b : Z) (xs : list Z) : Z := default b (head xs).

(** The links after inserting [new] between [p] and [n], and after unlinking [x]
    from between [p] and [n]. *)
Definition inserted (l : links) (new p n : Z) : links :=
  Links (<[p := new]> (<[new := n]> (l_next l))) (<[new := p]> (<[n := new]> (l_prev l))).
Definition unlinked (l : links) (x p n : Z) : links :=
  Links (<[x := x]> (<[p := n]> (l_next l))) (<[x := x]> (<[n := p]> (l_prev l))).

Lemma last_or_cons a x xs : last_or a (x :: xs) = last_or x xs.
Proof. unfold last_or. destruct xs as [|y ys]; [done|]. rewrite last_cons_cons. destruct (last (y :: ys)) eqn:E; [done|]. by apply last_None in E. Qed.

Lemma last_or_in a xs : last_or a xs ∈ a :: xs.
Proof.
  revert a. induction xs as [|x xs IH]; intros a; [by left|]. rewrite last_or_cons. specialize (IH x). set_solver.
Qed.

Lemma last_or_snoc a xs x : last_or a (xs ++ [x]) = x.
Proof. unfold last_or. by rewrite last_snoc. Qed.

Lemma head_or_in b ys : head_or b ys ∈ ys ++ [b].
Proof. destruct ys; simpl; set_solver. Qed.

(** The node [a] has the same neighbours. *)
Definition same_links (a : Z) (l l' : links) : Prop := l_next l' !! a = l_next l !! a ∧ l_prev l' !! a = l_prev l !! a.

Lemma same_links_inserted (a : Z) (l : links) (new p n : Z) : a ≠ new → a ≠ p → a ≠ n → same_links a l (inserted l new p n).
Proof. intros. split; simpl; by rewrite !lookup_insert_ne. Qed.

(** A path only depends on the fields along it. *)
Lemma dpath_ext l l' a xs b :
  (∀ x, x ∈ a :: xs → l_next l' !! x = l_next l !! x) →
  (∀ x, x ∈ xs ++ [b] → l_prev l' !! x = l_prev l !! x) →
  dpath l a xs b → dpath l' a xs b.
Proof.
  revert a. induction xs as [|x xs IH]; intros a Hn Hp; simpl.
  - intros [H1 H2]. rewrite Hn, Hp by set_solver. done.
  - intros (H1 & H2 & H3). rewrite Hn, Hp by set_solver. split; [done|]. split; [done|].
    apply IH; [set_solver|set_solver|done].
Qed.

Lemma dpath_insert l a xs ys b new :
  NoDup (a :: xs ++ ys) → NoDup (xs ++ ys ++ [b]) → new ∉ a :: xs ++ ys ++ [b] →
  dpath l a (xs ++ ys) b →
  dpath (inserted l new (last_or a xs) (head_or b ys)) a (xs ++ new :: ys) b.
Proof.
  intros Ha Hb Hnew. revert a Ha Hnew. induction xs as [|x xs IH]; intros a Ha Hnew Hp.
  - simpl in *. change (last_or a []) with a. apply NoDup_cons in Ha as [Ha Hys]. split; [by rewrite lookup_insert_eq|].
    split; [by rewrite lookup_insert_eq|].
    assert (new ≠ a ∧ new ≠ b ∧ new ∉ ys) as (Hna & Hnb & Hny) by set_solver.
    destruct ys as [|y ys]; simpl in *.
    + rewrite !(lookup_insert_ne _ a new) by done. rewrite lookup_insert_eq.
      rewrite (lookup_insert_ne _ new b) by done. by rewrite lookup_insert_eq.
    + rewrite !(lookup_insert_ne _ a new) by done. rewrite lookup_insert_eq.
      rewrite (lookup_insert_ne _ new y) by set_solver. rewrite lookup_insert_eq. split; [done|]. split; [done|].
      destruct Hp as (_ & _ & Hp). apply NoDup_cons in Hb as [Hb _].
      eapply dpath_ext; [| |exact Hp]; intros z Hz; simpl.
      * rewrite !lookup_insert_ne by set_solver. done.
      * rewrite !lookup_insert_ne by set_solver. done.
  - rewrite last_or_cons. simpl in *. destruct Hp as (H1 & H2 & Hp).
    apply NoDup_cons in Ha as [Ha Hxs]. apply NoDup_cons in Hb as [Hx Hb].
    pose proof (last_or_in x xs) as Hl. pose proof (head_or_in b ys) as Hh.
    split; [|split].
    + rewrite !lookup_insert_ne; [done|set_solver|set_solver].
    + rewrite !lookup_insert_ne; [done|set_solver|set_solver].
    + apply IH; [done|done|set_solver|done].
Qed.

Lemma dpath_delete l a xs x ys b :
  NoDup (a :: xs ++ x :: ys) → NoDup (xs ++ x :: ys ++ [b]) →
  dpath l a (xs ++ x :: ys) b →
  dpath (unlinked l x (last_or a xs) (head_or b ys)) a (xs ++ ys) b.
Proof.
  intros Ha Hb. revert a Ha. induction xs as [|y xs IH]; intros a Ha Hp.
  - simpl in *. change (last_or a []) with a.
    apply NoDup_cons in Ha as [Ha Hxy]. apply NoDup_cons in Hxy as [Hxy Hys]. apply NoDup_cons in Hb as [Hxb Hb].
    destruct Hp as (H1 & H2 & Hp). destruct ys as [|y ys]; simpl in *.
    + rewrite !(lookup_insert_ne _ x) by set_solver. by rewrite !lookup_insert_eq.
    + rewrite !(lookup_insert_ne _ x) by set_solver. rewrite !lookup_insert_eq. split; [done|]. split; [done|].
      destruct Hp as (H3 & H4 & Hp). apply NoDup_cons in Hb as [Hyb Hb].
      eapply dpath_ext; [| |exact Hp]; intros z Hz; simpl; rewrite !lookup_insert_ne by set_solver; done.
  - rewrite last_or_cons. simpl in *. destruct Hp as (H1 & H2 & Hp).
    apply NoDup_cons in Ha as [Ha Hxs]. apply NoDup_cons in Hb as [Hx Hb].
    pose proof (last_or_in y xs) as Hl. pose proof (head_or_in b ys) as Hh.
    split; [|split].
    + rewrite !lookup_insert_ne; [done|set_solver|set_solver].
    + rewrite !lookup_insert_ne; [done|set_solver|set_solver].
    + apply IH; done.
Qed.

Lemma dpath_next l a xs b : dpath l a xs b → l_next l !! a = Some (head_or b xs).
Proof. destruct xs; simpl; naive_solver. Qed.

Lemma dpath_prev l a xs b : dpath l a xs b → l_prev l !! b = Some (last_or a xs).
Proof.
  revert a. induction xs as [|x xs IH]; intros a; [by intros [_ ?]|]. rewrite last_or_cons. simpl.
  intros (_ & _ & H). by apply IH.
Qed.

Lemma dpath_at l a xs x ys b :
  dpath l a (xs ++ x :: ys) b → l_next l !! x = Some (head_or b ys) ∧ l_prev l !! x = Some (last_or a xs).
Proof.
  revert a. induction xs as [|y xs IH]; intros a; simpl.
  - intros (_ & H & Hp). split; [by eapply dpath_next|done].
  - rewrite last_or_cons. intros (_ & _ & H). by apply IH.
Qed.

Lemma ring_nodup_snoc (head : Z) xs : NoDup (head :: xs) → NoDup (xs ++ [head]).
Proof. intros H. rewrite (Permutation_app_comm xs [head]). done. Qed.

Lemma ring_insert l head xs ys new :
  new ∉ head :: xs ++ ys → ring l head (xs ++ ys) →
  ring (inserted l new (last_or head xs) (head_or head ys)) head (xs ++ new :: ys).
Proof.
  intros Hnew [Hnd Hp]. split.
  - apply NoDup_cons in Hnd as [Hh Hnd]. apply NoDup_cons. split; [set_solver|].
    rewrite <- Permutation_middle. apply NoDup_cons. split; [set_solver|done].
  - apply dpath_insert; [done| |set_solver|done]. rewrite app_assoc. by apply ring_nodup_snoc.
Qed.

Lemma ring_delete l head xs x ys :
  ring l head (xs ++ x :: ys) →
  ring (unlinked l x (last_or head xs) (head_or head ys)) head (xs ++ ys) ∧ x ∉ head :: xs ++ ys.
Proof.
  intros [Hnd Hp]. pose proof (ring_nodup_snoc _ _ Hnd) as Hnd'. rewrite <- app_assoc in Hnd'. simpl in Hnd'.
  assert (NoDup (x :: head :: xs ++ ys)) as Hx.
  { assert (head :: xs ++ x :: ys ≡ₚ x :: head :: xs ++ ys) as <-; [|done].
    rewrite <- Permutation_middle. apply Permutation_swap. }
  apply NoDup_cons in Hx as [Hx Hnd2]. split; [|done]. split; [done|]. by apply dpath_delete.
Qed.

(** The rings a change of links does not touch. *)
Lemma ring_ext l l' head xs :
  (∀ x, x ∈ head :: xs → same_links x l l') →
  ring l head xs → ring l' head xs.
Proof.
  intros H [Hnd Hp]. split; [done|]. eapply dpath_ext; [| |exact Hp]; intros x Hx; apply H; set_solver.
Qed.

Lemma ring_inserted_frame l head xs new p n :
  new ∉ head :: xs → p ∉ head :: xs → n ∉ head :: xs → ring l head xs → ring (inserted l new p n) head xs.
Proof.
  intros. eapply ring_ext; [|done]. intros x Hx. unfold same_links, inserted. simpl. rewrite !lookup_insert_ne by set_solver. done.
Qed.

Lemma ring_unlinked_frame l head xs x p n :
  x ∉ head :: xs → p ∉ head :: xs → n ∉ head :: xs → ring l head xs → ring (unlinked l x p n) head xs.
Proof.
  intros. eapply ring_ext; [|done]. intros y Hy. unfold same_links, unlinked. simpl. rewrite !lookup_insert_ne by set_solver. done.
Qed.

Lemma ring_empty l head : l_next l !! head = Some head → l_prev l !! head = Some head → ring l head [].
Proof. intros. split; [|done]. apply NoDup_singleton. Qed.

Lemma ring_next l head xs : ring l head xs → l_next l !! head = Some (head_or head xs).
Proof. intros [_ H]. by eapply dpath_next. Qed.
Lemma ring_prev l head xs : ring l head xs → l_prev l !! head = Some (last_or head xs).
Proof. intros [_ H]. by eapply dpath_prev. Qed.
Lemma ring_at l head xs x ys :
  ring l head (xs ++ x :: ys) → l_next l !! x = Some (head_or head ys) ∧ l_prev l !! x = Some (last_or head xs).
Proof. intros [_ H]. by eapply dpath_at. Qed.

(** * The operations on rings *)

Section ops.
  Context {St : Type} `{LinkStore St}.
  Implicit Types s : St.

Lemma list_touch_ok s a : ls_ok s a = true → list_touch a s = Ok (tt, s).
Proof. intros E. unfold list_touch, gets. cbv [mbind M_bind]. by rewrite E. Qed.

Lemma get_next_ok s a v : ls_ok s a = true → l_next (ls_links s) !! a = Some v → get_next a s = Ok (v, s).
Proof.
  intros Ha Hl. unfold get_next. rewrite (bind_ok _ _ _ _ _ (list_touch_ok s a Ha)).
  unfold gets, or_crash. cbv [mbind M_bind]. by rewrite Hl.
Qed.

Lemma get_prev_ok s a v : ls_ok s a = true → l_prev (ls_links s) !! a = Some v → get_prev a s = Ok (v, s).
Proof.
  intros Ha Hl. unfold get_prev. rewrite (bind_ok _ _ _ _ _ (list_touch_ok s a Ha)).
  unfold gets, or_crash. cbv [mbind M_bind]. by rewrite Hl.
Qed.

Lemma put_next_ok s a v : ls_ok s a = true →
  put_next a v s = Ok (tt, ls_set (Links (<[a := v]> (l_next (ls_links s))) (l_prev (ls_links s))) s).
Proof. intros Ha. unfold put_next. by rewrite (bind_ok _ _ _ _ _ (list_touch_ok s a Ha)). Qed.

Lemma put_prev_ok s a v : ls_ok s a = true →
  put_prev a v s = Ok (tt, ls_set (Links (l_next (ls_links s)) (<[a := v]> (l_prev (ls_links s)))) s).
Proof. intros Ha. unfold put_prev. by rewrite (bind_ok _ _ _ _ _ (list_touch_ok s a Ha)). Qed.

(** [list_init] makes an empty list. *)
Lemma list_init_spec s head :
  ls_ok s head = true →
  ∃ l, list_init head s = Ok (tt, ls_set l s) ∧ ring l head [] ∧
    (∀ x, x ≠ head → l_next l !! x = l_next (ls_links s) !! x ∧ l_prev l !! x = l_prev (ls_links s) !! x).
Proof.
  intros Hh. unfold list_init. rewrite (bind_ok _ _ _ _ _ (put_next_ok s head head Hh)).
  rewrite put_prev_ok by (autorewrite with ksimpl; done). autorewrite with ksimpl. eexists. split; [done|]. split.
  - apply ring_empty; apply lookup_insert_eq.
  - intros x Hx. simpl. rewrite !lookup_insert_ne by done. done.
Qed.

Lemma list_insert_spec s new p n :
  ls_ok s new = true → ls_ok s p = true → ls_ok s n = true →
  __list_add new p n s = Ok (tt, ls_set (inserted (ls_links s) new p n) s).
Proof.
  intros Hnew Hp Hn. unfold __list_add.
  rewrite (bind_ok _ _ _ _ _ (put_prev_ok s n new Hn)).
  erewrite bind_ok; [|apply put_next_ok; by autorewrite with ksimpl]. autorewrite with ksimpl.
  erewrite bind_ok; [|apply put_prev_ok; by autorewrite with ksimpl]. autorewrite with ksimpl.
  rewrite put_next_ok by by autorewrite with ksimpl. by autorewrite with ksimpl.
Qed.

(** Appending at the end and at the front of a list. *)
Lemma list_add_before_spec s head xs new :
  ring (ls_links s) head xs → new ∉ head :: xs → ls_ok s new = true → (∀ x, x ∈ head :: xs → ls_ok s x = true) →
  list_add_before new head s = Ok (tt, ls_set (inserted (ls_links s) new (last_or head xs) head) s)
  ∧ ring (inserted (ls_links s) new (last_or head xs) head) head (xs ++ [new]).
Proof.
  intros Hr Hnew Hok Hoks. unfold list_add_before. split.
  - rewrite (bind_ok _ _ _ _ _ (get_prev_ok s head _ (Hoks head ltac:(by left)) (ring_prev _ _ _ Hr))).
    apply list_insert_spec; [done|apply Hoks, last_or_in|apply Hoks; by left].
  - apply (ring_insert _ _ xs []); by rewrite app_nil_r.
Qed.

Lemma list_add_after_spec s head xs new :
  ring (ls_links s) head xs → new ∉ head :: xs → ls_ok s new = true → (∀ x, x ∈ head :: xs → ls_ok s x = true) →
  list_add_after new head s = Ok (tt, ls_set (inserted (ls_links s) new head (head_or head xs)) s)
  ∧ ring (inserted (ls_links s) new head (head_or head xs)) head (new :: xs).
Proof.
  intros Hr Hnew Hok Hoks. unfold list_add_after. split.
  - rewrite (bind_ok _ _ _ _ _ (get_next_ok s head _ (Hoks head ltac:(by left)) (ring_next _ _ _ Hr))).
    apply list_insert_spec; [done|apply Hoks; by left|apply Hoks].
    pose proof (head_or_in head xs). set_solver.
  - by apply (ring_insert _ _ [] xs).
Qed.

(** Insertion after a node in the middle. *)
Lemma list_add_after_mid s head xs x ys new :
  ring (ls_links s) head (xs ++ x :: ys) → new ∉ head :: xs ++ x :: ys → ls_ok s new = true →
  (∀ z, z ∈ head :: xs ++ x :: ys → ls_ok s z = true) →
  list_add_after new x s = Ok (tt, ls_set (inserted (ls_links s) new x (head_or head ys)) s)
  ∧ ring (inserted (ls_links s) new x (head_or head ys)) head (xs ++ x :: new :: ys).
Proof.
  intros Hr Hnew Hok Hoks. unfold list_add_after. destruct (ring_at _ _ _ _ _ Hr) as [Hn _]. split.
  - rewrite (bind_ok _ _ _ _ _ (get_next_ok s x _ (Hoks x ltac:(set_solver)) Hn)).
    apply list_insert_spec; [done|apply Hoks; set_solver|apply Hoks].
    pose proof (head_or_in head ys). set_solver.
  - replace (xs ++ x :: ys) with ((xs ++ [x]) ++ ys) in * by by rewrite <- app_assoc.
    replace (xs ++ x :: new :: ys) with ((xs ++ [x]) ++ new :: ys) by by rewrite <- app_assoc.
    rewrite <- (last_or_snoc head xs x) at 1. by apply ring_insert.
Qed.

Lemma list_del_spec s head xs x ys :
  ring (ls_links s) head (xs ++ x :: ys) → (∀ z, z ∈ head :: xs ++ x :: ys → ls_ok s z = true) →
  list_del x s = Ok (tt, ls_set (unlinked (ls_links s) x (last_or head xs) (head_or head ys)) s)
  ∧ ring (unlinked (ls_links s) x (last_or head xs) (head_or head ys)) head (xs ++ ys).
Proof.
  intros Hr Hoks. destruct (ring_at _ _ _ _ _ Hr) as [Hn Hp]. destruct (ring_delete _ _ _ _ _ Hr) as [Hr' Hx]. split; [|done].
  pose proof (last_or_in head xs) as Hl. pose proof (head_or_in head ys) as Hh.
  assert (x ≠ last_or head xs) as Hxl by set_solver. assert (x ≠ head_or head ys) as Hxh by set_solver.
  assert (ls_ok s x = true) as Ox by (apply Hoks; set_solver).
  assert (ls_ok s (last_or head xs) = true) as Ol by (apply Hoks; set_solver).
  assert (ls_ok s (head_or head ys) = true) as Oh by (apply Hoks; set_solver).
  unfold list_del. rewrite (bind_ok _ _ _ _ _ (get_next_ok s x _ Ox Hn)), (bind_ok _ _ _ _ _ (get_prev_ok s x _ Ox Hp)).
  erewrite bind_ok; [|by apply put_prev_ok].
  erewrite bind_ok; [|apply get_prev_ok; autorewrite with ksimpl; [done|simpl; by rewrite lookup_insert_ne by done]].
  erewrite bind_ok; [|apply get_next_ok; by autorewrite with ksimpl].
  erewrite bind_ok; [|apply put_next_ok; by autorewrite with ksimpl].
  autorewrite with ksimpl. erewrite bind_ok; [|apply put_next_ok; by autorewrite with ksimpl]. autorewrite with ksimpl.
  rewrite put_prev_ok by by autorewrite with ksimpl. by autorewrite with ksimpl.
Qed.
End ops.

(** * What lists leave alone: all but the nodes *)

Section list_invariant.
  Context {St : Type} `{!LinkStore St} (P : St → Prop) (Hset : ∀ l s, P s → P (ls_set l s)).

Lemma list_invariant x y : invariant_of P (get_next x) ∧ invariant_of P (list_del x) ∧ invariant_of P (list_add_before x y).
Proof using Hset.

  unfold list_add_before, __list_add, list_del, get_next, get_prev, put_next, put_prev, list_touch. split_and!; inv_go; apply inv_modify; intros s Hs; by apply Hset.
Qed.
End list_invariant.
