(* ===== verification/Sched.v ===== *)
(** Sched: process control blocks ([kernel/src/proc/proc.h]), the scheduler
    ([proc/sche.c]), the timer interrupt ([arch/timer.c]) and the exit path of
    [proc/proc.c].  The PCBs are objects by address; their [sched_node]s are in the
    link store of the environment, which also knows the address spaces
    ([SchedEnv]). *)
From S2P Require Import Prelude Layout Klist.

(** * Process control blocks *)

Inductive proc_state := PROC_RUNNING | PROC_READY | PROC_BLOCKED | PROC_ZOMBIE.

#[export] Instance proc_state_eq_dec : EqDecision proc_state.
Proof. solve_decision. Defined.

Definition PROCNAME_LEN : Z := 32.
Definition TIME_SLICE_DEFAULT : Z := 10.

(** [pcb_t] without its two list nodes, which are in the link store. *)
Record pcb_t := Pcb {
  p_rsp : Z;
  p_kstack_base : Z;
  p_context : Z;
  p_trap_frame : Z;
  p_mm : Z;
  p_total_runtime : Z;
  p_time_slice : Z;
  p_pid : Z;
  p_parent : Z;
  p_state : proc_state;
  p_name : list Z;
  p_fd_table : list (option Z);
  p_cwd_inode : Z;
  p_exit_code : Z
}.

Definition with_rsp v p := Pcb v (p_kstack_base p) (p_context p) (p_trap_frame p) (p_mm p) (p_total_runtime p) (p_time_slice p) (p_pid p) (p_parent p) (p_state p) (p_name p) (p_fd_table p) (p_cwd_inode p) (p_exit_code p).
Definition with_kstack_base v p := Pcb (p_rsp p) v (p_context p) (p_trap_frame p) (p_mm p) (p_total_runtime p) (p_time_slice p) (p_pid p) (p_parent p) (p_state p) (p_name p) (p_fd_table p) (p_cwd_inode p) (p_exit_code p).
Definition with_context v p := Pcb (p_rsp p) (p_kstack_base p) v (p_trap_frame p) (p_mm p) (p_total_runtime p) (p_time_slice p) (p_pid p) (p_parent p) (p_state p) (p_name p) (p_fd_table p) (p_cwd_inode p) (p_exit_code p).
Definition with_trap_frame v p := Pcb (p_rsp p) (p_kstack_base p) (p_context p) v (p_mm p) (p_total_runtime p) (p_time_slice p) (p_pid p) (p_parent p) (p_state p) (p_name p) (p_fd_table p) (p_cwd_inode p) (p_exit_code p).
Definition with_mm v p := Pcb (p_rsp p) (p_kstack_base p) (p_context p) (p_trap_frame p) v (p_total_runtime p) (p_time_slice p) (p_pid p) (p_parent p) (p_state p) (p_name p) (p_fd_table p) (p_cwd_inode p) (p_exit_code p).
Definition with_total_runtime v p := Pcb (p_rsp p) (p_kstack_base p) (p_context p) (p_trap_frame p) (p_mm p) v (p_time_slice p) (p_pid p) (p_parent p) (p_state p) (p_name p) (p_fd_table p) (p_cwd_inode p) (p_exit_code p).
Definition with_time_slice v p := Pcb (p_rsp p) (p_kstack_base p) (p_context p) (p_trap_frame p) (p_mm p) (p_total_runtime p) v (p_pid p) (p_parent p) (p_state p) (p_name p) (p_fd_table p) (p_cwd_inode p) (p_exit_code p).
Definition with_parent v p := Pcb (p_rsp p) (p_kstack_base p) (p_context p) (p_trap_frame p) (p_mm p) (p_total_runtime p) (p_time_slice p) (p_pid p) v (p_state p) (p_name p) (p_fd_table p) (p_cwd_inode p) (p_exit_code p).
Definition with_state v p := Pcb (p_rsp p) (p_kstack_base p) (p_context p) (p_trap_frame p) (p_mm p) (p_total_runtime p) (p_time_slice p) (p_pid p) (p_parent p) v (p_name p) (p_fd_table p) (p_cwd_inode p) (p_exit_code p).
Definition with_name v p := Pcb (p_rsp p) (p_kstack_base p) (p_context p) (p_trap_frame p) (p_mm p) (p_total_runtime p) (p_time_slice p) (p_pid p) (p_parent p) (p_state p) v (p_fd_table p) (p_cwd_inode p) (p_exit_code p).
Definition with_fd_table v p := Pcb (p_rsp p) (p_kstack_base p) (p_context p) (p_trap_frame p) (p_mm p) (p_total_runtime p) (p_time_slice p) (p_pid p) (p_parent p) (p_state p) (p_name p) v (p_cwd_inode p) (p_exit_code p).
Definition with_cwd_inode v p := Pcb (p_rsp p) (p_kstack_base p) (p_context p) (p_trap_frame p) (p_mm p) (p_total_runtime p) (p_time_slice p) (p_pid p) (p_parent p) (p_state p) (p_name p) (p_fd_table p) v (p_exit_code p).
Definition with_exit_code v p := Pcb (p_rsp p) (p_kstack_base p) (p_context p) (p_trap_frame p) (p_mm p) (p_total_runtime p) (p_time_slice p) (p_pid p) (p_parent p) (p_state p) (p_name p) (p_fd_table p) (p_cwd_inode p) v.

(** [offsetof(pcb_t, proc_list_node)] and [offsetof(pcb_t, sched_node)]. *)
Definition proc_list_off : Z := 40.
Definition sched_off : Z := 56.
Definition sched_node (p : Z) : Z := u64 (p + sched_off).
Definition proc_list_node (p : Z) : Z := u64 (p + proc_list_off).

(** * State *)

(** What the scheduler needs of the rest of the kernel: the list nodes, the
    [pml4_pa] of the address spaces by address, CR3 and the trace. *)
Class SchedEnv (A : Type) := {
  #[global] se_store :: LinkStore A;
  #[global] se_traced :: Traced A;
  se_mms : A → gmap Z Z;
  se_cr3 : A → Z;
  se_lcr3 : Z → A → A;
  se_cr3_lcr3 v a : se_cr3 (se_lcr3 v a) = v;
  se_mms_lcr3 v a : se_mms (se_lcr3 v a) = se_mms a;
  se_links_lcr3 v a : ls_links (se_lcr3 v a) = ls_links a;
  se_ok_lcr3 v a x : ls_ok (se_lcr3 v a) x = ls_ok a x;
  se_mms_push e a : se_mms (push_event e a) = se_mms a;
  se_links_push e a : ls_links (push_event e a) = ls_links a;
  se_ok_push e a x : ls_ok (push_event e a) x = ls_ok a x;
  se_cr3_push e a : se_cr3 (push_event e a) = se_cr3 a;
  se_mms_set l a : se_mms (ls_set l a) = se_mms a;
  se_cr3_set l a : se_cr3 (ls_set l a) = se_cr3 a
}.

(** The processor's interrupt flag and the globals of [sche.c], [proc.c] and
    [timer.c].  [suspended] holds, for a thread that was switched out, the local
    [interrupts_enabled] its [schedule] will look at when it is switched back in. *)
Record proc_st (A : Type) := ProcSt {
  env : A;
  pcbs : gmap Z pcb_t;
  current_proc : Z;
  idle_proc : Z;
  next_pid : Z;
  ticks : Z;
  if_flag : bool;
  tss_rsp0 : Z;
  suspended : gmap Z bool
}.
Arguments ProcSt {A} _ _ _ _ _ _ _ _ _.
Arguments env {A} _.
Arguments pcbs {A} _.
Arguments current_proc {A} _.
Arguments idle_proc {A} _.
Arguments next_pid {A} _.
Arguments ticks {A} _.
Arguments if_flag {A} _.
Arguments tss_rsp0 {A} _.
Arguments suspended {A} _.

Section setters.
  Context {A : Type}.
  Implicit Types s : proc_st A.

Definition set_env (a : A) s := ProcSt a (pcbs s) (current_proc s) (idle_proc s) (next_pid s) (ticks s) (if_flag s) (tss_rsp0 s) (suspended s).
Definition set_pcbs m s := ProcSt (env s) m (current_proc s) (idle_proc s) (next_pid s) (ticks s) (if_flag s) (tss_rsp0 s) (suspended s).
Definition set_current p s := ProcSt (env s) (pcbs s) p (idle_proc s) (next_pid s) (ticks s) (if_flag s) (tss_rsp0 s) (suspended s).
Definition set_idle p s := ProcSt (env s) (pcbs s) (current_proc s) p (next_pid s) (ticks s) (if_flag s) (tss_rsp0 s) (suspended s).
Definition set_next_pid n s := ProcSt (env s) (pcbs s) (current_proc s) (idle_proc s) n (ticks s) (if_flag s) (tss_rsp0 s) (suspended s).
Definition set_ticks n s := ProcSt (env s) (pcbs s) (current_proc s) (idle_proc s) (next_pid s) n (if_flag s) (tss_rsp0 s) (suspended s).
Definition set_if b s := ProcSt (env s) (pcbs s) (current_proc s) (idle_proc s) (next_pid s) (ticks s) b (tss_rsp0 s) (suspended s).
Definition set_tss v s := ProcSt (env s) (pcbs s) (current_proc s) (idle_proc s) (next_pid s) (ticks s) (if_flag s) v (suspended s).
Definition set_suspended m s := ProcSt (env s) (pcbs s) (current_proc s) (idle_proc s) (next_pid s) (ticks s) (if_flag s) (tss_rsp0 s) m.
End setters.

#[export] Program Instance proc_traced {A} `{!Traced A} : Traced (proc_st A) := {|
  trace s := trace (env s);
  push_event e s := set_env (push_event e (env s)) s
|}.
Next Obligation. intros. apply trace_push. Qed.

Section sched.
  Context {A : Type} `{!SchedEnv A}.
  (** [&ready_queue] *)
  Context (ready_queue : Z).
  Abbreviation St := (proc_st A).

Definition on_env {R} (m : M A R) : M St R := zoom env set_env m.

(** A field access through a PCB pointer. *)
Definition get_pcb (p : Z) : M St pcb_t := m ← gets pcbs; or_crash NullDeref (m !! p).
Definition update_pcb (p : Z) (f : pcb_t → pcb_t) : M St unit :=
  c ← get_pcb p; modify (λ s, set_pcbs (<[p := f c]> (pcbs s)) s).

Definition cli : M St unit := modify (set_if false);; emit EvCli.
Definition sti : M St unit := modify (set_if true);; emit EvSti.
Definition lcr3 (v : Z) : M St unit :=
  modify (λ s, set_env (se_lcr3 v (env s)) s);; emit (EvLcr3 v).
Definition set_tss_stack (kernel_stack : Z) : M St unit := modify (set_tss kernel_stack).

(** [switch_to(&prev->context, next->context)] from a stack whose pointer is [sp]
    once the registers are saved: [prev] is suspended inside [schedule] with its
    local [ie], and [next] goes on where it was suspended, at the end of its own
    [schedule]; a thread that never ran starts at its entry instead. *)
Definition switch_to (prev next sp : Z) (ie : bool) : M St unit :=
  update_pcb prev (with_context sp);;
  modify (λ s, set_suspended (<[prev := ie]> (suspended s)) s);;
  emit (EvSwitch prev next);;
  r ← gets suspended;
  match r !! next with
  | Some ie' => modify (λ s, set_suspended (delete next (suspended s)) s);; (if ie' : bool then sti else mret tt)
  | None => mret tt
  end.

(** Step 4 of [schedule]: the context switch to another process. *)
Definition dispatch (prev next sp : Z) (interrupts_enabled : bool) : M St unit :=
  update_pcb next (with_state PROC_RUNNING);;
  modify (set_current next);;
  update_pcb next (with_time_slice TIME_SLICE_DEFAULT);;
  n ← get_pcb next;
  set_tss_stack (u64 (p_kstack_base n + KSTACK_SIZE));;
  p ← get_pcb prev;
  (if negb (p_mm n =? 0) && ((p_mm p =? 0) || negb (p_mm p =? p_mm n)) then
     mms ← gets (λ s, se_mms (env s));
     pml4_pa ← or_crash NullDeref (mms !! p_mm n);
     lcr3 pml4_pa
   else mret tt);;
  switch_to prev next sp interrupts_enabled.

(** Steps 3 to 5. *)
Definition schedule_next (prev sp : Z) (interrupts_enabled : bool) : M St unit :=
  first ← on_env (get_next ready_queue);
  next ← (if first =? ready_queue then
    next ← gets idle_proc;
    update_pcb next (with_state PROC_RUNNING);;
    update_pcb next (with_time_slice TIME_SLICE_DEFAULT);;
    mret next
  else
    next_node ← on_env (get_next ready_queue);
    on_env (list_del next_node);;
    mret (container_of next_node sched_off));
  if negb (prev =? next) then dispatch prev next sp interrupts_enabled
  else if interrupts_enabled then sti else mret tt.

Definition schedule (sp : Z) : M St unit :=
  interrupts_enabled ← gets if_flag;
  cli;;
  prev ← gets current_proc;
  idle ← gets idle_proc;
  p ← get_pcb prev;
  if bool_decide (p_state p = PROC_RUNNING) && negb (prev =? idle) then
    if p_time_slice p <=? 0 then
      update_pcb prev (with_state PROC_READY);;
      update_pcb prev (with_time_slice TIME_SLICE_DEFAULT);;
      on_env (list_add_before (sched_node prev) ready_queue);;
      schedule_next prev sp interrupts_enabled
    else if interrupts_enabled then sti else mret tt
  else schedule_next prev sp interrupts_enabled.

(** The handler of interrupt 32. *)
Definition timer_callback (sp : Z) : M St unit :=
  modify (λ s, set_ticks (u64 (ticks s + 1)) s);;
  cur ← gets current_proc;
  if cur =? 0 then mret tt else
  p ← get_pcb cur;
  if bool_decide (p_state p = PROC_RUNNING) then
    update_pcb cur (λ p, with_total_runtime (u64 (p_total_runtime p + 1)) p);;
    update_pcb cur (λ p, with_time_slice (i32 (p_time_slice p - 1)) p);;
    p ← get_pcb cur;
    if p_time_slice p <=? 0 then schedule sp else mret tt
  else mret tt.

Definition kthread_exit (exit_code sp : Z) : M St unit :=
  cli;;
  proc ← gets current_proc;
  update_pcb proc (with_state PROC_ZOMBIE);;
  update_pcb proc (with_exit_code exit_code);;
  p ← get_pcb proc;
  kprintf "Thread (PID %d) exited with code %d.\n" [KInt (p_pid p); KInt exit_code];;
  schedule sp.
End sched.

(** * Execution steps *)

Section steps.
  Context {A : Type} `{!SchedEnv A}.
  Context (ready_queue : Z).
  Implicit Types s : proc_st A.

Lemma get_pcb_ok s p c : pcbs s !! p = Some c → get_pcb p s = Ok (c, s).
Proof. intros H. unfold get_pcb, gets, or_crash. cbv [mbind M_bind]. by rewrite H. Qed.

Lemma update_pcb_ok s p c f : pcbs s !! p = Some c → update_pcb p f s = Ok (tt, set_pcbs (<[p := f c]> (pcbs s)) s).
Proof. intros H. unfold update_pcb. by rewrite (bind_ok _ _ _ _ _ (get_pcb_ok s p c H)). Qed.

Lemma on_env_ok {R} (m : M A R) s r e : m (env s) = Ok (r, e) → on_env m s = Ok (r, set_env e s).
Proof. intros H. unfold on_env, zoom. by rewrite H. Qed.

(** What a piece of the scheduler leaves alone: everything the ready queue and
    the processes other than those it names depend on. *)
Record same_world s s' : Prop := {
  sw_links : ls_links (env s') = ls_links (env s);
  sw_ok a : ls_ok (env s') a = ls_ok (env s) a;
  sw_mms : se_mms (env s') = se_mms (env s);
  sw_idle : idle_proc s' = idle_proc s;
  sw_pid : next_pid s' = next_pid s
}.

Lemma same_world_refl s : same_world s s.
Proof. by split. Qed.
Lemma same_world_trans s1 s2 s3 : same_world s1 s2 → same_world s2 s3 → same_world s1 s3.
Proof. intros [] []. split; intros; etrans; eauto. Qed.

Lemma sti_spec s : ∃ s', sti s = Ok (tt, s') ∧ same_world s s' ∧ pcbs s' = pcbs s ∧ current_proc s' = current_proc s
  ∧ tss_rsp0 s' = tss_rsp0 s ∧ se_cr3 (env s') = se_cr3 (env s) ∧ if_flag s' = true ∧ suspended s' = suspended s.
Proof.
  eexists. split; [done|]. split; [|simpl; rewrite se_cr3_push; by split_and!].
  split; simpl; intros; rewrite ?se_links_push, ?se_ok_push, ?se_mms_push; done.
Qed.

Lemma cli_spec s : ∃ s', cli s = Ok (tt, s') ∧ same_world s s' ∧ pcbs s' = pcbs s ∧ current_proc s' = current_proc s
  ∧ tss_rsp0 s' = tss_rsp0 s ∧ se_cr3 (env s') = se_cr3 (env s) ∧ suspended s' = suspended s.
Proof.
  eexists. split; [done|]. split; [|simpl; rewrite se_cr3_push; by split_and!].
  split; simpl; intros; rewrite ?se_links_push, ?se_ok_push, ?se_mms_push; done.
Qed.

Lemma switch_to_spec s prev next sp ie cp :
  pcbs s !! prev = Some cp →
  ∃ s', switch_to prev next sp ie s = Ok (tt, s') ∧ same_world s s' ∧ pcbs s' = <[prev := with_context sp cp]> (pcbs s)
    ∧ current_proc s' = current_proc s ∧ tss_rsp0 s' = tss_rsp0 s ∧ se_cr3 (env s') = se_cr3 (env s).
Proof.
  intros Hp. unfold switch_to. rewrite (bind_ok _ _ _ _ _ (update_pcb_ok s prev cp _ Hp)).
  set (s1 := set_pcbs _ s). set (s2 := set_suspended (<[prev := ie]> (suspended s)) s1).
  set (s3 := push_event (EvSwitch prev next) s2).
  assert (same_world s s3) as Hw.
  { split; simpl; intros; rewrite ?se_links_push, ?se_ok_push, ?se_mms_push; done. }
  assert (se_cr3 (env s3) = se_cr3 (env s)) as Hc by (simpl; by rewrite se_cr3_push).
  change (∃ s', (r ← gets suspended; match r !! next with
    | Some ie' => modify (λ s, set_suspended (delete next (suspended s)) s);; (if ie' : bool then sti else mret tt)
    | None => mret tt end) s3 = Ok (tt, s') ∧ same_world s s' ∧ pcbs s' = <[prev := with_context sp cp]> (pcbs s)
    ∧ current_proc s' = current_proc s ∧ tss_rsp0 s' = tss_rsp0 s ∧ se_cr3 (env s') = se_cr3 (env s)).
  unfold gets. cbv [mbind M_bind]. destruct (suspended s3 !! next) as [[]|].
  - set (s4 := set_suspended (delete next (suspended s3)) s3). change (modify _ s3) with (Ok (tt, s4)). cbv beta iota.
    destruct (sti_spec s4) as (s' & E & Hw' & E1 & E2 & E3 & E4 & _). rewrite E. exists s'. split; [done|].
    split; [eapply same_world_trans; [exact Hw|eapply same_world_trans; [|exact Hw']; by split]|].
    rewrite E1, E2, E3, E4. done.
  - eexists. split; [done|]. split; [eapply same_world_trans; [exact Hw|by split]|]. done.
  - eexists. split; [done|]. done.
Qed.

(** The address space the processor ends up in. *)
Definition switched_cr3 s (cp cn : pcb_t) : Z :=
  if negb (p_mm cn =? 0) && ((p_mm cp =? 0) || negb (p_mm cp =? p_mm cn))
  then default 0 (se_mms (env s) !! p_mm cn) else se_cr3 (env s).

Lemma dispatch_spec s prev next sp ie cp cn :
  pcbs s !! prev = Some cp → pcbs s !! next = Some cn → prev ≠ next →
  (p_mm cn ≠ 0 → is_Some (se_mms (env s) !! p_mm cn)) →
  ∃ s', dispatch prev next sp ie s = Ok (tt, s') ∧ same_world s s'
    ∧ pcbs s' = <[prev := with_context sp cp]> (<[next := with_time_slice TIME_SLICE_DEFAULT (with_state PROC_RUNNING cn)]> (pcbs s))
    ∧ current_proc s' = next ∧ tss_rsp0 s' = u64 (p_kstack_base cn + KSTACK_SIZE) ∧ se_cr3 (env s') = switched_cr3 s cp cn.
Proof.
  intros Hp Hn Hne Hmm. unfold dispatch. rewrite (bind_ok _ _ _ _ _ (update_pcb_ok s next cn _ Hn)).
  set (s1 := set_pcbs _ s).
  rewrite (bind_ok _ _ _ _ _ (eq_refl : modify (set_current next) s1 = Ok (tt, set_current next s1))).
  erewrite bind_ok; [|apply update_pcb_ok; apply lookup_insert_eq]. simpl. rewrite insert_insert_eq.
  erewrite bind_ok; [|apply get_pcb_ok; apply lookup_insert_eq].
  set (s2 := set_pcbs _ _).
  rewrite (bind_ok _ _ _ _ _ (eq_refl : set_tss_stack (u64 (p_kstack_base cn + KSTACK_SIZE)) s2
    = Ok (tt, set_tss (u64 (p_kstack_base cn + KSTACK_SIZE)) s2))).
  set (s3 := set_tss _ s2).
  assert (pcbs s3 !! prev = Some cp) as Hp3 by (simpl; rewrite lookup_insert_ne; done).
  rewrite (bind_ok _ _ _ _ _ (get_pcb_ok s3 prev cp Hp3)).
  change (p_mm (with_time_slice TIME_SLICE_DEFAULT (with_state PROC_RUNNING cn))) with (p_mm cn).
  assert (∃ s4, (if negb (p_mm cn =? 0) && ((p_mm cp =? 0) || negb (p_mm cp =? p_mm cn)) then
     mms ← gets (λ s, se_mms (env s)); pml4_pa ← or_crash NullDeref (mms !! p_mm cn); lcr3 pml4_pa else mret tt) s3
     = Ok (tt, s4) ∧ same_world s3 s4 ∧ pcbs s4 = pcbs s3 ∧ current_proc s4 = next ∧ tss_rsp0 s4 = tss_rsp0 s3
       ∧ se_cr3 (env s4) = switched_cr3 s cp cn) as (s4 & E4 & Hw4 & Hp4 & Hc4 & Ht4 & Hr4).
  { unfold switched_cr3. destruct (negb (p_mm cn =? 0) && _) eqn:Hcond.
    - apply andb_true_iff in Hcond as [Hm0 _]. apply negb_true_iff, Z.eqb_neq in Hm0. destruct (Hmm Hm0) as [v Hv].
      unfold gets, or_crash. cbv [mbind M_bind]. change (se_mms (env s3)) with (se_mms (env s)). rewrite Hv.
      eexists. split; [done|]. split; [|simpl; rewrite se_cr3_push, se_cr3_lcr3; by split_and!].
      split; simpl; intros; rewrite ?se_links_push, ?se_ok_push, ?se_mms_push, ?se_links_lcr3, ?se_ok_lcr3, ?se_mms_lcr3; done.
    - eexists. split; [done|]. split; [apply same_world_refl|]. by split_and!. }
  rewrite (bind_ok _ _ _ _ _ E4).
  destruct (switch_to_spec s4 prev next sp ie cp ltac:(by rewrite Hp4)) as (s' & E & Hw & E1 & E2 & E3 & E5).
  exists s'. split; [exact E|]. split; [|split; [|split; [|split]]].
  - eapply same_world_trans; [|exact Hw]. eapply same_world_trans; [|exact Hw4]. by split.
  - by rewrite E1, Hp4.
  - by rewrite E2.
  - by rewrite E3, Ht4.
  - by rewrite E5.
Qed.
End steps.

(** * The ready queue as an abstract queue *)

(** One scheduling decision: the next process and the queue it leaves. *)
Definition abs_schedule (idle : Z) (running : bool) (slice cur : Z) (q : list Z) : Z * list Z :=
  if running && negb (cur =? idle) && (0 <? slice) then (cur, q)
  else let q := if running && negb (cur =? idle) then q ++ [cur] else q in (head_or idle q, tail q).

Definition sizeof_pcb : Z := 272.

Section theory.
  Context {A : Type} `{!SchedEnv A}.
  Context (ready_queue : Z).
  Implicit Types s : proc_st A.

(** A PCB the scheduler can work with. *)
Record pcb_ok s (p : Z) (c : pcb_t) : Prop := {
  po_range : 0 < p ∧ p + sizeof_pcb ≤ 2 ^ 64;
  po_acc : ls_ok (env s) (sched_node p) = true;
  po_queue : sched_node p ≠ ready_queue;
  po_mm : p_mm c ≠ 0 → is_Some (se_mms (env s) !! p_mm c);
  po_slice : 0 ≤ p_time_slice c < 2 ^ 31
}.

(** The queue holds exactly the processes [qs], all of them ready and none of them
    the current or the idle process. *)
Record sched_ok s (qs : list Z) : Prop := {
  so_ring : ring (ls_links (env s)) ready_queue (map sched_node qs);
  so_head : ls_ok (env s) ready_queue = true;
  so_cur : (current_proc s ∉ qs) ∧ is_Some (pcbs s !! current_proc s);
  so_idle : (idle_proc s ∉ qs) ∧ is_Some (pcbs s !! idle_proc s);
  so_pcb p c : pcbs s !! p = Some c → pcb_ok s p c;
  so_ready p : p ∈ qs → ∃ c, pcbs s !! p = Some c ∧ p_state c = PROC_READY
}.

Lemma sched_node_eq p : 0 < p ∧ p + sizeof_pcb ≤ 2 ^ 64 → sched_node p = p + 56.
Proof. unfold sizeof_pcb. intros. apply u64_small. unfold sched_off. lia. Qed.

Lemma sched_node_container p : 0 < p ∧ p + sizeof_pcb ≤ 2 ^ 64 → container_of (sched_node p) sched_off = p.
Proof.
  intros Hp. rewrite sched_node_eq by done. unfold container_of, sched_off, sizeof_pcb in *.
  replace (p + 56 - 56) with p by lia. apply u64_small. lia.
Qed.

Lemma so_acc s qs x : sched_ok s qs → x ∈ ready_queue :: map sched_node qs → ls_ok (env s) x = true.
Proof.
  intros Hok [->|(p & -> & Hp)%list_elem_of_fmap]%elem_of_cons; [apply (so_head _ _ Hok)|].
  destruct (so_ready _ _ Hok p Hp) as (c & Hc & _). apply (po_acc _ _ _ (so_pcb _ _ Hok _ _ Hc)).
Qed.

Lemma so_nodup s qs : sched_ok s qs → NoDup qs.
Proof. intros Hok. destruct (so_ring _ _ Hok) as [Hnd _]. apply NoDup_cons in Hnd as [_ Hnd]. by apply NoDup_fmap_1 in Hnd. Qed.

Lemma sched_node_fresh s qs p c : sched_ok s qs → pcbs s !! p = Some c → p ∉ qs → sched_node p ∉ ready_queue :: map sched_node qs.
Proof.
  intros Hok Hc Hp. pose proof (so_pcb _ _ Hok _ _ Hc) as Hpc. rewrite not_elem_of_cons. split; [apply (po_queue _ _ _ Hpc)|].
  intros (q & Hq & Hin)%list_elem_of_fmap. destruct (so_ready _ _ Hok q Hin) as (cq & Hcq & _).
  pose proof (so_pcb _ _ Hok _ _ Hcq) as Hqc. rewrite !sched_node_eq in Hq by (by eapply po_range).
  assert (p = q) as -> by lia. done.
Qed.

(** The state with the list nodes replaced. *)
Definition relinked (l : links) s : proc_st A := set_env (ls_set l (env s)) s.

Lemma relinked_same s : relinked (ls_links (env s)) s = s.
Proof. unfold relinked. rewrite ls_set_links. by destruct s. Qed.

(** The pieces of [sched_ok] that survive an update of the PCBs and the queue. *)
Lemma sched_ok_update s l s' qs qs' :
  sched_ok s qs → same_world (relinked l s) s' → ring l ready_queue (map sched_node qs') →
  (∀ p c', pcbs s' !! p = Some c' → ∃ c, pcbs s !! p = Some c ∧ p_mm c' = p_mm c ∧ 0 ≤ p_time_slice c' < 2 ^ 31) →
  (∀ p, is_Some (pcbs s !! p) → is_Some (pcbs s' !! p)) →
  (current_proc s' ∉ qs') → is_Some (pcbs s !! current_proc s') → (idle_proc s ∉ qs') →
  (∀ p, p ∈ qs' → ∃ c, pcbs s' !! p = Some c ∧ p_state c = PROC_READY) →
  sched_ok s' qs'.
Proof.
  intros Hok Hw Hring Hpcb Hdom Hcur Hcs Hidle Hready. split; try done.
  - rewrite (sw_links _ _ Hw). unfold relinked. simpl. by rewrite ls_links_set.
  - rewrite (sw_ok _ _ Hw). unfold relinked. simpl. rewrite ls_ok_set. apply (so_head _ _ Hok).
  - split; [done|by apply Hdom].
  - rewrite (sw_idle _ _ Hw). split; [done|]. apply Hdom, (so_idle _ _ Hok).
  - intros p c' Hp. destruct (Hpcb p c' Hp) as (c & Hc & Hmm & Hts). destruct (so_pcb _ _ Hok _ _ Hc) as [H1 H2 H3 H4 H5].
    split; try done; [rewrite (sw_ok _ _ Hw); unfold relinked; simpl; by rewrite ls_ok_set|].
    rewrite Hmm, (sw_mms _ _ Hw). unfold relinked. simpl. by rewrite se_mms_set.
Qed.

Definition fresh_slice (c : pcb_t) : pcb_t := with_time_slice TIME_SLICE_DEFAULT (with_state PROC_RUNNING c).

(** The process control blocks after the choice of [next], the head of [qs] or idle. *)
Definition chosen_pcbs (m : gmap Z pcb_t) (prev next sp : Z) (qs : list Z) (cp cn : pcb_t) : gmap Z pcb_t :=
  if decide (prev = next) then (match qs with [] => <[next := fresh_slice cn]> m | _ => m end)
  else <[prev := with_context sp cp]> (<[next := fresh_slice cn]> m).

Record chose s s' (prev next sp : Z) (qs : list Z) (cp cn : pcb_t) : Prop := {
  ch_pcbs : pcbs s' = chosen_pcbs (pcbs s) prev next sp qs cp cn;
  ch_cur : current_proc s' = next;
  ch_tss : prev ≠ next → tss_rsp0 s' = u64 (p_kstack_base cn + KSTACK_SIZE);
  ch_cr3 : prev ≠ next → se_cr3 (env s') = switched_cr3 s cp cn
}.

Lemma fresh_slice_twice (m : gmap Z pcb_t) p c : <[p := fresh_slice (fresh_slice c)]> (<[p := fresh_slice c]> m) = <[p := fresh_slice c]> m.
Proof. by rewrite insert_insert_eq. Qed.

(** The end of [schedule] once [next] is known. *)
Lemma choose_spec s1 prev next sp ie cp cn :
  current_proc s1 = prev → pcbs s1 !! prev = Some cp → pcbs s1 !! next = Some cn →
  (p_mm cn ≠ 0 → is_Some (se_mms (env s1) !! p_mm cn)) →
  ∃ s', (if negb (prev =? next) then dispatch prev next sp ie else if ie then sti else mret tt) s1 = Ok (tt, s')
    ∧ same_world s1 s' ∧ chose s1 s' prev next sp [0] cp cn.
Proof.
  intros Hcur Hp Hn Hmm. destruct (Z.eqb_spec prev next) as [E|Hne]; simpl.
  - destruct ie.
    + destruct (sti_spec s1) as (s' & Es & Hw & E1 & E2 & E3 & E4 & _). exists s'. split; [done|]. split; [done|].
      split; [|by rewrite E2, Hcur|done|done]. unfold chosen_pcbs. by rewrite decide_True.
    + exists s1. split; [done|]. split; [apply same_world_refl|].
      split; [|by rewrite Hcur|done|done]. unfold chosen_pcbs. by rewrite decide_True.
  - destruct (dispatch_spec s1 prev next sp ie cp cn Hp Hn Hne Hmm) as (s' & Es & Hw & E1 & E2 & E3 & E4).
    exists s'. split; [done|]. split; [done|]. split; try done. unfold chosen_pcbs. by rewrite decide_False.
Qed.

Lemma schedule_next_spec s prev qs sp ie cp cn :
  let next := head_or (idle_proc s) qs in
  ring (ls_links (env s)) ready_queue (map sched_node qs) →
  (∀ x, x ∈ ready_queue :: map sched_node qs → ls_ok (env s) x = true) →
  (∀ p, p ∈ qs → 0 < p ∧ p + sizeof_pcb ≤ 2 ^ 64) →
  current_proc s = prev → pcbs s !! prev = Some cp → pcbs s !! next = Some cn →
  (p_mm cn ≠ 0 → is_Some (se_mms (env s) !! p_mm cn)) →
  ∃ l s', schedule_next ready_queue prev sp ie s = Ok (tt, s')
    ∧ ring l ready_queue (map sched_node (tail qs)) ∧ same_world (relinked l s) s' ∧ chose s s' prev next sp qs cp cn.
Proof.
  intros next Hring Hacc Hrange Hcur Hp Hn Hmm. unfold schedule_next.
  assert (get_next ready_queue (env s) = Ok (head_or ready_queue (map sched_node qs), env s)) as Eg.
  { apply get_next_ok; [apply Hacc; by left|by eapply ring_next]. }
  assert (∀ s0, env s0 = env s → set_env (env s) s0 = s0) as Hset by (intros [] <-; done).
  rewrite (bind_ok _ _ _ _ _ (on_env_ok _ s _ _ Eg)), Hset by done.
  destruct qs as [|q qs]; simpl in next.
  - change (head_or ready_queue (map sched_node [])) with ready_queue. rewrite (Z.eqb_refl ready_queue).
    set (s1 := set_pcbs (<[next := fresh_slice cn]> (pcbs s)) s).
    rewrite (bind_ok _ _ s next s1).
    2:{ rewrite (bind_ok _ _ _ _ _ (eq_refl : gets idle_proc s = Ok (next, s))).
        rewrite (bind_ok _ _ _ _ _ (update_pcb_ok s next cn _ Hn)).
        erewrite bind_ok; [|apply update_pcb_ok; apply lookup_insert_eq]. simpl. by rewrite insert_insert_eq. }
    exists (ls_links (env s)). rewrite relinked_same.
    destruct (decide (prev = next)) as [Epn|Hne].
    + assert (cn = cp) as -> by congruence.
      destruct (choose_spec s1 prev next sp ie (fresh_slice cp) (fresh_slice cp)) as (s' & Es & Hw & [H1 H2 H3 H4]);
        [done|by rewrite Epn; apply lookup_insert_eq|apply lookup_insert_eq|done|].
      exists s'. split; [done|]. split; [done|]. split; [eapply same_world_trans; [|done]; by split|].
      split; [|done|done|done]. unfold chosen_pcbs in *. by rewrite !decide_True in * by done.
    + destruct (choose_spec s1 prev next sp ie cp (fresh_slice cn)) as (s' & Es & Hw & [H1 H2 H3 H4]);
        [done|simpl; by rewrite lookup_insert_ne|apply lookup_insert_eq|done|].
      exists s'. split; [done|]. split; [done|]. split; [eapply same_world_trans; [|done]; by split|].
      split; [|done|done|done]. unfold chosen_pcbs in *. rewrite !decide_False in * by done.
      rewrite H1. simpl. by rewrite fresh_slice_twice.
  - assert (sched_node q ≠ ready_queue) as Hq.
    { destruct Hring as [Hnd _]. apply NoDup_cons in Hnd as [Hnd _]. set_solver. }
    change (head_or ready_queue (map sched_node (q :: qs))) with (sched_node q).
    rewrite (proj2 (Z.eqb_neq _ _) Hq).
    destruct (list_del_spec (env s) ready_queue [] (sched_node q) (map sched_node qs) Hring Hacc) as [Ed Hring'].
    set (l := unlinked _ _ _ _) in *. set (s1 := relinked l s).
    rewrite (bind_ok _ _ s q s1).
    2:{ rewrite (bind_ok _ _ _ _ _ (on_env_ok _ s _ _ Eg)), Hset by done.
        change (head_or ready_queue (map sched_node (q :: qs))) with (sched_node q).
        rewrite (bind_ok _ _ _ _ _ (on_env_ok _ s _ _ Ed)). by rewrite sched_node_container by (apply Hrange; by left). }
    exists l. destruct (choose_spec s1 prev q sp ie cp cn) as (s' & Es & Hw & [H1 H2 H3 H4]); try done.
    { simpl. by rewrite se_mms_set. }
    exists s'. split; [done|]. split; [done|]. split; [done|].
    split; [done|done|done|]. intros Hne. rewrite (H4 Hne). unfold switched_cr3, s1, relinked. simpl.
    by rewrite se_mms_set, se_cr3_set.
Qed.

Definition is_running (c : pcb_t) : bool := bool_decide (p_state c = PROC_RUNNING).

(** A decision of the scheduler on a process [c] that is current in [s]. *)
Definition decision s (c : pcb_t) (qs : list Z) : Z * list Z :=
  abs_schedule (idle_proc s) (is_running c) (p_time_slice c) (current_proc s) qs.

(** What a decision does to the processes. *)
Record scheduled s s' (c : pcb_t) (next : Z) : Prop := {
  sd_cur : current_proc s' = next;
  sd_idle : idle_proc s' = idle_proc s;
  sd_other p : p ≠ current_proc s → p ≠ next → pcbs s' !! p = pcbs s !! p;
  sd_next : next ≠ current_proc s → ∃ cn, pcbs s !! next = Some cn ∧ pcbs s' !! next = Some (fresh_slice cn)
    ∧ tss_rsp0 s' = u64 (p_kstack_base cn + KSTACK_SIZE) ∧ se_cr3 (env s') = switched_cr3 s c cn;
  sd_prev : ∃ c', pcbs s' !! current_proc s = Some c' ∧ p_mm c' = p_mm c
    ∧ (next ≠ current_proc s → p_state c' = if is_running c && negb (current_proc s =? idle_proc s) then PROC_READY else p_state c);
  sd_timed : ∃ c', pcbs s' !! next = Some c' ∧ (is_running c' = true → 1 ≤ p_time_slice c')
    ∧ (next = current_proc s → is_running c = true → current_proc s ≠ idle_proc s → p_time_slice c ≤ 0 → p_state c' = PROC_READY)
}.

Lemma head_or_elem (b : Z) qs : head_or b qs ∈ b :: qs.
Proof. destruct qs; simpl; set_solver. Qed.

Lemma elem_of_tail (x : Z) qs : x ∈ tail qs → x ∈ qs.
Proof. destruct qs; simpl; set_solver. Qed.

Lemma relinked_world s0 s l : same_world (relinked (ls_links (env s)) s0) s → same_world (relinked l s0) (relinked l s).
Proof.
  intros [H1 H2 H3 H4 H5]. unfold relinked in *. simpl in *. split; simpl; try done.
  - by rewrite !ls_links_set.
  - intros a. rewrite !ls_ok_set, H2. by rewrite ls_ok_set.
  - by rewrite !se_mms_set, H3, se_mms_set.
Qed.

Section chosen.
  Context (m : gmap Z pcb_t) (prev next sp : Z) (qs : list Z) (cp cn : pcb_t).
  Context (Hp : m !! prev = Some cp) (Hn : m !! next = Some cn).

Lemma chosen_next : prev ≠ next → chosen_pcbs m prev next sp qs cp cn !! next = Some (fresh_slice cn).
Proof. intros. unfold chosen_pcbs. rewrite decide_False by done. rewrite lookup_insert_ne by done. apply lookup_insert_eq. Qed.

Lemma chosen_other p : p ≠ prev → p ≠ next → chosen_pcbs m prev next sp qs cp cn !! p = m !! p.
Proof.
  intros. unfold chosen_pcbs. case_decide; [destruct qs|]; rewrite ?lookup_insert_ne by done; done.
Qed.

Lemma chosen_lookup p c' : chosen_pcbs m prev next sp qs cp cn !! p = Some c' →
  ∃ c, m !! p = Some c ∧ p_mm c' = p_mm c ∧ (p_time_slice c' = p_time_slice c ∨ p_time_slice c' = TIME_SLICE_DEFAULT)
    ∧ (p ≠ next → p_state c' = p_state c).
Proof using Hp Hn.
  assert (fresh_ok : ∀ q, q = next → ∃ c, m !! q = Some c ∧ p_mm (fresh_slice cn) = p_mm c
    ∧ (p_time_slice (fresh_slice cn) = p_time_slice c ∨ p_time_slice (fresh_slice cn) = TIME_SLICE_DEFAULT)
    ∧ (q ≠ next → p_state (fresh_slice cn) = p_state c)).
  { intros q ->. exists cn. split; [done|]. split; [done|]. split; [by right|done]. }
  unfold chosen_pcbs. case_decide as E; [destruct qs|]; intros H.
  - apply lookup_insert_Some in H as [[<- <-]|[Hne H]]; [by apply fresh_ok|eauto 10].
  - eauto 10.
  - apply lookup_insert_Some in H as [[<- <-]|[Hne H]]; [exists cp; by eauto|].
    apply lookup_insert_Some in H as [[<- <-]|[Hne' H]]; [by apply fresh_ok|eauto 10].
Qed.

Lemma chosen_dom p : is_Some (m !! p) → is_Some (chosen_pcbs m prev next sp qs cp cn !! p).
Proof.
  intros H. unfold chosen_pcbs. case_decide; [destruct qs|]; rewrite ?lookup_insert_is_Some'; auto.
Qed.
End chosen.

(** Choosing from the queue in a consistent state. *)
Lemma schedule_next_ok s0 s qs qs0 sp ie c :
  sched_ok s0 qs0 → same_world (relinked (ls_links (env s)) s0) s → current_proc s = current_proc s0 →
  pcbs s0 !! current_proc s0 = Some c →
  (∃ c1, pcbs s = <[current_proc s0 := c1]> (pcbs s0) ∧ p_mm c1 = p_mm c ∧ 0 ≤ p_time_slice c1 < 2 ^ 31
     ∧ p_state c1 = (if is_running c && negb (current_proc s0 =? idle_proc s0) then PROC_READY else p_state c)) →
  ring (ls_links (env s)) ready_queue (map sched_node qs) →
  qs = (if is_running c && negb (current_proc s0 =? idle_proc s0) then qs0 ++ [current_proc s0] else qs0) →
  se_cr3 (env s) = se_cr3 (env s0) → se_mms (env s) = se_mms (env s0) →
  ∃ s', schedule_next ready_queue (current_proc s0) sp ie s = Ok (tt, s')
    ∧ sched_ok s' (tail qs) ∧ scheduled s0 s' c (head_or (idle_proc s0) qs).
Proof.
  intros Hok Hw Hcur Hc (c1 & Hm & Hmm1 & Hts1 & Hst1) Hring Hqs Hcr3 Hmms.
  set (next := head_or (idle_proc s0) qs).
  assert (∀ p, p ∈ qs → ∃ cq, pcbs s !! p = Some cq ∧ p_state cq = PROC_READY) as Hready.
  { intros p Hp. assert (p ∈ qs0 ∨ p = current_proc s0 ∧ is_running c && negb (current_proc s0 =? idle_proc s0) = true) as [Hp0|[-> Hb]].
    { subst qs. destruct (is_running c && _); [apply elem_of_app in Hp as [?|?]; set_solver|by left]. }
    - destruct (so_ready _ _ Hok p Hp0) as (cq & Hcq & Hs). exists cq. split; [|done].
      rewrite Hm, lookup_insert_ne; [done|]. intros <-. by apply (so_cur _ _ Hok).
    - exists c1. rewrite Hm, lookup_insert_eq. split; [done|]. by rewrite Hst1, Hb. }
  assert (∀ p cq, pcbs s !! p = Some cq → ∃ cq0, pcbs s0 !! p = Some cq0 ∧ p_mm cq = p_mm cq0 ∧ 0 ≤ p_time_slice cq < 2 ^ 31) as Hpcb.
  { intros p cq Hp. rewrite Hm in Hp. destruct (decide (p = current_proc s0)) as [->|Hne].
    - rewrite lookup_insert_eq in Hp. injection Hp as <-. exists c. auto.
    - rewrite lookup_insert_ne in Hp by done. exists cq. split; [done|]. split; [done|]. apply (po_slice _ _ _ (so_pcb _ _ Hok _ _ Hp)). }
  assert (is_Some (pcbs s !! next)) as [cn Hcn].
  { pose proof (head_or_elem (idle_proc s0) qs) as Hin. apply elem_of_cons in Hin as [E|Hin].
    - unfold next. rewrite E, Hm. destruct (decide (idle_proc s0 = current_proc s0)) as [->|]; [by rewrite lookup_insert_eq; eexists|].
      rewrite lookup_insert_ne by done. apply (so_idle _ _ Hok).
    - destruct (Hready _ Hin) as (cq & Hcq & _). by exists cq. }
  assert (∀ p, is_Some (pcbs s0 !! p) → 0 < p ∧ p + sizeof_pcb ≤ 2 ^ 64) as Hrange.
  { intros p [cq Hp]. by eapply po_range, so_pcb. }
  assert (∀ p, p ∈ qs → is_Some (pcbs s0 !! p)) as Hqs0.
  { intros p Hp. destruct (Hready p Hp) as (cq & Hcq & _). destruct (Hpcb _ _ Hcq) as (cq0 & Hcq0 & _). by eexists. }
  pose proof (sw_idle _ _ Hw) as Hidle. simpl in Hidle.
  destruct (schedule_next_spec s (current_proc s0) qs sp ie c1 cn) as (l & s' & E & Hring' & Hw' & [H1 H2 H3 H4]); rewrite ?Hidle; try done.
  - intros x [->|(p & -> & Hp)%list_elem_of_fmap]%elem_of_cons; rewrite (sw_ok _ _ Hw); unfold relinked; simpl; rewrite ls_ok_set.
    + apply (so_head _ _ Hok).
    + destruct (Hqs0 p Hp) as [cq Hcq]. apply (po_acc _ _ _ (so_pcb _ _ Hok _ _ Hcq)).
  - intros p Hp. by apply Hrange, Hqs0.
  - by rewrite Hm, lookup_insert_eq.
  - destruct (Hpcb _ _ Hcn) as (cn0 & Hcn0 & -> & _). rewrite Hmms. apply (po_mm _ _ _ (so_pcb _ _ Hok _ _ Hcn0)).
  - rewrite Hidle in *. fold next in H1, H2, H3, H4. exists s'. split; [done|].
    assert (pcbs s !! current_proc s0 = Some c1) as Hc1 by (rewrite Hm; apply lookup_insert_eq).
    assert (NoDup qs) as Hnd by (destruct Hring as [Hnd _]; apply NoDup_cons in Hnd as [_ Hnd]; by apply NoDup_fmap_1 in Hnd).
    assert (idle_proc s0 ∉ qs) as Hid.
    { rewrite Hqs. destruct (is_running c && negb (current_proc s0 =? idle_proc s0)) eqn:Hb; [|apply (so_idle _ _ Hok)].
      apply andb_true_iff in Hb as [_ Hb]. apply negb_true_iff, Z.eqb_neq in Hb. rewrite elem_of_app, list_elem_of_singleton.
      intros [?|?]; [by apply (so_idle _ _ Hok)|done]. }
    assert (∀ p, is_Some (pcbs s0 !! p) → is_Some (pcbs s !! p)) as Hdom by (intros p Hp; rewrite Hm, lookup_insert_is_Some'; auto).
    assert (next ∉ tail qs) as Hnt.
    { unfold next. destruct qs as [|q qs']; simpl in *; [by intros ?%elem_of_nil|]. by apply NoDup_cons in Hnd as [? _]. }
    split.
    + eapply (sched_ok_update s0 l s' qs0 (tail qs)); try done.
      * eapply same_world_trans; [by apply relinked_world|done].
      * intros p c' Hp. rewrite H1 in Hp. destruct (chosen_lookup _ _ _ _ _ _ _ Hc1 Hcn _ _ Hp) as (c2 & Hc2 & Hmm2 & Hts2 & _).
        destruct (Hpcb _ _ Hc2) as (c3 & Hc3 & Hmm3 & Hts3). exists c3. split; [done|]. split; [congruence|].
        unfold TIME_SLICE_DEFAULT in Hts2. destruct Hts2 as [->| ->]; lia.
      * intros p Hp. rewrite H1. by apply chosen_dom, Hdom.
      * by rewrite H2.
      * rewrite H2. destruct (Hpcb _ _ Hcn) as (cn0 & Hcn0 & _). by eexists.
      * intros Hin. by apply Hid, elem_of_tail.
      * intros p Hp. destruct (Hready p (elem_of_tail _ _ Hp)) as (cq & Hcq & Hst).
        destruct (chosen_dom (pcbs s) (current_proc s0) next sp qs c1 cn p ltac:(by eexists)) as [cq' Hcq'].
        destruct (chosen_lookup _ _ _ _ _ _ _ Hc1 Hcn _ _ Hcq') as (c2 & Hc2 & _ & _ & Hst2).
        exists cq'. rewrite H1. split; [done|]. rewrite Hst2 by (intros ->; done). congruence.
    + split; [done| | | | |].
      * rewrite (sw_idle _ _ Hw'). done.
      * intros p Hp1 Hp2. rewrite H1, chosen_other by done. rewrite Hm. by rewrite lookup_insert_ne.
      * intros Hne. assert (current_proc s0 ≠ next) as Hne' by by intros ?. exists cn. split; [|split; [|split]].
        -- rewrite Hm in Hcn. by rewrite lookup_insert_ne in Hcn.
        -- rewrite H1. by apply chosen_next.
        -- by apply H3.
        -- rewrite (H4 Hne'). unfold switched_cr3. by rewrite Hmm1, Hmms, Hcr3.
      * destruct (chosen_dom (pcbs s) (current_proc s0) next sp qs c1 cn (current_proc s0) ltac:(by eexists)) as [c' Hc'].
        destruct (chosen_lookup _ _ _ _ _ _ _ Hc1 Hcn _ _ Hc') as (c2 & Hc2 & Hmm2 & _ & Hst2).
        assert (c2 = c1) as -> by congruence. exists c'. rewrite H1. split; [done|]. split; [congruence|].
        intros Hne. by rewrite Hst2, Hst1 by done.
      * rewrite H1. unfold chosen_pcbs. destruct (decide (current_proc s0 = next)) as [Ecn|Hne].
        -- assert (cn = c1) as -> by congruence. destruct qs as [|q qs'].
           ++ exists (fresh_slice c1). split; [apply lookup_insert_eq|]. split; [done|]. intros _ Hr Hi. exfalso.
              rewrite Hr, (proj2 (Z.eqb_neq _ _) Hi) in Hqs. simpl in Hqs. by destruct qs0.
           ++ exists c1. split; [done|]. unfold is_running at 1. rewrite Hst1. split.
              ** destruct (is_running c && negb _) eqn:Hb; [by intros ?%bool_decide_eq_true|]. fold (is_running c). intros Hr. exfalso.
                 rewrite Hr in Hb. simpl in Hb. apply negb_false_iff, Z.eqb_eq in Hb.
                 apply Hid. rewrite <- Hb, Ecn. by left.
              ** intros _ Hr Hi _. by rewrite Hr, (proj2 (Z.eqb_neq _ _) Hi).
        -- exists (fresh_slice cn). rewrite lookup_insert_ne by done. split; [apply lookup_insert_eq|]. split; [done|]. intros E0. by rewrite E0 in Hne.
Qed.
End theory.

Section properties.
  Context {A : Type} `{!SchedEnv A}.
  Context (ready_queue : Z).
  Implicit Types s : proc_st A.

(** [schedule] on a running process with time left. *)
Lemma schedule_stays s qs c sp :
  sched_ok ready_queue s qs → pcbs s !! current_proc s = Some c →
  is_running c = true → current_proc s ≠ idle_proc s → 0 < p_time_slice c →
  ∃ s', schedule ready_queue sp s = Ok (tt, s') ∧ same_world s s' ∧ pcbs s' = pcbs s ∧ current_proc s' = current_proc s.
Proof.
  intros Hok Hc Hr Hi Ht. unfold schedule, gets. cbv [mbind M_bind].
  destruct (cli_spec s) as (s1 & E & Hw & E1 & E2 & _). rewrite E. rewrite E2.
  rewrite (get_pcb_ok s1 (current_proc s) c) by by rewrite E1.
  unfold is_running in Hr. rewrite Hr, (sw_idle _ _ Hw), (proj2 (Z.eqb_neq _ _) Hi), (proj2 (Z.leb_gt _ 0)) by done. simpl.
  destruct (if_flag s).
  - destruct (sti_spec s1) as (s' & E' & Hw' & E3 & E4 & _). rewrite E'. exists s'. split; [done|].
    split; [by eapply same_world_trans|]. by rewrite E3, E4.
  - exists s1. by rewrite E1, E2.
Qed.

Lemma scheduled_stay s s' c qs :
  sched_ok ready_queue s qs → pcbs s !! current_proc s = Some c →
  same_world s s' → pcbs s' = pcbs s → current_proc s' = current_proc s → 0 < p_time_slice c →
  sched_ok ready_queue s' qs ∧ scheduled s s' c (current_proc s).
Proof.
  intros Hok Hc Hw Hp Hcur Ht. split.
  - eapply (sched_ok_update ready_queue s (ls_links (env s))); try done.
    + by rewrite relinked_same.
    + apply (so_ring _ _ _ Hok).
    + intros p c' H. rewrite Hp in H. exists c'. split; [done|]. split; [done|]. apply (po_slice _ _ _ _ (so_pcb _ _ _ Hok _ _ H)).
    + by rewrite Hp.
    + rewrite Hcur. apply (so_cur _ _ _ Hok).
    + rewrite Hcur. by eexists.
    + apply (so_idle _ _ _ Hok).
    + rewrite Hp. apply (so_ready _ _ _ Hok).
  - split; try done; [apply (sw_idle _ _ Hw)|by rewrite Hp| |].
    + rewrite Hp. exists c. split; [done|]. split; [done|]. intros; done.
    + rewrite Hp. exists c. split; [done|]. split; lia.
Qed.

Lemma schedule_decides s qs c sp :
  sched_ok ready_queue s qs → pcbs s !! current_proc s = Some c →
  ∃ s', schedule ready_queue sp s = Ok (tt, s')
    ∧ sched_ok ready_queue s' (decision s c qs).2 ∧ scheduled s s' c (decision s c qs).1.
Proof.
  intros Hok Hc. unfold decision, abs_schedule.
  destruct (is_running c && negb (current_proc s =? idle_proc s) && (0 <? p_time_slice c)) eqn:Hstay.
  { rewrite !andb_true_iff, negb_true_iff, Z.eqb_neq, Z.ltb_lt in Hstay. destruct Hstay as [[Hr Hi] Ht].
    destruct (schedule_stays s qs c sp) as (s' & E & Hw & Hp & Hcur); try done. exists s'. split; [done|].
    by apply scheduled_stay. }
  cbv zeta. cbn [fst snd]. unfold schedule, gets. cbv [mbind M_bind].
  destruct (cli_spec s) as (s1 & E & Hw & E1 & E2 & E3 & E4 & _). rewrite E. rewrite E2.
  assert (pcbs s1 !! current_proc s = Some c) as Hc1 by by rewrite E1.
  rewrite (get_pcb_ok s1 (current_proc s) c Hc1), (sw_idle _ _ Hw).
  fold (is_running c). destruct (is_running c && negb (current_proc s =? idle_proc s)) eqn:Hb.
  - simpl in Hstay. rewrite (proj2 (Z.leb_le _ 0)) by (apply Z.ltb_ge in Hstay; lia).
    rewrite (update_pcb_ok s1 _ c _ Hc1). erewrite update_pcb_ok by apply lookup_insert_eq. simpl. rewrite insert_insert_eq, E1.
    set (c1 := with_time_slice TIME_SLICE_DEFAULT (with_state PROC_READY c)).
    set (s2 := set_pcbs (<[current_proc s := c1]> (pcbs s)) (set_pcbs _ s1)).
    destruct (list_add_before_spec (env s2) ready_queue (map sched_node qs) (sched_node (current_proc s))) as [Ea Hring].
    { simpl. rewrite (sw_links _ _ Hw). apply (so_ring _ _ _ Hok). }
    { eapply sched_node_fresh; [done|exact Hc|apply (so_cur _ _ _ Hok)]. }
    { simpl. rewrite (sw_ok _ _ Hw). apply (po_acc _ _ _ _ (so_pcb _ _ _ Hok _ _ Hc)). }
    { intros x Hx. simpl. rewrite (sw_ok _ _ Hw). by eapply so_acc. }
    rewrite (on_env_ok _ s2 _ _ Ea). cbv iota beta.
    set (l := inserted _ _ _ _) in *. set (s3 := set_env _ s2).
    assert (current_proc s3 = current_proc s) as Hcur3 by exact E2.
    apply (schedule_next_ok ready_queue s s3 _ qs); try done.
    + split; simpl; intros; rewrite ?ls_links_set, ?ls_ok_set, ?se_mms_set; try done; apply Hw.
    + exists c1. split; [done|]. split; [done|]. split; [simpl; unfold TIME_SLICE_DEFAULT; lia|]. by rewrite Hb.
    + unfold s3. simpl. rewrite ls_links_set. rewrite map_app. exact Hring.
    + by rewrite Hb.
    + unfold s3. simpl. by rewrite se_cr3_set.
    + unfold s3. simpl. rewrite se_mms_set. apply Hw.
  - apply (schedule_next_ok ready_queue s s1 _ qs); try done.
    + rewrite (sw_links _ _ Hw), relinked_same. done.
    + exists c. split; [by rewrite E1, insert_id|]. split; [done|]. split; [apply (po_slice _ _ _ _ (so_pcb _ _ _ Hok _ _ Hc))|]. by rewrite Hb.
    + rewrite (sw_links _ _ Hw). apply (so_ring _ _ _ Hok).
    + by rewrite Hb.
    + apply Hw.
Qed.

(** C3: [schedule] implements round robin on an abstract queue.  From any state
    whose ready queue holds the processes [qs], it never faults, and its outcome is
    the abstract decision: a running process with time left goes on; otherwise it
    joins the end of the queue (idle and exiting processes do not) and the head, or
    idle, runs with a full slice, on its own kernel stack and address space; the
    queue stays well formed and no other process changes. *)
Theorem schedule_refines s qs c sp :
  sched_ok ready_queue s qs → pcbs s !! current_proc s = Some c →
  ∃ s', schedule ready_queue sp s = Ok (tt, s')
    ∧ sched_ok ready_queue s' (decision s c qs).2 ∧ scheduled s s' c (decision s c qs).1.
Proof. apply schedule_decides. Qed.

(** * The timer *)

(** A tick charged to the current process. *)
Definition count (c : pcb_t) : pcb_t :=
  with_time_slice (i32 (p_time_slice c - 1)) (with_total_runtime (u64 (p_total_runtime c + 1)) c).
Definition ticked s (c : pcb_t) : proc_st A :=
  set_pcbs (<[current_proc s := count c]> (pcbs s)) (set_ticks (u64 (ticks s + 1)) s).

Lemma ticked_ok s qs c :
  sched_ok ready_queue s qs → pcbs s !! current_proc s = Some c → 1 ≤ p_time_slice c →
  sched_ok ready_queue (ticked s c) qs.
Proof.
  intros Hok Hc Ht. pose proof (so_pcb _ _ _ Hok _ _ Hc) as Hpc.
  eapply (sched_ok_update ready_queue s (ls_links (env s))); [done|by rewrite relinked_same|apply (so_ring _ _ _ Hok)| | |
    apply (so_cur _ _ _ Hok)|by eexists|apply (so_idle _ _ _ Hok)|].
  - simpl. intros p c' Hp. apply lookup_insert_Some in Hp as [[<- <-]|[Hne Hp]].
    + exists c. split; [done|]. split; [done|]. simpl. pose proof (po_slice _ _ _ _ Hpc). rewrite i32_small by lia. lia.
    + exists c'. split; [done|]. split; [done|]. apply (po_slice _ _ _ _ (so_pcb _ _ _ Hok _ _ Hp)).
  - simpl. intros p Hp. rewrite lookup_insert_is_Some'. by right.
  - simpl. intros p Hp. destruct (so_ready _ _ _ Hok p Hp) as (cq & Hcq & Hst). exists cq. split; [|done].
    rewrite lookup_insert_ne; [done|]. intros <-. by apply (so_cur _ _ _ Hok).
Qed.

(** A tick on a running process: charged, and the slice's last one schedules. *)
Lemma timer_running s qs c sp :
  sched_ok ready_queue s qs → pcbs s !! current_proc s = Some c → is_running c = true → 1 ≤ p_time_slice c →
  timer_callback ready_queue sp s =
    (if p_time_slice c <=? 1 then schedule ready_queue sp else mret tt) (ticked s c).
Proof.
  intros Hok Hc Hr Ht. pose proof (so_pcb _ _ _ Hok _ _ Hc) as Hpc.
  destruct (po_range _ _ _ _ Hpc) as [H0 _]. pose proof (po_slice _ _ _ _ Hpc).
  unfold timer_callback. set (s1 := set_ticks (u64 (ticks s + 1)) s).
  rewrite (bind_ok _ _ s tt s1) by done. rewrite (bind_ok _ _ s1 (current_proc s) s1) by done.
  rewrite (proj2 (Z.eqb_neq _ 0)) by lia.
  rewrite (bind_ok _ _ _ _ _ (get_pcb_ok s1 _ c Hc)). fold (is_running c). rewrite Hr.
  rewrite (bind_ok _ _ _ _ _ (update_pcb_ok s1 _ c _ Hc)).
  erewrite bind_ok; [|apply update_pcb_ok, lookup_insert_eq]. simpl. rewrite insert_insert_eq.
  erewrite bind_ok; [|apply get_pcb_ok, lookup_insert_eq]. simpl. rewrite i32_small by lia.
  replace (p_time_slice c - 1 <=? 0) with (p_time_slice c <=? 1);
    [unfold ticked, count; by rewrite i32_small by lia|].
  destruct (Z.leb_spec (p_time_slice c) 1), (Z.leb_spec (p_time_slice c - 1) 0); (done || lia).
Qed.

(** A process that is not in state RUNNING is not charged, let alone preempted. *)
Lemma timer_idle_tick s c sp :
  pcbs s !! current_proc s = Some c → is_running c = false →
  timer_callback ready_queue sp s = Ok (tt, set_ticks (u64 (ticks s + 1)) s).
Proof.
  intros Hc Hr. unfold timer_callback. set (s1 := set_ticks (u64 (ticks s + 1)) s).
  rewrite (bind_ok _ _ s tt s1) by done. rewrite (bind_ok _ _ s1 (current_proc s) s1) by done.
  destruct (current_proc s =? 0); [done|].
  rewrite (bind_ok _ _ _ _ _ (get_pcb_ok s1 _ c Hc)). fold (is_running c). by rewrite Hr.
Qed.

(** The current process has [t] ticks left to run. *)
Definition running_for s (t : Z) : Prop :=
  ∃ c, pcbs s !! current_proc s = Some c ∧ is_running c = true ∧ p_time_slice c = t.

(** A slice is used up tick by tick, then the head of the queue runs; the process
    that ran waits at the end of the queue, unless it is the idle process. *)
Lemma slice_runs s q qs (k : nat) i (sps : Z → Z) :
  sched_ok ready_queue s (q :: qs) → running_for s (Z.of_nat (S k)) →
  ∃ s', for_n (S k) i (λ j, timer_callback ready_queue (sps j)) s = Ok (tt, s')
    ∧ sched_ok ready_queue s' (qs ++ if current_proc s =? idle_proc s then [] else [current_proc s])
    ∧ current_proc s' = q ∧ idle_proc s' = idle_proc s ∧ running_for s' TIME_SLICE_DEFAULT.
Proof.
  revert s i. induction k as [|k IH]; intros s i Hok (c & Hc & Hr & Ht).
  - pose proof (timer_running s (q :: qs) c (sps i) Hok Hc Hr ltac:(lia)) as E. rewrite Ht in E. simpl in E.
    assert (1 ≤ p_time_slice c) as Ht1 by lia. pose proof (po_slice _ _ _ _ (so_pcb _ _ _ Hok _ _ Hc)) as Hb.
    pose proof (ticked_ok s (q :: qs) c Hok Hc Ht1) as Hok1.
    assert (pcbs (ticked s c) !! current_proc (ticked s c) = Some (count c)) as Hc1 by apply lookup_insert_eq.
    destruct (schedule_decides (ticked s c) (q :: qs) (count c) (sps i) Hok1 Hc1) as (s' & E' & Hok' & Hsd).
    assert (p_time_slice (count c) = 0) as Hz by (simpl; rewrite i32_small; lia).
    assert (current_proc s ≠ q) as Hne by (intros E0; apply (so_cur _ _ _ Hok); rewrite E0; by left).
    unfold decision, abs_schedule in Hok', Hsd. rewrite Hz in Hok', Hsd.
    change (0 <? 0) with false in *. rewrite andb_false_r in *. change (is_running (count c)) with (is_running c) in *.
    rewrite Hr in *. change (current_proc (ticked s c)) with (current_proc s) in *. change (idle_proc (ticked s c)) with (idle_proc s) in *.
    simpl in Hok', Hsd.
    assert (∃ qs1, (if negb (current_proc s =? idle_proc s) then (q :: qs) ++ [current_proc s] else q :: qs)
      = q :: qs1 ∧ qs1 = qs ++ if current_proc s =? idle_proc s then [] else [current_proc s]) as (qs1 & Eq1 & Eqs).
    { destruct (current_proc s =? idle_proc s); simpl; eexists; (split; [done|]); by rewrite ?app_nil_r. }
    simpl in Eq1. rewrite Eq1 in *. simpl in Hok', Hsd. subst qs1.
    exists s'. split; [by eapply for_n_S; [rewrite E; exact E'|]|]. split; [done|].
    split; [apply (sd_cur _ _ _ _ Hsd)|]. split; [apply (sd_idle _ _ _ _ Hsd)|].
    destruct (sd_next _ _ _ _ Hsd) as (cn & _ & Hcn & _); [done|]. exists (fresh_slice cn).
    rewrite (sd_cur _ _ _ _ Hsd). done.
  - pose proof (timer_running s (q :: qs) c (sps i) Hok Hc Hr ltac:(lia)) as E.
    pose proof (po_slice _ _ _ _ (so_pcb _ _ _ Hok _ _ Hc)) as Hb.
    rewrite (proj2 (Z.leb_gt _ 1)) in E by lia.
    destruct (IH (ticked s c) (i + 1)) as (s' & E' & H).
    + apply ticked_ok; [done|done|lia].
    + exists (count c). split; [apply lookup_insert_eq|]. split; [done|]. simpl. rewrite i32_small by lia. lia.
    + exists s'. split; [by eapply for_n_S; [exact E|]|]. done.
Qed.

(** C22: the scheduler is fair: when the current process computes for its remaining
    [t] ticks, every ready process gets the processor after at most a full slice
    for each process queued before it, whatever else is queued behind. *)
Theorem schedule_round_robin s q1 p q2 t i (sps : Z → Z) :
  sched_ok ready_queue s (q1 ++ p :: q2) → 1 ≤ t → running_for s t →
  ∃ s' qs', for_n (Z.to_nat (t + TIME_SLICE_DEFAULT * zlen q1)) i (λ j, timer_callback ready_queue (sps j)) s = Ok (tt, s')
    ∧ sched_ok ready_queue s' qs' ∧ current_proc s' = p ∧ running_for s' TIME_SLICE_DEFAULT.
Proof.
  revert s t i q2. induction q1 as [|q q1 IH]; intros s t i q2 Hok Ht Hrun; unfold TIME_SLICE_DEFAULT, zlen in *.
  - destruct (slice_runs s p q2 (Z.to_nat (t - 1)) i sps Hok) as (s' & E & Hok' & Hcur & _ & Hrun').
    { by replace (Z.of_nat (S (Z.to_nat (t - 1)))) with t by lia. }
    exists s'. eexists. split; [|done]. simpl length. replace (Z.to_nat (t + _)) with (S (Z.to_nat (t - 1))) by lia. exact E.
  - destruct (slice_runs s q (q1 ++ p :: q2) (Z.to_nat (t - 1)) i sps Hok) as (s1 & E & Hok1 & _ & _ & Hrun1).
    { by replace (Z.of_nat (S (Z.to_nat (t - 1)))) with t by lia. }
    rewrite <- app_assoc in Hok1. simpl in Hok1.
    destruct (IH s1 10 (i + Z.of_nat (S (Z.to_nat (t - 1)))) _ Hok1 ltac:(lia) Hrun1) as (s' & qs' & E' & H).
    exists s', qs'. split; [|done].
    replace (Z.to_nat (t + _)) with (S (Z.to_nat (t - 1)) + Z.to_nat (10 + 10 * Z.of_nat (length q1)))%nat by (simpl length; lia).
    by eapply for_n_app.
Qed.

(** * The process that is alone *)

(** What happens to the scheduler between two looks at it: a tick, a call of
    [schedule] (from [sys_yield]), an exit, and a new process put in the queue, as
    the last lines of process creation do. *)
Inductive quiet_step : proc_st A → proc_st A → Prop :=
  | qs_tick s s' sp : timer_callback ready_queue sp s = Ok (tt, s') → quiet_step s s'
  | qs_arrive s s' p c :
      pcbs s !! p = None → pcb_ok ready_queue s p c → p_state c = PROC_READY →
      on_env (list_add_before (sched_node p) ready_queue) (set_pcbs (<[p := c]> (pcbs s)) s) = Ok (tt, s') →
      quiet_step s s'.
Inductive sched_step : proc_st A → proc_st A → Prop :=
  | ss_quiet s s' : quiet_step s s' → sched_step s s'
  | ss_yield s s' sp : schedule ready_queue sp s = Ok (tt, s') → sched_step s s'
  | ss_exit s s' code sp : kthread_exit ready_queue code sp s = Ok (tt, s') → sched_step s s'.

(** The current process, when running, has at least one tick left. *)
Definition timed s : Prop := ∀ c, pcbs s !! current_proc s = Some c → is_running c = true → 1 ≤ p_time_slice c.

Definition consistent s (qs : list Z) : Prop := sched_ok ready_queue s qs ∧ timed s.

Lemma schedule_consistent s qs c sp :
  sched_ok ready_queue s qs → pcbs s !! current_proc s = Some c →
  ∃ s', schedule ready_queue sp s = Ok (tt, s') ∧ consistent s' (decision s c qs).2 ∧ scheduled s s' c (decision s c qs).1.
Proof.
  intros Hok Hc. destruct (schedule_decides s qs c sp Hok Hc) as (s' & E & Hok' & Hsd). exists s'. split; [done|].
  split; [|done]. split; [done|]. intros c' Hc'. destruct (sd_timed _ _ _ _ Hsd) as (c2 & Hc2 & H & _).
  rewrite (sd_cur _ _ _ _ Hsd) in Hc'. assert (c2 = c') as -> by congruence. done.
Qed.

Lemma arrive_spec s qs p c :
  sched_ok ready_queue s qs → pcbs s !! p = None → pcb_ok ready_queue s p c → p_state c = PROC_READY →
  ∃ s', on_env (list_add_before (sched_node p) ready_queue) (set_pcbs (<[p := c]> (pcbs s)) s) = Ok (tt, s')
    ∧ sched_ok ready_queue s' (qs ++ [p]) ∧ current_proc s' = current_proc s ∧ idle_proc s' = idle_proc s
    ∧ pcbs s' = <[p := c]> (pcbs s).
Proof.
  intros Hok Hp Hpc Hst. set (s1 := set_pcbs _ s).
  assert (p ∉ qs) as Hpq by (intros Hin; destruct (so_ready _ _ _ Hok p Hin) as (? & ? & _); congruence).
  destruct (list_add_before_spec (env s1) ready_queue (map sched_node qs) (sched_node p)) as [Ea Hring].
  - apply (so_ring _ _ _ Hok).
  - rewrite not_elem_of_cons. split; [apply (po_queue _ _ _ _ Hpc)|]. intros (q & Hq & Hin)%list_elem_of_fmap.
    destruct (so_ready _ _ _ Hok q Hin) as (cq & Hcq & _). pose proof (so_pcb _ _ _ Hok _ _ Hcq) as Hqc.
    rewrite !sched_node_eq in Hq by (by eapply po_range). assert (p = q) as -> by lia. done.
  - apply (po_acc _ _ _ _ Hpc).
  - intros x Hx. exact (so_acc _ s qs x Hok Hx).
  - set (l := inserted _ _ _ _) in *. eexists. split; [by apply on_env_ok|]. split; [|done].
    assert (∀ q, is_Some (pcbs s !! q) → q ≠ p) as Hne by (intros q [? Hq] ->; congruence).
    split.
    + simpl. rewrite ls_links_set, map_app. exact Hring.
    + simpl. rewrite ls_ok_set. apply (so_head _ _ _ Hok).
    + destruct (so_cur _ _ _ Hok) as [H1 H2]. simpl. split; [|by rewrite lookup_insert_is_Some'; right].
      rewrite elem_of_app, list_elem_of_singleton. intros [?|E]; [done|]. by apply (Hne (current_proc s)).
    + destruct (so_idle _ _ _ Hok) as [H1 H2]. simpl. split; [|by rewrite lookup_insert_is_Some'; right].
      rewrite elem_of_app, list_elem_of_singleton. intros [?|E]; [done|]. by apply (Hne (idle_proc s)).
    + simpl. intros q cq Hq. assert (pcb_ok ready_queue s q cq) as [H1 H2 H3 H4 H5].
      { apply lookup_insert_Some in Hq as [[<- <-]|[_ Hq]]; [done|]. by apply (so_pcb _ _ _ Hok). }
      split; try done; simpl; [by rewrite ls_ok_set|by rewrite se_mms_set].
    + simpl. intros q [Hq|Hq]%elem_of_app.
      * destruct (so_ready _ _ _ Hok q Hq) as (cq & Hcq & Hs). exists cq. split; [|done].
        rewrite lookup_insert_ne; [done|]. apply not_eq_sym, Hne. by eexists.
      * apply list_elem_of_singleton in Hq as ->. exists c. split; [apply lookup_insert_eq|done].
Qed.

(** The outcome of a tick in a consistent state. *)
Lemma tick_spec s qs sp c :
  consistent s qs → pcbs s !! current_proc s = Some c →
  ∃ s', timer_callback ready_queue sp s = Ok (tt, s') ∧ idle_proc s' = idle_proc s ∧
    ((current_proc s' = current_proc s ∧ consistent s' qs ∧ (is_running c = false → pcbs s' = pcbs s)
        ∧ ∀ q, is_Some (pcbs s !! q) → is_Some (pcbs s' !! q))
     ∨ ∃ s1 c1, schedule ready_queue sp s1 = Ok (tt, s') ∧ sched_ok ready_queue s1 qs ∧ pcbs s1 !! current_proc s1 = Some c1
        ∧ is_running c = true ∧ is_running c1 = true ∧ p_time_slice c1 ≤ 0 ∧ current_proc s1 = current_proc s ∧ idle_proc s1 = idle_proc s
        ∧ ∀ q, is_Some (pcbs s !! q) → is_Some (pcbs s1 !! q)).
Proof.
  intros [Hok Ht] Hc. destruct (is_running c) eqn:Hr.
  - specialize (Ht c Hc Hr). pose proof (po_slice _ _ _ _ (so_pcb _ _ _ Hok _ _ Hc)) as Hb.
    rewrite (timer_running s qs c sp Hok Hc Hr Ht). pose proof (ticked_ok s qs c Hok Hc Ht) as Hok1.
    assert (pcbs (ticked s c) !! current_proc (ticked s c) = Some (count c)) as Hc1 by apply lookup_insert_eq.
    assert (∀ q, is_Some (pcbs s !! q) → is_Some (pcbs (ticked s c) !! q)) as Hdom
      by (intros q Hq; simpl; rewrite lookup_insert_is_Some'; by right).
    destruct (Z.leb_spec (p_time_slice c) 1).
    + destruct (schedule_decides (ticked s c) qs (count c) sp Hok1 Hc1) as (s' & E & _ & Hsd). exists s'. split; [done|].
      split; [apply (sd_idle _ _ _ _ Hsd)|]. right. exists (ticked s c), (count c). repeat (split; [done|]).
      split; [|split; [done|split; [done|exact Hdom]]]. simpl. rewrite i32_small by lia. lia.
    + exists (ticked s c). split; [done|]. split; [done|]. left. split; [done|]. split; [|split; [done|exact Hdom]]. split; [done|].
      intros c' Hc' _. assert (c' = count c) as -> by congruence. simpl. rewrite i32_small by lia. lia.
  - rewrite (timer_idle_tick s c sp Hc Hr). eexists. split; [done|]. split; [done|]. left. split; [done|]. split; [|by split].
    split; [|exact Ht]. destruct Hok as [H1 H2 H3 H4 H5 H6]. split; try done.
    intros p cp Hp. destruct (H5 p cp Hp). by split.
Qed.

(** A process on the processor in a state other than RUNNING. *)
Definition stuck s (p : Z) : Prop :=
  current_proc s = p ∧ p ≠ idle_proc s ∧ (∃ qs, consistent s qs) ∧ ∃ c, pcbs s !! p = Some c ∧ is_running c = false.
(** A process that is nowhere the scheduler will look. *)
Definition lost s (p : Z) : Prop :=
  current_proc s ≠ p ∧ p ≠ idle_proc s ∧ is_Some (pcbs s !! p) ∧ ∃ qs, consistent s qs ∧ p ∉ qs.

Lemma decision_in s c qs x : x = (decision s c qs).1 ∨ x ∈ (decision s c qs).2 → x = current_proc s ∨ x = idle_proc s ∨ x ∈ qs.
Proof.
  unfold decision, abs_schedule. destruct (_ && _ && _); simpl; [tauto|].
  intros [->|Hx%elem_of_tail]; [pose proof (head_or_elem (idle_proc s) (if is_running c && negb (current_proc s =? idle_proc s) then qs ++ [current_proc s] else qs)) as Hx; apply elem_of_cons in Hx as [->|Hx]; [tauto|]|];
    (destruct (is_running c && _); [apply elem_of_app in Hx as [?|Hx%list_elem_of_singleton]; tauto|tauto]).
Qed.

Lemma schedule_keeps_lost s qs c sp s' p :
  sched_ok ready_queue s qs → pcbs s !! current_proc s = Some c → p ≠ current_proc s → p ≠ idle_proc s → p ∉ qs →
  is_Some (pcbs s !! p) → schedule ready_queue sp s = Ok (tt, s') → lost s' p.
Proof.
  intros Hok Hc Hpc Hpi Hpq Hp E. destruct (schedule_consistent s qs c sp Hok Hc) as (s2 & E2 & Hcon & Hsd).
  assert (s2 = s') as -> by congruence. assert (∀ x, x = (decision s c qs).1 ∨ x ∈ (decision s c qs).2 → x ≠ p) as Hx.
  { intros x Hin ->. apply decision_in in Hin as [?|[?|?]]; done. }
  assert (current_proc s' ≠ p) as Hcur by (rewrite (sd_cur _ _ _ _ Hsd); apply Hx; by left).
  split; [done|]. split; [by rewrite (sd_idle _ _ _ _ Hsd)|]. split.
  - rewrite (sd_other _ _ _ _ Hsd); [done|done|]. rewrite <- (sd_cur _ _ _ _ Hsd). done.
  - exists (decision s c qs).2. split; [done|]. intros Hin. by apply (Hx p); [right|].
Qed.

Lemma lost_quiet s s' p : quiet_step s s' → lost s p → lost s' p.
Proof.
  intros Hstep (Hcur & Hpi & Hp & qs & [Hok Ht] & Hpq). destruct (so_cur _ _ _ Hok) as [_ [c Hc]].
  destruct Hstep as [s s' sp E|s s' q cq Hq Hqc Hst E].
  - destruct (tick_spec s qs sp c (conj Hok Ht) Hc) as (s2 & E2 & Hi & [(Hc2 & Hcon & _ & Hdom)|(s1 & c1 & E1 & Hok1 & Hc1 & _ & _ & _ & Hcur1 & Hi1 & Hdom)]);
      assert (s2 = s') as -> by congruence.
    + split; [by rewrite Hc2|]. split; [by rewrite Hi|]. split; [by apply Hdom|]. by exists qs.
    + eapply (schedule_keeps_lost s1); [done|done|by rewrite Hcur1|by rewrite Hi1|done|by apply Hdom|done].
  - destruct (arrive_spec s qs q cq Hok Hq Hqc Hst) as (s2 & E2 & Hok2 & Hc2 & Hi2 & Hm2). assert (s2 = s') as -> by congruence.
    split; [by rewrite Hc2|]. split; [by rewrite Hi2|].
    split; [rewrite Hm2, lookup_insert_is_Some'; by right|]. exists (qs ++ [q]). split.
    + split; [done|]. unfold timed. rewrite Hc2, Hm2. intros c' Hc'. rewrite lookup_insert_ne in Hc' by (intros ->; congruence). by apply Ht.
    + rewrite elem_of_app, list_elem_of_singleton. intros [?| ->]; [done|]. rewrite Hq in Hp. by destruct Hp.
Qed.

(** An exit is a decision about a process that is no longer running. *)
Lemma exit_prepare s qs c code sp :
  sched_ok ready_queue s qs → pcbs s !! current_proc s = Some c →
  ∃ s1, kthread_exit ready_queue code sp s = schedule ready_queue sp s1 ∧ sched_ok ready_queue s1 qs
    ∧ current_proc s1 = current_proc s ∧ idle_proc s1 = idle_proc s
    ∧ pcbs s1 = <[current_proc s := with_exit_code code (with_state PROC_ZOMBIE c)]> (pcbs s).
Proof.
  intros Hok Hc. unfold kthread_exit. destruct (cli_spec s) as (s0 & E & Hw & E1 & E2 & _).
  rewrite (bind_ok _ _ _ _ _ E), (bind_ok _ _ s0 (current_proc s0) s0) by done. rewrite E2.
  assert (pcbs s0 !! current_proc s = Some c) as Hc0 by by rewrite E1.
  rewrite (bind_ok _ _ _ _ _ (update_pcb_ok s0 _ c _ Hc0)).
  erewrite bind_ok; [|apply update_pcb_ok, lookup_insert_eq]. simpl. rewrite insert_insert_eq, E1.
  erewrite bind_ok; [|apply get_pcb_ok, lookup_insert_eq].
  erewrite bind_ok; [|done]. eexists. split; [done|]. split; [|split; [exact E2|split; [exact (sw_idle _ _ Hw)|done]]].
  eapply (sched_ok_update ready_queue s (ls_links (env s))); [exact Hok|rewrite relinked_same|apply (so_ring _ _ _ Hok)| | | | | |].
  - split; simpl; rewrite ?se_links_push, ?se_mms_push; try apply Hw. intros a. rewrite se_ok_push. apply Hw.
  - simpl. intros p c' [[<- <-]|[_ Hp]]%lookup_insert_Some.
    + exists c. split; [done|]. split; [done|]. apply (po_slice _ _ _ _ (so_pcb _ _ _ Hok _ _ Hc)).
    + exists c'. split; [done|]. split; [done|]. apply (po_slice _ _ _ _ (so_pcb _ _ _ Hok _ _ Hp)).
  - simpl. intros p Hp. rewrite lookup_insert_is_Some'. by right.
  - simpl. rewrite E2. apply (so_cur _ _ _ Hok).
  - simpl. rewrite E2. by eexists.
  - apply (so_idle _ _ _ Hok).
  - simpl. intros p Hp. destruct (so_ready _ _ _ Hok p Hp) as (cq & Hcq & Hst). exists cq. split; [|done].
    rewrite lookup_insert_ne; [done|]. intros <-. by apply (so_cur _ _ _ Hok).
Qed.

Lemma lost_step s s' p : sched_step s s' → lost s p → lost s' p.
Proof.
  intros Hstep Hl. destruct Hstep as [s s' Hq|s s' sp E|s s' code sp E]; [by eapply lost_quiet| |];
    destruct Hl as (Hcur & Hpi & Hp & qs & [Hok _] & Hpq); destruct (so_cur _ _ _ Hok) as [_ [c Hc]].
  - by eapply (schedule_keeps_lost s).
  - destruct (exit_prepare s qs c code sp Hok Hc) as (s1 & E1 & Hok1 & Hc1 & Hi1 & Hm1). rewrite E1 in E.
    eapply (schedule_keeps_lost s1); [done|by rewrite Hm1, Hc1, lookup_insert_eq|by rewrite Hc1|by rewrite Hi1|done| |done].
    rewrite Hm1, lookup_insert_is_Some'. by right.
Qed.

(** Nothing but the process itself gets it off the processor... *)
Lemma stuck_quiet s s' p : quiet_step s s' → stuck s p → stuck s' p.
Proof.
  intros Hstep (Hcur & Hpi & (qs & Hok & Ht) & c & Hc & Hr). destruct Hstep as [s s' sp E|s s' q cq Hq Hqc Hst E]; subst p.
  - destruct (tick_spec s qs sp c (conj Hok Ht) Hc) as (s2 & E2 & Hi & [(Hc2 & Hcon & Hm & _)|(s1 & c1 & _ & _ & _ & Hr1 & _)]);
      [|congruence]. assert (s2 = s') as -> by congruence.
    split; [done|]. split; [by rewrite Hi|]. split; [by exists qs|]. exists c. by rewrite Hm.
  - destruct (arrive_spec s qs q cq Hok Hq Hqc Hst) as (s2 & E2 & Hok2 & Hc2 & Hi2 & Hm2). assert (s2 = s') as -> by congruence.
    split; [done|]. split; [by rewrite Hi2|]. rewrite Hm2. rewrite lookup_insert_ne by (intros ->; congruence). split; [|by exists c].
    exists (qs ++ [q]). split; [done|]. unfold timed. rewrite Hc2, Hm2, lookup_insert_ne by (intros ->; congruence). apply Ht.
Qed.

(** ... and when it gives the processor away it is lost. *)
Lemma stuck_yield s s' p sp : stuck s p → schedule ready_queue sp s = Ok (tt, s') → lost s' p.
Proof.
  intros (Hcur & Hpi & (qs & Hok & Ht) & c & Hc & Hr) E. subst p.
  destruct (schedule_consistent s qs c sp Hok Hc) as (s2 & E2 & Hcon & Hsd). assert (s2 = s') as -> by congruence.
  unfold decision, abs_schedule in Hcon, Hsd. rewrite Hr in Hcon, Hsd. simpl in Hcon, Hsd.
  assert (head_or (idle_proc s) qs ≠ current_proc s) as Hne.
  { pose proof (head_or_elem (idle_proc s) qs) as Hin. intros E0. rewrite E0 in Hin.
    apply elem_of_cons in Hin as [Hin|Hin]; [done|]. by apply (so_cur _ _ _ Hok). }
  split; [by rewrite (sd_cur _ _ _ _ Hsd)|]. split; [by rewrite (sd_idle _ _ _ _ Hsd)|].
  destruct (sd_prev _ _ _ _ Hsd) as (c' & Hc' & _). split; [by eexists|].
  exists (tail qs). split; [done|]. intros Hin%elem_of_tail. by apply (so_cur _ _ _ Hok).
Qed.

(** The last tick of a process that is alone leaves it stuck. *)
Lemma lone_expires s t i (sps : Z → Z) :
  sched_ok ready_queue s [] → current_proc s ≠ idle_proc s → 1 ≤ t → running_for s t →
  ∃ s', for_n (Z.to_nat t) i (λ j, timer_callback ready_queue (sps j)) s = Ok (tt, s') ∧ stuck s' (current_proc s).
Proof.
  intros Hok Hi Ht. replace t with (Z.of_nat (S (Z.to_nat (t - 1)))) by lia. rewrite Nat2Z.id.
  generalize (Z.to_nat (t - 1)) as k. clear Ht. intros k. revert s i Hok Hi.
  induction k as [|k IH]; intros s i Hok Hi (c & Hc & Hr & Hts);
    pose proof (timer_running s [] c (sps i) Hok Hc Hr ltac:(lia)) as E;
    pose proof (po_slice _ _ _ _ (so_pcb _ _ _ Hok _ _ Hc)) as Hb;
    assert (1 ≤ p_time_slice c) as Ht1 by lia; pose proof (ticked_ok s [] c Hok Hc Ht1) as Hok1;
    assert (pcbs (ticked s c) !! current_proc (ticked s c) = Some (count c)) as Hc1 by apply lookup_insert_eq.
  - rewrite (proj2 (Z.leb_le _ 1)) in E by lia.
    destruct (schedule_consistent (ticked s c) [] (count c) (sps i) Hok1 Hc1) as (s' & E' & Hcon & Hsd).
    exists s'. split; [eapply for_n_S; [rewrite E; exact E'|done]|].
    assert (p_time_slice (count c) = 0) as Hz by (simpl; rewrite i32_small; lia).
    unfold decision, abs_schedule in Hcon, Hsd. rewrite Hz in Hcon, Hsd. change (is_running (count c)) with (is_running c) in *.
    rewrite Hr in Hcon, Hsd. change (idle_proc (ticked s c)) with (idle_proc s) in *. change (current_proc (ticked s c)) with (current_proc s) in *.
    rewrite (proj2 (Z.eqb_neq _ _) Hi) in Hcon, Hsd. simpl in Hcon, Hsd. change (head_or (idle_proc s) [current_proc s]) with (current_proc s) in *.
    split; [apply (sd_cur _ _ _ _ Hsd)|]. split; [rewrite (sd_idle _ _ _ _ Hsd); done|]. split; [by exists []|].
    destruct (sd_timed _ _ _ _ Hsd) as (c' & Hc' & _ & Hst). exists c'. split; [done|].
    unfold is_running. rewrite Hst; [done|done|done|done|lia].
  - rewrite (proj2 (Z.leb_gt _ 1)) in E by lia.
    destruct (IH (ticked s c) (i + 1) Hok1 Hi) as (s' & E' & H).
    + exists (count c). split; [apply lookup_insert_eq|]. split; [done|]. simpl. rewrite i32_small by lia. lia.
    + exists s'. split; [by eapply for_n_S|done].
Qed.

(** C39: what becomes of a process that is alone.  When its slice ends with nobody
    else ready, [schedule] picks it again but leaves it in state READY, out of the
    queue.  From then on no timer tick preempts it, whoever else becomes ready;
    and the first time it yields it is lost: through every later sequence of ticks,
    arrivals, yields and exits it never runs again. *)
Theorem schedule_loses_lone_process s t (sps : Z → Z) :
  let p := current_proc s in
  sched_ok ready_queue s [] → p ≠ idle_proc s → 1 ≤ t → running_for s t →
  ∃ s1, for_n (Z.to_nat t) 0 (λ j, timer_callback ready_queue (sps j)) s = Ok (tt, s1)
    ∧ current_proc s1 = p
    ∧ (∀ s2, rtc quiet_step s1 s2 → current_proc s2 = p)
    ∧ (∀ s2 s3 s4 sp, rtc quiet_step s1 s2 → schedule ready_queue sp s2 = Ok (tt, s3) →
         rtc sched_step s3 s4 → current_proc s4 ≠ p).
Proof.
  intros p Hok Hi Ht Hrun. destruct (lone_expires s t 0 sps Hok Hi Ht Hrun) as (s1 & E & Hs1). exists s1.
  assert (∀ s2, rtc quiet_step s1 s2 → stuck s2 p) as Hq.
  { intros s2 H. revert Hs1. clear E. induction H as [|x y z Hxy _ IH]; [done|]. intros Hx. by eapply IH, stuck_quiet. }
  split; [done|]. split; [apply Hs1|]. split; [intros s2 H2; by apply Hq|].
  intros s2 s3 s4 sp H2 E3 H4. pose proof (stuck_yield s2 s3 p sp (Hq s2 H2) E3) as Hl.
  assert (lost s4 p) as Hl4; [|apply Hl4]. clear E3. induction H4 as [|x y z Hxy _ IH]; [done|]. by eapply IH, lost_step.
Qed.
End properties.

(** * What the scheduler leaves alone

    A property of the environment that does not concern list nodes, CR3 and the
    console holds after [schedule] when it held before. *)

Section sched_invariant.
  Context {A : Type} `{!SchedEnv A} (ready_queue : Z) (P : A → Prop).
  Context (Hset : ∀ l a, P a → P (ls_set l a)) (Hcr3 : ∀ v a, P a → P (se_lcr3 v a)) (Hpush : ∀ e a, P a → P (push_event e a)).
  Abbreviation keeps := (invariant_of (λ s : proc_st A, P (env s))).

Lemma schedule_invariant sp : keeps (schedule ready_queue sp).
Proof using Hset Hcr3 Hpush.
  assert (∀ x y, invariant_of P (get_next x) ∧ invariant_of P (list_del x) ∧ invariant_of P (list_add_before x y)) as Hl by by apply list_invariant.
  assert (∀ x, keeps (on_env (get_next x))) by (intros x; apply inv_zoom; [done|]; apply (Hl x 0)).
  assert (∀ x, keeps (on_env (list_del x))) by (intros x; apply inv_zoom; [done|]; apply (Hl x 0)).
  assert (∀ x y, keeps (on_env (list_add_before x y))) by (intros x y; apply inv_zoom; [done|]; apply (Hl x y)).
  assert (keeps cli) by (unfold cli; inv_go; apply inv_modify; intros s Hs; by apply Hpush).
  assert (keeps sti) by (unfold sti; inv_go; apply inv_modify; intros s Hs; by apply Hpush).
  assert (∀ v, keeps (lcr3 v)) by (intros v; unfold lcr3; inv_go; apply inv_modify; intros s Hs; [by apply Hcr3|by apply Hpush]).
  assert (∀ p, keeps (get_pcb p)) by (intros p; unfold get_pcb; inv_go).
  assert (∀ p f, keeps (update_pcb p f)) by (intros p f; unfold update_pcb; inv_go).
  assert (∀ prev next ie, keeps (switch_to prev next sp ie)) as Hsw by (intros; unfold switch_to; inv_go; try apply inv_modify; auto; intros s Hs; by apply Hpush).
  assert (∀ prev next ie, keeps (dispatch prev next sp ie)) as Hd by (intros; unfold dispatch, set_tss_stack; inv_go).
  assert (∀ prev ie, keeps (schedule_next ready_queue prev sp ie)) as Hn by (intros; unfold schedule_next; inv_go).
  unfold schedule; inv_go.
Qed.
End sched_invariant.

(** * Witnesses *)

(** An environment of nothing but list nodes, address spaces and CR3. *)
Record node_env := NodeEnv { ne_links : links; ne_mms : gmap Z Z; ne_cr3 : Z; ne_trace : list event }.

#[export] Program Instance node_env_store : LinkStore node_env := {|
  ls_links := ne_links;
  ls_set l e := NodeEnv l (ne_mms e) (ne_cr3 e) (ne_trace e);
  ls_ok _ a := negb (a =? 0)
|}.
Solve Obligations with (intros; try done; by destruct s).

#[export] Program Instance node_env_traced : Traced node_env := {|
  trace := ne_trace;
  push_event ev e := NodeEnv (ne_links e) (ne_mms e) (ne_cr3 e) (ev :: ne_trace e)
|}.
Next Obligation. done. Qed.

#[export] Program Instance node_env_sched : SchedEnv node_env := {|
  se_mms := ne_mms;
  se_cr3 := ne_cr3;
  se_lcr3 v e := NodeEnv (ne_links e) (ne_mms e) v (ne_trace e)
|}.
Solve Obligations with (intros; done).

(** A PCB with the given state, slice, stack and address space. *)
Definition example_pcb (pid : Z) (st : proc_state) (slice kstack mm : Z) : pcb_t :=
  Pcb 0 kstack 0 0 mm 0 slice pid 0 st [] (replicate 16 None) 0 0.

(** Idle at 0x1000, a process at 0x2000 that runs for [slice] more ticks, and the
    ready processes at 0x3000 and 0x4000. *)
Definition queue_links (qs : list Z) : links :=
  let ring := 0x100 :: map sched_node qs in
  let next := zip ring (map sched_node qs ++ [0x100]) in
  Links (list_to_map next) (list_to_map (map (λ e, (e.2, e.1)) next)).
Definition example_st (qs : list Z) (slice : Z) : proc_st node_env :=
  ProcSt (NodeEnv (queue_links qs) {[0x9000 := 0x5000; 0x9100 := 0x6000]} 0x5000 [])
    (<[0x1000 := example_pcb 0 PROC_READY 10 0 0]> (<[0x2000 := example_pcb 1 PROC_RUNNING slice 0x70000 0x9000]>
      (<[0x3000 := example_pcb 2 PROC_READY 10 0x80000 0x9100]> {[0x4000 := example_pcb 3 PROC_READY 10 0x90000 0]})))
    0x2000 0x1000 4 0 true 0x74000 ∅.

Lemma example_pcb_ok qs slice p c :
  0 ≤ slice < 2 ^ 31 → pcbs (example_st qs slice) !! p = Some c → pcb_ok 0x100 (example_st qs slice) p c.
Proof.
  intros Hs Hp. unfold example_st in Hp. cbn [pcbs] in Hp.
  assert (∀ q pid st sl ks mm, 0 < q ∧ q + sizeof_pcb ≤ 2 ^ 64 → sched_node q ≠ 0x100 → sched_node q ≠ 0 → 0 ≤ sl < 2 ^ 31 →
    (mm = 0 ∨ is_Some (se_mms (env (example_st qs slice)) !! mm)) → pcb_ok 0x100 (example_st qs slice) q (example_pcb pid st sl ks mm)) as H.
  { intros q pid st sl ks mm H1 H2 H3 H4 H5. split; [done|by apply negb_true_iff, Z.eqb_neq|done| |done].
    simpl. intros H6. by destruct H5. }
  repeat (apply lookup_insert_Some in Hp as [[<- <-]|[_ Hp]];
    [apply H; [unfold sizeof_pcb; lia|by vm_compute|by vm_compute|lia|first [by left|right; eexists; vm_compute; reflexivity]]|]).
  apply lookup_singleton_Some in Hp as [<- <-].
  apply H; [unfold sizeof_pcb; lia|by vm_compute|by vm_compute|lia|by left].
Qed.

Lemma example_two_ok slice : 0 ≤ slice < 2 ^ 31 → sched_ok 0x100 (example_st [0x3000; 0x4000] slice) [0x3000; 0x4000].
Proof.
  intros Hs. split.
  - split; [apply (bool_decide_unpack _); by vm_compute|]. split_and!; by vm_compute.
  - done.
  - split; [apply (bool_decide_unpack _); by vm_compute|by eexists].
  - split; [apply (bool_decide_unpack _); by vm_compute|by eexists].
  - intros p c. by apply example_pcb_ok.
  - intros p [->|[->|Hp%elem_of_nil]%elem_of_cons]%elem_of_cons; [| |done]; eexists; (split; [by vm_compute|done]).
Qed.

Lemma example_lone_ok slice : 0 ≤ slice < 2 ^ 31 → sched_ok 0x100 (example_st [] slice) [].
Proof.
  intros Hs. split.
  - split; [apply (bool_decide_unpack _); by vm_compute|]. split_and!; by vm_compute.
  - done.
  - split; [by apply not_elem_of_nil|by eexists].
  - split; [by apply not_elem_of_nil|by eexists].
  - intros p c. by apply example_pcb_ok.
  - by intros p Hp%elem_of_nil.
Qed.

Lemma schedule_refines_witness :
  ∃ s', schedule 0x100 0x73000 (example_st [0x3000; 0x4000] 0) = Ok (tt, s') ∧ current_proc s' = 0x3000
    ∧ sched_ok 0x100 s' [0x4000; 0x2000] ∧ se_cr3 (env s') = 0x6000 ∧ tss_rsp0 s' = 0x84000.
Proof.
  destruct (schedule_refines 0x100 (example_st [0x3000; 0x4000] 0) [0x3000; 0x4000] (example_pcb 1 PROC_RUNNING 0 0x70000 0x9000) 0x73000
    (example_two_ok 0 ltac:(lia)) ltac:(by vm_compute)) as (s' & E & Hok & Hsd).
  exists s'. split; [exact E|]. split; [exact (sd_cur _ _ _ _ Hsd)|]. split; [exact Hok|].
  destruct (sd_next _ _ _ _ Hsd) as (cn & Hcn & _ & Htss & Hcr3); [by vm_compute|].
  vm_compute in Hcn. injection Hcn as <-. split; [exact Hcr3|exact Htss].
Defined.

Lemma schedule_round_robin_witness :
  ∃ s' qs', for_n 13 0 (λ j, timer_callback 0x100 0x73000) (example_st [0x3000; 0x4000] 3) = Ok (tt, s')
    ∧ sched_ok 0x100 s' qs' ∧ current_proc s' = 0x4000.
Proof.
  destruct (schedule_round_robin 0x100 (example_st [0x3000; 0x4000] 3) [0x3000] 0x4000 [] 3 0 (λ _, 0x73000)
    (example_two_ok 3 ltac:(lia)) ltac:(lia)) as (s' & qs' & E & Hok & Hcur & _).
  - eexists. split; [by vm_compute|]. done.
  - exists s', qs'. split; [exact E|]. split; [exact Hok|exact Hcur].
Defined.

Lemma schedule_loses_lone_process_witness :
  ∃ s1, for_n 2 0 (λ j, timer_callback 0x100 0x73000) (example_st [] 2) = Ok (tt, s1) ∧ current_proc s1 = 0x2000
    ∧ ∀ s3 s4 sp, schedule 0x100 sp s1 = Ok (tt, s3) → rtc (sched_step 0x100) s3 s4 → current_proc s4 ≠ 0x2000.
Proof.
  destruct (schedule_loses_lone_process 0x100 (example_st [] 2) 2 (λ _, 0x73000) (example_lone_ok 2 ltac:(lia)) ltac:(by vm_compute) ltac:(lia))
    as (s1 & E & Hcur & _ & Hlost).
  - eexists. split; [by vm_compute|]. done.
  - exists s1. split; [exact E|]. split; [exact Hcur|]. intros s3 s4 sp E3 H4. exact (Hlost s1 s3 s4 sp (rtc_refl _ _) E3 H4).
Defined.
