(* ===== verification/Debugproc.v ===== *)
(** Debugproc: [debug_proc] of [kernel/src/main.c], which lists the processes and the
    ready queue on the console. *)
From S2P Require Import Prelude Layout CString Klist Sched.

(** The value of the enumeration constant. *)
Definition state_num (st : proc_state) : Z :=
  match st with PROC_RUNNING => 0 | PROC_READY => 1 | PROC_BLOCKED => 2 | PROC_ZOMBIE => 3 end.

Section debug_proc.
  Context {A : Type} `{!SchedEnv A}.
  (** [&proc_list] and [&ready_queue] *)
  Context (proc_list ready_queue : Z).
  Abbreviation St := (proc_st A).

(** [kprintf] with the name of a PCB: the string that [%s] reads. *)
Definition get_name (c : pcb_t) : M St (list Z) := lift_res (read_string (p_name c)).
Definition show_proc (c : pcb_t) : M St unit :=
  name ← get_name c; kprintf "PID: %d, Name: %s, State: %d\n" [KInt (p_pid c); KStr name; KInt (state_num (p_state c))].
Definition show_ready (c : pcb_t) : M St unit :=
  name ← get_name c; kprintf "PID: %d, Name: %s\n" [KInt (p_pid c); KStr name].

(** The loop over the list [head], whose nodes are at [off] in the PCBs. *)
Fixpoint debug_list (fuel : nat) (head off : Z) (show : pcb_t → M St unit) (node : Z) : M St unit :=
  match fuel with
  | O => crash OutOfFuel
  | S fuel' =>
    if node =? head then mret tt else
    proc ← get_pcb (container_of node off);
    show proc;;
    node ← on_env (get_next node);
    debug_list fuel' head off show node
  end.

Definition debug_proc (fuel : nat) : M St unit :=
  cur ← gets current_proc;
  c ← get_pcb cur;
  name ← get_name c;
  kprintf "Current Process PID: %d, Name: %s\n" [KInt (p_pid c); KStr name];;
  kprintln "All Processes:\n";;
  node ← on_env (get_next proc_list);
  debug_list fuel proc_list proc_list_off show_proc node;;
  kprintln "Ready Queue:\n";;
  node ← on_env (get_next ready_queue);
  debug_list fuel ready_queue sched_off show_ready node.

Implicit Types s : St.

(** The events of the list [es], the first one first. *)
Definition report (es : list event) s : St := foldl (λ s e, push_event e s) s es.

Lemma report_same es s :
  pcbs (report es s) = pcbs s ∧ ls_links (env (report es s)) = ls_links (env s) ∧ (∀ x, ls_ok (env (report es s)) x = ls_ok (env s) x)
  ∧ trace (report es s) = rev es ++ trace s.
Proof.
  revert s. induction es as [|e es IH]; intros s; [done|]. destruct (IH (push_event e s)) as (H1 & H2 & H3 & H4). cbn [report foldl].
  change (foldl _ _ es) with (report es (push_event e s)). rewrite H1, H2, H4, trace_push. split; [done|].
  split; [exact (se_links_push e (env s))|]. split; [|simpl; by rewrite <- app_assoc].
  intros x. rewrite H3. exact (se_ok_push e (env s) x).
Qed.

(** [p] is a process with the name [nm]. *)
Record named s (p : Z) (c : pcb_t) (nm : list Z) : Prop := {
  nd_pcb : pcbs s !! p = Some c;
  nd_name : cstring (p_name c) nm;
  nd_range : 0 < p ∧ p + sizeof_pcb ≤ 2 ^ 64
}.

Lemma member_container p off : 0 < p ∧ p + sizeof_pcb ≤ 2 ^ 64 → 0 ≤ off < sizeof_pcb → container_of (u64 (p + off)) off = p.
Proof. unfold container_of, sizeof_pcb. intros. rewrite (u64_small (p + off)) by lia. rewrite u64_small; lia. Qed.

Lemma get_name_ok s c nm : cstring (p_name c) nm → get_name c s = Ok (nm, s).
Proof. intros H. unfold get_name, lift_res. by rewrite (read_string_spec _ nm H). Qed.

(** From the node of the first of [ls] on. *)
Lemma debug_list_ok head off show (line : pcb_t * list Z → event) ls : ∀ a s fuel,
  (∀ c nm s, cstring (p_name c) nm → show c s = Ok (tt, push_event (line (c, nm)) s)) → 0 ≤ off < sizeof_pcb →
  NoDup (head :: map (λ l, u64 (l.1 + off)) ls) → dpath (ls_links (env s)) a (map (λ l, u64 (l.1 + off)) ls) head →
  (∀ x, x ∈ map (λ l, u64 (l.1 + off)) ls → ls_ok (env s) x = true) → (∀ l, l ∈ ls → named s l.1 l.2.1 l.2.2) → (length ls < fuel)%nat →
  debug_list fuel head off show (head_or head (map (λ l, u64 (l.1 + off)) ls)) s = Ok (tt, report (map (λ l, line l.2) ls) s).
Proof.
  induction ls as [|[p [c nm]] ls IH]; intros a s fuel Hs Ho Hnd Hd Hok Hn Hf; (destruct fuel as [|fuel]; [simpl in Hf; lia|]); cbn [debug_list].
  - unfold head_or. simpl. by rewrite Z.eqb_refl.
  - cbn [map] in *. change (head_or head (?x :: _)) with x. cbn [fst snd] in *. set (x := u64 (p + off)) in *.
    assert (x ≠ head) as Hx by (apply NoDup_cons in Hnd as [Hnd _]; set_solver). rewrite (proj2 (Z.eqb_neq _ _) Hx).
    destruct (Hn (p, (c, nm)) ltac:(by left)) as [N1 N2 N3]. cbn [fst snd] in *. unfold x. rewrite member_container by done. fold x.
    rewrite (bind_ok _ _ _ c s) by (unfold get_pcb, gets, or_crash; cbv [mbind M_bind]; by rewrite N1).
    rewrite (bind_ok _ _ _ _ _ (Hs c nm s N2)). set (s1 := push_event _ s).
    destruct (report_same [line (c, nm)] s) as (R1 & R2 & R3 & _). change (report [line (c, nm)] s) with s1 in R1, R2, R3.
    destruct Hd as (_ & _ & Hd).
    assert (get_next x (env s1) = Ok (head_or head (map (λ l, u64 (l.1 + off)) ls), env s1)) as E.
    { apply get_next_ok; [rewrite R3; apply Hok; by left|]. rewrite R2. by eapply dpath_next. }
    rewrite (bind_ok _ _ _ _ _ (on_env_ok _ s1 _ _ E)).
    assert (set_env (env s1) s1 = s1) as -> by by destruct s1.
    apply (IH x s1 fuel); [done|done| |by rewrite R2| | |simpl in Hf; lia].
    + apply NoDup_cons in Hnd as [H1 H2]. apply NoDup_cons in H2 as [H2 H3]. apply NoDup_cons. split; [set_solver|done].
    + intros y Hy. rewrite R3. apply Hok. by right.
    + intros l Hl. destruct (Hn l ltac:(by right)) as [M1 M2 M3]. constructor; [by rewrite R1|done|done].
Qed.

(** A list of processes: its ring, and each one with its PCB and name. *)
Record listed s (head off : Z) (ls : list (Z * (pcb_t * list Z))) : Prop := {
  li_ring : ring (ls_links (env s)) head (map (λ l, u64 (l.1 + off)) ls);
  li_ok : ∀ x, x ∈ head :: map (λ l, u64 (l.1 + off)) ls → ls_ok (env s) x = true;
  li_named : ∀ l, l ∈ ls → named s l.1 l.2.1 l.2.2
}.

Lemma listed_report es s head off ls : listed s head off ls → listed (report es s) head off ls.
Proof.
  intros [H1 H2 H3]. destruct (report_same es s) as (R1 & R2 & R3 & _).
  constructor; [by rewrite R2|intros x Hx; rewrite R3; by apply H2|]. intros l Hl. destruct (H3 l Hl) as [N1 N2 N3]. constructor; [by rewrite R1|done|done].
Qed.

Lemma debug_whole_list head off show (line : pcb_t * list Z → event) ls s fuel :
  (∀ c nm s, cstring (p_name c) nm → show c s = Ok (tt, push_event (line (c, nm)) s)) → 0 ≤ off < sizeof_pcb →
  listed s head off ls → (length ls < fuel)%nat →
  (node ← on_env (get_next head); debug_list fuel head off show node) s = Ok (tt, report (map (λ l, line l.2) ls) s).
Proof.
  intros Hs Ho [[Hnd Hd] Hok Hn] Hf.
  assert (get_next head (env s) = Ok (head_or head (map (λ l, u64 (l.1 + off)) ls), env s)) as E.
  { apply get_next_ok; [apply Hok; by left|]. by eapply dpath_next. }
  rewrite (bind_ok _ _ _ _ _ (on_env_ok _ s _ _ E)). assert (set_env (env s) s = s) as -> by by destruct s.
  apply (debug_list_ok head off show line ls head); try done. intros x Hx. apply Hok. by right.
Qed.

Definition all_line (l : pcb_t * list Z) : event := EvPrint "PID: %d, Name: %s, State: %d\n" [KInt (p_pid l.1); KStr l.2; KInt (state_num (p_state l.1))].
Definition ready_line (l : pcb_t * list Z) : event := EvPrint "PID: %d, Name: %s\n" [KInt (p_pid l.1); KStr l.2].

(** On well-formed lists [debug_proc] ends, prints the current process and then every
    process of either list once and in its order, and changes nothing but the console. *)
Theorem debug_proc_prints s cur nm ps qs fuel :
  named s (current_proc s) cur nm → listed s proc_list proc_list_off ps → listed s ready_queue sched_off qs →
  (length ps < fuel)%nat → (length qs < fuel)%nat →
  debug_proc fuel s = Ok (tt, report ([EvPrint "Current Process PID: %d, Name: %s\n" [KInt (p_pid cur); KStr nm]; EvPrint "All Processes:\n" []]
    ++ map (λ l, all_line l.2) ps ++ [EvPrint "Ready Queue:\n" []] ++ map (λ l, ready_line l.2) qs) s).
Proof.
  intros [C1 C2 _] Hp Hq Hfp Hfq. unfold debug_proc. rewrite (bind_ok _ _ s (current_proc s) s) by done.
  rewrite (bind_ok _ _ s cur s) by (unfold get_pcb, gets, or_crash; cbv [mbind M_bind]; by rewrite C1).
  rewrite (bind_ok _ _ _ _ _ (get_name_ok s cur nm C2)). set (e1 := EvPrint "Current Process PID: %d, Name: %s\n" _). set (e2 := EvPrint "All Processes:\n" []).
  rewrite (bind_ok _ _ s tt (report [e1] s)), (bind_ok _ _ _ tt (report [e1; e2] s)) by done.
  assert (∀ R (m : M St Z) (f : Z → M St unit) (g : M St R) s, (n ← m; f n;; g) s = ((n ← m; f n);; g) s) as Hassoc.
  { intros R m f g s0. cbv [mbind M_bind]. by destruct (m s0) as [[]|]. }
  rewrite Hassoc. erewrite bind_ok.
  2:{ apply (debug_whole_list _ _ show_proc all_line ps); [|done|by apply listed_report|done]. intros c w s0 Hw. unfold show_proc. by rewrite (bind_ok _ _ _ _ _ (get_name_ok s0 c w Hw)). }
  cbn beta. set (s2 := report _ _). rewrite (bind_ok _ _ s2 tt (report [EvPrint "Ready Queue:\n" []] s2)) by done.
  rewrite (debug_whole_list ready_queue sched_off show_ready ready_line qs); [|intros c w s0 Hw; unfold show_ready; by rewrite (bind_ok _ _ _ _ _ (get_name_ok s0 c w Hw))|done| |done].
  - unfold s2, report. by rewrite !foldl_app.
  - apply listed_report. unfold s2. by do 2 apply listed_report.
Qed.
End debug_proc.
