(* ===== verification/Arch.v ===== *)
(** Arch: the tables the processor and the interrupt controller are set up with:
    [kernel/src/arch/gdt.c], [arch/idt.c], the registration of handlers in
    [arch/interrupts.c] and the programming of the timer in [arch/timer.c].
    Loading the tables ([lgdt], [ltr], [lidt]) is assembly and not modelled. *)
From S2P Require Import Prelude.

(** * Segment descriptors (gdt.h) *)

Definition GDT_PRESENT : Z := 0x80.
Definition GDT_DPL_KERNEL : Z := 0x00.
Definition GDT_DPL_USER : Z := 0x60.
Definition GDT_SEGMENT : Z := 0x10.
Definition GDT_SYSTEM : Z := 0x00.
Definition GDT_EXECUTABLE : Z := 0x08.
Definition GDT_RW : Z := 0x02.
Definition GDT_LONG_MODE : Z := 0x20.

Definition lors (l : list Z) : Z := foldr Z.lor 0 l.
Definition GDT_KERNEL_CODE_ACCESS : Z := lors [GDT_PRESENT; GDT_DPL_KERNEL; GDT_SEGMENT; GDT_EXECUTABLE; GDT_RW].
Definition GDT_KERNEL_DATA_ACCESS : Z := lors [GDT_PRESENT; GDT_DPL_KERNEL; GDT_SEGMENT; GDT_RW].
Definition GDT_USER_CODE_ACCESS : Z := lors [GDT_PRESENT; GDT_DPL_USER; GDT_SEGMENT; GDT_EXECUTABLE; GDT_RW].
Definition GDT_USER_DATA_ACCESS : Z := lors [GDT_PRESENT; GDT_DPL_USER; GDT_SEGMENT; GDT_RW].
Definition GDT_TSS_ACCESS : Z := lors [GDT_PRESENT; GDT_DPL_KERNEL; GDT_SYSTEM; 0x09].

Record gdt_entry := GdtEntry {
  limit_low : Z;
  base_low : Z;
  base_middle : Z;
  access : Z;
  granularity : Z;
  base_high : Z
}.

(** The fields of [struct tss_entry] that are ever given a value; the others stay 0. *)
Record tss_entry := TssEntry { rsp0 : Z; iomap_base : Z }.
Definition sizeof_tss : Z := 104.
Definition sizeof_gdt_entry : Z := 8.

(** [struct gdt_ptr] and [struct idt_ptr_struct]. *)
Record table_ptr := TablePtr { tp_limit : Z; tp_base : Z }.

(** * Interrupt gates (idt.c) *)

Record idt_entry_struct := IdtEntry {
  i_base_low : Z;
  i_selector : Z;
  i_ist : Z;
  i_flags : Z;
  i_base_mid : Z;
  i_base_high : Z;
  i_reserved : Z
}.
Definition idt_zero : idt_entry_struct := IdtEntry 0 0 0 0 0 0 0.
Definition sizeof_idt_entry : Z := 16.

(** The handlers the kernel registers. *)
Inductive isr_t := ISR_timer_callback | ISR_keyboard_handler.
#[export] Instance isr_t_eq_dec : EqDecision isr_t.
Proof. solve_decision. Defined.

Record arch_st := ArchSt {
  gdt : list gdt_entry;
  gdtp : table_ptr;
  tss : tss_entry;
  idt_entries : list idt_entry_struct;
  idt_ptr : table_ptr;
  interrupt_handlers : list (option isr_t);
  arch_trace : list event
}.

#[export] Program Instance arch_traced : Traced arch_st := {|
  trace := arch_trace;
  push_event e s := ArchSt (gdt s) (gdtp s) (tss s) (idt_entries s) (idt_ptr s) (interrupt_handlers s) (e :: arch_trace s)
|}.
Next Obligation. done. Qed.

Definition set_gdt g s := ArchSt g (gdtp s) (tss s) (idt_entries s) (idt_ptr s) (interrupt_handlers s) (arch_trace s).
Definition set_gdtp p s := ArchSt (gdt s) p (tss s) (idt_entries s) (idt_ptr s) (interrupt_handlers s) (arch_trace s).
Definition set_tss t s := ArchSt (gdt s) (gdtp s) t (idt_entries s) (idt_ptr s) (interrupt_handlers s) (arch_trace s).
Definition set_idt i s := ArchSt (gdt s) (gdtp s) (tss s) i (idt_ptr s) (interrupt_handlers s) (arch_trace s).
Definition set_idt_ptr p s := ArchSt (gdt s) (gdtp s) (tss s) (idt_entries s) p (interrupt_handlers s) (arch_trace s).
Definition set_handlers h s := ArchSt (gdt s) (gdtp s) (tss s) (idt_entries s) (idt_ptr s) h (arch_trace s).

Abbreviation MA := (M arch_st).

Definition outb (port val : Z) : MA unit := emit (EvOut port (u8 val)).

(** * gdt.c *)

Definition gdt_put (num : Z) (e : gdt_entry) : MA unit :=
  g ← gets gdt; or_crash OutOfBounds (zlookup g num);; modify (set_gdt (zinsert num e g)).

Definition gdt_set_gate (num base limit access gran : Z) : MA unit :=
  gdt_put num (GdtEntry
    (u16 (Z.land limit 0xFFFF))
    (u16 (Z.land base 0xFFFF))
    (u8 (Z.land (Z.shiftr base 16) 0xFF))
    access
    (u8 (Z.lor (u8 (Z.land (Z.shiftr limit 16) 0x0F)) (Z.land gran 0xF0)))
    (u8 (Z.land (Z.shiftr base 24) 0xFF))).

(** [((uint32_t* )&gdt[num])[half] = v]: the two words of a descriptor, little-endian. *)
Definition gdt_put_word (num half v : Z) : MA unit :=
  g ← gets gdt;
  e ← or_crash OutOfBounds (zlookup g num);
  gdt_put num (if half =? 0
    then GdtEntry (Z.land v 0xFFFF) (Z.land (Z.shiftr v 16) 0xFFFF) (base_middle e) (access e) (granularity e) (base_high e)
    else GdtEntry (limit_low e) (base_low e) (Z.land v 0xFF) (Z.land (Z.shiftr v 8) 0xFF) (Z.land (Z.shiftr v 16) 0xFF) (Z.land (Z.shiftr v 24) 0xFF)).

(** [gdt_addr] and [tss_base] are the addresses of the static tables. *)
Definition gdt_init (gdt_addr tss_base : Z) : MA unit :=
  modify (set_tss (TssEntry 0 0));;
  modify (λ s, set_tss (TssEntry (rsp0 (tss s)) (u16 sizeof_tss)) s);;
  modify (set_gdtp (TablePtr (u16 (sizeof_gdt_entry * 7 - 1)) gdt_addr));;
  gdt_set_gate 0 0 0 0 0;;
  gdt_set_gate 1 0 0 GDT_KERNEL_CODE_ACCESS GDT_LONG_MODE;;
  gdt_set_gate 2 0 0 GDT_KERNEL_DATA_ACCESS 0;;
  gdt_set_gate 3 0 0 GDT_USER_DATA_ACCESS 0;;
  gdt_set_gate 4 0 0 GDT_USER_CODE_ACCESS GDT_LONG_MODE;;
  let tss_limit := u32 (sizeof_tss - 1) in
  gdt_set_gate 5 tss_base tss_limit GDT_TSS_ACCESS 0;;
  gdt_put_word 6 0 (u32 (Z.shiftr tss_base 32));;
  gdt_put_word 6 1 0.

Definition set_tss_stack (kernel_stack : Z) : MA unit :=
  modify (λ s, set_tss (TssEntry kernel_stack (iomap_base (tss s))) s).

(** * idt.c *)

Definition idt_set_gate (num base sel flags : Z) : MA unit :=
  i ← gets idt_entries;
  or_crash OutOfBounds (zlookup i num);;
  modify (set_idt (zinsert num (IdtEntry
    (u16 (Z.land base 0xFFFF)) sel 0 flags
    (u16 (Z.land (Z.shiftr base 16) 0xFFFF))
    (u32 (Z.land (Z.shiftr base 32) 0xFFFFFFFF)) 0) i)).

Definition pic_remap : MA unit :=
  outb 0x20 0x11;; outb 0xA0 0x11;;
  outb 0x21 0x20;;
  outb 0xA1 0x28;;
  outb 0x21 0x04;; outb 0xA1 0x02;;
  outb 0x21 0x01;; outb 0xA1 0x01;;
  outb 0x21 0x0;; outb 0xA1 0x0.

(** [isr n] is the address of the assembly stub [isr<n>]. *)
Definition idt_init (idt_addr : Z) (isr : Z → Z) : MA unit :=
  modify (set_idt_ptr (TablePtr (u16 (sizeof_idt_entry * 256 - 1)) idt_addr));;
  pic_remap;;
  idt_set_gate 0 (isr 0) 0x08 0x8E;;
  idt_set_gate 14 (isr 14) 0x08 0x8E;;
  idt_set_gate 32 (isr 32) 0x08 0x8E;;
  idt_set_gate 33 (isr 33) 0x08 0x8E;;
  idt_set_gate 128 (isr 128) 0x08 0xEE;;
  emit EvSti.

(** * Handlers and timer *)

Definition register_interrupt_handler (n : Z) (handler : isr_t) : MA unit :=
  h ← gets interrupt_handlers;
  or_crash OutOfBounds (zlookup h n);;
  modify (set_handlers (zinsert n (Some handler) h)).

Definition PIT_CMD_PORT : Z := 0x43.
Definition PIT_CH0_PORT : Z := 0x40.
Definition PIT_BASE_FREQ : Z := 1193180.

(** [mask] is the answer of [inb(0x21)]. *)
Definition init_timer (frequency mask : Z) : MA unit :=
  register_interrupt_handler 32 ISR_timer_callback;;
  (if frequency =? 0 then crash DivByZero else mret tt);;
  let divisor := u32 (PIT_BASE_FREQ / frequency) in
  outb PIT_CMD_PORT 0x36;;
  let low := u8 (Z.land divisor 0xFF) in
  let high := u8 (Z.land (Z.shiftr divisor 8) 0xFF) in
  outb PIT_CH0_PORT low;;
  outb PIT_CH0_PORT high;;
  outb 0x21 (Z.land mask (Z.lnot 0x01)).

(** * Specification: how the processor reads the tables *)

Definition desc_base (e : gdt_entry) : Z := base_low e + base_middle e * 2 ^ 16 + base_high e * 2 ^ 24.
Definition desc_limit (e : gdt_entry) : Z := limit_low e + (granularity e mod 16) * 2 ^ 16.
Definition desc_present (e : gdt_entry) : bool := Z.testbit (access e) 7.
Definition desc_dpl (e : gdt_entry) : Z := access e / 2 ^ 5 mod 4.
Definition desc_code (e : gdt_entry) : bool := Z.testbit (access e) 4 && Z.testbit (access e) 3.
Definition desc_data (e : gdt_entry) : bool := Z.testbit (access e) 4 && negb (Z.testbit (access e) 3).
Definition desc_writable (e : gdt_entry) : bool := Z.testbit (access e) 1.
Definition desc_long (e : gdt_entry) : bool := Z.testbit (granularity e) 5.
(** An available 64-bit TSS takes two slots; the second holds the high half of the
    base in its first four bytes. *)
Definition desc_is_tss (e : gdt_entry) : bool := access e mod 32 =? 9.
Definition desc_base64 (lo hi : gdt_entry) : Z := desc_base lo + (limit_low hi + base_low hi * 2 ^ 16) * 2 ^ 32.

Definition gate_present (g : idt_entry_struct) : bool := Z.testbit (i_flags g) 7.
Definition gate_dpl (g : idt_entry_struct) : Z := i_flags g / 2 ^ 5 mod 4.
Definition gate_interrupt (g : idt_entry_struct) : bool := i_flags g mod 16 =? 14.
Definition gate_target (g : idt_entry_struct) : Z := i_base_low g + i_base_mid g * 2 ^ 16 + i_base_high g * 2 ^ 32.

(** The descriptor a selector names. *)
Definition selected (s : arch_st) (sel : Z) : option gdt_entry := zlookup (gdt s) (sel / 8).

Record flat_code (s : arch_st) (sel dpl : Z) : Prop := {
  fc : ∃ e, selected s sel = Some e ∧ desc_present e = true ∧ desc_code e = true ∧ desc_long e = true ∧ desc_dpl e = dpl
}.
Record flat_data (s : arch_st) (sel dpl : Z) : Prop := {
  fd : ∃ e, selected s sel = Some e ∧ desc_present e = true ∧ desc_data e = true ∧ desc_writable e = true ∧ desc_dpl e = dpl
}.

(** * Theory *)

Lemma land_mask z n : 0 ≤ n → Z.land z (2 ^ n - 1) = z mod 2 ^ n.
Proof. intros. replace (2 ^ n - 1) with (Z.ones n) by (rewrite Z.ones_equiv; lia). by apply Z.land_ones. Qed.

Lemma land_FF z : Z.land z 0xFF = z mod 2 ^ 8.
Proof. by apply (land_mask z 8). Qed.
Lemma land_F z : Z.land z 0x0F = z mod 2 ^ 4.
Proof. by apply (land_mask z 4). Qed.
Lemma land_FFFF z : Z.land z 0xFFFF = z mod 2 ^ 16.
Proof. by apply (land_mask z 16). Qed.
Lemma land_FFFFFFFF z : Z.land z 0xFFFFFFFF = z mod 2 ^ 32.
Proof. by apply (land_mask z 32). Qed.

#[export] Hint Rewrite land_FF land_F land_FFFF land_FFFFFFFF Z.shiftr_div_pow2 using lia : ksimpl.

(** A 64-bit address is put together again from the parts the gates store. *)
Lemma address_parts a : 0 ≤ a < 2 ^ 64 →
  u16 (Z.land a 0xFFFF) + u16 (Z.land (Z.shiftr a 16) 0xFFFF) * 2 ^ 16 + u32 (Z.land (Z.shiftr a 32) 0xFFFFFFFF) * 2 ^ 32 = a.
Proof.
  intros Ha. autorewrite with ksimpl. unfold u16, u32. Z.to_euclidean_division_equations; lia.
Qed.

Lemma tss_parts a : 0 ≤ a < 2 ^ 64 →
  u16 (Z.land a 0xFFFF) + u8 (Z.land (Z.shiftr a 16) 0xFF) * 2 ^ 16 + u8 (Z.land (Z.shiftr a 24) 0xFF) * 2 ^ 24
  + (Z.land (u32 (Z.shiftr a 32)) 0xFFFF + Z.land (Z.shiftr (u32 (Z.shiftr a 32)) 16) 0xFFFF * 2 ^ 16) * 2 ^ 32 = a.
Proof.
  intros Ha. autorewrite with ksimpl. unfold u16, u8, u32. Z.to_euclidean_division_equations; lia.
Qed.

Lemma gdt_put_ok s num e : 0 ≤ num < zlen (gdt s) → gdt_put num e s = Ok (tt, set_gdt (zinsert num e (gdt s)) s).
Proof.
  intros Hn. unfold gdt_put. rewrite (bind_ok _ _ s (gdt s) s) by done.
  destruct (zlookup_is_Some _ _ Hn) as [x Hx]. unfold or_crash. by rewrite Hx.
Qed.

Lemma gdt_put_word_ok s num half v e : zlookup (gdt s) num = Some e →
  gdt_put_word num half v s = gdt_put num (if half =? 0
    then GdtEntry (Z.land v 0xFFFF) (Z.land (Z.shiftr v 16) 0xFFFF) (base_middle e) (access e) (granularity e) (base_high e)
    else GdtEntry (limit_low e) (base_low e) (Z.land v 0xFF) (Z.land (Z.shiftr v 8) 0xFF) (Z.land (Z.shiftr v 16) 0xFF) (Z.land (Z.shiftr v 24) 0xFF)) s.
Proof. intros He. unfold gdt_put_word. rewrite (bind_ok _ _ s (gdt s) s) by done. unfold or_crash. by rewrite He. Qed.

(** [gdt_init] builds a table in which the kernel's and the user's selectors
    name present flat 64-bit code and writable data segments of the right
    privilege, and in which the task register's two slots give back, as the
    processor puts them together, the address of the TSS and its size. *)
Theorem gdt_init_descriptors s gdt_addr tss_base :
  length (gdt s) = 7%nat → 0 ≤ tss_base < 2 ^ 64 →
  ∃ s', gdt_init gdt_addr tss_base s = Ok (tt, s')
    ∧ flat_code s' 0x08 0 ∧ flat_data s' 0x10 0 ∧ flat_data s' 0x18 3 ∧ flat_code s' 0x20 3
    ∧ (∃ lo hi, selected s' 0x28 = Some lo ∧ zlookup (gdt s') 6 = Some hi ∧ desc_present lo = true ∧ desc_is_tss lo = true
         ∧ desc_base64 lo hi = tss_base ∧ desc_limit lo = sizeof_tss - 1)
    ∧ tss s' = TssEntry 0 sizeof_tss ∧ gdtp s' = TablePtr (8 * zlen (gdt s') - 1) gdt_addr.
Proof.
  intros Hl Ha. destruct s as [g p t i ip h tr]. simpl in Hl.
  do 7 (destruct g as [|? g]; [done|]). destruct g; [|done].
  unfold gdt_init, gdt_set_gate. do 3 (erewrite bind_ok; [|done]). cbn [set_gdtp set_tss gdt tss rsp0].
  do 6 (erewrite bind_ok; [|apply gdt_put_ok; by vm_compute]; cbn [gdt set_gdt zinsert decide]).
  cbv zeta.
  eexists. split; [reflexivity|]. split; [split; eexists; by repeat split|]. split; [split; eexists; by repeat split|].
  split; [split; eexists; by repeat split|]. split; [split; eexists; by repeat split|]. split; [|done].
  eexists _, _. split; [reflexivity|]. split; [reflexivity|]. split; [done|]. split; [done|]. split; [|done].
  unfold desc_base64, desc_base. cbn [base_low base_middle base_high limit_low]. by apply tss_parts.
Qed.

Lemma gdt_init_descriptors_witness :
  ∃ s', gdt_init 0xFFFFFFFF80010000 0xFFFFFFFF80020123 (ArchSt (replicate 7 (GdtEntry 1 2 3 4 5 6)) (TablePtr 0 0) (TssEntry 7 8) [] (TablePtr 0 0) [] []) = Ok (tt, s')
    ∧ flat_code s' 0x20 3.
Proof.
  destruct (gdt_init_descriptors (ArchSt (replicate 7 (GdtEntry 1 2 3 4 5 6)) (TablePtr 0 0) (TssEntry 7 8) [] (TablePtr 0 0) [] [])
    0xFFFFFFFF80010000 0xFFFFFFFF80020123 eq_refl ltac:(lia)) as (s' & E & _ & _ & _ & Hc & _).
  exists s'. split; [exact E|exact Hc].
Defined.

(** A gate to [target] through the kernel's code segment. *)
Definition gate_to (g : idt_entry_struct) (target dpl : Z) : Prop :=
  gate_present g = true ∧ gate_interrupt g = true ∧ gate_dpl g = dpl ∧ i_selector g = 0x08 ∧ gate_target g = target.

(** The vectors [idt_init] sets, and the privilege that may raise them. *)
Definition wired : list (Z * Z) := [(0, 0); (14, 0); (32, 0); (33, 0); (128, 3)].

Lemma idt_set_gate_ok s num base sel flags : 0 ≤ num < zlen (idt_entries s) →
  idt_set_gate num base sel flags s = Ok (tt, set_idt (zinsert num (IdtEntry
    (u16 (Z.land base 0xFFFF)) sel 0 flags (u16 (Z.land (Z.shiftr base 16) 0xFFFF))
    (u32 (Z.land (Z.shiftr base 32) 0xFFFFFFFF)) 0) (idt_entries s)) s).
Proof.
  intros Hn. unfold idt_set_gate. rewrite (bind_ok _ _ s (idt_entries s) s) by done.
  destruct (zlookup_is_Some _ _ Hn) as [x Hx]. unfold or_crash. by rewrite Hx.
Qed.

Lemma idt_push e s : idt_entries (push_event e s) = idt_entries s.
Proof. done. Qed.

Lemma pic_remap_idt s : ∃ s', pic_remap s = Ok (tt, s') ∧ idt_entries s' = idt_entries s.
Proof. eexists. split; reflexivity. Qed.

(** [idt_init] wires exactly five vectors of the empty table: divide error, page
    fault, timer, keyboard and system call lead to their stubs through the kernel
    code segment, only the system call may be raised from user mode, and every
    other vector, the rest of the exceptions included, has no gate. *)
Theorem idt_init_gates s idt_addr isr :
  idt_entries s = replicate 256 idt_zero → (∀ n, 0 ≤ isr n < 2 ^ 64) →
  ∃ s', idt_init idt_addr isr s = Ok (tt, s')
    ∧ (∀ v dpl, (v, dpl) ∈ wired → ∃ g, zlookup (idt_entries s') v = Some g ∧ gate_to g (isr v) dpl)
    ∧ (∀ v g, zlookup (idt_entries s') v = Some g → (v ∉ map fst wired) → gate_present g = false).
Proof.
  intros Hi Hisr. unfold idt_init. rewrite (bind_ok _ _ s tt (set_idt_ptr (TablePtr (u16 (sizeof_idt_entry * 256 - 1)) idt_addr) s)) by done.
  destruct (pic_remap_idt (set_idt_ptr (TablePtr (u16 (sizeof_idt_entry * 256 - 1)) idt_addr) s)) as (s1 & E1 & Hi1).
  rewrite (bind_ok _ _ _ _ _ E1). simpl in Hi1. rewrite Hi in Hi1.
  do 5 (erewrite bind_ok; [|apply idt_set_gate_ok; simpl; rewrite ?zlen_zinsert, Hi1; by vm_compute]). simpl. rewrite Hi1.
  set (z := replicate 256 idt_zero). assert (zlen z = 256) as Hz by by vm_compute.
  eexists. split; [reflexivity|]. rewrite idt_push. cbn [idt_entries set_idt]. split.
  - intros v dpl Hv. unfold wired in Hv. assert (∀ a, 0 ≤ a < 2 ^ 64 → ∀ f d, Z.testbit f 7 = true → f mod 16 = 14 → f / 2 ^ 5 mod 4 = d →
      gate_to (IdtEntry (u16 (Z.land a 0xFFFF)) 8 0 f (u16 (Z.land (Z.shiftr a 16) 0xFFFF)) (u32 (Z.land (Z.shiftr a 32) 0xFFFFFFFF)) 0) a d) as Hg.
    { intros a Ha f d H1 H2 H3. split; [done|]. split; [by apply Z.eqb_eq|]. split; [done|]. split; [done|].
      unfold gate_target. cbn [i_base_low i_base_mid i_base_high]. by apply address_parts. }
    repeat (apply elem_of_cons in Hv as [[= -> ->]|Hv]; [eexists; split;
      [repeat (rewrite zlookup_zinsert_ne by done); by rewrite zlookup_zinsert_eq by (rewrite ?zlen_zinsert, Hz; lia)|by apply Hg]|]).
    by apply elem_of_nil in Hv.
  - intros v g Hg Hv. rewrite !zlookup_zinsert_ne in Hg by (intros <-; apply Hv; by apply (bool_decide_unpack _); vm_compute).
    pose proof (zlookup_Some _ _ _ Hg) as Hr. rewrite Hz in Hr. pose proof (zlookup_replicate 256 idt_zero v Hr) as Hz2.
    change (replicate (Z.to_nat 256) idt_zero) with z in Hz2. assert (g = idt_zero) as -> by congruence. done.
Qed.

Lemma idt_init_gates_witness :
  ∃ s', idt_init 0xFFFFFFFF80030000 (λ n, 0xFFFFFFFF80004000 + 16 * u8 n) (ArchSt [] (TablePtr 0 0) (TssEntry 0 0) (replicate 256 idt_zero) (TablePtr 0 0) [] []) = Ok (tt, s')
    ∧ (∃ g, zlookup (idt_entries s') 128 = Some g ∧ gate_to g 0xFFFFFFFF80004800 3)
    ∧ ∀ g, zlookup (idt_entries s') 13 = Some g → gate_present g = false.
Proof.
  destruct (idt_init_gates (ArchSt [] (TablePtr 0 0) (TssEntry 0 0) (replicate 256 idt_zero) (TablePtr 0 0) [] [])
    0xFFFFFFFF80030000 (λ n, 0xFFFFFFFF80004000 + 16 * u8 n) eq_refl) as (s' & E & H1 & H2).
  - intros n. pose proof (u8_range n). lia.
  - exists s'. split; [exact E|]. split; [apply (H1 128 3); by apply (bool_decide_unpack _); vm_compute|].
    intros g Hg. apply (H2 13 g Hg). by apply (bool_decide_unpack _); vm_compute.
Defined.
