(* ===== verification/Keyboard.v ===== *)
(** Keyboard: the PS/2 keyboard driver of [kernel/src/drivers/keyboard.c]: the
    interrupt handler that fills a ring buffer, the readers that empty it.  What
    [inb] answers is an argument of the operation that reads the port.  The
    console and the interrupt table are reached through [KbdEnv]. *)
From S2P Require Import Prelude CString Arch.

Definition KBUF_SIZE : Z := 128.

(** The scan code tables (set 1); the rest of the 128 entries is 0. *)
Definition kmap_row (l : list Z) : list Z := l ++ replicate (128 - length l) 0.
Definition kmap_low : list Z := kmap_row
  ([0; 27] ++ chars "1234567890-=" ++ [8; 9] ++ chars "qwertyuiop[]" ++ [10; 0] ++ chars "asdfghjkl;'`" ++ [0]
   ++ chars "\zxcvbnm,./" ++ [0; 42; 0; 32]).
Definition kmap_up : list Z := kmap_row
  ([0; 27] ++ chars "!@#$%^&*()_+" ++ [8; 9] ++ chars "QWERTYUIOP{}" ++ [10; 0] ++ chars "ASDFGHJKL:"
   ++ [34] ++ chars "~" ++ [0] ++ chars "|ZXCVBNM<>?" ++ [0; 42; 0; 32]).

(** The console and the interrupt table, as the driver uses them; on the console's
    own invariant [kc_ok] printing and scrolling do not fault. *)
Class KbdEnv (C : Type) := {
  #[global] kc_traced :: Traced C;
  console_scroll : Z → M C unit;
  kprint_char : Z → M C unit;
  register_interrupt_handler : Z → isr_t → M C unit;
  kc_ok : C → Prop;
  kc_scroll n c : kc_ok c → wp (console_scroll n) c (λ _ c', kc_ok c');
  kc_print ch c : kc_ok c → wp (kprint_char ch) c (λ _ c', kc_ok c')
}.

Record kbd_st (C : Type) := KbdSt {
  kbuf : list Z;
  r_ptr : Z;
  w_ptr : Z;
  g_shift : bool;
  con : C
}.
Arguments KbdSt {C} _ _ _ _ _.
Arguments kbuf {C} _.
Arguments r_ptr {C} _.
Arguments w_ptr {C} _.
Arguments g_shift {C} _.
Arguments con {C} _.

Section keyboard.
  Context {C : Type} `{!KbdEnv C}.
  Abbreviation St := (kbd_st C).

Definition set_con (c : C) (s : St) : St := KbdSt (kbuf s) (r_ptr s) (w_ptr s) (g_shift s) c.
Definition set_shift (b : bool) (s : St) : St := KbdSt (kbuf s) (r_ptr s) (w_ptr s) b (con s).
Definition set_w (w : Z) (s : St) : St := KbdSt (kbuf s) (r_ptr s) w (g_shift s) (con s).
Definition set_r (r : Z) (s : St) : St := KbdSt (kbuf s) r (w_ptr s) (g_shift s) (con s).
Definition set_kbuf (b : list Z) (s : St) : St := KbdSt b (r_ptr s) (w_ptr s) (g_shift s) (con s).

Definition on_con {R} (m : M C R) : M St R := zoom con set_con m.

(** [kbuf[i]] and [kbuf[i] = c]. *)
Definition kbuf_get (i : Z) : M St Z := b ← gets kbuf; or_crash OutOfBounds (zlookup b i).
Definition kbuf_put (i c : Z) : M St unit :=
  b ← gets kbuf; or_crash OutOfBounds (zlookup b i);; modify (set_kbuf (zinsert i c b)).

(** [scancode] is the answer of [inb(0x60)]. *)
Definition keyboard_handler (scancode : Z) : M St unit :=
  if (scancode =? 0x2A) || (scancode =? 0x36) then modify (set_shift true) else
  if (scancode =? 0xAA) || (scancode =? 0xB6) then modify (set_shift false) else
  if negb (Z.land scancode 0x80 =? 0) then mret tt else
  if scancode =? 0x49 then on_con (console_scroll 10) else
  if scancode =? 0x51 then on_con (console_scroll (-10)) else
  if 127 <? scancode then mret tt else
  sh ← gets g_shift;
  c ← or_crash OutOfBounds (zlookup (if sh : bool then kmap_up else kmap_low) scancode);
  if negb (c =? 0) then
    w ← gets w_ptr;
    r ← gets r_ptr;
    let next_w := Z.rem (w + 1) KBUF_SIZE in
    if negb (next_w =? r) then kbuf_put w c;; modify (set_w next_w) else mret tt
  else mret tt.

(** [mask] is the answer of [inb(0x21)]. *)
Definition init_keyboard (mask : Z) : M St unit :=
  modify (set_r 0);;
  modify (set_w 0);;
  on_con (register_interrupt_handler 33 ISR_keyboard_handler);;
  on_con (emit (EvOut 0x21 (u8 (Z.land mask (Z.lnot (Z.shiftl 1 1))))));;
  on_con (kprintln "Keyboard initialized (Interrupt Mode).").

Definition keyboard_get_char : M St Z :=
  r ← gets r_ptr;
  w ← gets w_ptr;
  if r =? w then mret 0 else
  c ← kbuf_get r;
  modify (set_r (Z.rem (r + 1) KBUF_SIZE));;
  mret c.

(** [buffer[i] = c] in the caller's buffer. *)
Definition buf_put (buffer : list Z) (i c : Z) : M St (list Z) :=
  or_crash OutOfBounds (zlookup buffer i);; mret (zinsert i c buffer).

(** The loop of [kinput]; [halt] is what happens while the processor waits in
    [hlt], the interrupts it takes, and [fuel] bounds the rounds. *)
Fixpoint kinput_loop (fuel : nat) (halt : M St unit) (buffer : list Z) (idx max_len : Z) : M St (list Z) :=
  match fuel with
  | O => crash OutOfFuel
  | S fuel' =>
    if negb (idx <? max_len - 1) then buf_put buffer idx 0 else
    c ← keyboard_get_char;
    if c =? 0 then on_con (emit EvHlt);; halt;; kinput_loop fuel' halt buffer idx max_len
    else if c =? 10 then
      on_con (kprint_char 10);; buf_put buffer idx 0
    else if c =? 8 then
      if 0 <? idx then on_con (kprint_char 8);; kinput_loop fuel' halt buffer (idx - 1) max_len
      else kinput_loop fuel' halt buffer idx max_len
    else
      buffer ← buf_put buffer idx c;
      on_con (kprint_char c);;
      kinput_loop fuel' halt buffer (idx + 1) max_len
  end.
Definition kinput (fuel : nat) (halt : M St unit) (buffer : list Z) (max_len : Z) : M St (list Z) :=
  kinput_loop fuel halt buffer 0 max_len.
End keyboard.

(** * Specification: a bounded queue of characters *)

(** Shift state and the characters typed and not yet read. *)
Record keys := Keys { k_shift : bool; k_queue : list Z }.

(** The effect of a scan code: shift codes, releases, paging and keys without a
    character type nothing; a full queue drops the character. *)
Definition typed (shift : bool) (scancode : Z) : Z :=
  if (scancode =? 0x2A) || (scancode =? 0x36) || (0x7F <? scancode) || (scancode =? 0x49) || (scancode =? 0x51) then 0
  else default 0 (zlookup (if shift then kmap_up else kmap_low) scancode).
Definition shift_after (shift : bool) (scancode : Z) : bool :=
  if (scancode =? 0x2A) || (scancode =? 0x36) then true
  else if (scancode =? 0xAA) || (scancode =? 0xB6) then false else shift.
Definition press (scancode : Z) (k : keys) : keys :=
  let c := typed (k_shift k) scancode in
  Keys (shift_after (k_shift k) scancode)
    (if negb (c =? 0) && (zlen (k_queue k) <? KBUF_SIZE - 1) then k_queue k ++ [c] else k_queue k).
Definition take_char (k : keys) : Z * keys :=
  match k_queue k with [] => (0, k) | c :: q => (c, Keys (k_shift k) q) end.

(** What the outside does: a key event, or a non-blocking read. *)
Inductive kbd_op := Press (scancode : Z) | Read.

(** The port delivers bytes. *)
Definition byte_code (o : kbd_op) : Prop := match o with Press sc => 0 ≤ sc < 256 | Read => True end.
#[export] Instance byte_code_dec o : Decision (byte_code o).
Proof. destruct o; simpl; apply _. Defined.

(** The characters the reads of a history return. *)
Fixpoint spec_reads (ops : list kbd_op) (k : keys) : list Z * keys :=
  match ops with
  | [] => ([], k)
  | Press sc :: ops' => spec_reads ops' (press sc k)
  | Read :: ops' => let r := take_char k in let rs := spec_reads ops' r.2 in (r.1 :: rs.1, rs.2)
  end.

Section refinement.
  Context {C : Type} `{!KbdEnv C}.
  Implicit Types s : kbd_st C.

Fixpoint reads (ops : list kbd_op) : M (kbd_st C) (list Z) :=
  match ops with
  | [] => mret []
  | Press sc :: ops' => keyboard_handler sc;; reads ops'
  | Read :: ops' => c ← keyboard_get_char; cs ← reads ops'; mret (c :: cs)
  end.

(** The slots from the read to the write pointer hold the queue. *)
Record queue_in s (q : list Z) : Prop := {
  qi_len : zlen (kbuf s) = KBUF_SIZE;
  qi_r : 0 ≤ r_ptr s < KBUF_SIZE;
  qi_w : w_ptr s = (r_ptr s + zlen q) mod KBUF_SIZE;
  qi_room : zlen q < KBUF_SIZE;
  qi_at i c : zlookup q i = Some c → zlookup (kbuf s) ((r_ptr s + i) mod KBUF_SIZE) = Some c ∧ c ≠ 0
}.

Record represents s (k : keys) : Prop := {
  rp_queue : queue_in s (k_queue k);
  rp_shift : g_shift s = k_shift k;
  rp_con : kc_ok (con s)
}.

Lemma rem_mod a : 0 ≤ a → Z.rem a KBUF_SIZE = a mod KBUF_SIZE.
Proof. intros. apply Z.rem_mod_nonneg; [done|by unfold KBUF_SIZE]. Qed.

(** The write pointer meets the read pointer exactly when the queue is full. *)
Lemma full_iff s q : queue_in s q →
  Z.rem (w_ptr s + 1) KBUF_SIZE = r_ptr s ↔ zlen q = KBUF_SIZE - 1.
Proof.
  intros [_ Hr Hw Hq _]. pose proof (zlen_nonneg q). unfold KBUF_SIZE in *.
  assert (0 ≤ w_ptr s) by (rewrite Hw; apply Z.mod_pos_bound; lia).
  rewrite Z.rem_mod_nonneg by lia. rewrite Hw. Z.to_euclidean_division_equations; lia.
Qed.

Lemma empty_iff s q : queue_in s q → r_ptr s = w_ptr s ↔ q = [].
Proof.
  intros [_ Hr Hw Hq _]. pose proof (zlen_nonneg q). unfold KBUF_SIZE in *. rewrite Hw. split.
  - intros E. assert (zlen q = 0) as Hz by (Z.to_euclidean_division_equations; lia).
    destruct q; [done|]. unfold zlen in Hz. simpl in Hz. lia.
  - intros ->. change (zlen []) with 0. rewrite Z.add_0_r, Z.mod_small; lia.
Qed.

Lemma release_code sc : 0 ≤ sc < 256 → negb (Z.land sc 0x80 =? 0) = (127 <? sc).
Proof.
  intros Hsc. assert (Forall (λ z, negb (Z.land z 0x80 =? 0) = (127 <? z)) (seqZ 0 256)) as H
    by (apply (bool_decide_unpack _); by vm_compute).
  rewrite Forall_forall in H. apply H, elem_of_seqZ. lia.
Qed.

Lemma kmap_length b : zlen (if b : bool then kmap_up else kmap_low) = 128.
Proof. by destruct b. Qed.

Lemma kbuf_put_ok s i c : 0 ≤ i < zlen (kbuf s) → kbuf_put i c s = Ok (tt, set_kbuf (zinsert i c (kbuf s)) s).
Proof.
  intros Hi. unfold kbuf_put. rewrite (bind_ok _ _ s (kbuf s) s) by done.
  destruct (zlookup_is_Some (kbuf s) i Hi) as [x Hx]. unfold or_crash. by rewrite Hx.
Qed.

(** Storing a character at the write pointer appends it to the queue. *)
Lemma queue_push s q c :
  queue_in s q → zlen q < KBUF_SIZE - 1 → c ≠ 0 →
  queue_in (set_w (Z.rem (w_ptr s + 1) KBUF_SIZE) (set_kbuf (zinsert (w_ptr s) c (kbuf s)) s)) (q ++ [c]).
Proof.
  intros [Hl Hr Hw Hq Hat] Hroom Hc. pose proof (zlen_nonneg q) as Hq0.
  assert (0 ≤ w_ptr s < KBUF_SIZE) as Hwr by (rewrite Hw; apply Z.mod_pos_bound; done).
  split; simpl.
  - by rewrite zlen_zinsert.
  - done.
  - rewrite rem_mod by lia. rewrite Hw, Zplus_mod_idemp_l. f_equal. unfold zlen. rewrite length_app. simpl. lia.
  - unfold zlen in *. rewrite length_app. simpl. lia.
  - intros i x Hx. destruct (decide (i = zlen q)) as [->|Hi].
    + assert (zlookup (q ++ [c]) (zlen q) = Some c) as Hx2.
      { unfold zlookup, zlen. rewrite decide_True by lia. rewrite Nat2Z.id. by apply list_lookup_middle. }
      assert (x = c) as -> by congruence.
      rewrite <- Hw, zlookup_zinsert_eq by lia. done.
    + pose proof (zlookup_Some _ _ _ Hx) as Hir. unfold zlen in Hir, Hi. rewrite length_app in Hir. simpl in Hir.
      assert (zlookup q i = Some x) as Hx'.
      { unfold zlookup in Hx |- *. rewrite decide_True in Hx by lia. rewrite decide_True by lia. by rewrite lookup_app_l in Hx by lia. }
      destruct (Hat i x Hx') as [Hat1 ?]. split; [|done]. rewrite zlookup_zinsert_ne; [done|].
      rewrite Hw. unfold KBUF_SIZE, zlen in *. clear -Hir Hi Hroom Hq0 Hr. intros E. Z.to_euclidean_division_equations; lia.
Qed.

Lemma queue_pop s c q :
  queue_in s (c :: q) → zlookup (kbuf s) (r_ptr s) = Some c ∧ queue_in (set_r (Z.rem (r_ptr s + 1) KBUF_SIZE) s) q.
Proof.
  intros [Hl Hr Hw Hq Hat]. assert (zlen (c :: q) = 1 + zlen q) as Hlq by (unfold zlen; simpl; lia).
  pose proof (zlen_nonneg q) as Hq0. split.
  - destruct (Hat 0 c eq_refl) as [H _]. by rewrite Z.add_0_r, Z.mod_small in H by done.
  - split; simpl; rewrite ?rem_mod by lia.
    + done.
    + apply Z.mod_pos_bound. done.
    + rewrite Hw, Hlq, Zplus_mod_idemp_l. f_equal. lia.
    + lia.
    + intros i x Hx. rewrite Zplus_mod_idemp_l. replace (r_ptr s + 1 + i) with (r_ptr s + (i + 1)) by lia. apply Hat.
      pose proof (zlookup_Some _ _ _ Hx). unfold zlookup in Hx |- *. rewrite decide_True in Hx by lia. rewrite decide_True by lia.
      by replace (Z.to_nat (i + 1)) with (S (Z.to_nat i)) by lia.
Qed.

Lemma get_char_spec s k :
  represents s k → ∃ s', keyboard_get_char s = Ok ((take_char k).1, s') ∧ represents s' (take_char k).2.
Proof.
  intros [Hq Hs Hc]. unfold keyboard_get_char, take_char.
  rewrite (bind_ok _ _ s (r_ptr s) s), (bind_ok _ _ s (w_ptr s) s) by done.
  destruct (Z.eqb_spec (r_ptr s) (w_ptr s)) as [E|E]; rewrite (empty_iff s _ Hq) in E; destruct k as [sh [|c q]]; try done.
  - exists s. by split.
  - simpl in *. destruct (queue_pop s c q Hq) as [Hlk Hq']. unfold kbuf_get.
    rewrite (bind_ok _ _ s c s); [|rewrite (bind_ok _ _ s (kbuf s) s) by done; unfold or_crash; by rewrite Hlk].
    eexists. split; [done|]. by split.
Qed.

Lemma scroll_keeps s k n : represents s k → ∃ s', on_con (console_scroll n) s = Ok (tt, s') ∧ represents s' k.
Proof.
  intros [[H1 H2 H3 H4 H5] Hs Hc]. pose proof (kc_scroll n _ Hc) as Hw. unfold wp in Hw. unfold on_con, zoom.
  destruct (console_scroll n (con s)) as [[[] c']|]; [|done]. eexists. split; [done|].
  split; [by split|done|done].
Qed.

Lemma handler_spec s k sc :
  represents s k → 0 ≤ sc < 256 → ∃ s', keyboard_handler sc s = Ok (tt, s') ∧ represents s' (press sc k).
Proof.
  intros Hrep Hsc. pose proof Hrep as [Hq Hs Hc]. unfold keyboard_handler, press, typed, shift_after.
  rewrite release_code by done.
  destruct ((sc =? 0x2A) || (sc =? 0x36)) eqn:Hsh1; simpl.
  { eexists. split; [done|]. split; [|done|done]. destruct Hq. by split. }
  destruct ((sc =? 0xAA) || (sc =? 0xB6)) eqn:Hsh2; simpl.
  { assert ((127 <? sc) = true) as -> by lia. simpl. eexists. split; [done|]. split; [|done|done]. destruct Hq. by split. }
  destruct (Z.ltb_spec 127 sc) as [Hrel|Hrel]; simpl; [by exists s; split; [|destruct k]|].
  destruct (sc =? 0x49) eqn:Hup; simpl; [by destruct (scroll_keeps s k 10 Hrep) as (s' & E & H); exists s'; destruct k|].
  destruct (sc =? 0x51) eqn:Hdown; simpl; [by destruct (scroll_keeps s k (-10) Hrep) as (s' & E & H); exists s'; destruct k|].
  destruct (zlookup_is_Some (if k_shift k then kmap_up else kmap_low) sc) as [c Hlk]; [rewrite kmap_length; lia|].
  rewrite (bind_ok _ _ s (g_shift s) s), Hs by done. rewrite Hlk. simpl.
  rewrite (bind_ok _ _ s c s) by done. destruct (Z.eqb_spec c 0) as [->|Hc0]; simpl; [by exists s; destruct k|].
  rewrite (bind_ok _ _ s (w_ptr s) s), (bind_ok _ _ s (r_ptr s) s) by done.
  pose proof (full_iff s _ Hq) as Hfull. pose proof (qi_room _ _ Hq) as Hroom.
  destruct (Z.eqb_spec (Z.rem (w_ptr s + 1) KBUF_SIZE) (r_ptr s)) as [E|E]; simpl.
  - apply Hfull in E. rewrite (proj2 (Z.ltb_ge _ _)) by lia. exists s. by destruct k.
  - rewrite (proj2 (Z.ltb_lt _ _)) by lia. erewrite bind_ok; [|apply kbuf_put_ok].
    2:{ rewrite (qi_len _ _ Hq), (qi_w _ _ Hq). by apply Z.mod_pos_bound. }
    eexists. split; [done|]. split; [apply queue_push; [done|lia|done]|done|done].
Qed.

(** C18: the driver is a bounded queue of characters: from any state that represents
    a queue, every history of key events and non-blocking reads runs without a
    fault and the reads return exactly what the queue of at most 127 characters
    returns, in order, with the shift state applied when the key was pressed, and
    0 when nothing is waiting.  Only PageUp and PageDown scroll: the brackets, which
    the driver's comments name as well, are queued as the characters they are. *)
Theorem keyboard_fifo s k ops :
  represents s k → Forall byte_code ops →
  ∃ s', reads ops s = Ok ((spec_reads ops k).1, s') ∧ represents s' (spec_reads ops k).2.
Proof.
  revert s k. induction ops as [|[sc|] ops IH]; intros s k Hrep Hops; simpl; [by exists s| |];
    apply Forall_cons in Hops as [Hop Hops].
  - destruct (handler_spec s k sc Hrep Hop) as (s1 & E & Hrep1). rewrite (bind_ok _ _ _ _ _ E). by apply IH.
  - destruct (get_char_spec s k Hrep) as (s1 & E & Hrep1). rewrite (bind_ok _ _ _ _ _ E).
    destruct (IH s1 _ Hrep1 Hops) as (s2 & E2 & Hrep2). rewrite (bind_ok _ _ _ _ _ E2). by exists s2.
Qed.
End refinement.

(** A console that only records what is printed. *)
#[export] Program Instance event_console : KbdEnv (list event) := {|
  kc_traced := {| trace l := l; push_event := cons |};
  console_scroll n := mret tt;
  kprint_char c := mret tt;
  register_interrupt_handler n h := mret tt;
  kc_ok _ := True
|}.
Solve Obligations with done.

Lemma keyboard_fifo_witness :
  ∃ s', reads [Press 0x2A; Press 0x26; Press 0xAA; Read; Press 0x1F; Press 0x9F; Read; Read] (KbdSt (replicate 128 7) 127 127 false [])
    = Ok ([76; 115; 0], s') ∧ represents s' (Keys false []).
Proof.
  destruct (keyboard_fifo (KbdSt (replicate 128 7) 127 127 false []) (Keys false [])
    [Press 0x2A; Press 0x26; Press 0xAA; Read; Press 0x1F; Press 0x9F; Read; Read]) as (s' & E & H).
  - split; [|done|done]. split; simpl; [done|done|done|done|]. intros i c Hi. apply zlookup_Some in Hi. unfold zlen in Hi. simpl in Hi. lia.
  - by apply (bool_decide_unpack _); vm_compute.
  - exists s'. split; [exact E|exact H].
Defined.
