(* ===== verification/Kheap.v ===== *)
(** Kheap: the kernel heap of [kernel/src/mm/pmm.c]: [kmalloc], [kfree] and what
    they grow the heap with.  A block is a 32-byte header (two list pointers, the
    size, the free flag) and its payload; the headers are in one list in address
    order.  Header fields are stores by header address; every access checks that
    the page is mapped.  Frames and mappings come through [KernelPages], which
    [Paging] implements. *)
From S2P Require Import Prelude Layout Frames Pmm Paging Klist.

Definition HEADER_SIZE : Z := 32.
Definition MIN_SPLIT : Z := 16.

(** What the heap needs of the frame allocator and of the kernel's page table. *)
Class KernelPages (St : Type) := {
  #[global] kp_traced :: Traced St;
  kp_alloc_page : M St Z;
  kp_map : Z → Z → Z → M St unit;
  kp_mapped : St → Z → bool;
  kp_ok : St → Prop;
  kp_frames : St → nat;
  kp_page s a b : vpn a = vpn b → kp_mapped s a = kp_mapped s b;
  kp_push_ok e s : kp_ok s → kp_ok (push_event e s);
  kp_push_mapped e s a : kp_mapped (push_event e s) a = kp_mapped s a;
  kp_push_frames e s : kp_frames (push_event e s) = kp_frames s;
  kp_alloc_spec s : kp_ok s → wp kp_alloc_page s (λ pa s', kp_ok s' ∧ (∀ a, kp_mapped s' a = kp_mapped s a) ∧
    ((pa = 0 ∧ kp_frames s = 0%nat ∧ kp_frames s' = 0%nat)
     ∨ (∃ k, 0 < k < 2 ^ 40 ∧ pa = k * PAGE_SIZE ∧ kp_frames s = S (kp_frames s'))));
  kp_map_spec s va k flags :
    kp_ok s → 0 < k < 2 ^ 40 → 0 ≤ flags < PAGE_SIZE → pte_present flags = true →
    wp (kp_map va (k * PAGE_SIZE) flags) s (λ _ s', kp_ok s'
      ∧ (kp_frames s' ≤ kp_frames s ≤ kp_frames s' + 3)%nat
      ∧ ((∀ a, kp_mapped s' a = if decide (vpn a = vpn va) then true else kp_mapped s a)
         ∨ (kp_frames s < 3)%nat ∧ kp_frames s' = 0%nat ∧ ∀ a, kp_mapped s' a = kp_mapped s a))
}.

(** The fields of [kheap_pghdr_t] by header address, and the globals. *)
Record kheap_st (A : Type) := KheapSt {
  kh_pages : A;
  kh_links : links;
  kh_size : gmap Z Z;
  kh_is_free : gmap Z bool;
  kheap_top : Z
}.
Arguments KheapSt {A} _ _ _ _ _.
Arguments kh_pages {A} _.
Arguments kh_links {A} _.
Arguments kh_size {A} _.
Arguments kh_is_free {A} _.
Arguments kheap_top {A} _.

Definition set_pages {A} (a : A) (s : kheap_st A) := KheapSt a (kh_links s) (kh_size s) (kh_is_free s) (kheap_top s).
Definition set_links {A} (l : links) (s : kheap_st A) := KheapSt (kh_pages s) l (kh_size s) (kh_is_free s) (kheap_top s).
Definition set_sizes {A} (m : gmap Z Z) (s : kheap_st A) := KheapSt (kh_pages s) (kh_links s) m (kh_is_free s) (kheap_top s).
Definition set_frees {A} (m : gmap Z bool) (s : kheap_st A) := KheapSt (kh_pages s) (kh_links s) (kh_size s) m (kheap_top s).
Definition set_top {A} (t : Z) (s : kheap_st A) := KheapSt (kh_pages s) (kh_links s) (kh_size s) (kh_is_free s) t.

#[export] Program Instance kheap_traced {A} `{!Traced A} : Traced (kheap_st A) := {|
  trace s := trace (kh_pages s);
  push_event e s := set_pages (push_event e (kh_pages s)) s
|}.
Next Obligation. intros. apply trace_push. Qed.

(** A list node is 16 bytes. *)
#[export] Program Instance kheap_store {A} `{!KernelPages A} : LinkStore (kheap_st A) := {|
  ls_links := kh_links;
  ls_set := set_links;
  ls_ok s a := kp_mapped (kh_pages s) a && kp_mapped (kh_pages s) (a + 15)
|}.
Solve Obligations with (intros; try done; by destruct s).

Section kheap.
  Context {A : Type} `{!KernelPages A}.
  (** [&kheap_list] *)
  Context (kheap_list : Z).
  Abbreviation St := (kheap_st A).

Definition on_pages {R} (m : M A R) : M St R := zoom kh_pages set_pages m.

Definition touch (a : Z) : M St unit :=
  ok ← gets (λ s, kp_mapped (kh_pages s) a); if ok : bool then mret tt else crash PageFault.
Definition get_size (h : Z) : M St Z :=
  touch (h + 16);; touch (h + 23);; m ← gets kh_size; or_crash OutOfBounds (m !! h).
Definition put_size (h v : Z) : M St unit :=
  touch (h + 16);; touch (h + 23);; modify (λ s, set_sizes (<[h := v]> (kh_size s)) s).
Definition get_is_free (h : Z) : M St bool :=
  touch (h + 24);; m ← gets kh_is_free; or_crash OutOfBounds (m !! h).
Definition put_is_free (h : Z) (b : bool) : M St unit :=
  touch (h + 24);; modify (λ s, set_frees (<[h := b]> (kh_is_free s)) s).

Definition kfree (ptr : Z) : M St unit :=
  if ptr =? 0 then mret tt else
  let hdr := u64 (ptr - HEADER_SIZE) in
  put_is_free hdr true;;
  next_node ← get_next hdr;
  prev_node ← get_prev hdr;
  (if negb (next_node =? kheap_list) then
     size ← get_size hdr;
     if u64 (u64 (hdr + size) + HEADER_SIZE) =? next_node then
       next_size ← get_size next_node;
       put_size hdr (u64 (size + u64 (next_size + HEADER_SIZE)));;
       list_del next_node
     else mret tt
   else mret tt);;
  (if negb (prev_node =? kheap_list) then
     prev_size ← get_size prev_node;
     if u64 (u64 (prev_node + prev_size) + HEADER_SIZE) =? hdr then
       size ← get_size hdr;
       put_size prev_node (u64 (prev_size + u64 (size + HEADER_SIZE)));;
       list_del hdr
     else mret tt
   else mret tt).

Fixpoint kheap_expand (pgnum : nat) : M St bool :=
  match pgnum with
  | O => mret true
  | S pgnum' =>
    pa ← on_pages kp_alloc_page;
    if pa =? 0 then mret false else
    top ← gets kheap_top;
    on_pages (kp_map top pa (Z.lor PTE_PRESENT PTE_RW));;
    let pghdr := top in
    put_is_free pghdr false;;
    put_size pghdr (PAGE_SIZE - HEADER_SIZE);;
    list_add_before pghdr kheap_list;;
    kfree (u64 (pghdr + HEADER_SIZE));;
    modify (λ s, set_top (u64 (kheap_top s + PAGE_SIZE)) s);;
    kheap_expand pgnum'
  end.

(** The loop of [first_fit] from [cur]; 0 for NULL. *)
Fixpoint first_fit_loop (fuel : nat) (cur size : Z) : M St Z :=
  match fuel with
  | O => crash OutOfFuel
  | S fuel' =>
    if cur =? kheap_list then mret 0 else
    is_free ← get_is_free cur;
    hsize ← (if is_free : bool then get_size cur else mret 0);
    if is_free && (size <=? hsize) then mret cur
    else cur' ← get_next cur; first_fit_loop fuel' cur' size
  end.

(** As many rounds as the heap has room for headers, and two. *)
Definition list_fuel (s : St) : nat := S (S (Z.to_nat ((kheap_top s - KERNEL_HEAP_BASE) / HEADER_SIZE))).

Definition first_fit (size : Z) : M St Z :=
  fuel ← gets list_fuel;
  cur ← get_next kheap_list;
  first_fit_loop fuel cur size.

(** The end of [kmalloc], once the block is found. *)
Definition take_block (target size : Z) : M St Z :=
  tsize ← get_size target;
  (if u64 (u64 (size + HEADER_SIZE) + MIN_SPLIT) <=? tsize then
     let rest := u64 (u64 (target + HEADER_SIZE) + size) in
     put_is_free rest true;;
     put_size rest (u64 (u64 (tsize - size) - HEADER_SIZE));;
     list_add_after rest target;;
     put_size target size
   else mret tt);;
  put_is_free target false;;
  mret (u64 (target + HEADER_SIZE)).

Definition pages_needed (size : Z) : Z :=
  let pg_needed := ALIGN_UP (u64 (size + HEADER_SIZE)) PAGE_SIZE / PAGE_SIZE in
  if pg_needed =? 0 then 1 else pg_needed.

(** [fuel] bounds the recursive calls. *)
Fixpoint kmalloc (fuel : nat) (size : Z) : M St Z :=
  match fuel with
  | O => crash OutOfFuel
  | S fuel' =>
    let size := ALIGN_UP size 8 in
    target ← first_fit size;
    if target =? 0 then
      ok ← kheap_expand (Z.to_nat (pages_needed size));
      if ok : bool then kmalloc fuel' size else mret 0
    else take_block target size
  end.

Definition kheap_init (pgnum : nat) : M St unit :=
  kprintln "Initing kernel heap memory manager...";;
  list_init kheap_list;;
  modify (set_top KERNEL_HEAP_BASE);;
  kheap_expand pgnum;;
  top ← gets kheap_top;
  kprintf "kernel heap is setted at %lx - %lx !\n" [KInt KERNEL_HEAP_BASE; KInt top].

(** * The heap as a list of blocks *)

Record block := Block { b_addr : Z; b_size : Z; b_free : bool }.

(** Blocks cover [a] to [b] without gaps. *)
Fixpoint tiles (a : Z) (bs : list block) (b : Z) : Prop :=
  match bs with
  | [] => a = b
  | x :: bs' => b_addr x = a ∧ 0 ≤ b_size x ∧ tiles (a + HEADER_SIZE + b_size x) bs' b
  end.

(** The header of block [x] is stored. *)
Definition stored (s : St) (x : block) : Prop :=
  kh_size s !! b_addr x = Some (b_size x) ∧ kh_is_free s !! b_addr x = Some (b_free x).

(** Payloads are whole numbers of 8-byte words. *)
Definition aligned (x : block) : Prop := b_size x mod 8 = 0.

(** The sentinel is mapped and outside the heap area. *)
Definition list_head_ok (s : St) : Prop :=
  kp_mapped (kh_pages s) kheap_list = true ∧ kp_mapped (kh_pages s) (kheap_list + 15) = true
  ∧ ¬ KERNEL_HEAP_BASE ≤ kheap_list < KERNEL_MMIO_BASE.

(** The heap of [s] up to [top] is the blocks [bs]. *)
Record heap_at (s : St) (top : Z) (bs : list block) : Prop := {
  ha_pages : kp_ok (kh_pages s);
  ha_head : list_head_ok s;
  ha_ring : ring (kh_links s) kheap_list (b_addr <$> bs);
  ha_tiles : tiles KERNEL_HEAP_BASE bs top;
  ha_stored : Forall (stored s) bs;
  ha_aligned : Forall aligned bs;
  ha_mapped a : KERNEL_HEAP_BASE ≤ a < top → kp_mapped (kh_pages s) a = true;
  ha_top : top ≤ KERNEL_MMIO_BASE
}.

Definition kheap_ok (s : St) (bs : list block) : Prop :=
  heap_at s (kheap_top s) bs ∧ kheap_top s mod PAGE_SIZE = 0.

(** A free block that is large enough. *)
Definition fits (size : Z) (x : block) : bool := b_free x && (size <=? b_size x).

Lemma tiles_app a xs ys b : tiles a (xs ++ ys) b ↔ ∃ m, tiles a xs m ∧ tiles m ys b.
Proof.
  revert a. induction xs as [|x xs IH]; intros a; simpl.
  - split; [intros H; by exists a|by intros (m & <- & H)].
  - rewrite IH. naive_solver.
Qed.

Lemma tiles_le a bs b : tiles a bs b → a + HEADER_SIZE * Z.of_nat (length bs) ≤ b.
Proof.
  revert a. induction bs as [|x bs IH]; intros a; simpl; [lia|]. intros (_ & H0 & H). apply IH in H.
  unfold HEADER_SIZE in *. lia.
Qed.

(** Every block lies in the tiled range. *)
Lemma tiles_in a bs b x :
  tiles a bs b → x ∈ bs → a ≤ b_addr x ∧ 0 ≤ b_size x ∧ b_addr x + HEADER_SIZE + b_size x ≤ b.
Proof.
  intros H (l & r & ->)%list_elem_of_split. apply tiles_app in H as (m & H1 & H2). simpl in H2.
  destruct H2 as (Ha & H0 & H2). apply tiles_le in H1, H2. unfold HEADER_SIZE in *. lia.
Qed.

(** Two different blocks do not overlap. *)
Lemma tiles_disjoint a bs b x y :
  tiles a bs b → x ∈ bs → y ∈ bs → x = y ∨
    b_addr x + HEADER_SIZE + b_size x ≤ b_addr y ∨ b_addr y + HEADER_SIZE + b_size y ≤ b_addr x.
Proof.
  revert a. induction bs as [|z bs IH]; intros a; [by intros _ ?%elem_of_nil|]. simpl. intros (Hz & H0 & H).
  rewrite !elem_of_cons. intros [->|Hx] [->|Hy].
  - by left.
  - right. left. destruct (tiles_in _ _ _ _ H Hy). lia.
  - right. right. destruct (tiles_in _ _ _ _ H Hx). lia.
  - by eapply IH.
Qed.

Section facts.
  Context (s : St) (top : Z) (bs : list block) (Hh : heap_at s top bs).

Lemma ha_in x : x ∈ bs →
  KERNEL_HEAP_BASE ≤ b_addr x ∧ 0 ≤ b_size x ∧ b_addr x + HEADER_SIZE + b_size x ≤ top ∧ top ≤ KERNEL_MMIO_BASE.
Proof. intros Hx. destruct (tiles_in _ _ _ _ (ha_tiles _ _ _ Hh) Hx) as (? & ? & ?). pose proof (ha_top _ _ _ Hh). done. Qed.

Lemma ha_header x i : x ∈ bs → 0 ≤ i < HEADER_SIZE → kp_mapped (kh_pages s) (b_addr x + i) = true.
Proof. intros Hx Hi. destruct (ha_in x Hx) as (? & ? & ? & ?). apply (ha_mapped _ _ _ Hh). lia. Qed.

Lemma ha_node z : z ∈ kheap_list :: (b_addr <$> bs) → ls_ok s z = true.
Proof.
  rewrite elem_of_cons, list_elem_of_fmap. intros [->|(x & -> & Hx)]; simpl; apply andb_true_intro.
  - split; apply (ha_head _ _ _ Hh).
  - split; [rewrite <- (Z.add_0_r (b_addr x))|]; by apply ha_header.
Qed.

Lemma ha_not_head x : x ∈ bs → b_addr x ≠ kheap_list.
Proof.
  intros Hx E. destruct (ha_in x Hx) as (? & ? & ? & ?), (ha_head _ _ _ Hh) as (_ & _ & Hn).
  unfold HEADER_SIZE in *. lia.
Qed.

Lemma ha_field x : x ∈ bs → stored s x.
Proof. intros Hx. pose proof (ha_stored _ _ _ Hh) as H. rewrite Forall_forall in H. by apply H. Qed.
End facts.

Lemma touch_ok (s : St) a : kp_mapped (kh_pages s) a = true → touch a s = Ok (tt, s).
Proof. intros E. unfold touch, gets. cbv [mbind M_bind]. by rewrite E. Qed.

Lemma get_size_ok s top bs x : heap_at s top bs → x ∈ bs → get_size (b_addr x) s = Ok (b_size x, s).
Proof.
  intros Hh Hx. unfold get_size. do 2 (erewrite bind_ok; [|by apply touch_ok; eapply ha_header]).
  unfold gets, or_crash. cbv [mbind M_bind]. by rewrite (proj1 (ha_field _ _ _ Hh x Hx)).
Qed.

Lemma get_is_free_ok s top bs x : heap_at s top bs → x ∈ bs → get_is_free (b_addr x) s = Ok (b_free x, s).
Proof.
  intros Hh Hx. unfold get_is_free. erewrite bind_ok; [|by apply touch_ok; eapply ha_header].
  unfold gets, or_crash. cbv [mbind M_bind]. by rewrite (proj2 (ha_field _ _ _ Hh x Hx)).
Qed.

(** * first_fit *)

Definition addr_or_null (o : option block) : Z := from_option b_addr 0 o.

Lemma first_fit_loop_ok s top l bs size fuel :
  heap_at s top (l ++ bs) → (length bs < fuel)%nat →
  first_fit_loop fuel (head_or kheap_list (b_addr <$> bs)) size s
  = Ok (addr_or_null (snd <$> list_find (fits size) bs), s).
Proof.
  revert l fuel. induction bs as [|x bs IH]; intros l [|fuel] Hh Hf; simpl in *; try lia.
  - change (head_or kheap_list []) with kheap_list. by rewrite Z.eqb_refl.
  - change (head_or kheap_list (b_addr x :: list_fmap block Z b_addr bs)) with (b_addr x).
    assert (x ∈ l ++ x :: bs) as Hx by set_solver.
    rewrite (proj2 (Z.eqb_neq _ _) (ha_not_head _ _ _ Hh x Hx)).
    rewrite (bind_ok _ _ _ _ _ (get_is_free_ok _ _ _ x Hh Hx)).
    assert ((if b_free x then get_size (b_addr x) else mret 0) s = Ok (if b_free x then b_size x else 0, s)) as E.
    { destruct (b_free x); [by eapply get_size_ok|done]. }
    rewrite (bind_ok _ _ _ _ _ E). unfold fits at 1. case_decide as Hd.
    + destruct (b_free x); [|done]. simpl in *. destruct (size <=? b_size x); [done|done].
    + assert ((b_free x && (size <=? (if b_free x then b_size x else 0)))%bool = false) as ->.
      { destruct (b_free x); [|done]. simpl in *. by destruct (size <=? b_size x). }
      pose proof (ha_ring _ _ _ Hh) as Hr. rewrite fmap_app, fmap_cons in Hr.
      erewrite bind_ok; [|apply get_next_ok; [eapply ha_node; [done|]|apply (ring_at _ _ _ _ _ Hr)]].
      2:{ rewrite fmap_app, fmap_cons. set_solver. }
      rewrite (IH (l ++ [x])); [|by rewrite <- app_assoc|lia].
      destruct (list_find (fits size) bs) as [[i y]|]; done.
Qed.

Lemma first_fit_ok s bs size :
  kheap_ok s bs → first_fit size s = Ok (addr_or_null (snd <$> list_find (fits size) bs), s).
Proof.
  intros [Hh _]. unfold first_fit, gets. cbv [mbind M_bind].
  erewrite get_next_ok; [|eapply ha_node; [done|by left]|apply (ring_next _ _ _ (ha_ring _ _ _ Hh))].
  apply (first_fit_loop_ok s (kheap_top s) [] bs); [done|]. unfold list_fuel.
  pose proof (tiles_le _ _ _ (ha_tiles _ _ _ Hh)) as Hl. unfold HEADER_SIZE in *.
  assert (Z.of_nat (length bs) ≤ (kheap_top s - KERNEL_HEAP_BASE) / 32); [|lia].
  apply Z.div_le_lower_bound; lia.
Qed.

(** * Rewriting a stretch of the heap *)

Lemma put_size_ok (s : St) h v :
  kp_mapped (kh_pages s) (h + 16) = true → kp_mapped (kh_pages s) (h + 23) = true →
  put_size h v s = Ok (tt, set_sizes (<[h := v]> (kh_size s)) s).
Proof. intros H1 H2. unfold put_size. by do 2 (erewrite bind_ok; [|by apply touch_ok]). Qed.

Lemma put_is_free_ok (s : St) h b :
  kp_mapped (kh_pages s) (h + 24) = true → put_is_free h b s = Ok (tt, set_frees (<[h := b]> (kh_is_free s)) s).
Proof. intros H1. unfold put_is_free. by erewrite bind_ok; [|by apply touch_ok]. Qed.

(** The blocks [mid] of a heap are replaced by [mid'], which cover the same range. *)
Lemma heap_replace (s s' : St) top l mid mid' r :
  heap_at s top (l ++ mid ++ r) → kh_pages s' = kh_pages s →
  ring (kh_links s') kheap_list (b_addr <$> l ++ mid' ++ r) →
  (∀ x, x ∈ l ++ r → stored s x → stored s' x) → Forall (stored s') mid' →
  (Forall aligned mid → Forall aligned mid') → (∀ a b, tiles a mid b → tiles a mid' b) → heap_at s' top (l ++ mid' ++ r).
Proof.
  intros Hh Hp Hr Hs Hm Hal Ht. destruct Hh as [Hpg Hhd _ Htl Hst Hali Hmp Htop]. constructor; try done.
  - by rewrite Hp.
  - unfold list_head_ok. by rewrite Hp.
  - apply tiles_app in Htl as (m1 & H1 & (m2 & H2 & H3)%tiles_app). apply tiles_app. exists m1. split; [done|].
    apply tiles_app. exists m2. split; [by apply Ht|done].
  - rewrite !Forall_app in Hst |- *. destruct Hst as (Hl & _ & Hr'). split; [|split; [done|]].
    + rewrite Forall_forall in Hl |- *. intros x Hx. apply Hs; [set_solver|by apply Hl].
    + rewrite Forall_forall in Hr' |- *. intros x Hx. apply Hs; [set_solver|by apply Hr'].
  - rewrite !Forall_app in *. naive_solver.
  - intros a Ha. rewrite Hp. by apply Hmp.
Qed.

(** Fields written at the addresses of [mid] leave the other blocks' alone. *)
Lemma stored_frame (s s' : St) x :
  kh_size s' !! b_addr x = kh_size s !! b_addr x → kh_is_free s' !! b_addr x = kh_is_free s !! b_addr x →
  stored s x → stored s' x.
Proof. unfold stored. by intros -> ->. Qed.

(** Blocks of one heap at different places have different headers, and none at an
    address strictly inside another. *)
Lemma ha_apart (s : St) top l x r y i :
  heap_at s top (l ++ x :: r) → y ∈ l ++ r → 0 ≤ i < HEADER_SIZE + b_size x → b_addr y ≠ b_addr x + i.
Proof.
  intros Hh Hy Hi. pose proof (ha_tiles _ _ _ Hh) as Ht. apply tiles_app in Ht as (m & H1 & H2).
  simpl in H2. destruct H2 as (Hx & H0 & H2). apply elem_of_app in Hy as [Hy|Hy].
  - destruct (tiles_in _ _ _ _ H1 Hy). unfold HEADER_SIZE in *. lia.
  - destruct (tiles_in _ _ _ _ H2 Hy). unfold HEADER_SIZE in *. lia.
Qed.

(** * take_block *)

(** What an allocation of [size] makes of the free block [x]. *)
Definition carve (x : block) (size : Z) : list block :=
  if size + HEADER_SIZE + MIN_SPLIT <=? b_size x
  then [Block (b_addr x) size false; Block (b_addr x + HEADER_SIZE + size) (b_size x - size - HEADER_SIZE) true]
  else [Block (b_addr x) (b_size x) false].

Lemma carve_aligned x size : size mod 8 = 0 → Forall aligned [x] → Forall aligned (carve x size).
Proof.
  unfold carve, aligned. rewrite Forall_singleton. intros Hs Hx. case_match; rewrite !Forall_cons, Forall_nil; simpl; [|done].
  split_and!; [done| |done]. unfold HEADER_SIZE. Z.to_euclidean_division_equations; lia.
Qed.

Lemma carve_tiles x size a b : 0 ≤ size → tiles a [x] b → tiles a (carve x size) b.
Proof.
  intros Hs (Ha & H0 & He). unfold carve. destruct (Z.leb_spec (size + HEADER_SIZE + MIN_SPLIT) (b_size x)).
  - simpl in *. unfold HEADER_SIZE, MIN_SPLIT in *. lia.
  - simpl in *. lia.
Qed.

Lemma take_block_ok s top l x r size :
  heap_at s top (l ++ x :: r) → 0 ≤ size ≤ b_size x → size mod 8 = 0 →
  ∃ s', take_block (b_addr x) size s = Ok (b_addr x + HEADER_SIZE, s')
    ∧ heap_at s' top (l ++ carve x size ++ r) ∧ kheap_top s' = kheap_top s ∧ kh_pages s' = kh_pages s.
Proof.
  intros Hh Hs Hs8. assert (x ∈ l ++ x :: r) as Hx by set_solver.
  destruct (ha_in _ _ _ Hh x Hx) as (Hb & H0 & Ht & Hm).
  assert (b_addr x + HEADER_SIZE + b_size x < 2 ^ 64) as Hlt by (unfold KERNEL_MMIO_BASE in *; lia).
  assert (2 ^ 32 ≤ b_addr x) as Hpos by (unfold KERNEL_HEAP_BASE in *; lia).
  unfold take_block. rewrite (bind_ok _ _ _ _ _ (get_size_ok _ _ _ x Hh Hx)).
  assert (∀ i, 0 ≤ i < HEADER_SIZE + b_size x → kp_mapped (kh_pages s) (b_addr x + i) = true) as Hmap.
  { intros i Hi. apply (ha_mapped _ _ _ Hh). lia. }
  pose proof (ha_ring _ _ _ Hh) as Hr. rewrite fmap_app, fmap_cons in Hr.
  rewrite (u64_small (size + HEADER_SIZE)), (u64_small (size + HEADER_SIZE + MIN_SPLIT)), (u64_small (b_addr x + HEADER_SIZE)),
    (u64_small (b_addr x + HEADER_SIZE + size)) by (unfold HEADER_SIZE, MIN_SPLIT in *; lia).
  unfold carve. destruct (Z.leb_spec (size + HEADER_SIZE + MIN_SPLIT) (b_size x)) as [Hsp|Hsp].
  - assert (u64 (u64 (b_size x - size) - HEADER_SIZE) = b_size x - size - HEADER_SIZE) as ->.
    { rewrite (u64_small (b_size x - size)), u64_small; unfold HEADER_SIZE, MIN_SPLIT in *; lia. }
    set (rest := b_addr x + HEADER_SIZE + size) in *.
    assert (∀ i, 0 ≤ i < HEADER_SIZE → kp_mapped (kh_pages s) (rest + i) = true) as Hmr.
    { intros i Hi. unfold rest. replace (b_addr x + HEADER_SIZE + size + i) with (b_addr x + (HEADER_SIZE + size + i)) by lia.
      apply Hmap. unfold MIN_SPLIT, HEADER_SIZE in *. lia. }
    assert (rest ∉ kheap_list :: (b_addr <$> l) ++ b_addr x :: (b_addr <$> r)) as Hfresh.
    { rewrite elem_of_cons, <- fmap_cons, <- fmap_app, list_elem_of_fmap. intros [E|(y & E & Hy)].
      - destruct (ha_head _ _ _ Hh) as (_ & _ & Hn). unfold rest, HEADER_SIZE, MIN_SPLIT in *. lia.
      - destruct (tiles_disjoint _ _ _ x y (ha_tiles _ _ _ Hh) Hx Hy) as [<-|Hd];
          [|destruct (ha_in _ _ _ Hh y Hy)]; unfold rest, HEADER_SIZE, MIN_SPLIT in *; lia. }
    change (kh_links s) with (ls_links s) in Hr.
    destruct (list_add_after_mid s kheap_list (b_addr <$> l) (b_addr x) (b_addr <$> r) rest Hr Hfresh) as [_ Hr'].
    { simpl. rewrite <- (Z.add_0_r rest) at 1. by rewrite !Hmr by (unfold HEADER_SIZE; lia). }
    { intros z Hz. eapply ha_node; [done|]. by rewrite fmap_app, fmap_cons. }
    rewrite bind_assoc. erewrite bind_ok; [|apply put_is_free_ok; apply Hmr; unfold HEADER_SIZE; lia].
    rewrite bind_assoc. erewrite bind_ok; [|apply put_size_ok; apply Hmr; unfold HEADER_SIZE; lia].
    rewrite bind_assoc. cbn [set_frees set_sizes kh_size kh_is_free kh_pages kh_links kheap_top].
    erewrite bind_ok; [|apply (list_add_after_mid _ kheap_list (b_addr <$> l) (b_addr x) (b_addr <$> r) rest); try done].
    2:{ simpl. rewrite <- (Z.add_0_r rest) at 1. by rewrite !Hmr by (unfold HEADER_SIZE; lia). }
    2:{ intros z Hz. eapply (ha_node _ _ _ Hh). by rewrite fmap_app, fmap_cons. }
    erewrite bind_ok; [|apply put_size_ok; apply Hmap; unfold HEADER_SIZE; lia].
    erewrite bind_ok; [|apply put_is_free_ok; apply Hmap; unfold HEADER_SIZE; lia].
    eexists. split; [done|]. simpl. split; [|done].
    assert (b_addr x ≠ rest) as Hne by (unfold rest, HEADER_SIZE; lia).
    apply (heap_replace s _ top l [x] [_; _] r); [done|done|..].
    + rewrite !fmap_app. done.
    + intros y Hy. apply stored_frame; simpl; rewrite !lookup_insert_ne; try done.
      all: apply not_eq_sym; unfold rest; rewrite <- ?Z.add_assoc;
        first [apply (ha_apart s top l x r y _ Hh Hy)|rewrite <- (Z.add_0_r (b_addr x)); apply (ha_apart s top l x r y _ Hh Hy)];
        unfold HEADER_SIZE, MIN_SPLIT in *; lia.
    + rewrite !Forall_cons, Forall_nil. unfold stored. simpl. fold rest.
      by rewrite !lookup_insert_eq, !(lookup_insert_ne _ (b_addr x) rest), !lookup_insert_eq by done.
    + intros Hxx. pose proof (carve_aligned x size Hs8 Hxx) as Hc. unfold carve in Hc.
      by rewrite (proj2 (Z.leb_le _ _) Hsp) in Hc.
    + intros a b Hxx. pose proof (carve_tiles x size a b (proj1 Hs) Hxx) as Hc. unfold carve in Hc.
      by rewrite (proj2 (Z.leb_le _ _) Hsp) in Hc.
  - erewrite bind_ok; [|done]. erewrite bind_ok; [|apply put_is_free_ok; apply Hmap; unfold HEADER_SIZE; lia].
    eexists. split; [done|]. simpl. split; [|done].
    apply (heap_replace s _ top l [x] [_] r); [done|done|..].
    + rewrite !fmap_app. done.
    + intros y Hy. apply stored_frame; simpl; rewrite ?lookup_insert_ne; try done.
      rewrite <- (Z.add_0_r (b_addr x)). apply not_eq_sym, (ha_apart s top l x r y _ Hh Hy). unfold HEADER_SIZE in *. lia.
    + rewrite !Forall_cons, Forall_nil. unfold stored. simpl. rewrite lookup_insert_eq.
      by rewrite (proj1 (ha_field _ _ _ Hh x Hx)).
    + rewrite !Forall_singleton. done.
    + intros a b. simpl. done.
Qed.

(** * kfree *)

(** [x] takes over its neighbour [n], header included, whatever [n]'s flag. *)
Definition merge (x n : block) : block := Block (b_addr x) (b_size x + HEADER_SIZE + b_size n) (b_free x).
Definition mark_free (x : block) : block := Block (b_addr x) (b_size x) true.

(** What [kfree] makes of the blocks [l], [x], [r]: the neighbours on both sides
    are merged without looking at their flags. *)
Definition merge_next (x : block) (r : list block) : block * list block :=
  match r with [] => (x, []) | n :: r' => (merge x n, r') end.
Definition merge_prev (l : list block) (x : block) : list block :=
  match last l with None => [x] | Some p => removelast l ++ [merge p x] end.
Definition freed (l : list block) (x : block) (r : list block) : list block :=
  let '(x', r') := merge_next (mark_free x) r in merge_prev l x' ++ r'.

Lemma absorb_ok s top l x n r :
  heap_at s top (l ++ x :: n :: r) →
  ∃ s', (put_size (b_addr x) (b_size x + HEADER_SIZE + b_size n);; list_del (b_addr n)) s = Ok (tt, s')
    ∧ heap_at s' top (l ++ merge x n :: r) ∧ kheap_top s' = kheap_top s ∧ kh_pages s' = kh_pages s.
Proof.
  intros Hh. assert (x ∈ l ++ x :: n :: r) as Hx by set_solver.
  pose proof (ha_ring _ _ _ Hh) as Hr. change (kh_links s) with (ls_links s) in Hr.
  replace (l ++ x :: n :: r) with ((l ++ [x]) ++ n :: r) in Hr by by rewrite <- app_assoc.
  rewrite fmap_app, fmap_cons in Hr.
  erewrite bind_ok; [|apply put_size_ok; eapply ha_header; done || (unfold HEADER_SIZE; lia)].
  set (s1 := set_sizes _ s). change (ls_links s) with (ls_links s1) in Hr.
  destruct (list_del_spec s1 kheap_list (b_addr <$> l ++ [x]) (b_addr n) (b_addr <$> r) Hr) as [E Hr'].
  { intros z Hz. apply (ha_node _ _ _ Hh). rewrite <- fmap_cons, <- fmap_app, <- app_assoc in Hz. done. }
  eexists. split; [exact E|]. split; [|done].
  apply (heap_replace s _ top l [x; n] [_] r); [done|done|..].
  - rewrite <- fmap_app, <- app_assoc in Hr'. rewrite !fmap_app in *. exact Hr'.
  - intros y Hy. apply stored_frame; simpl; [|done]. apply lookup_insert_ne.
    rewrite <- (Z.add_0_r (b_addr x)). apply not_eq_sym, (ha_apart s top l x (n :: r) y _ Hh); [set_solver|].
    destruct (ha_in _ _ _ Hh x Hx). unfold HEADER_SIZE. lia.
  - rewrite Forall_cons, Forall_nil. unfold stored. simpl. rewrite lookup_insert_eq.
    by rewrite (proj2 (ha_field _ _ _ Hh x Hx)).
  - rewrite !Forall_cons. unfold aligned. simpl. unfold HEADER_SIZE. intros (H1 & H2 & _). split; [|done].
    Z.to_euclidean_division_equations; lia.
  - intros a b. simpl. unfold HEADER_SIZE. lia.
Qed.

Lemma mark_free_ok s top l x r :
  heap_at s top (l ++ x :: r) →
  let s' := set_frees (<[b_addr x := true]> (kh_is_free s)) s in
  put_is_free (b_addr x) true s = Ok (tt, s') ∧ heap_at s' top (l ++ mark_free x :: r).
Proof.
  intros Hh s'. assert (x ∈ l ++ x :: r) as Hx by set_solver. split.
  { apply put_is_free_ok. eapply ha_header; done || (unfold HEADER_SIZE; lia). }
  apply (heap_replace s _ top l [x] [_] r); [done|done|..].
  - pose proof (ha_ring _ _ _ Hh) as Hr. rewrite !fmap_app in *. done.
  - intros y Hy. apply stored_frame; simpl; [done|]. apply lookup_insert_ne.
    rewrite <- (Z.add_0_r (b_addr x)). apply not_eq_sym, (ha_apart s top l x r y _ Hh); [done|].
    destruct (ha_in _ _ _ Hh x Hx). unfold HEADER_SIZE. lia.
  - rewrite Forall_cons, Forall_nil. unfold stored. simpl. rewrite lookup_insert_eq.
    by rewrite (proj1 (ha_field _ _ _ Hh x Hx)).
  - rewrite !Forall_singleton. done.
  - done.
Qed.

(** Consecutive blocks are adjacent, with no wrap-around in the test. *)
Lemma ha_adjacent s top l x n r :
  heap_at s top (l ++ x :: n :: r) →
  u64 (u64 (b_addr x + b_size x) + HEADER_SIZE) = b_addr n
  ∧ u64 (b_size x + u64 (b_size n + HEADER_SIZE)) = b_size x + HEADER_SIZE + b_size n.
Proof.
  intros Hh. destruct (ha_in _ _ _ Hh x ltac:(set_solver)) as (H1 & H2 & H3 & H4).
  destruct (ha_in _ _ _ Hh n ltac:(set_solver)) as (H5 & H6 & H7 & _).
  pose proof (ha_tiles _ _ _ Hh) as Ht. apply tiles_app in Ht as (m & _ & Ht). simpl in Ht.
  destruct Ht as (Hx & _ & Hn & _). unfold KERNEL_MMIO_BASE, KERNEL_HEAP_BASE, HEADER_SIZE in *.
  split.
  - rewrite (u64_small (b_addr x + b_size x)), u64_small; lia.
  - rewrite (u64_small (b_size n + 32)), u64_small; lia.
Qed.

Lemma head_or_fmap (ys : list block) : head_or kheap_list (b_addr <$> ys) = from_option b_addr kheap_list (head ys).
Proof. by destruct ys. Qed.
Lemma last_or_fmap (ys : list block) : last_or kheap_list (b_addr <$> ys) = from_option b_addr kheap_list (last ys).
Proof. unfold last_or. rewrite fmap_last. by destruct (last ys). Qed.

(** The two halves of [kfree]. *)
Lemma merge_next_ok s top l x r :
  heap_at s top (l ++ x :: r) →
  ∃ s', (if negb (from_option b_addr kheap_list (head r) =? kheap_list) then
           size ← get_size (b_addr x);
           if u64 (u64 (b_addr x + size) + HEADER_SIZE) =? from_option b_addr kheap_list (head r) then
             next_size ← get_size (from_option b_addr kheap_list (head r));
             put_size (b_addr x) (u64 (size + u64 (next_size + HEADER_SIZE)));;
             list_del (from_option b_addr kheap_list (head r))
           else mret tt
         else mret tt) s = Ok (tt, s')
    ∧ heap_at s' top (l ++ (merge_next x r).1 :: (merge_next x r).2) ∧ kheap_top s' = kheap_top s ∧ kh_pages s' = kh_pages s.
Proof.
  intros Hh. destruct r as [|n r].
  - simpl. rewrite Z.eqb_refl. by exists s.
  - change (from_option b_addr kheap_list (head (n :: r))) with (b_addr n).
    rewrite (proj2 (Z.eqb_neq _ _) (ha_not_head _ _ _ Hh n ltac:(set_solver))). cbn [negb].
    rewrite (bind_ok _ _ _ _ _ (get_size_ok _ _ _ x Hh ltac:(set_solver))).
    destruct (ha_adjacent _ _ _ _ _ _ Hh) as [-> Esz]. rewrite Z.eqb_refl.
    rewrite (bind_ok _ _ _ _ _ (get_size_ok _ _ _ n Hh ltac:(set_solver))). rewrite Esz. by apply absorb_ok.
Qed.

Lemma merge_prev_ok s top l x r :
  heap_at s top (l ++ x :: r) →
  ∃ s', (if negb (from_option b_addr kheap_list (last l) =? kheap_list) then
           prev_size ← get_size (from_option b_addr kheap_list (last l));
           if u64 (u64 (from_option b_addr kheap_list (last l) + prev_size) + HEADER_SIZE) =? b_addr x then
             size ← get_size (b_addr x);
             put_size (from_option b_addr kheap_list (last l)) (u64 (prev_size + u64 (size + HEADER_SIZE)));;
             list_del (b_addr x)
           else mret tt
         else mret tt) s = Ok (tt, s')
    ∧ heap_at s' top (merge_prev l x ++ r) ∧ kheap_top s' = kheap_top s ∧ kh_pages s' = kh_pages s.
Proof.
  intros Hh. unfold merge_prev. destruct l as [|p l _] using rev_ind.
  - simpl. rewrite Z.eqb_refl. by exists s.
  - rewrite last_snoc, removelast_last. cbn [from_option]. rewrite <- !app_assoc in *. cbn [app] in *.
    rewrite (proj2 (Z.eqb_neq _ _) (ha_not_head _ _ _ Hh p ltac:(set_solver))). cbn [negb].
    rewrite (bind_ok _ _ _ _ _ (get_size_ok _ _ _ p Hh ltac:(set_solver))).
    destruct (ha_adjacent _ _ _ _ _ _ Hh) as [-> Esz]. rewrite Z.eqb_refl.
    rewrite (bind_ok _ _ _ _ _ (get_size_ok _ _ _ x Hh ltac:(set_solver))). rewrite Esz. by apply absorb_ok.
Qed.

Lemma kfree_ok s top l x r :
  heap_at s top (l ++ x :: r) →
  ∃ s', kfree (b_addr x + HEADER_SIZE) s = Ok (tt, s')
    ∧ heap_at s' top (freed l x r) ∧ kheap_top s' = kheap_top s ∧ kh_pages s' = kh_pages s.
Proof.
  intros Hh. assert (x ∈ l ++ x :: r) as Hx by set_solver. destruct (ha_in _ _ _ Hh x Hx) as (H1 & H2 & H3 & H4).
  assert (0 ≤ b_addr x < 2 ^ 64) as Hb by (unfold KERNEL_MMIO_BASE, KERNEL_HEAP_BASE, HEADER_SIZE in *; lia).
  unfold kfree. rewrite (proj2 (Z.eqb_neq _ _)) by (unfold HEADER_SIZE; lia).
  replace (b_addr x + HEADER_SIZE - HEADER_SIZE) with (b_addr x) by lia. rewrite u64_small by done.
  destruct (mark_free_ok s top l x r Hh) as [E1 Hh1]. rewrite (bind_ok _ _ _ _ _ E1). clear E1.
  set (s1 := set_frees _ s) in *. pose proof (ha_ring _ _ _ Hh1) as Hr. rewrite fmap_app, fmap_cons in Hr.
  assert (ls_ok s1 (b_addr x) = true) as Hn by (apply (ha_node _ _ _ Hh); rewrite fmap_app, fmap_cons; set_solver).
  destruct (ring_at _ _ _ _ _ Hr) as [Hnx Hpv]. rewrite head_or_fmap in Hnx. rewrite last_or_fmap in Hpv.
  rewrite (bind_ok _ _ _ _ _ (get_next_ok s1 (b_addr x) _ Hn Hnx)).
  rewrite (bind_ok _ _ _ _ _ (get_prev_ok s1 (b_addr x) _ Hn Hpv)).
  destruct (merge_next_ok s1 top l (mark_free x) r Hh1) as (s2 & E2 & Hh2 & Ht2 & Hp2).
  erewrite bind_ok; [|exact E2]. unfold freed. destruct (merge_next (mark_free x) r) as [x' r'] eqn:Em. cbn [fst snd] in Hh2.
  assert (b_addr x' = b_addr x) as Hx' by (destruct r; by simplify_eq/=). rewrite <- Hx'.
  destruct (merge_prev_ok s2 top l x' r' Hh2) as (s3 & E3 & Hh3 & Ht3 & Hp3).
  exists s3. split; [exact E3|]. split; [done|]. by rewrite Ht3, Ht2, Hp3, Hp2.
Qed.

(** * Growing the heap *)

(** The heap after one more page at [top]: [kheap_expand] frees the new block, and
    so merges it into the last block, free or not. *)
Definition grow (bs : list block) (top : Z) : list block :=
  freed bs (Block top (PAGE_SIZE - HEADER_SIZE) false) [].

Lemma heap_set_pages s top bs (a : A) :
  heap_at s top bs → kp_ok a → (∀ x, kp_mapped (kh_pages s) x = true → kp_mapped a x = true) →
  heap_at (set_pages a s) top bs.
Proof.
  intros [? Hhd ? ? ? ? Hmp ?] Ha Hm. constructor; try done.
  - destruct Hhd as (H1 & H2 & H3). split; [by apply Hm|]. split; [by apply Hm|done].
  - intros x Hx. by apply Hm, Hmp.
Qed.

Lemma page_mapped (a : A) top x :
  kp_mapped a top = true → top mod PAGE_SIZE = 0 → top ≤ x < top + PAGE_SIZE → kp_mapped a x = true.
Proof.
  intros Ht Hm Hx. rewrite <- Ht. apply kp_page. unfold vpn, PAGE_SIZE in *. f_equal.
  Z.to_euclidean_division_equations; lia.
Qed.

(** The header of the new page: the heap with one more, allocated block. *)
Lemma new_header_ok s bs top :
  heap_at s top bs → top + PAGE_SIZE ≤ KERNEL_MMIO_BASE → top mod PAGE_SIZE = 0 → kp_mapped (kh_pages s) top = true →
  ∃ s', (put_is_free top false;; put_size top (PAGE_SIZE - HEADER_SIZE);; list_add_before top kheap_list) s = Ok (tt, s')
    ∧ heap_at s' (top + PAGE_SIZE) (bs ++ [Block top (PAGE_SIZE - HEADER_SIZE) false])
    ∧ kheap_top s' = kheap_top s ∧ kh_pages s' = kh_pages s.
Proof.
  intros Hh Htop Hal Hm.
  assert (∀ i, 0 ≤ i < PAGE_SIZE → kp_mapped (kh_pages s) (top + i) = true) as Hpg.
  { intros i Hi. apply (page_mapped _ top); [done|done|lia]. }
  assert (∀ y, y ∈ bs → b_addr y + HEADER_SIZE ≤ top) as Hbelow.
  { intros y Hy. destruct (ha_in _ _ _ Hh y Hy). lia. }
  assert (top ∉ kheap_list :: (b_addr <$> bs)) as Hfresh.
  { rewrite elem_of_cons, list_elem_of_fmap. intros [->|(y & -> & Hy)].
    - destruct (ha_head _ _ _ Hh) as (_ & _ & Hn). pose proof (tiles_le _ _ _ (ha_tiles _ _ _ Hh)).
      unfold HEADER_SIZE, PAGE_SIZE in *. lia.
    - specialize (Hbelow y Hy). unfold HEADER_SIZE in *. lia. }
  erewrite bind_ok; [|apply put_is_free_ok; apply Hpg; unfold PAGE_SIZE; lia].
  erewrite bind_ok; [|apply put_size_ok; apply Hpg; unfold PAGE_SIZE; lia].
  set (s1 := set_sizes _ _). pose proof (ha_ring _ _ _ Hh) as Hr. change (kh_links s) with (ls_links s1) in Hr.
  destruct (list_add_before_spec s1 kheap_list _ top Hr Hfresh) as [E Hr'].
  { simpl. rewrite <- (Z.add_0_r top) at 1. by rewrite !Hpg by (unfold PAGE_SIZE; lia). }
  { apply (ha_node _ _ _ Hh). }
  eexists. split; [exact E|]. split; [|done].
  destruct Hh as [? ? _ Htl Hst Hali Hmp _]. constructor; try done.
  - rewrite fmap_app. exact Hr'.
  - apply tiles_app. exists top. split; [done|]. simpl. unfold HEADER_SIZE, PAGE_SIZE. lia.
  - apply Forall_app. split.
    + rewrite Forall_forall in Hst |- *. intros y Hy. apply (stored_frame s); [..|by apply Hst]; simpl;
        apply lookup_insert_ne; specialize (Hbelow y Hy); unfold HEADER_SIZE in *; lia.
    + rewrite Forall_cons, Forall_nil. unfold stored. simpl. by rewrite !lookup_insert_eq.
  - apply Forall_app. split; [done|]. by apply Forall_singleton.
  - intros a Ha. simpl. destruct (decide (a < top)); [apply Hmp; lia|].
    replace a with (top + (a - top)) by lia. apply Hpg. lia.
Qed.

Lemma expand_flags : 0 ≤ Z.lor PTE_PRESENT PTE_RW < PAGE_SIZE ∧ pte_present (Z.lor PTE_PRESENT PTE_RW) = true.
Proof. done. Qed.

Lemma on_pages_ok {R} (m : M A R) (s : St) r a : m (kh_pages s) = Ok (r, a) → on_pages m s = Ok (r, set_pages a s).
Proof. unfold on_pages, zoom. by intros ->. Qed.

Lemma bind3_ok {B C} (m1 m2 : M St unit) (m3 : M St B) (k : M St C) s b s' :
  (m1;; m2;; m3) s = Ok (b, s') → (m1;; m2;; m3;; k) s = k s'.
Proof.
  cbv [mbind M_bind]. destruct (m1 s) as [[[] s1]|]; [|done]. destruct (m2 s1) as [[[] s2]|]; [|done].
  by intros ->.
Qed.

(** What one page of [kheap_expand] does to the pages below the heap. *)
Definition pages_step (p p' : A) : Prop :=
  ∃ va k p1, 0 < k < 2 ^ 40 ∧ kp_alloc_page p = Ok (k * PAGE_SIZE, p1)
    ∧ kp_map va (k * PAGE_SIZE) (Z.lor PTE_PRESENT PTE_RW) p1 = Ok (tt, p').

(** One page of [kheap_expand]: out of frames it reports failure; if mapping the
    page ran out of frames for tables, the header write faults; otherwise the heap
    grows by a page. *)
Lemma expand_step s bs n :
  kheap_ok s bs → kheap_top s + PAGE_SIZE ≤ KERNEL_MMIO_BASE →
  (∃ s', kheap_expand (S n) s = Ok (false, s') ∧ kp_frames (kh_pages s) = 0%nat
      ∧ kheap_ok s' bs ∧ kheap_top s' = kheap_top s ∧ kp_frames (kh_pages s') = 0%nat)
  ∨ kheap_expand (S n) s = Crash PageFault ∧ (kp_frames (kh_pages s) ≤ 3)%nat
  ∨ ∃ s', kheap_expand (S n) s = kheap_expand n s' ∧ kheap_ok s' (grow bs (kheap_top s))
      ∧ kheap_top s' = kheap_top s + PAGE_SIZE
      ∧ (kp_frames (kh_pages s') < kp_frames (kh_pages s) ≤ kp_frames (kh_pages s') + 4)%nat
      ∧ pages_step (kh_pages s) (kh_pages s').
Proof.
  intros [Hh Hal] Hroom. set (top := kheap_top s) in *.
  destruct (wp_inv _ _ _ (kp_alloc_spec (kh_pages s) (ha_pages _ _ _ Hh))) as (pa & a1 & Ea & Hok1 & Hm1 & Hc).
  cbn [kheap_expand]. rewrite (bind_ok _ _ _ _ _ (on_pages_ok _ s _ _ Ea)).
  destruct Hc as [(-> & Hf & Hf1)|(k & Hk & -> & Hf)].
  { left. exists (set_pages a1 s). split; [done|]. split; [done|]. split; [|done]. split; [|done].
    apply (heap_set_pages s); [done|done|]. intros x. by rewrite Hm1. }
  right.
  rewrite (proj2 (Z.eqb_neq _ _)) by (unfold PAGE_SIZE; lia).
  erewrite bind_ok; [|done]. cbn [set_pages kheap_top]. fold top.
  destruct (wp_inv _ _ _ (kp_map_spec a1 top k _ Hok1 Hk (proj1 expand_flags) (proj2 expand_flags)))
    as ([] & a2 & Em & Hok2 & Hfr & Hc).
  rewrite (bind_ok _ _ _ _ _ (on_pages_ok _ (set_pages a1 s) _ _ Em)). set (s2 := set_pages a2 _).
  assert (∀ x, kp_mapped (kh_pages s) x = true → kp_mapped a2 x = true) as Hmono.
  { intros x. rewrite <- Hm1. destruct Hc as [Hc|(_ & _ & Hc)]; rewrite Hc; [by case_decide|done]. }
  assert (heap_at s2 top bs) as Hh2 by (apply (heap_set_pages s); done).
  destruct (kp_mapped a2 top) eqn:Et.
  - right. destruct (new_header_ok s2 bs top Hh2 Hroom Hal Et) as (s3 & E3 & Hh3 & Ht3 & Hp3).
    destruct (kfree_ok s3 _ bs _ [] Hh3) as (s4 & E4 & Hh4 & Ht4 & Hp4).
    assert (u64 (top + HEADER_SIZE) = top + HEADER_SIZE) as Eu.
    { pose proof (tiles_le _ _ _ (ha_tiles _ _ _ Hh)). fold top in H.
      unfold KERNEL_MMIO_BASE, KERNEL_HEAP_BASE, HEADER_SIZE, PAGE_SIZE in *. apply u64_small. lia. }
    assert (u64 (top + PAGE_SIZE) = top + PAGE_SIZE) as Eu'.
    { pose proof (tiles_le _ _ _ (ha_tiles _ _ _ Hh)). fold top in H.
      unfold KERNEL_MMIO_BASE, KERNEL_HEAP_BASE, HEADER_SIZE, PAGE_SIZE in *. apply u64_small. lia. }
    exists (set_top (top + PAGE_SIZE) s4). split; [|split; [|split; [done|split]]].
    + rewrite (bind3_ok _ _ _ _ _ _ _ E3), Eu, (bind_ok _ _ _ _ _ E4). erewrite bind_ok; [|done].
      cbn beta. rewrite Ht4, Ht3. change (kheap_top s2) with top. by rewrite Eu'.
    + split; [|simpl; unfold PAGE_SIZE in *; Z.to_euclidean_division_equations; lia].
      destruct Hh4. by constructor.
    + simpl. rewrite Hp4, Hp3. simpl. lia.
    + exists top, k, a1. split; [done|]. split; [done|]. simpl. rewrite Hp4, Hp3. exact Em.
  - left. split.
    + assert (kp_mapped a2 (top + 24) = false) as E24.
      { rewrite <- Et. apply kp_page. unfold vpn, PAGE_SIZE in *. f_equal. Z.to_euclidean_division_equations; lia. }
      assert (touch (top + 24) s2 = Crash PageFault) as Ef by (unfold touch, gets; cbv [mbind M_bind]; simpl; by rewrite E24).
      unfold put_is_free. cbv [mbind M_bind]. by rewrite Ef.
    + destruct Hc as [Hc|(Hlt & _)]; [|lia]. rewrite Hc in Et. by rewrite decide_True in Et.
Qed.

(** The heap with [d] more bytes at its end. *)
Definition grow_tail (bs : list block) (top d : Z) : list block :=
  match last bs with
  | None => [Block top (d - HEADER_SIZE) true]
  | Some p => removelast bs ++ [Block (b_addr p) (b_size p + d) (b_free p)]
  end.

Lemma grow_tail_grow bs top : grow bs top = grow_tail bs top PAGE_SIZE.
Proof.
  unfold grow, freed, grow_tail, merge_prev. simpl. destruct (last bs) as [p|]; [|done].
  rewrite app_nil_r. unfold merge. simpl. do 3 f_equal. lia.
Qed.

Lemma grow_grow_tail bs top d top' : grow (grow_tail bs top d) top' = grow_tail bs top (d + PAGE_SIZE).
Proof.
  rewrite grow_tail_grow. unfold grow_tail. destruct (last bs) as [p|].
  - rewrite last_snoc, removelast_last. simpl. do 3 f_equal. lia.
  - simpl. do 2 f_equal. lia.
Qed.

Lemma grow_tail_0 bs top : bs ≠ [] → grow_tail bs top 0 = bs.
Proof.
  intros H. destruct bs as [|p l _] using rev_ind; [done|]. unfold grow_tail.
  rewrite last_snoc, removelast_last, Z.add_0_r. by destruct p.
Qed.

(** [kheap_expand] with [k] pages added already: all the pages, or out of frames. *)
Lemma expand_ok s bs top k n :
  kheap_ok s (grow_tail bs top (k * PAGE_SIZE)) → kheap_top s + Z.of_nat n * PAGE_SIZE ≤ KERNEL_MMIO_BASE →
  (4 * n ≤ kp_frames (kh_pages s))%nat →
  ∃ s', kheap_expand n s = Ok (true, s') ∧ kheap_ok s' (grow_tail bs top ((k + Z.of_nat n) * PAGE_SIZE))
    ∧ (kp_frames (kh_pages s) ≤ kp_frames (kh_pages s') + 4 * n)%nat ∧ rtc pages_step (kh_pages s) (kh_pages s').
Proof.
  revert s k. induction n as [|n IH]; intros s k Hok Hroom Hf.
  - exists s. split; [done|]. rewrite Z.add_0_r. split; [done|]. split; [lia|apply rtc_refl].
  - destruct (expand_step s _ n Hok) as [(s' & _ & H0 & _)|[[_ H0]|(s' & -> & Hok' & Ht & Hf' & Hst)]]; [unfold PAGE_SIZE in *; lia..|].
    rewrite grow_grow_tail in Hok'.
    destruct (IH s' (k + 1)) as (s2 & E2 & Hok2 & Hf2 & Hst2); [|unfold PAGE_SIZE in *; lia|lia|].
    + by replace ((k + 1) * PAGE_SIZE) with (k * PAGE_SIZE + PAGE_SIZE) by lia.
    + exists s2. split; [done|]. replace (k + Z.of_nat (S n)) with (k + 1 + Z.of_nat n) by lia. split; [done|]. split; [lia|by eapply rtc_l].
Qed.

Lemma expand_first s bs n :
  kheap_ok s bs → kheap_top s + Z.of_nat (S n) * PAGE_SIZE ≤ KERNEL_MMIO_BASE →
  (4 * S n ≤ kp_frames (kh_pages s))%nat →
  ∃ s', kheap_expand (S n) s = Ok (true, s') ∧ kheap_ok s' (grow_tail bs (kheap_top s) (Z.of_nat (S n) * PAGE_SIZE))
    ∧ (kp_frames (kh_pages s) ≤ kp_frames (kh_pages s') + 4 * S n)%nat ∧ rtc pages_step (kh_pages s) (kh_pages s').
Proof.
  intros Hok Hroom Hf.
  destruct (expand_step s _ n Hok) as [(s' & _ & H0 & _)|[[_ H0]|(s' & -> & Hok' & Ht & Hf' & Hst)]]; [unfold PAGE_SIZE in *; lia..|].
  rewrite grow_tail_grow in Hok'.
  destruct (expand_ok s' bs (kheap_top s) 1 n) as (s2 & E2 & Hok2 & Hf2 & Hst2); [done|unfold PAGE_SIZE in *; lia|lia|].
  exists s2. split; [done|]. replace (Z.of_nat (S n)) with (1 + Z.of_nat n) by lia. split; [done|]. split; [lia|by eapply rtc_l].
Qed.

(** [kheap_init] with at least one page: one free block. *)
Lemma kheap_init_ok s n :
  kp_ok (kh_pages s) → list_head_ok s → Z.of_nat (S n) * PAGE_SIZE ≤ KERNEL_MMIO_BASE - KERNEL_HEAP_BASE →
  (4 * S n ≤ kp_frames (kh_pages s))%nat →
  wp (kheap_init (S n)) s (λ _ s', kheap_ok s' [Block KERNEL_HEAP_BASE (Z.of_nat (S n) * PAGE_SIZE - HEADER_SIZE) true]
    ∧ (kp_frames (kh_pages s) ≤ kp_frames (kh_pages s') + 4 * S n)%nat
    ∧ ∃ e e' p, rtc pages_step (push_event e (kh_pages s)) p ∧ kh_pages s' = push_event e' p).
Proof.
  intros Hok Hhead Hroom Hf. unfold kheap_init. apply wp_bind, wp_kprintln. set (e := EvPrint _ _). set (s1 := push_event e s).
  assert (list_head_ok s1) as Hhead1.
  { destruct Hhead as (H1 & H2 & H3). split; [|split; [|done]].
    - rewrite <- H1. exact (kp_push_mapped e (kh_pages s) kheap_list).
    - rewrite <- H2. exact (kp_push_mapped e (kh_pages s) (kheap_list + 15)). }
  destruct (list_init_spec s1 kheap_list) as (l & El & Hr & _).
  { destruct Hhead1 as (H1 & H2 & _). unfold ls_ok, kheap_store. by rewrite H1, H2. }
  eapply wp_bind_mono; [eapply wp_ok; [exact El|]|]; [exact (eq_refl : (λ _ s2, s2 = ls_set l s1) tt (ls_set l s1))|].
  cbn beta. intros _ s2 ->. apply wp_bind, wp_modify. set (s3 := set_top KERNEL_HEAP_BASE (ls_set l s1)).
  assert (kheap_ok s3 []) as Hok3.
  { split; [|done]. constructor; try done; [by apply kp_push_ok|]. intros a Ha. change (kheap_top s3) with KERNEL_HEAP_BASE in Ha. lia. }
  assert (kp_frames (kh_pages s3) = kp_frames (kh_pages s)) as Hfr by exact (kp_push_frames e (kh_pages s)).
  destruct (expand_first s3 [] n Hok3) as (s4 & E4 & Hok4 & Hf4 & Hst4); [simpl; lia|by rewrite Hfr|].
  apply wp_bind. eapply wp_ok; [exact E4|]. apply wp_bind, wp_gets, wp_kprintf. set (e' := EvPrint _ _).
  split; [|split].
  - destruct Hok4 as [[] ?]. split; [|done]. constructor; try done.
    + by apply kp_push_ok.
    + destruct ha_head0 as (H1 & H2 & H3). split; [|split; [|done]].
      * rewrite <- H1. exact (kp_push_mapped e' (kh_pages s4) kheap_list).
      * rewrite <- H2. exact (kp_push_mapped e' (kh_pages s4) (kheap_list + 15)).
    + intros a Ha. rewrite <- (ha_mapped0 a Ha). exact (kp_push_mapped e' (kh_pages s4) a).
  - rewrite <- Hfr. etransitivity; [exact Hf4|]. apply Nat.eq_le_incl. f_equal. symmetry. exact (kp_push_frames e' (kh_pages s4)).
  - exists e, e', (kh_pages s4). by split.
Qed.

(** However many frames there are: success, failure or a fault, and every page
    added has cost a frame. *)
Lemma expand_outcome s bs n :
  kheap_ok s bs → bs ≠ [] → kheap_top s + (Z.of_nat (kp_frames (kh_pages s)) + 1) * PAGE_SIZE ≤ KERNEL_MMIO_BASE →
  kheap_expand n s = Crash PageFault
  ∨ ∃ ok s' d, kheap_expand n s = Ok (ok, s') ∧ kheap_ok s' (grow_tail bs (kheap_top s) d)
      ∧ kheap_top s' + (Z.of_nat (kp_frames (kh_pages s')) + 1) * PAGE_SIZE ≤ KERNEL_MMIO_BASE
      ∧ (ok = true → (kp_frames (kh_pages s') + n ≤ kp_frames (kh_pages s))%nat).
Proof.
  intros Hok Hne. rewrite <- (grow_tail_0 bs (kheap_top s) Hne) in Hok. revert Hok.
  generalize (kheap_top s) at 1 3 as top. generalize 0 as d. revert s.
  induction n as [|n IH]; intros s d top Hok Hroom.
  - right. exists true, s, d. split; [done|]. split; [done|]. split; [done|lia].
  - destruct (expand_step s _ n Hok) as [(s' & E & _ & Hok' & Ht & Hf')|[[E H0]|(s' & -> & Hok' & Ht & Hf' & _)]].
    + unfold PAGE_SIZE in *. lia.
    + right. exists false, s', d. split; [done|]. split; [done|]. split; [rewrite Ht, Hf'; unfold PAGE_SIZE in *; lia|done].
    + by left.
    + rewrite grow_grow_tail in Hok'. destruct (IH s' _ top Hok') as [H|(ok & s2 & d' & E & H & Hr & Hc)].
      * unfold PAGE_SIZE in *. lia.
      * by left.
      * right. exists ok, s2, d'. split; [done|]. split; [done|]. split; [done|]. intros Htrue. specialize (Hc Htrue). lia.
Qed.

(** * kmalloc *)

Definition allocated (bs : list block) : list block := filter (λ x, b_free x = false) bs.

(** [kheap_expand] adds its pages one after the other. *)
Lemma kheap_expand_S n s :
  kheap_expand (S n) s = (ok ← kheap_expand 1; if ok : bool then kheap_expand n else mret false) s.
Proof.
  cbn [kheap_expand]. rewrite bind_assoc. cbv [mbind M_bind]. destruct (on_pages kp_alloc_page s) as [[pa s1]|]; [|done].
  destruct (pa =? 0); [done|]. repeat (match goal with |- match ?m with _ => _ end = _ => destruct m as [[? ?]|]; [|done] end). done.
Qed.

Lemma kheap_expand_add a b s s1 : kheap_expand a s = Ok (true, s1) → kheap_expand (a + b) s = kheap_expand b s1.
Proof.
  revert s. induction a as [|a IH]; intros s; [by intros [= ->]|]. change (S a + b)%nat with (S (a + b)).
  rewrite !(kheap_expand_S _ s). cbv [mbind M_bind]. destruct (kheap_expand 1 s) as [[[] s2]|]; [|done..]. apply IH.
Qed.

Lemma grow_tail_tail bs top d top' d' p : last bs = Some p → grow_tail (grow_tail bs top d) top' d' = grow_tail bs top (d + d').
Proof. intros El. unfold grow_tail. rewrite El, last_snoc, removelast_last. simpl. by rewrite Z.add_assoc. Qed.

(** The heap grew by [k] pages, each of which took a frame at least. *)
Record grown k s bs s1 : Prop := {
  gr_run : kheap_expand k s = Ok (true, s1);
  gr_ok : kheap_ok s1 (grow_tail bs (kheap_top s) (Z.of_nat k * PAGE_SIZE));
  gr_frames : (kp_frames (kh_pages s1) + k ≤ kp_frames (kh_pages s))%nat
}.

(** Where growing by [n] pages stops: at the end, at a page for which there is no frame,
    or at one whose tables find none. *)
Lemma expand_end s bs n :
  kheap_ok s bs → bs ≠ [] → kheap_top s + (Z.of_nat (kp_frames (kh_pages s)) + 1) * PAGE_SIZE ≤ KERNEL_MMIO_BASE →
  ∃ k s1, grown k s bs s1 ∧ kheap_top s1 + (Z.of_nat (kp_frames (kh_pages s1)) + 1) * PAGE_SIZE ≤ KERNEL_MMIO_BASE
    ∧ (k = n ∨ (∃ s', kheap_expand 1 s1 = Ok (false, s') ∧ kheap_expand n s = Ok (false, s') ∧ kp_frames (kh_pages s') = 0%nat)
       ∨ kheap_expand 1 s1 = Crash PageFault ∧ kheap_expand n s = Crash PageFault ∧ (kp_frames (kh_pages s1) ≤ 3)%nat).
Proof.
  intros Hok Hne Hroom. assert (∃ p, last bs = Some p) as [p El].
  { destruct bs as [|b l _] using rev_ind; [done|]. exists b. apply last_snoc. }
  assert (grown 0 s bs s) as H0 by (constructor; [done| |lia]; change (Z.of_nat 0 * PAGE_SIZE) with 0; by rewrite grow_tail_0).
  revert s bs p Hok Hne Hroom El H0. induction n as [|n IH]; intros s bs p Hok Hne Hroom El H0; [exists 0%nat, s; auto|].
  rewrite (kheap_expand_S n s). destruct (expand_step s bs 0 Hok) as [(s' & E & _ & _ & _ & Hz)|[[E Hz]|(s2 & E & Hok2 & Ht & Hf & _)]].
  - unfold PAGE_SIZE in *. lia.
  - exists 0%nat, s. split; [done|]. split; [done|]. right. left. exists s'. by rewrite (bind_ok _ _ _ _ _ E).
  - exists 0%nat, s. split; [done|]. split; [done|]. right. right. split; [done|]. split; [|done]. cbv [mbind M_bind]. by rewrite E.
  - change (kheap_expand 0 s2) with (Ok (true, s2)) in E. rewrite (bind_ok _ _ _ _ _ E), grow_tail_grow in *.
    assert (last (grow_tail bs (kheap_top s) PAGE_SIZE) = Some (Block (b_addr p) (b_size p + PAGE_SIZE) (b_free p))) as El2.
    { unfold grow_tail. by rewrite El, last_snoc. }
    destruct (IH s2 (grow_tail bs (kheap_top s) PAGE_SIZE) (Block (b_addr p) (b_size p + PAGE_SIZE) (b_free p))) as (k & s1 & [G1 G2 G3] & Hr & Hend); [done|by intros E0; rewrite E0 in El2| |exact El2| |].
    + unfold PAGE_SIZE in *. lia.
    + constructor; [done| |lia]. change (Z.of_nat 0 * PAGE_SIZE) with 0. rewrite grow_tail_0; [done|]. by intros E0; rewrite E0 in El2.
    + exists (S k), s1. split; [constructor|split; [done|]].
      * rewrite (kheap_expand_S k s). by rewrite (bind_ok _ _ _ _ _ E).
      * rewrite (grow_tail_tail _ _ _ _ _ p) in G2 by done. by replace (Z.of_nat (S k) * PAGE_SIZE) with (PAGE_SIZE + Z.of_nat k * PAGE_SIZE) by lia.
      * lia.
      * destruct Hend as [->|[H|H]]; auto.
Qed.

Lemma allocated_carve l x r size :
  b_free x = true →
  allocated (l ++ carve x size ++ r) ≡ₚ hd x (carve x size) :: allocated (l ++ x :: r)
  ∧ hd x (carve x size) ∈ l ++ carve x size ++ r ∧ b_addr (hd x (carve x size)) = b_addr x
  ∧ (size ≤ b_size x → size ≤ b_size (hd x (carve x size))).
Proof.
  intros Hf. unfold carve, allocated. case_match; simpl; (split; [|split; [set_solver|done]]).
  all: rewrite !filter_app, !filter_cons; simpl; rewrite Hf; simpl; by rewrite <- Permutation_middle.
Qed.

Lemma allocated_grow_tail bs top d :
  from_option b_free true (last bs) = true → allocated (grow_tail bs top d) = allocated bs.
Proof.
  intros Hf. unfold grow_tail, allocated. destruct bs as [|p l _] using rev_ind; [done|].
  rewrite last_snoc in *. simpl in Hf. rewrite removelast_last, !filter_app, !filter_cons. simpl. by rewrite Hf.
Qed.

(** The first free block that fits is one of the heap's. *)
Lemma fits_found size bs : Exists (fits size) bs → ∃ l x r, bs = l ++ x :: r ∧ fits size x ∧ snd <$> list_find (fits size) bs = Some x.
Proof.
  intros (x & Hx & Hf)%Exists_exists. destruct (list_find (fits size) bs) as [[i y]|] eqn:E.
  - apply list_find_Some in E as (Hl & Hy & _). exists (take i bs), y, (drop (S i) bs).
    split; [by rewrite take_drop_middle|done].
  - rewrite list_find_None, Forall_forall in E. by apply E in Hx.
Qed.

Lemma fits_none size bs : ¬ Exists (fits size) bs → list_find (fits size) bs = None.
Proof.
  intros H. apply list_find_None, Forall_forall. intros x Hx Hf. apply H, Exists_exists. by exists x.
Qed.

Lemma align_up8_idem size : 0 ≤ size → size + 8 ≤ 2 ^ 64 → ALIGN_UP (ALIGN_UP size 8) 8 = ALIGN_UP size 8.
Proof.
  intros H0 H1. destruct (word_align_up size H0 H1) as [Hm Hb]. set (t := ALIGN_UP size 8) in *.
  assert (t + 8 ≤ 2 ^ 64) as H2 by (Z.to_euclidean_division_equations; lia).
  destruct (word_align_up t) as [Hm' Hb']; [lia|done|]. Z.to_euclidean_division_equations; lia.
Qed.

(** With a block that fits. *)
Lemma kmalloc_fit s bs size fuel :
  kheap_ok s bs → 0 ≤ size → size + 8 ≤ 2 ^ 64 → Exists (fits (ALIGN_UP size 8)) bs →
  ∃ s' bs' x, kmalloc (S fuel) size s = Ok (b_addr x + HEADER_SIZE, s') ∧ kheap_ok s' bs'
    ∧ x ∈ bs' ∧ size ≤ b_size x ∧ allocated bs' ≡ₚ x :: allocated bs
    ∧ (∃ y, snd <$> list_find (fits (ALIGN_UP size 8)) bs = Some y ∧ b_addr x = b_addr y)
    ∧ (kh_pages s' = kh_pages s ∧ kheap_top s' = kheap_top s)
    ∧ ∃ l y r, bs = l ++ y :: r ∧ fits (ALIGN_UP size 8) y ∧ bs' = l ++ carve y (ALIGN_UP size 8) ++ r.
Proof.
  intros Hok H0 H1 Hex. destruct (word_align_up size H0 H1) as [Hm Hb]. cbn [kmalloc].
  rewrite (bind_ok _ _ _ _ _ (first_fit_ok s bs (ALIGN_UP size 8) Hok)).
  destruct (fits_found _ _ Hex) as (l & x & r & -> & Hx & Ey). rewrite Ey. cbn [addr_or_null from_option].
  destruct Hok as [Hh Hpa]. destruct (ha_in _ _ _ Hh x ltac:(set_solver)) as (Hx0 & Hx1 & _).
  rewrite (proj2 (Z.eqb_neq _ _)) by (unfold KERNEL_HEAP_BASE in *; lia). pose proof Hx as Hfx.
  unfold fits in Hx. apply andb_prop_elim in Hx as [Hfr Hsz]. apply Is_true_true, Z.leb_le in Hsz. apply Is_true_true in Hfr.
  destruct (take_block_ok s _ l x r (ALIGN_UP size 8) Hh ltac:(lia) Hm) as (s' & E & Hh' & Ht & Hpg).
  destruct (allocated_carve l x r (ALIGN_UP size 8) Hfr) as (Hp & Hin & Ha & Hs).
  exists s', (l ++ carve x (ALIGN_UP size 8) ++ r), (hd x (carve x (ALIGN_UP size 8))).
  split; [by rewrite Ha|]. split; [by split; rewrite Ht|]. split; [done|]. split; [specialize (Hs Hsz); lia|]. split; [done|]. split; [by exists x|].
  split; [by split|]. by exists l, x, r.
Qed.

Lemma pages_needed_pos size : 1 ≤ pages_needed size.
Proof.
  unfold pages_needed. cbv zeta. destruct (Z.eqb_spec (ALIGN_UP (u64 (size + HEADER_SIZE)) PAGE_SIZE / PAGE_SIZE) 0); [done|].
  assert (0 ≤ ALIGN_UP (u64 (size + HEADER_SIZE)) PAGE_SIZE / PAGE_SIZE); [|lia].
  apply Z.div_pos; [|done]. unfold ALIGN_UP. apply Z.land_nonneg. left. apply u64_range.
Qed.

Lemma pages_needed_enough size :
  0 ≤ size → size + HEADER_SIZE + PAGE_SIZE ≤ 2 ^ 64 → size + HEADER_SIZE ≤ pages_needed size * PAGE_SIZE.
Proof.
  intros H0 H1. pose proof (pages_needed_pos size) as Hp. unfold pages_needed in *. cbv zeta in *.
  rewrite u64_small in * by (unfold HEADER_SIZE, PAGE_SIZE in *; lia).
  destruct (page_align_up (size + HEADER_SIZE)) as [Hm Hb]; [unfold HEADER_SIZE in *; lia|done|].
  rewrite (page_div _ Hm) in Hb. case_match; lia.
Qed.

Lemma last_split {B} (bs : list B) p : last bs = Some p → bs = removelast bs ++ [p].
Proof. intros H. destruct bs as [|q l _] using rev_ind; [done|]. rewrite last_snoc in H. simplify_eq. by rewrite removelast_last. Qed.

(** A grown free tail fits the request the pages were added for. *)
Lemma grow_tail_fits bs top size d :
  0 ≤ size → Forall (λ x, 0 ≤ b_size x) bs → from_option b_free true (last bs) = true → size + HEADER_SIZE ≤ d →
  Exists (fits size) (grow_tail bs top d).
Proof.
  intros H0 Hpos Hf Hd. unfold grow_tail. destruct (last bs) as [p|] eqn:El; simpl in Hf.
  - apply Exists_app. right. apply Exists_cons. left. unfold fits. simpl. rewrite Hf. simpl.
    rewrite (last_split _ _ El), Forall_app, Forall_singleton in Hpos. destruct Hpos as [_ Hp].
    rewrite (proj2 (Z.leb_le _ _)); [done|unfold HEADER_SIZE in *; lia].
  - apply Exists_cons. left. unfold fits. simpl. rewrite (proj2 (Z.leb_le _ _)); [done|unfold HEADER_SIZE in *; lia].
Qed.

(** An allocated tail takes in what is added, and nothing more fits. *)
Lemma grow_tail_nofit bs top size d p :
  last bs = Some p → b_free p = false → ¬ Exists (fits size) bs →
  ¬ Exists (fits size) (grow_tail bs top d) ∧ last (grow_tail bs top d) = Some (Block (b_addr p) (b_size p + d) false).
Proof.
  intros El Hf Hn. unfold grow_tail. rewrite El, last_snoc, Hf. split; [|done].
  rewrite (last_split _ _ El) in Hn. rewrite Exists_app, Exists_cons, Exists_nil in *. unfold fits in *. simpl. naive_solver.
Qed.

Lemma aligned_addr a bs b x : tiles a bs b → a mod 8 = 0 → Forall aligned bs → x ∈ bs → b_addr x mod 8 = 0.
Proof.
  revert a. induction bs as [|y bs IH]; intros a; [by intros _ _ _ ?%elem_of_nil|]. simpl. intros (<- & _ & Ht) Ha.
  rewrite Forall_cons, elem_of_cons. intros [Hy Hal] [->|Hx]; [done|]. apply (IH _ Ht); [|done..].
  unfold aligned, HEADER_SIZE in *. Z.to_euclidean_division_equations; lia.
Qed.

(** With no block that fits, but a free last block and enough frames. *)
Lemma kmalloc_grow s bs size fuel :
  kheap_ok s bs → 0 ≤ size ≤ 2 ^ 48 → ¬ Exists (fits (ALIGN_UP size 8)) bs →
  let need := pages_needed (ALIGN_UP size 8) in
  from_option b_free true (last bs) = true → 4 * need ≤ Z.of_nat (kp_frames (kh_pages s)) →
  kheap_top s + need * PAGE_SIZE ≤ KERNEL_MMIO_BASE →
  ∃ s' bs' x, kmalloc (S (S fuel)) size s = Ok (b_addr x + HEADER_SIZE, s') ∧ kheap_ok s' bs'
    ∧ x ∈ bs' ∧ size ≤ b_size x ∧ allocated bs' ≡ₚ x :: allocated bs.
Proof.
  intros Hok Hs Hn need Hf Hfr Hroom.
  destruct (word_align_up size ltac:(lia) ltac:(lia)) as [Hm Hb]. set (t := ALIGN_UP size 8) in *.
  pose proof (pages_needed_pos t) as Hpos. fold need in Hpos. destruct (Z.to_nat need) as [|n] eqn:En; [lia|].
  destruct (expand_first s bs n Hok ltac:(unfold PAGE_SIZE in *; lia) ltac:(lia)) as (s1 & E1 & Hok1 & _).
  destruct (kmalloc_fit s1 _ t fuel Hok1) as (s' & bs' & x & E & Hok' & Hx & Hsz & Hp & _); [lia..| |].
  { unfold t. rewrite align_up8_idem by lia. apply grow_tail_fits; [lia| |done|].
    - rewrite Forall_forall. intros y Hy. destruct Hok as [Hh _]. apply (ha_in _ _ _ Hh y Hy).
    - rewrite <- En, Z2Nat.id by lia. apply pages_needed_enough; unfold t, HEADER_SIZE, PAGE_SIZE in *; lia. }
  exists s', bs', x. split_and!; [|done|done|lia|by rewrite allocated_grow_tail in Hp].
  cbn [kmalloc]. fold t. rewrite (bind_ok _ _ _ _ _ (first_fit_ok s bs t Hok)), (fits_none _ _ Hn). cbn [fmap option_fmap option_map addr_or_null from_option].
  fold need. rewrite En. rewrite Z.eqb_refl. by rewrite (bind_ok _ _ _ _ _ E1).
Qed.

(** C11: [kmalloc] in a well-formed heap: when a free block fits, or when the last
    block is free (or there is none yet) and there are frames and addresses for
    the pages it asks for, [kmalloc] returns the 8-byte aligned payload of a block
    of at least the requested size; the heap stays well formed, so blocks never
    overlap, and the allocated blocks are the former ones and this one. *)
Theorem kmalloc_allocates s bs size fuel :
  kheap_ok s bs → 0 ≤ size ≤ 2 ^ 48 → (2 ≤ fuel)%nat →
  let need := pages_needed (ALIGN_UP size 8) in
  Exists (fits (ALIGN_UP size 8)) bs
  ∨ from_option b_free true (last bs) = true ∧ 4 * need ≤ Z.of_nat (kp_frames (kh_pages s))
    ∧ kheap_top s + need * PAGE_SIZE ≤ KERNEL_MMIO_BASE →
  ∃ s' bs' x, kmalloc fuel size s = Ok (b_addr x + HEADER_SIZE, s') ∧ kheap_ok s' bs'
    ∧ x ∈ bs' ∧ size ≤ b_size x ∧ (b_addr x + HEADER_SIZE) mod 8 = 0 ∧ allocated bs' ≡ₚ x :: allocated bs.
Proof.
  intros Hok Hs Hfu need Hc.
  assert (∃ s' bs' x, kmalloc fuel size s = Ok (b_addr x + HEADER_SIZE, s') ∧ kheap_ok s' bs'
    ∧ x ∈ bs' ∧ size ≤ b_size x ∧ allocated bs' ≡ₚ x :: allocated bs) as (s' & bs' & x & E & Hok' & Hx & Hsz & Hp).
  2:{ exists s', bs', x. split_and!; try done. destruct Hok' as [Hh' _].
      pose proof (aligned_addr _ _ _ x (ha_tiles _ _ _ Hh') eq_refl (ha_aligned _ _ _ Hh') Hx).
      unfold HEADER_SIZE. Z.to_euclidean_division_equations; lia. }
  destruct fuel as [|[|fuel]]; [lia..|]. destruct (decide (Exists (fits (ALIGN_UP size 8)) bs)) as [Hex|Hn].
  { destruct (kmalloc_fit s bs size (S fuel) Hok) as (s' & bs' & x & E & Hk & Hx & Hz & Hp & _); [lia..|done|].
    exists s', bs', x. by split_and!. }
  destruct Hc as [Hc|(Hf & Hfr & Hroom)]; [done|].
  destruct (kmalloc_grow s bs size fuel) as (s' & bs' & x & ?); [done..|]. by exists s', bs', x.
Qed.

(** C38: the heap cannot grow past an allocated last block: [kheap_expand] gives the
    new pages to that block, nothing fits after it, and [kmalloc] calls itself until
    the physical frames are used up.  The heap has then grown by some number [k] of pages,
    all in the allocated block, each of a frame or more; the next page finds no frame at
    all, and [kmalloc] returns NULL with none left, or it finds at most three frames, too
    few for the page and its tables, and [kmalloc] faults on the unmapped header. *)
Theorem kmalloc_exhausts s bs size fuel p :
  kheap_ok s bs → 0 ≤ size → size + 8 ≤ 2 ^ 64 → last bs = Some p → b_free p = false →
  ¬ Exists (fits (ALIGN_UP size 8)) bs →
  kheap_top s + (Z.of_nat (kp_frames (kh_pages s)) + 1) * PAGE_SIZE ≤ KERNEL_MMIO_BASE →
  (kp_frames (kh_pages s) < fuel)%nat →
  ∃ k s1, kheap_expand k s = Ok (true, s1) ∧ kheap_ok s1 (grow_tail bs (kheap_top s) (Z.of_nat k * PAGE_SIZE))
    ∧ (kp_frames (kh_pages s1) + k ≤ kp_frames (kh_pages s))%nat
    ∧ ((∃ s', kmalloc fuel size s = Ok (0, s') ∧ kheap_expand 1 s1 = Ok (false, s') ∧ kp_frames (kh_pages s') = 0%nat)
       ∨ kmalloc fuel size s = Crash PageFault ∧ kheap_expand 1 s1 = Crash PageFault ∧ (kp_frames (kh_pages s1) ≤ 3)%nat).
Proof.
  revert s bs size p. induction fuel as [|fuel IH]; intros s bs size p Hok H0 H1 El Hf Hn Hroom Hfu; [lia|].
  destruct (word_align_up size H0 H1) as [Hm Hb]. cbn [kmalloc]. set (t := ALIGN_UP size 8) in *.
  rewrite (bind_ok _ _ _ _ _ (first_fit_ok s bs t Hok)), (fits_none _ _ Hn). cbn [fmap option_fmap option_map addr_or_null from_option].
  rewrite Z.eqb_refl. pose proof (pages_needed_pos t) as Hpos.
  destruct (expand_end s bs (Z.to_nat (pages_needed t)) Hok) as (k & s1 & [E Hok1 Hf1] & Hr & Hend); [by intros ->|done|].
  destruct Hend as [->|[(s' & E1 & E2 & Hz)|(E1 & E2 & Hz)]].
  - destruct (grow_tail_nofit bs (kheap_top s) t (Z.of_nat (Z.to_nat (pages_needed t)) * PAGE_SIZE) p El Hf Hn) as [Hn' El'].
    destruct (IH s1 _ t (Block (b_addr p) (b_size p + Z.of_nat (Z.to_nat (pages_needed t)) * PAGE_SIZE) false) Hok1) as (k & s2 & E2 & Hok2 & Hf2 & Hend); [lia| |exact El'|done| |done|lia|].
    + Z.to_euclidean_division_equations; lia.
    + unfold t. by rewrite align_up8_idem.
    + exists (Z.to_nat (pages_needed t) + k)%nat, s2. split; [by rewrite (kheap_expand_add _ _ _ _ E)|].
      split; [|split; [lia|by rewrite (bind_ok _ _ _ _ _ E)]].
      rewrite (grow_tail_tail _ _ _ _ _ p) in Hok2 by done. by rewrite Nat2Z.inj_add, Z.mul_add_distr_r.
  - exists k, s1. split; [done|]. split; [done|]. split; [done|]. left. exists s'. by rewrite (bind_ok _ _ _ _ _ E2).
  - exists k, s1. split; [done|]. split; [done|]. split; [done|]. right. split; [|done]. cbv [mbind M_bind]. by rewrite E2.
Qed.

(** C37: [kfree] merges the next block whatever its flag.  Freeing the first block
    while its neighbour [n] is in use makes one free block of the two, and the next
    request of their joint size is given the memory of [n], which is still
    in use. *)
Theorem kfree_frees_neighbour s x n r fuel :
  kheap_ok s (x :: n :: r) → b_free n = false → (0 < fuel)%nat →
  let size := b_size x + HEADER_SIZE + b_size n in
  ∃ s' s'', kfree (b_addr x + HEADER_SIZE) s = Ok (tt, s')
    ∧ kmalloc fuel size s' = Ok (b_addr x + HEADER_SIZE, s'')
    ∧ b_addr x ≤ b_addr n ∧ b_addr n + HEADER_SIZE + b_size n ≤ b_addr x + HEADER_SIZE + size.
Proof.
  intros [Hh Hpa] Hf Hfu size. destruct fuel as [|fuel]; [lia|].
  destruct (kfree_ok s _ [] x (n :: r) Hh) as (s' & E & Hh' & Ht & Hp). unfold freed, merge_prev in Hh'. simpl in Hh'.
  destruct (ha_in _ _ _ Hh x ltac:(set_solver)) as (Hx1 & Hx2 & Hx3 & Hx4).
  destruct (ha_in _ _ _ Hh n ltac:(set_solver)) as (Hn1 & Hn2 & Hn3 & _).
  pose proof (ha_aligned _ _ _ Hh) as Hal. rewrite !Forall_cons in Hal. destruct Hal as (Ha1 & Ha2 & _).
  pose proof (ha_tiles _ _ _ Hh) as Htl. simpl in Htl. destruct Htl as (Hx & _ & Hn & _).
  unfold KERNEL_HEAP_BASE, KERNEL_MMIO_BASE, aligned, HEADER_SIZE in *.
  assert (size + 8 ≤ 2 ^ 64) as Hsz by lia.
  assert (ALIGN_UP size 8 = size) as Es.
  { destruct (word_align_up size ltac:(lia) Hsz). assert (size mod 8 = 0) by (unfold size; Z.to_euclidean_division_equations; lia).
    Z.to_euclidean_division_equations; lia. }
  assert (fits size (merge (mark_free x) n)) as Hfit.
  { unfold fits, merge. simpl. unfold size, HEADER_SIZE. by rewrite Z.leb_refl. }
  destruct (kmalloc_fit s' (merge (mark_free x) n :: r) size fuel) as (s'' & bs' & y & E2 & _ & _ & _ & _ & (z & Ez & Ey) & _).
  - split; [by rewrite Ht|by rewrite Ht].
  - lia.
  - done.
  - rewrite Es. by left.
  - exists s', s''. split; [exact E|]. rewrite Es in Ez. cbn [list_find] in Ez. rewrite decide_True in Ez by done.
    cbn in Ez. injection Ez as <-. cbn [merge mark_free b_addr] in Ey. rewrite Ey in E2. split; [exact E2|]. lia.
Qed.
End kheap.

(** * The kernel's page table as the heap's supplier of pages *)

Section pages.
  Context {A : Type} `{FA : FrameAlloc A}.
  Context (HHDM_OFFSET : Z).
  Implicit Types s : pg_st A.

(** [vmm_map_page(kernel_pml4, va, pa, flags)] *)
Definition map_kernel_page (va pa flags : Z) : M (pg_st A) unit :=
  root ← gets kernel_pml4; vmm_map_page HHDM_OFFSET root va pa flags.

(** Whether the hardware finds a page at [va]. *)
Definition kernel_mapped s (va : Z) : bool :=
  bool_decide (is_Some (translate HHDM_OFFSET (pg_mem s) (kernel_pml4 s) va)).

Definition frames_left s : nat := size (fa_free_set (pg_alloc s)).

Lemma kernel_mapped_ext s s' a :
  kernel_pml4 s' = kernel_pml4 s →
  translate HHDM_OFFSET (pg_mem s') (kernel_pml4 s) a = translate HHDM_OFFSET (pg_mem s) (kernel_pml4 s) a →
  kernel_mapped s' a = kernel_mapped s a.
Proof. unfold kernel_mapped. by intros -> ->. Qed.

Lemma alloc_page_spec s :
  pt_wf HHDM_OFFSET s (kernel_pml4 s) →
  wp (on_alloc fa_alloc) s (λ pa s', pt_wf HHDM_OFFSET s' (kernel_pml4 s') ∧ (∀ a, kernel_mapped s' a = kernel_mapped s a) ∧
    ((pa = 0 ∧ frames_left s = 0%nat ∧ frames_left s' = 0%nat)
     ∨ (∃ k, 0 < k < 2 ^ 40 ∧ pa = k * PAGE_SIZE ∧ frames_left s = S (frames_left s')))).
Proof.
  intros Hwf. pose proof (wf_alloc _ _ _ Hwf) as Hok. unfold on_alloc. apply wp_zoom.
  eapply wp_mono; [by apply fa_alloc_spec|]. cbn beta. intros pa a (Hok' & Hfr & Hc).
  assert (fa_free_set a ⊆ fa_free_set (pg_alloc s)) as Hsub by (destruct Hc as [(_ & _ & ->)|(k & _ & _ & ->)]; set_solver).
  split; [by apply pt_wf_alloc|]. split; [done|]. unfold frames_left. cbn [set_pg_alloc pg_alloc].
  destruct Hc as [(-> & H1 & H2)|(k & Hk & -> & H2)].
  - left. rewrite H1, H2. done.
  - right. exists k. pose proof (fa_range _ _ Hok Hk). pose proof (fa_width _ Hok). split; [lia|]. split; [done|].
    rewrite H2, size_difference, size_singleton by set_solver.
    assert (size (fa_free_set (pg_alloc s)) ≠ 0%nat); [|lia]. apply size_non_empty_iff. set_solver.
Qed.

Lemma map_page_spec s va k flags :
  pt_wf HHDM_OFFSET s (kernel_pml4 s) → 0 < k < 2 ^ 40 → 0 ≤ flags < PAGE_SIZE → pte_present flags = true →
  wp (map_kernel_page va (k * PAGE_SIZE) flags) s (λ _ s', pt_wf HHDM_OFFSET s' (kernel_pml4 s')
    ∧ (frames_left s' ≤ frames_left s ≤ frames_left s' + 3)%nat
    ∧ ((∀ a, kernel_mapped s' a = if decide (vpn a = vpn va) then true else kernel_mapped s a)
       ∨ (frames_left s < 3)%nat ∧ frames_left s' = 0%nat ∧ ∀ a, kernel_mapped s' a = kernel_mapped s a)).
Proof.
  intros Hwf Hk Hf Hp. unfold map_kernel_page. apply wp_bind, wp_gets.
  eapply wp_mono; [by apply vmm_map_page_wp|]. cbn beta. intros _ s' (Hwf' & [Hr _] & _ & Hsub & Hc & Ht).
  rewrite Hr. split; [done|]. unfold frames_left. apply subseteq_size in Hsub. split; [lia|].
  destruct Ht as [[Ht Ho]|(He & Hlt & Ho)].
  - left. intros a. case_decide as Hv.
    + unfold kernel_mapped. rewrite Hr, (translate_vpn _ _ _ va a Hv), Ht. done.
    + apply kernel_mapped_ext; [done|]. apply Ho. rewrite same_page_vpn. congruence.
  - right. split; [lia|]. split; [by rewrite He, size_empty|]. intros a. by apply kernel_mapped_ext.
Qed.

(** The kernel's address space and its frame allocator supply the heap. *)
Program Definition kernel_pages : KernelPages (pg_st A) := {|
  kp_alloc_page := on_alloc fa_alloc;
  kp_map := map_kernel_page;
  kp_mapped := kernel_mapped;
  kp_ok s := pt_wf HHDM_OFFSET s (kernel_pml4 s);
  kp_frames := frames_left
|}.
Next Obligation. intros s a b Hab. unfold kernel_mapped. by rewrite (translate_vpn _ _ _ b a Hab). Qed.
Next Obligation. intros e s Hwf. apply (ext_wf _ _ _ _ _ _ (extends_emit _ _ [] e s Hwf)). Qed.
Next Obligation. done. Qed.
Next Obligation. intros e s. unfold frames_left. f_equal. exact (fa_trace_set e (pg_alloc s)). Qed.
Next Obligation. apply alloc_page_spec. Qed.
Next Obligation. apply map_page_spec. Qed.
End pages.

(** * Witnesses: a heap on the page tables of a machine with 62 free frames *)

Section example.
Let H := KERNEL_HHDM_BASE.
#[local] Instance heap_pages : KernelPages (pg_st pmm_st) := kernel_pages H.

(** Frame 4 holds an empty PML4; the page of [&kheap_list] is then mapped. *)
Definition bare_example : pg_st pmm_st :=
  PgSt (PmmSt [0x11; 0; 0; 0; 0; 0; 0; 0] 0 8 64 62 0 []) (list_to_map (map (λ i, (slot (kva H 4) i, 0)) (seqZ 0 512))) (kva H 4) 0.
Definition list_example : Z := 0xFFFFFFFF80010040.
Definition image_example : pg_st pmm_st :=
  match map_kernel_page H list_example (5 * PAGE_SIZE) 3 bare_example with Ok (_, s) => s | Crash _ => bare_example end.

Definition run_heap {A} (m : M (kheap_st (pg_st pmm_st)) A) (s : kheap_st (pg_st pmm_st)) : kheap_st (pg_st pmm_st) :=
  match m s with Ok (_, s') => s' | Crash _ => s end.

(** After [list_init(&kheap_list)] and [kheap_top = KERNEL_HEAP_BASE]; then one block
    of a whole page in use; then two blocks in use. *)
Definition heap_empty : kheap_st (pg_st pmm_st) :=
  KheapSt image_example (Links {[list_example := list_example]} {[list_example := list_example]}) ∅ ∅ KERNEL_HEAP_BASE.
Definition heap_full : kheap_st (pg_st pmm_st) := run_heap (kmalloc list_example 2 4064) heap_empty.
Definition heap_two : kheap_st (pg_st pmm_st) := run_heap (kmalloc list_example 2 40) (run_heap (kmalloc list_example 2 24) heap_empty).

Lemma image_ok : pt_wf H image_example (kernel_pml4 image_example).
Proof.
  assert (pt_wf H bare_example (kernel_pml4 bare_example)) as Hwf.
  { apply (fresh_root_wf H bare_example 4); [by apply pmm_okb_sound; vm_compute|by vm_compute| |].
    - exact (conj (conj eq_refl eq_refl) (bool_decide_unpack (4 ∉ free_set (pg_alloc bare_example)) I)).
    - intros i Hi. apply elem_of_list_to_map_1.
      + rewrite <- list_fmap_compose. apply NoDup_fmap_2_strong; [|apply NoDup_seqZ].
        intros x y Hx Hy. apply elem_of_seqZ in Hx, Hy. simpl. intros E.
        by apply (slot_inj H pmm_example) in E as [_ E]; [|by vm_compute|by vm_compute|by vm_compute|unfold vidx; lia..].
      + apply list_elem_of_fmap. exists i. split; [done|]. apply elem_of_seqZ. unfold vidx in Hi. lia. }
  destruct (wp_inv _ _ _ (map_page_spec H bare_example list_example 5 3 Hwf ltac:(lia) ltac:(unfold PAGE_SIZE; lia) eq_refl))
    as ([] & s' & E & Hw & _).
  assert (image_example = s') as -> by (unfold image_example; by rewrite E). done.
Qed.

Lemma heap_empty_ok : kheap_ok list_example heap_empty [].
Proof.
  split; [|by vm_compute]. constructor.
  - exact image_ok.
  - split; [by vm_compute|]. split; [by vm_compute|]. vm_compute. intros [_ Hc]. discriminate Hc.
  - split; [apply NoDup_singleton|]. by split; vm_compute.
  - by vm_compute.
  - done.
  - done.
  - intros a Ha. exfalso. revert Ha. change (kheap_top heap_empty) with KERNEL_HEAP_BASE. lia.
  - by vm_compute.
Qed.

Lemma kmalloc_allocates_witness :
  ∃ s', kmalloc list_example 2 24 heap_empty = Ok (KERNEL_HEAP_BASE + 32, s') ∧ s' = run_heap (kmalloc list_example 2 24) heap_empty
    ∧ ∃ bs x, kheap_ok list_example s' bs ∧ allocated bs ≡ₚ [x].
Proof.
  destruct (kmalloc_allocates list_example heap_empty [] 24 2 heap_empty_ok ltac:(lia) ltac:(lia)) as (s' & bs & x & E & Hok & _ & _ & _ & Hp).
  { right. split; [done|]. by split; vm_compute. }
  assert (run_heap (kmalloc list_example 2 24) heap_empty = s') as Es by (unfold run_heap; by rewrite E).
  exists s'. split; [|split; [exact (eq_sym Es)|exists bs, x; split; [exact Hok|exact Hp]]]. rewrite E. f_equal. f_equal.
  assert (match kmalloc list_example 2 24 heap_empty with Ok (p, _) => p | Crash _ => 0 end = KERNEL_HEAP_BASE + 32) as Hv by by vm_compute.
  rewrite E in Hv. exact Hv.
Defined.

(** The blocks of a concrete heap state, read off its fields. *)
Lemma heap_view s bs bs' :
  kheap_ok list_example s bs' → ring (kh_links s) list_example (b_addr <$> bs) →
  tiles KERNEL_HEAP_BASE bs (kheap_top s) → Forall (stored s) bs → Forall aligned bs → kheap_ok list_example s bs.
Proof. intros [Hh Hpa] Hr Ht Hst Hal. split; [|done]. destruct Hh. by constructor. Qed.

Lemma first_alloc_ok (st : kheap_st (pg_st pmm_st)) size :
  kheap_ok list_example st [] → 0 ≤ size ≤ 4000 + 64 → pages_needed (ALIGN_UP size 8) = 1 → (4 ≤ frames_left (kh_pages st))%nat →
  kheap_top st + PAGE_SIZE ≤ KERNEL_MMIO_BASE → ∃ bs, kheap_ok list_example (run_heap (kmalloc list_example 2 size) st) bs.
Proof.
  intros Hok Hs Hp Hf Ht. destruct (kmalloc_grow list_example st [] size 0 Hok) as (s' & bs & x & E & Hok' & _); [lia| |done|..].
  - rewrite Exists_nil. tauto.
  - rewrite Hp. simpl. lia.
  - rewrite Hp. lia.
  - exists bs. unfold run_heap. by rewrite E.
Qed.

Lemma second_alloc_ok (st : kheap_st (pg_st pmm_st)) bs size :
  kheap_ok list_example st bs → 0 ≤ size ≤ 4096 → Exists (fits (ALIGN_UP size 8)) bs →
  ∃ bs', kheap_ok list_example (run_heap (kmalloc list_example 2 size) st) bs'.
Proof.
  intros Hok Hs He. destruct (kmalloc_fit list_example st bs size 1 Hok) as (s' & bs' & x & E & Hok' & _); [lia..|done|].
  exists bs'. unfold run_heap. by rewrite E.
Qed.

Lemma heap_full_ok : kheap_ok list_example heap_full [Block KERNEL_HEAP_BASE 4064 false].
Proof.
  destruct (first_alloc_ok heap_empty 4064 heap_empty_ok) as [bs Hok];
    [lia|done|apply (bool_decide_unpack _); by vm_compute|by vm_compute|]. apply (heap_view _ _ _ Hok); clear Hok.
  - split; [|by split_and!; vm_compute]. apply (bool_decide_unpack (NoDup _)). by vm_compute.
  - split; [done|]. split; [done|]. by vm_compute.
  - apply Forall_singleton. by split; vm_compute.
  - by apply Forall_singleton.
Qed.

(** The last block is in use, so a request of 8 bytes uses up the 55 frames left. *)
Lemma kmalloc_exhausts_witness :
  frames_left (kh_pages heap_full) = 55%nat ∧
  ((∃ s', kmalloc list_example 56 8 heap_full = Ok (0, s') ∧ kp_frames (kh_pages s') = 0%nat)
   ∨ kmalloc list_example 56 8 heap_full = Crash PageFault).
Proof.
  split; [by vm_compute|].
  pose proof (kmalloc_exhausts list_example heap_full [Block KERNEL_HEAP_BASE 4064 false] 8 56 (Block KERNEL_HEAP_BASE 4064 false) heap_full_ok) as Hx.
  destruct Hx as (k & s1 & _ & _ & _ & Hend).
  - lia.
  - lia.
  - reflexivity.
  - reflexivity.
  - rewrite Exists_cons, Exists_nil. unfold fits. simpl. tauto.
  - by vm_compute.
  - apply (bool_decide_unpack _). by vm_compute.
  - destruct Hend as [(s' & E & _ & Hz)|(E & _)].
    + left. exists s'. exact (conj E Hz).
    + right. exact E.
Defined.

Definition blocks_two : list block :=
  [Block KERNEL_HEAP_BASE 24 false; Block (KERNEL_HEAP_BASE + 56) 40 false; Block (KERNEL_HEAP_BASE + 128) 3936 true].

Lemma heap_two_ok : kheap_ok list_example heap_two blocks_two.
Proof.
  destruct (first_alloc_ok heap_empty 24 heap_empty_ok) as [bs Hok];
    [lia|done|apply (bool_decide_unpack _); by vm_compute|by vm_compute|].
  assert (kheap_ok list_example (run_heap (kmalloc list_example 2 24) heap_empty)
    [Block KERNEL_HEAP_BASE 24 false; Block (KERNEL_HEAP_BASE + 56) 4008 true]) as Hok1.
  { apply (heap_view _ _ _ Hok); clear Hok.
    - split; [|by split_and!; vm_compute]. apply (bool_decide_unpack (NoDup _)). by vm_compute.
    - by split_and!; vm_compute.
    - rewrite !Forall_cons, Forall_nil. by split_and!; vm_compute.
    - by rewrite !Forall_cons, Forall_nil. }
  destruct (second_alloc_ok _ _ 40 Hok1) as [bs2 Hok2]; [lia|right; left; done|].
  apply (heap_view _ _ _ Hok2); clear.
  - split; [|by split_and!; vm_compute]. apply (bool_decide_unpack (NoDup _)). by vm_compute.
  - by split_and!; vm_compute.
  - unfold blocks_two. rewrite !Forall_cons, Forall_nil. by split_and!; vm_compute.
  - unfold blocks_two. by rewrite !Forall_cons, Forall_nil.
Qed.

(** [a = kmalloc(24); b = kmalloc(40); kfree(a); c = kmalloc(96);] and [c] contains
    the live [b]. *)
Lemma kfree_frees_neighbour_witness :
  ∃ s' s'', kfree list_example (KERNEL_HEAP_BASE + 32) heap_two = Ok (tt, s')
    ∧ kmalloc list_example 1 96 s' = Ok (KERNEL_HEAP_BASE + 32, s'').
Proof.
  destruct (kfree_frees_neighbour list_example heap_two _ _ _ 1 heap_two_ok eq_refl Nat.lt_0_1) as (s' & s'' & E1 & E2 & _).
  exists s', s''. split; [exact E1|exact E2].
Defined.
End example.
