(* ===== verification/Fsheap.v ===== *)
(** Fsheap: the RAM file system on the kernel heap: [ramfs_init] over any heap, and the
    heap of [Kheap] as the one [Ramfs] relies on ([Kmalloc]). *)
From S2P Require Import Prelude Layout CString Kheap Ramfs.

(** * [ramfs_init] *)

Section init.
  Context {A : Type} `{!Kmalloc A}.

(** A page with a text in it. *)
Definition text_page (text junk : list Z) : list Z := text ++ 0 :: drop (S (length text)) junk.

Lemma update_file_at i f (s : ramfs_st A) nd : zlookup (files s) i = Some nd → update_file i f s = Ok (tt, set_files (zinsert i (f nd) (files s)) s).
Proof. intros H. unfold update_file. rewrite (bind_ok _ _ _ _ _ (get_file_ok _ _ _ H)). by rewrite (put_file_ok _ _ nd). Qed.

Lemma init_text_ok i text junk (s : ramfs_st A) a h nd :
  chars_ok text → (length text < length junk)%nat → zlen text < 2 ^ 64 → zlookup (files s) i = Some nd →
  Ramfs.kmalloc PAGE_SIZE (heap s) = Ok (a, h) → a ≠ 0 →
  init_text i (text ++ [0]) junk s = Ok (tt, RamfsSt (zinsert i (with_size (zlen text) (with_content a nd)) (files s)) (global_file_table s)
    (<[a := text_page text junk]> (contents s)) (current_proc s) h (rf_trace s)).
Proof.
  intros Hc Hl Hz Hnd Hk Ha. pose proof (cstring_lit text Hc) as Hcs. pose proof (zlookup_Some _ _ _ Hnd) as Hr. unfold init_text.
  set (s1 := set_contents (<[a := junk]> (contents s)) (set_heap h s)).
  rewrite (bind_ok _ _ s a s1). 2:{ unfold kmalloc_object, zoom. cbv [mbind M_bind]. rewrite Hk. by rewrite (proj2 (Z.eqb_neq a 0) Ha). }
  rewrite (bind_ok _ _ _ _ _ (update_file_at i _ s1 nd Hnd)). set (s2 := set_files _ s1).
  assert (contents s2 !! a = Some junk) as Hj by apply lookup_insert_eq. rewrite (bind_ok _ _ _ _ _ (get_content_ok _ _ _ Hj)).
  pose proof (strcpy_spec junk _ _ Hcs) as E. rewrite decide_True in E by done.
  rewrite (lift_ok _ _ _ _ E), (bind_ok _ _ _ _ _ (put_content_ok _ _ _ _ Hj)), (lift_ok _ _ _ _ (strlen_spec _ _ Hcs Hz)).
  rewrite (update_file_at _ _ _ (with_content a nd)) by by apply zlookup_zinsert_eq. unfold s2, s1. simpl.
  by rewrite zinsert_zinsert, insert_insert_eq.
Qed.

(** The tree with [init] at [init_addr] and the pages of the two texts. *)
Definition first_tree (init_addr init_size a1 a2 : Z) : list ramfs_node :=
  let node name type parent i := RamfsNode (lit name ++ replicate (31 - String.length name) 0) 0 0 true type parent i in
  [RamfsNode (replicate 32 0) 0 0 true RAMFS_TYPE_DIR (-1) 0;
   with_size init_size (with_content init_addr (node "init" RAMFS_TYPE_FILE 0 1));
   node "usr" RAMFS_TYPE_DIR 0 2; node "bin" RAMFS_TYPE_DIR 2 3; node "lib" RAMFS_TYPE_DIR 2 4;
   with_size (zlen shell_code - 1) (with_content a1 (node "shell.c" RAMFS_TYPE_FILE 2 5));
   with_size (zlen main_code - 1) (with_content a2 (node "usrmain.c" RAMFS_TYPE_FILE 2 6))] ++ replicate (Z.to_nat MAX_FILES - 7) node_zero.

Lemma first_tree_ok init_addr init_size a1 a2 : fs_ok (first_tree init_addr init_size a1 a2) 7.
Proof. apply fs_okb_sound. by vm_compute. Qed.

(** One step of [ramfs_init] on tables that are known. *)
Ltac init_step :=
  match goal with |- mbind ?k ?m ?s = _ =>
    let r := eval vm_compute in (m s) in
    match r with Ok (?a, ?s') => rewrite (bind_ok m k s a s' ltac:(vm_compute; reflexivity)); cbn beta end
  end.

(** With two pages of the heap, [ramfs_init] makes the tree whatever was there before. *)
Lemma ramfs_init_ok init_addr init_size junk (s : ramfs_st A) a1 h1 a2 h2 :
  length junk = 4096%nat → Ramfs.kmalloc PAGE_SIZE (heap s) = Ok (a1, h1) → a1 ≠ 0 → Ramfs.kmalloc PAGE_SIZE h1 = Ok (a2, h2) → a2 ≠ 0 →
  ramfs_init init_addr init_size junk s = Ok (tt, push_event (EvPrint "[RamFS] Initialized. Structure: /usr created." [])
    (RamfsSt (first_tree init_addr init_size a1 a2) (replicate (Z.to_nat MAX_SYSTEM_OPEN_FILES) file_zero)
      (<[a2 := text_page (removelast main_code) junk]> (<[a1 := text_page (removelast shell_code) junk]> (contents s))) (current_proc s) h2 (rf_trace s))).
Proof.
  intros Hj H1 Ha1 H2 Ha2. destruct s as [f g c p h t]. cbn [heap] in H1. unfold ramfs_init.
  do 10 init_step.
  match goal with |- mbind _ _ ?s0 = _ => set (s := s0) end.
  pose proof (init_text_ok 5 (removelast shell_code) junk s a1 h1 (RamfsNode (lit "shell.c" ++ replicate 24 0) 0 0 true RAMFS_TYPE_FILE 2 5)
    ltac:(apply (bool_decide_unpack _); by vm_compute) ltac:(rewrite Hj; apply Nat.ltb_lt; by vm_compute) ltac:(by vm_compute) ltac:(by vm_compute) H1 Ha1) as E1.
  change (removelast shell_code ++ [0]) with shell_code in E1. rewrite (bind_ok _ _ _ _ _ E1). clear E1.
  match goal with |- mbind _ _ (RamfsSt ?fs _ _ _ _ _) = _ => let fs' := eval vm_compute in fs in replace fs with fs' by (vm_compute; reflexivity) end.
  unfold s. cbn [global_file_table contents current_proc rf_trace]. clear s. init_step.
  match goal with |- mbind _ _ ?s0 = _ => set (s := s0) end.
  pose proof (init_text_ok 6 (removelast main_code) junk s a2 h2 (RamfsNode (lit "usrmain.c" ++ replicate 22 0) 0 0 true RAMFS_TYPE_FILE 2 6)
    ltac:(apply (bool_decide_unpack _); by vm_compute) ltac:(rewrite Hj; apply Nat.ltb_lt; by vm_compute) ltac:(by vm_compute) ltac:(by vm_compute) H2 Ha2) as E2.
  change (removelast main_code ++ [0]) with main_code in E2. rewrite (bind_ok _ _ _ _ _ E2). clear E2. unfold s. cbn [global_file_table contents current_proc rf_trace]. clear s.
  match goal with |- _ (RamfsSt ?fs _ _ _ _ _) = _ => replace fs with (first_tree init_addr init_size a1 a2) by (vm_compute; reflexivity) end.
  reflexivity.
Qed.
End init.

(** * The kernel heap implements the interface *)

Section kheap_kmalloc.
  Context {A : Type} `{!KernelPages A}.
  Context (kheap_list : Z).
  Implicit Types s : kheap_st A.

(** There are addresses for every frame that is left. *)
Definition heap_room s : Prop := kheap_top s + (Z.of_nat (kp_frames (kh_pages s)) + 1) * PAGE_SIZE ≤ KERNEL_MMIO_BASE.

(** [a] is the payload of a block that is in use. *)
Definition in_use (bs : list block) (a : Z) : Prop := ∃ x, x ∈ allocated bs ∧ a = b_addr x + HEADER_SIZE.

Definition heap_objects (L : gset Z) s : Prop := ∃ bs, kheap_ok kheap_list s bs ∧ bs ≠ [] ∧ heap_room s ∧ ∀ a, a ∈ L → in_use bs a.

Lemma in_use_grow_tail bs top d a : bs ≠ [] → in_use bs a → in_use (grow_tail bs top d) a.
Proof.
  unfold in_use, grow_tail, allocated. intros Hne (x & Hx & ->). destruct bs as [|p l _] using rev_ind; [done|]. rewrite last_snoc, removelast_last.
  rewrite filter_app, elem_of_app in Hx. destruct Hx as [Hx|Hx].
  - exists x. split; [|done]. rewrite filter_app, elem_of_app. by left.
  - apply list_elem_of_filter in Hx as [Hf ->%list_elem_of_singleton]. exists (Block (b_addr p) (b_size p + d) (b_free p)).
    split; [|done]. rewrite filter_app, elem_of_app. right. apply list_elem_of_filter. split; [exact Hf|by left].
Qed.

Lemma grow_tail_ne bs top d : grow_tail bs top d ≠ [].
Proof. unfold grow_tail. destruct (last bs); [by destruct (removelast bs)|done]. Qed.

(** A block in use and one that is handed out do not have the same payload. *)
Lemma fresh_payload bs bs' x s' :
  kheap_ok kheap_list s' bs' → x ∈ bs' → allocated bs' ≡ₚ x :: allocated bs → ¬ in_use bs (b_addr x + HEADER_SIZE).
Proof.
  intros [Hh _] Hx Hp (y & Hy & E). assert (b_addr y = b_addr x) as Exy by lia.
  assert (NoDup (b_addr <$> allocated bs')) as Hnd.
  { destruct (ha_ring _ _ _ _ Hh) as [[_ Hnd]%NoDup_cons _]. unfold allocated. clear - Hnd. induction bs' as [|z l IH]; [constructor|].
    cbn in Hnd. apply NoDup_cons in Hnd as [Hz Hnd]. rewrite filter_cons. case_decide; [|by apply IH]. cbn. apply NoDup_cons. split; [|by apply IH].
    intros (w & Ew & Hw%list_elem_of_filter)%list_elem_of_fmap. apply Hz. rewrite Ew. apply list_elem_of_fmap_2, Hw. }
  rewrite Hp in Hnd. cbn in Hnd. apply NoDup_cons in Hnd as [Hn _]. apply Hn. rewrite <- Exy. by apply list_elem_of_fmap_2.
Qed.

Lemma kmalloc_law fuel : ∀ n L s a s',
  heap_objects L s → 0 ≤ n → n + 8 ≤ 2 ^ 64 → Kheap.kmalloc kheap_list fuel n s = Ok (a, s') →
  (a = 0 ∧ heap_objects L s') ∨ (0 < a ∧ (a ∉ L) ∧ heap_objects ({[a]} ∪ L) s').
Proof.
  induction fuel as [|fuel IH]; intros n L s a s' (bs & Hok & Hne & Hroom & HL) H0 H1 E; [done|].
  destruct (word_align_up n H0 H1) as [Hm Hb]. destruct (decide (Exists (fits (ALIGN_UP n 8)) bs)) as [Hfit|Hfit].
  - destruct (kmalloc_fit kheap_list s bs n fuel Hok H0 H1 Hfit) as (s1 & bs' & x & E1 & Hok' & Hx & _ & Hp & _ & [Hpg Htop] & l & y & r & Ebs & _ & Ebs').
    rewrite E1 in E. injection E as <- <-. right. pose proof (fresh_payload bs bs' x s1 Hok' Hx Hp) as Hfresh.
    destruct (ha_in _ _ _ _ (proj1 Hok') x Hx) as (Hx0 & _). split; [unfold KERNEL_HEAP_BASE, HEADER_SIZE in *; lia|].
    split; [intros Ha; by apply Hfresh, HL|]. exists bs'. split; [done|]. split; [by intros ->; apply elem_of_nil in Hx|]. split; [unfold heap_room; by rewrite Htop, Hpg|].
    intros b Hb'. apply elem_of_union in Hb' as [->%elem_of_singleton|Hb'].
    + exists x. split; [rewrite Hp; by left|done].
    + destruct (HL b Hb') as (z & Hz & ->). exists z. split; [rewrite Hp; by right|done].
  - cbn [Kheap.kmalloc] in E. set (t := ALIGN_UP n 8) in *.
    rewrite (bind_ok _ _ _ _ _ (first_fit_ok kheap_list s bs t Hok)), (fits_none _ _ Hfit) in E. cbn [fmap option_fmap option_map addr_or_null from_option] in E.
    rewrite Z.eqb_refl in E. pose proof (pages_needed_pos t) as Hpos.
    destruct (expand_outcome kheap_list s bs (Z.to_nat (pages_needed t)) Hok Hne Hroom) as [Ec|(ok & s1 & d & E1 & Hok1 & Hr1 & _)].
    { cbv [mbind M_bind] in E. by rewrite Ec in E. }
    rewrite (bind_ok _ _ _ _ _ E1) in E.
    assert (heap_objects L s1) as Ho1.
    { exists (grow_tail bs (kheap_top s) d). split; [done|]. split; [apply grow_tail_ne|]. split; [done|]. intros b Hb'. by apply in_use_grow_tail, HL. }
    destruct ok; [|injection E as <- <-; by left].
    apply (IH t L s1 a s' Ho1); [lia| |done]. Z.to_euclidean_division_equations; lia.
Qed.

(** The fuel is that of the kernel: one call for each frame, and two. *)
#[local] Program Instance kheap_kmalloc : Ramfs.Kmalloc (kheap_st A) := {|
  Ramfs.kmalloc n := fuel ← gets (λ h, S (S (kp_frames (kh_pages h)))); Kheap.kmalloc kheap_list fuel n;
  km_ok := heap_objects
|}.
Next Obligation. intros n L s a s' HL Hn E. apply (kmalloc_law _ n L s a s' HL ltac:(lia) ltac:(lia) E). Qed.
End kheap_kmalloc.
