(* ===== verification/Debugmm.v ===== *)
(** Debugmm: the memory map on the console ([kernel/src/mm/debug_mm.c]). *)
From S2P Require Import Prelude Layout Pmm CString.

Definition LIMINE_MEMMAP_RESERVED : Z := 1.
Definition LIMINE_MEMMAP_ACPI_RECLAIMABLE : Z := 2.
Definition LIMINE_MEMMAP_ACPI_NVS : Z := 3.
Definition LIMINE_MEMMAP_BAD_MEMORY : Z := 4.
Definition LIMINE_MEMMAP_ACPI_TABLES : Z := 8.

Definition memtype2str (type : Z) : string :=
  if type =? LIMINE_MEMMAP_USABLE then "USABLE"
  else if type =? LIMINE_MEMMAP_RESERVED then "RESERVED"
  else if type =? LIMINE_MEMMAP_ACPI_RECLAIMABLE then "ACPI_RECLAIMABLE"
  else if type =? LIMINE_MEMMAP_ACPI_NVS then "ACPI_NVS"
  else if type =? LIMINE_MEMMAP_BAD_MEMORY then "BAD_MEMORY"
  else if type =? LIMINE_MEMMAP_BOOTLOADER_RECLAIMABLE then "BOOTLOADER_RECLAIMABLE"
  else if type =? LIMINE_MEMMAP_EXECUTABLE_AND_MODULES then "EXECUTABLE_AND_MODULES"
  else if type =? LIMINE_MEMMAP_FRAMEBUFFER then "MEMMAP_FRAMEBUFFER"
  else if type =? LIMINE_MEMMAP_ACPI_TABLES then "ACPI_TABLES"
  else "UNKNOWN".

Section debug.
  Context {St : Type} `{!Traced St}.
  (** What the local buffers of 64 bytes hold. *)
  Context (junk : list Z).

Definition kprint (s : string) : M St unit := emit (EvPrint s []).
Definition kprint_buf (buf : list Z) : M St unit := emit (EvPrint "%s" [KStr buf]).
Definition kprint_uint64 (val : Z) : M St unit := emit (EvPrint "%lu" [KInt val]).
Definition kprint_itoa (val base : Z) : M St unit := buf ← lift_res (itoa_uint64 val junk base); kprint_buf buf.

(** [totalmm], [usablemm] and [unusablemm]. *)
Record mem_totals := MemTotals { totalmm : Z; usablemm : Z; unusablemm : Z }.
Definition count_entry (t : mem_totals) (e : memmap_entry) : mem_totals :=
  let total := u64 (totalmm t + length_ e) in
  if type_ e =? LIMINE_MEMMAP_USABLE then MemTotals total (u64 (usablemm t + length_ e)) (unusablemm t)
  else MemTotals total (usablemm t) (u64 (unusablemm t + length_ e)).

Definition print_entry (i : Z) (e : memmap_entry) : M St unit :=
  kprint "Entry ";; kprint_uint64 i;; kprint ":";;
  kprint " base address at: ";; kprint_itoa (base e) 16;;
  kprint " size=";; kprint_itoa (length_ e) 10;;
  kprint " bytes";; kprint " type=";; kprintln (memtype2str (type_ e)).

Fixpoint debug_entries (i : Z) (mmap : list memmap_entry) (t : mem_totals) : M St mem_totals :=
  match mmap with
  | [] => mret t
  | e :: mmap' => print_entry i e;; debug_entries (u64 (i + 1)) mmap' (count_entry t e)
  end.

Definition print_total (what : string) (val : Z) : M St unit := kprint what;; kprint_itoa val 10;; kprintln " bytes".

(** [None] is a NULL response. *)
Definition debug_memmap (mmap : option (list memmap_entry)) : M St unit :=
  kprintln "start debug memmap ... ";;
  match mmap with
  | None => kprintln "Memmap request failed!"
  | Some entries =>
    kprintln "=== LIMINE MEMORY MAP ===";;
    t ← debug_entries 0 entries (MemTotals 0 0 0);
    print_total "total memory: " (totalmm t);;
    print_total "usable memory: " (usablemm t);;
    print_total "unusable memory: " (unusablemm t);;
    kprintln "=== DEBUG MEMORY MAP FINISHED! ==="
  end.

(** * Only the console changes *)

Definition printed (s s' : St) : Prop := ∃ es, s' = foldr push_event s es.

Lemma printed_refl s : printed s s.
Proof. by exists []. Qed.

Lemma printed_push e s s' : printed s s' → printed s (push_event e s').
Proof. intros [es ->]. by exists (e :: es). Qed.

Lemma printed_inv (P : St → Prop) s s' : (∀ e x, P x → P (push_event e x)) → P s → printed s s' → P s'.
Proof. intros He Hs [es ->]. induction es as [|e es IH]; [done|]. by apply He. Qed.

(** The number in decimal, on a line of its own. *)
Definition total_line (what : string) (val : Z) (evs : list event) : Prop :=
  ∃ buf s, evs = [EvPrint " bytes" []; EvPrint "%s" [KStr buf]; EvPrint what []]
    ∧ cstring buf s ∧ Forall (is_digit 10) s ∧ parse 10 s = val.

Definition sum_lengths (l : list memmap_entry) : Z := foldr (λ e n, length_ e + n) 0 l.
Definition is_usable (e : memmap_entry) : Prop := type_ e = LIMINE_MEMMAP_USABLE.
#[local] Instance is_usable_dec e : Decision (is_usable e) := Z.eq_dec _ _.

Lemma totals_range l : ∀ t,
  0 ≤ totalmm t < 2 ^ 64 → 0 ≤ usablemm t < 2 ^ 64 → 0 ≤ unusablemm t < 2 ^ 64 → let r := foldl count_entry t l in
  0 ≤ totalmm r < 2 ^ 64 ∧ 0 ≤ usablemm r < 2 ^ 64 ∧ 0 ≤ unusablemm r < 2 ^ 64.
Proof.
  induction l as [|e l IH]; intros t H1 H2 H3; [done|]. cbn [foldl]. apply IH; unfold count_entry; case_match; try done; apply u64_range.
Qed.

(** The wrapped sums of the loop are the sums, wrapped. *)
Lemma count_entries l : ∀ t,
  let r := foldl count_entry t l in
  u64 (totalmm r) = u64 (totalmm t + sum_lengths l)
  ∧ u64 (usablemm r) = u64 (usablemm t + sum_lengths (filter is_usable l))
  ∧ u64 (unusablemm r) = u64 (unusablemm t + sum_lengths (filter (λ e, ¬ is_usable e) l)).
Proof.
  induction l as [|e l IH]; intros t; [cbn; by rewrite !Z.add_0_r|]. cbn [foldl]. specialize (IH (count_entry t e)). cbv zeta in *.
  destruct IH as (-> & -> & ->). unfold count_entry.
  assert (∀ a b c, u64 (u64 (a + b) + c) = u64 (a + (b + c))) as Hu by (intros; unfold u64; rewrite Zplus_mod_idemp_l; f_equal; lia).
  destruct (Z.eqb_spec (type_ e) LIMINE_MEMMAP_USABLE) as [Hy|Hn]; cbn [totalmm usablemm unusablemm].
  - rewrite (filter_cons_True is_usable) by done. rewrite (filter_cons_False (λ e, ¬ is_usable e)) by (intros H; by apply H).
    unfold sum_lengths in *. cbn [foldr]. by rewrite !Hu.
  - rewrite (filter_cons_False is_usable) by done. rewrite (filter_cons_True (λ e, ¬ is_usable e)) by done.
    unfold sum_lengths in *. cbn [foldr]. by rewrite !Hu.
Qed.

Context (Hjunk : (64 ≤ length junk)%nat).

Lemma wp_kprint_itoa val base s (Q : unit → St → Prop) :
  0 ≤ val < 2 ^ 64 → base = 10 ∨ base = 16 →
  (∀ buf str, cstring buf str → Forall (is_digit base) str → parse base str = val → Q tt (push_event (EvPrint "%s" [KStr buf]) s)) →
  wp (kprint_itoa val base) s Q.
Proof using Hjunk.
  intros Hv Hb HQ. destruct (itoa_uint64_ok val junk base 20 Hv) as (buf & str & E & H1 & H2 & H3); [lia| |lia|].
  { destruct Hb as [->| ->]; lia. }
  unfold kprint_itoa. apply wp_bind. eapply wp_ok; [unfold lift_res; by rewrite E|]. apply wp_emit. by eapply HQ.
Qed.

Lemma print_entry_ok i e s : 0 ≤ base e < 2 ^ 64 → 0 ≤ length_ e < 2 ^ 64 → wp (print_entry i e) s (λ _ s', printed s s').
Proof using Hjunk.
  intros H1 H2. unfold print_entry. do 4 apply wp_bind, wp_emit. apply wp_bind, (wp_kprint_itoa _ 16); [done|by right|]. intros b1 _ _ _ _.
  apply wp_bind, wp_emit. apply wp_bind, (wp_kprint_itoa _ 10); [done|by left|]. intros b2 _ _ _ _.
  do 2 apply wp_bind, wp_emit. apply wp_emit. do 10 apply printed_push. apply printed_refl.
Qed.

Definition entry_sane (e : memmap_entry) : Prop := 0 ≤ base e < 2 ^ 64 ∧ 0 ≤ length_ e < 2 ^ 64.

Lemma debug_entries_ok l : ∀ i t s, Forall entry_sane l → wp (debug_entries i l t) s (λ r s', r = foldl count_entry t l ∧ printed s s').
Proof using Hjunk.
  induction l as [|e l IH]; intros i t s Hl; cbn [debug_entries foldl]; [apply wp_ret; split; [done|apply printed_refl]|].
  apply Forall_cons in Hl as [[H1 H2] Hl]. eapply wp_bind_mono; [by apply print_entry_ok|]. cbn beta. intros _ s1 [es ->].
  eapply wp_mono; [by apply IH|]. cbn beta. intros r s' [-> [es' ->]]. split; [done|]. exists (es' ++ es). by rewrite foldr_app.
Qed.

Lemma debug_memmap_prints mmap s :
  Forall entry_sane mmap →
  wp (debug_memmap (Some mmap)) s (λ _ s', printed s s' ∧ ∃ total usable other rest,
    trace s' = EvPrint "=== DEBUG MEMORY MAP FINISHED! ===" [] :: other ++ usable ++ total ++ rest
    ∧ total_line "total memory: " (u64 (sum_lengths mmap)) total
    ∧ total_line "usable memory: " (u64 (sum_lengths (filter is_usable mmap))) usable
    ∧ total_line "unusable memory: " (u64 (sum_lengths (filter (λ e, ¬ is_usable e) mmap))) other).
Proof using Hjunk.
  intros Hm. unfold debug_memmap. do 2 apply wp_bind, wp_emit.
  eapply wp_bind_mono; [by apply debug_entries_ok|]. cbn beta. intros t s1 [-> Hp].
  destruct (count_entries mmap (MemTotals 0 0 0)) as (E1 & E2 & E3). pose proof (totals_range mmap (MemTotals 0 0 0)) as (R1 & R2 & R3); [simpl; lia..|].
  set (t := foldl _ _ _) in *. cbn [totalmm usablemm unusablemm] in E1, E2, E3. rewrite Z.add_0_l, u64_small in E1, E2, E3 by done.
  unfold print_total. apply wp_bind, wp_bind, wp_emit, wp_bind, (wp_kprint_itoa _ 10); [done|by left|]. intros b1 str1 ? ? ?. apply wp_emit.
  apply wp_bind, wp_bind, wp_emit, wp_bind, (wp_kprint_itoa _ 10); [done|by left|]. intros b2 str2 ? ? ?. apply wp_emit.
  apply wp_bind, wp_bind, wp_emit, wp_bind, (wp_kprint_itoa _ 10); [done|by left|]. intros b3 str3 ? ? ?. apply wp_emit, wp_emit.
  split.
  - destruct Hp as [es ->]. do 10 apply printed_push. exists (es ++ [EvPrint "=== LIMINE MEMORY MAP ===" []; EvPrint "start debug memmap ... " []]).
    by rewrite foldr_app.
  - eexists [_; _; _], [_; _; _], [_; _; _], (trace s1). rewrite !trace_push. split; [reflexivity|]. rewrite <- E1, <- E2, <- E3.
    split; [by exists b1, str1|]. split; [by exists b2, str2|by exists b3, str3].
Qed.

(** C36: for any memory map [debug_memmap] returns without overrunning a buffer,
    changes nothing but the console, and ends with the totals in decimal: the lengths
    of all, of the usable and of the other entries, each modulo 2^64. *)
Theorem debug_memmap_totals mmap s :
  Forall entry_sane mmap →
  wp (debug_memmap (Some mmap)) s (λ _ s', printed s s' ∧ ∃ total usable other rest,
    trace s' = EvPrint "=== DEBUG MEMORY MAP FINISHED! ===" [] :: other ++ usable ++ total ++ rest
    ∧ total_line "total memory: " (u64 (sum_lengths mmap)) total
    ∧ total_line "usable memory: " (u64 (sum_lengths (filter is_usable mmap))) usable
    ∧ total_line "unusable memory: " (u64 (sum_lengths (filter (λ e, ¬ is_usable e) mmap))) other).
Proof using Hjunk. apply debug_memmap_prints. Qed.
End debug.

Lemma debug_memmap_totals_witness :
  ∃ s', debug_memmap (replicate 64 7) (Some [MemmapEntry 4096 126976 0; MemmapEntry 131072 32768 1]) pmm_boot = Ok (tt, s')
    ∧ ∃ rest, trace s' = EvPrint "=== DEBUG MEMORY MAP FINISHED! ===" [] :: rest.
Proof.
  destruct (wp_inv _ _ _ (debug_memmap_totals (replicate 64 7) ltac:(by vm_compute) [MemmapEntry 4096 126976 0; MemmapEntry 131072 32768 1] pmm_boot
    ltac:(by repeat constructor))) as ([] & s' & E & _ & total & usable & other & rest & Et & _).
  exists s'. split; [exact E|]. eexists. exact Et.
Defined.
