(* ===== verification/Console.v ===== *)
(** Console: the text console of [kernel/src/drivers/console.c]: the scroll-back
    buffer, the cursor, and the drawing of characters as 16 by 16 pixels in the
    frame buffer, incrementally or as a full refresh. *)
From S2P Require Import Prelude CString Font.

Definition SCALE : Z := 2.
Definition FONT_W : Z := 8.
Definition FONT_H : Z := 8.
Definition FG_COLOR : Z := 0xFFFFFFFF.
Definition BG_COLOR : Z := 0.
Definition MAX_HISTORY : Z := 1000.
Definition MAX_COLS : Z := 128.

(** [struct limine_framebuffer]: size in pixels, and bytes per line. *)
Record framebuffer := Framebuffer { width : Z; height : Z; pitch : Z }.

(** The statics of console.c, and the words of the frame buffer ([vram], by index
    from [g_fb->address]). *)
Record con_st := ConSt {
  g_fb : option framebuffer;
  vram : gmap Z Z;
  history_buffer : list (list Z);
  g_cursor_x : Z;
  g_cursor_y : Z;
  g_view_offset : Z;
  g_screen_rows : Z;
  g_screen_cols : Z
}.

Definition set_vram (v : gmap Z Z) (s : con_st) : con_st :=
  ConSt (g_fb s) v (history_buffer s) (g_cursor_x s) (g_cursor_y s) (g_view_offset s) (g_screen_rows s) (g_screen_cols s).
Definition set_history (h : list (list Z)) (s : con_st) : con_st :=
  ConSt (g_fb s) (vram s) h (g_cursor_x s) (g_cursor_y s) (g_view_offset s) (g_screen_rows s) (g_screen_cols s).
Definition set_cursor (x y : Z) (s : con_st) : con_st :=
  ConSt (g_fb s) (vram s) (history_buffer s) x y (g_view_offset s) (g_screen_rows s) (g_screen_cols s).
Definition set_view (o : Z) (s : con_st) : con_st :=
  ConSt (g_fb s) (vram s) (history_buffer s) (g_cursor_x s) (g_cursor_y s) o (g_screen_rows s) (g_screen_cols s).

(** [history_buffer[r][c]] *)
Definition get_history (r c : Z) : M con_st Z :=
  h ← gets history_buffer;
  row ← or_crash OutOfBounds (zlookup h r);
  or_crash OutOfBounds (zlookup row c).
Definition put_history (r c v : Z) : M con_st unit :=
  h ← gets history_buffer;
  row ← or_crash OutOfBounds (zlookup h r);
  _ ← or_crash OutOfBounds (zlookup row c);
  modify (set_history (zinsert r (zinsert c v row) h)).

(** A 32-bit store to the frame buffer, which holds [height] lines of [pitch] bytes. *)
Definition put_vram (fb : framebuffer) (i color : Z) : M con_st unit :=
  if (0 <=? i) && (i <? pitch fb / 4 * height fb)
  then modify (λ s, set_vram (<[i := color]> (vram s)) s) else crash OutOfBounds.

Definition put_pixel_scaled (x y color : Z) : M con_st unit :=
  g ← gets g_fb;
  match g with
  | None => mret tt
  | Some fb =>
    let start_x := x * SCALE in
    let start_y := y * SCALE in
    let pitch_pixels := u32 (pitch fb / 4) in
    for_n (Z.to_nat SCALE) 0 (λ dy,
      let row_ptr := u32 ((start_y + dy) * pitch_pixels) + start_x in
      for_n (Z.to_nat SCALE) 0 (λ dx,
        if (start_x + dx <? i32 (width fb)) && (start_y + dy <? i32 (height fb))
        then put_vram fb (row_ptr + dx) color else mret tt))
  end.

Definition draw_char_on_screen (col row c : Z) : M con_st unit :=
  if 127 <? u8 c then mret tt else
  bmp ← or_crash OutOfBounds (zlookup font8x8_basic (u8 c));
  let pixel_base_x := col * FONT_W in
  let pixel_base_y := row * FONT_H in
  for_n 8 0 (λ y, for_n 8 0 (λ x,
    line ← or_crash OutOfBounds (zlookup bmp y);
    let is_set := Z.land line (Z.shiftl 1 x) in
    let color := if negb (is_set =? 0) then FG_COLOR else BG_COLOR in
    put_pixel_scaled (pixel_base_x + x) (pixel_base_y + y) color)).

Definition console_refresh : M con_st unit :=
  g ← gets g_fb;
  if g is Some _ then
    s ← gets id;
    let top := g_cursor_y s - (g_screen_rows s - 1) - g_view_offset s in
    let screen_top_row_idx := if top <? 0 then 0 else top in
    for_n (Z.to_nat (g_screen_rows s)) 0 (λ i,
      let buf_row := screen_top_row_idx + i in
      if (g_cursor_y s <? buf_row) || (MAX_HISTORY <=? buf_row) then
        for_n (Z.to_nat (g_screen_cols s)) 0 (λ j, draw_char_on_screen j i 32)
      else
        for_n (Z.to_nat (g_screen_cols s)) 0 (λ j,
          c ← get_history buf_row j;
          draw_char_on_screen j i (if c =? 0 then 32 else c)))
  else mret tt.

Definition kclear : M con_st unit :=
  g ← gets g_fb;
  if g is Some fb then for_n (Z.to_nat (u64 (width fb * height fb))) 0 (λ i, put_vram fb i BG_COLOR) else mret tt.

(** [memset(history_buffer, 0, sizeof(history_buffer))] *)
Definition empty_history : list (list Z) := replicate (Z.to_nat MAX_HISTORY) (replicate (Z.to_nat MAX_COLS) 0).
Arguments empty_history : simpl never.

Definition console_init (fb : framebuffer) : M con_st unit :=
  modify (λ s,
    let cols := i32 (width fb / (FONT_W * SCALE)) in
    ConSt (Some fb) (vram s) empty_history 0 0 0
      (i32 (height fb / (FONT_H * SCALE))) (if MAX_COLS <? cols then MAX_COLS else cols));;
  kclear.

Definition console_scroll (lines : Z) : M con_st unit :=
  modify (λ s,
    let off := i32 (g_view_offset s + lines) in
    let off := if g_cursor_y s <? off then g_cursor_y s else off in
    set_view (if off <? 0 then 0 else off) s);;
  console_refresh.

(** All rows one up ([memcpy] runs upwards), and the last row cleared. *)
Definition shift_rows (h : list (list Z)) : list (list Z) :=
  drop 1 h ++ [replicate (Z.to_nat MAX_COLS) 0].

Definition check_history_scroll : M con_st unit :=
  s ← gets id;
  if MAX_HISTORY <=? g_cursor_y s then
    modify (λ s, set_cursor (g_cursor_x s) (MAX_HISTORY - 1) (set_history (shift_rows (history_buffer s)) s));;
    console_refresh
  else mret tt.

(** What follows [g_cursor_y++]. *)
Definition scroll_or_refresh : M con_st unit :=
  check_history_scroll;;
  s ← gets id;
  if g_screen_rows s <=? g_cursor_y s then console_refresh else mret tt.

(** The screen line of the cursor's row. *)
Definition screen_line (s : con_st) : Z :=
  if g_screen_rows s <=? g_cursor_y s then g_screen_rows s - 1 else g_cursor_y s.

Definition kprint_char (c : Z) : M con_st unit :=
  if c =? 10 then
    modify (λ s, set_view 0 (set_cursor 0 (g_cursor_y s + 1) s));;
    scroll_or_refresh
  else if c =? 8 then
    s ← gets id;
    if 0 <? g_cursor_x s then
      modify (λ s, set_cursor (g_cursor_x s - 1) (g_cursor_y s) s);;
      put_history (g_cursor_y s) (g_cursor_x s - 1) 32;;
      if g_view_offset s =? 0 then
        let screen_y := if 0 <? g_screen_rows s then screen_line s else g_cursor_y s in
        draw_char_on_screen (g_cursor_x s - 1) screen_y 32
      else mret tt
    else mret tt
  else if (32 <=? c) && (c <=? 126) then
    modify (λ s, if MAX_HISTORY <=? g_cursor_y s then set_cursor (g_cursor_x s) (MAX_HISTORY - 1) s else s);;
    s ← gets id;
    put_history (g_cursor_y s) (g_cursor_x s) c;;
    (if g_view_offset s =? 0 then draw_char_on_screen (g_cursor_x s) (screen_line s) c else mret tt);;
    modify (λ s, set_cursor (g_cursor_x s + 1) (g_cursor_y s) s);;
    s ← gets id;
    if g_screen_cols s <=? g_cursor_x s then
      modify (λ s, set_cursor 0 (g_cursor_y s + 1) s);;
      scroll_or_refresh
    else mret tt
  else mret tt.

(** Printing of strings (a list of bytes with its terminator) and numbers. *)
Fixpoint kprint (str : list Z) : M con_st unit :=
  match str with
  | [] => crash OutOfBounds
  | c :: str' => if c =? 0 then mret tt else kprint_char c;; kprint str'
  end.
Definition kprintln (str : list Z) : M con_st unit := kprint str;; kprint_char 10.

(** The scratch arrays are uninitialised: any bytes. *)
Definition kprint_int (buf : list Z) (val : Z) : M con_st unit :=
  buf ← lift_res (itoa val buf 10); kprint buf.
Definition kprint_uint64 (buf : list Z) (val : Z) : M con_st unit :=
  buf ← lift_res (itoa_uint64 val buf 10); kprint buf.

(** The digits of the loop of [kprint_hex], least significant first; its buffer has
    17 bytes. *)
Fixpoint hex_loop (room : nat) (n : Z) (buffer : list Z) : res (list Z) :=
  if n <=? 0 then Ok buffer else
  match room with
  | O => Crash OutOfBounds
  | S room' => d ← nth_byte digits (n mod 16); hex_loop room' (n / 16) (buffer ++ [d])
  end.
Fixpoint print_all (cs : list Z) : M con_st unit :=
  match cs with [] => mret tt | c :: cs' => kprint_char c;; print_all cs' end.
Definition kprint_hex (n : Z) : M con_st unit :=
  if n =? 0 then kprint (lit "0") else
  buffer ← lift_res (hex_loop 17 n []); print_all (rev buffer).

(** A variable argument: an integer or a string pointer (NULL or a C string). *)
Inductive varg :=
  | VInt (z : Z)
  | VStr (s : option (list Z)).
Definition va_int (args : list varg) : M con_st (Z * list varg) :=
  match args with VInt z :: args' => mret (z, args') | _ => crash OutOfBounds end.
Definition va_str (args : list varg) : M con_st (option (list Z) * list varg) :=
  match args with VStr s :: args' => mret (s, args') | _ => crash OutOfBounds end.

(** The cases of the switch on the character after the percent sign, but ['l']. *)
Definition convert (buf : list Z) (c : Z) (args : list varg) : M con_st (list varg) :=
  if (c =? 100) || (c =? 105) || (c =? 117) then '(val, args) ← va_int args; kprint_int buf (i32 val);; mret args
  else if c =? 99 then '(val, args) ← va_int args; kprint_char (u8 val);; mret args
  else if c =? 115 then '(val, args) ← va_str args; kprint (default (lit "(null)") val);; mret args
  else if (c =? 120) || (c =? 112) then
    '(val, args) ← va_int args;
    (if c =? 112 then kprint (lit "0x") else mret tt);;
    kprint_hex (u64 val);; mret args
  else if c =? 37 then kprint_char 37;; mret args
  else kprint_char 37;; kprint_char c;; mret args.

(** The case ['l'], with the character after it. *)
Definition convert_long (buf : list Z) (c : Z) (args : list varg) : M con_st (list varg) :=
  if (c =? 117) || (c =? 100) then '(val, args) ← va_int args; kprint_uint64 buf (u64 val);; mret args
  else if c =? 120 then '(val, args) ← va_int args; kprint_hex (u64 val);; mret args
  else mret args.

Fixpoint kprintf (buf32 buf64 : list Z) (format : list Z) (args : list varg) : M con_st unit :=
  match format with
  | [] => crash OutOfBounds
  | p :: format1 =>
    if p =? 0 then mret tt
    else if negb (p =? 37) then kprint_char p;; kprintf buf32 buf64 format1 args
    else match format1 with
    | [] => crash OutOfBounds
    | c :: format2 =>
      if c =? 108 then
        match format2 with
        | [] => crash OutOfBounds
        | l :: format3 => args ← convert_long buf64 l args; kprintf buf32 buf64 format3 args
        end
      else args ← convert buf32 c args; kprintf buf32 buf64 format2 args
    end
  end.

(** * Pixels *)

(** The frame buffer holds the screen: no index wraps or leaves it. *)
Record geometry (s : con_st) (fb : framebuffer) : Prop := {
  geo_fb : g_fb s = Some fb;
  geo_rows : 0 < g_screen_rows s ≤ MAX_HISTORY;
  geo_cols : 0 < g_screen_cols s ≤ MAX_COLS;
  geo_height : g_screen_rows s * 16 ≤ height fb;
  geo_width : g_screen_cols s * 16 ≤ width fb;
  geo_pitch : width fb ≤ pitch fb / 4;
  geo_size : pitch fb / 4 * height fb < 2 ^ 31
}.

(** Pixel [px], [py] of the frame buffer. *)
Definition pixel (fb : framebuffer) (s : con_st) (px py : Z) : option Z := vram s !! (py * (pitch fb / 4) + px).
Definition visible (fb : framebuffer) (px py : Z) : Prop := 0 ≤ px < width fb ∧ 0 ≤ py < height fb.

(** From [s] to [s'] only pixels change, to what [f] says where it says something. *)
Definition painted (fb : framebuffer) (s s' : con_st) (f : Z → Z → option Z) : Prop :=
  s' = set_vram (vram s') s ∧
  ∀ px py, visible fb px py →
    pixel fb s' px py = match f px py with Some c => Some c | None => pixel fb s px py end.

Definition over (g f : Z → Z → option Z) (px py : Z) : option Z :=
  match g px py with Some c => Some c | None => f px py end.

Lemma painted_refl fb s : painted fb s s (λ _ _, None).
Proof. split; [by destruct s|done]. Qed.

Lemma painted_trans fb s s1 s2 f g : painted fb s s1 f → painted fb s1 s2 g → painted fb s s2 (over g f).
Proof.
  intros [E1 H1] [E2 H2]. split; [by rewrite E2, E1|]. intros px py Hv. unfold over. rewrite H2 by done.
  destruct (g px py); [done|]. by apply H1.
Qed.

Lemma painted_ext fb s s' f g :
  (∀ px py, visible fb px py → f px py = g px py) → painted fb s s' f → painted fb s s' g.
Proof. intros Hfg [E H]. split; [done|]. intros px py Hv. rewrite <- Hfg by done. by apply H. Qed.

Lemma painted_geometry fb s s' f : painted fb s s' f → geometry s fb → geometry s' fb.
Proof. intros [E _] []. rewrite E. by constructor. Qed.

(** A loop whose body paints paints what its rounds paint. *)
Lemma painted_for fb n (body : Z → M con_st unit) s (F G : Z → Z → Z → option Z) :
  (∀ px py, visible fb px py → G 0 px py = None) →
  (∀ j px py, 0 ≤ j < Z.of_nat n → visible fb px py → G (j + 1) px py = over (F j) (G j) px py) →
  (∀ j s', 0 ≤ j < Z.of_nat n → painted fb s s' (G j) → wp (body j) s' (λ _ s'', painted fb s' s'' (F j))) →
  wp (for_n n 0 body) s (λ _ s', painted fb s s' (G (Z.of_nat n))).
Proof.
  intros H0 HS Hb. apply (wp_for_n (λ j s', painted fb s s' (G j))).
  - eapply painted_ext; [|apply painted_refl]. intros px py Hv. by rewrite H0.
  - intros j s' Hj Hp. eapply wp_mono; [apply Hb; [lia|done]|]. cbn beta. intros _ s'' Hp'.
    eapply painted_ext; [|by eapply painted_trans]. intros px py Hv. by rewrite HS by (done || lia).
Qed.

Section pixels.
  Context (fb : framebuffer).

Lemma index_inj s px py qx qy :
  geometry s fb → visible fb px py → visible fb qx qy →
  py * (pitch fb / 4) + px = qy * (pitch fb / 4) + qx → px = qx ∧ py = qy.
Proof.
  intros [_ _ _ _ _ Hp _] [Hx _] [Hx' _]. set (P := pitch fb / 4) in *. intros E.
  assert (py = qy) as ->; [|lia]. destruct (Z.lt_trichotomy py qy) as [H|[H|H]]; [|done|].
  - assert ((py + 1) * P ≤ qy * P) by (apply Z.mul_le_mono_nonneg_r; lia). lia.
  - assert ((qy + 1) * P ≤ py * P) by (apply Z.mul_le_mono_nonneg_r; lia). lia.
Qed.

Lemma index_range s px py :
  geometry s fb → visible fb px py → 0 ≤ py * (pitch fb / 4) + px < pitch fb / 4 * height fb.
Proof.
  intros [_ _ _ _ _ Hp _] [Hx Hy]. set (P := pitch fb / 4) in *.
  assert ((py + 1) * P ≤ height fb * P) by (apply Z.mul_le_mono_nonneg_r; lia).
  assert (0 ≤ py * P) by (apply Z.mul_nonneg_nonneg; lia). lia.
Qed.

(** One store of [put_pixel_scaled]. *)
Lemma store_spec s qx qy color :
  geometry s fb → visible fb qx qy →
  wp (put_vram fb (qy * (pitch fb / 4) + qx) color) s (λ _ s',
    painted fb s s' (λ px py, if decide (px = qx ∧ py = qy) then Some color else None)).
Proof.
  intros Hg Hv. unfold put_vram. destruct (index_range s qx qy Hg Hv) as [H0 H1].
  rewrite (proj2 (Z.leb_le _ _) H0), (proj2 (Z.ltb_lt _ _) H1). simpl.
  apply wp_modify. split; [done|]. intros px py Hp. unfold pixel. simpl. case_decide as Hd.
  - destruct Hd as [-> ->]. by rewrite lookup_insert_eq.
  - apply lookup_insert_ne. intros E. apply Hd. by apply (index_inj s _ _ _ _ Hg Hp Hv).
Qed.

Lemma put_pixel_scaled_spec s x y color :
  geometry s fb → 0 ≤ x → 2 * x + 2 ≤ width fb → 0 ≤ y → 2 * y + 2 ≤ height fb →
  wp (put_pixel_scaled x y color) s (λ _ s',
    painted fb s s' (λ px py, if decide (px / 2 = x ∧ py / 2 = y) then Some color else None)).
Proof.
  intros Hg Hx0 Hx Hy0 Hy. pose proof Hg as [Hfb ? ? ? ? Hp Hsz].
  assert (width fb < 2 ^ 31 ∧ height fb < 2 ^ 31 ∧ pitch fb / 4 < 2 ^ 31) as (Hw & Hh & Hpi) by (unfold MAX_COLS, MAX_HISTORY in *; nia).
  unfold put_pixel_scaled. apply wp_bind, wp_gets. rewrite Hfb. rewrite (u32_small (pitch fb / 4)), !i32_small by lia.
  change (Z.to_nat SCALE) with 2%nat. unfold SCALE.
  eapply wp_mono; [apply (painted_for fb 2 _ s
    (λ dy px py, if decide (px / 2 = x ∧ py = y * 2 + dy) then Some color else None)
    (λ dy px py, if decide (px / 2 = x ∧ y * 2 ≤ py < y * 2 + dy) then Some color else None))|].
  - intros px py Hv. apply decide_False. lia.
  - intros j px py Hj Hv. unfold over. repeat case_decide; try done; lia.
  - intros dy s1 Hdy Hp1. pose proof (painted_geometry _ _ _ _ Hp1 Hg) as Hg1.
    eapply wp_mono; [apply (painted_for fb 2 _ s1
      (λ dx px py, if decide (px = x * 2 + dx ∧ py = y * 2 + dy) then Some color else None)
      (λ dx px py, if decide (x * 2 ≤ px < x * 2 + dx ∧ py = y * 2 + dy) then Some color else None))|].
    + intros px py Hv. apply decide_False. lia.
    + intros j px py Hj Hv. unfold over. repeat case_decide; try done; lia.
    + intros dx s2 Hdx Hp2. rewrite (proj2 (Z.ltb_lt (x * 2 + dx) _)), (proj2 (Z.ltb_lt (y * 2 + dy) _)) by lia. simpl.
      rewrite u32_small by nia. rewrite <- Z.add_assoc. apply store_spec; [by eapply painted_geometry|]. split; lia.
    + cbn beta. intros _ s2. apply painted_ext. intros px py Hv. change (Z.of_nat 2) with 2.
      repeat case_decide; try done; Z.to_euclidean_division_equations; lia.
  - cbn beta. intros _ s2. apply painted_ext. intros px py Hv. change (Z.of_nat 2) with 2.
    repeat case_decide; try done; Z.to_euclidean_division_equations; lia.
Qed.
End pixels.

(** * Characters *)

(** The colour of dot [gx], [gy] of a character, as the font has it. *)
Definition glyph (c gx gy : Z) : Z :=
  if Z.testbit (default 0 (zlookup font8x8_basic c ≫= λ bmp, zlookup bmp gy)) gx then FG_COLOR else BG_COLOR.

(** Cell [col], [row] of the screen, drawn with [c]. *)
Definition cell (col row c px py : Z) : option Z :=
  if decide (px / 16 = col ∧ py / 16 = row) then Some (glyph c (px mod 16 / 2) (py mod 16 / 2)) else None.

(** What [console_refresh] shows at [col], [row]. *)
Definition history_at (s : con_st) (r c : Z) : Z := default 0 (zlookup (history_buffer s) r ≫= λ row, zlookup row c).
Definition top_row (s : con_st) : Z := Z.max 0 (g_cursor_y s - (g_screen_rows s - 1) - g_view_offset s).
Definition screen_char (s : con_st) (col row : Z) : Z :=
  let r := top_row s + row in
  if g_cursor_y s <? r then 32 else if history_at s r col =? 0 then 32 else history_at s r col.

(** The history buffer has its size, and only printable characters and zeros. *)
Record history_ok (h : list (list Z)) : Prop := {
  ho_len : zlen h = MAX_HISTORY;
  ho_row : Forall (λ row, zlen row = MAX_COLS ∧ Forall (λ c, c = 0 ∨ 32 ≤ c ≤ 126) row) h
}.

Lemma font_row c : 0 ≤ c < 128 → ∃ bmp, zlookup font8x8_basic c = Some bmp ∧ zlen bmp = 8.
Proof.
  intros Hc. destruct (zlookup_is_Some font8x8_basic c) as [bmp E]; [done|]. exists bmp. split; [done|].
  assert (Forall (λ b, zlen b = 8) font8x8_basic) as H by by repeat constructor.
  unfold zlookup in E. case_decide; [|done]. rewrite Forall_lookup in H. by eapply H.
Qed.

Lemma history_lookup h r c : history_ok h → 0 ≤ r < MAX_HISTORY → 0 ≤ c < MAX_COLS →
  ∃ row v, zlookup h r = Some row ∧ zlen row = MAX_COLS ∧ zlookup row c = Some v ∧ (v = 0 ∨ 32 ≤ v ≤ 126)
    ∧ Forall (λ c, c = 0 ∨ 32 ≤ c ≤ 126) row.
Proof.
  intros [Hl Hr] H1 H2. destruct (zlookup_is_Some h r) as [row E]; [by rewrite Hl|].
  assert (zlen row = MAX_COLS ∧ Forall (λ c, c = 0 ∨ 32 ≤ c ≤ 126) row) as [Hlr Hc].
  { unfold zlookup in E. case_decide; [|done]. rewrite Forall_lookup in Hr. by eapply Hr. }
  destruct (zlookup_is_Some row c) as [v Ev]; [by rewrite Hlr|]. exists row, v. split_and!; try done.
  unfold zlookup in Ev. case_decide; [|done]. rewrite Forall_lookup in Hc. by eapply Hc.
Qed.

Lemma get_history_ok s r c :
  history_ok (history_buffer s) → 0 ≤ r < MAX_HISTORY → 0 ≤ c < MAX_COLS →
  get_history r c s = Ok (history_at s r c, s) ∧ (history_at s r c = 0 ∨ 32 ≤ history_at s r c ≤ 126).
Proof.
  intros Hh Hr Hc. destruct (history_lookup _ r c Hh Hr Hc) as (row & v & E1 & _ & E2 & Hv & _).
  unfold get_history, history_at, gets, or_crash. cbv [mbind M_bind]. rewrite E1. simpl. by rewrite E2.
Qed.

Section chars.
  Context (fb : framebuffer).

Lemma draw_char_spec s col row c :
  geometry s fb → 0 ≤ col < g_screen_cols s → 0 ≤ row < g_screen_rows s → 0 ≤ c < 128 →
  wp (draw_char_on_screen col row c) s (λ _ s', painted fb s s' (cell col row c)).
Proof.
  intros Hg Hcol Hrow Hc. destruct (font_row c Hc) as (bmp & Ef & Hl).
  unfold draw_char_on_screen. rewrite u8_small by lia. rewrite (proj2 (Z.ltb_ge 127 c)) by lia.
  apply wp_bind. eapply wp_or_crash; [exact Ef|]. unfold FONT_W, FONT_H.
  pose proof Hg as [_ _ _ Hh Hw _ _].
  eapply wp_mono; [apply (painted_for fb 8 _ s
    (λ y px py, if decide (px / 16 = col ∧ py / 2 = row * 8 + y) then Some (glyph c (px mod 16 / 2) y) else None)
    (λ y px py, if decide (px / 16 = col ∧ py / 16 = row ∧ py mod 16 / 2 < y) then Some (glyph c (px mod 16 / 2) (py mod 16 / 2)) else None))|].
  - intros px py Hv. apply decide_False. Z.to_euclidean_division_equations; lia.
  - intros y px py Hy Hv. unfold over. case_decide as H1; case_decide as H2; try case_decide as H3; try done.
    1: do 2 f_equal; Z.to_euclidean_division_equations; lia.
    all: exfalso; Z.to_euclidean_division_equations; lia.
  - intros y s1 Hy Hp1. pose proof (painted_geometry _ _ _ _ Hp1 Hg) as Hg1.
    destruct (zlookup_is_Some bmp y) as [line El]; [lia|].
    eapply wp_mono; [apply (painted_for fb 8 _ s1
      (λ x px py, if decide (px / 2 = col * 8 + x ∧ py / 2 = row * 8 + y) then Some (glyph c x y) else None)
      (λ x px py, if decide (px / 16 = col ∧ px mod 16 / 2 < x ∧ py / 2 = row * 8 + y) then Some (glyph c (px mod 16 / 2) y) else None))|].
    + intros px py Hv. apply decide_False. Z.to_euclidean_division_equations; lia.
    + intros x px py Hx Hv. unfold over. case_decide as H1; case_decide as H2; try case_decide as H3; try done.
      1: do 2 f_equal; Z.to_euclidean_division_equations; lia.
    all: exfalso; Z.to_euclidean_division_equations; lia.
    + intros x s2 Hx Hp2. apply wp_bind. eapply wp_or_crash; [exact El|].
      rewrite land_pow2_nonzero by lia.
      assert ((if Z.testbit line x then FG_COLOR else BG_COLOR) = glyph c x y) as ->.
      { unfold glyph. rewrite Ef. simpl. by rewrite El. }
      apply put_pixel_scaled_spec; [by eapply painted_geometry|lia..].
    + cbn beta. intros _ s2. apply painted_ext. intros px py Hv. change (Z.of_nat 8) with 8.
      case_decide as H1; case_decide as H2; try done; exfalso; Z.to_euclidean_division_equations; lia.
  - cbn beta. intros _ s2. apply painted_ext. intros px py Hv. change (Z.of_nat 8) with 8. unfold cell.
    case_decide as H1; case_decide as H2; try done; exfalso; Z.to_euclidean_division_equations; lia.
Qed.

(** A row of characters, and the whole screen. *)
Lemma draw_row_spec s row (ch : Z → Z) (body : Z → M con_st unit) :
  geometry s fb → 0 ≤ row < g_screen_rows s →
  (∀ j s', 0 ≤ j < g_screen_cols s → s' = set_vram (vram s') s →
    wp (body j) s' (λ _ s'', painted fb s' s'' (cell j row (ch j)))) →
  wp (for_n (Z.to_nat (g_screen_cols s)) 0 body) s (λ _ s', painted fb s s' (λ px py,
    if decide (px / 16 < g_screen_cols s) then cell (px / 16) row (ch (px / 16)) px py else None)).
Proof.
  intros Hg Hrow Hb. pose proof Hg as [_ _ Hc _ _ _ _].
  eapply wp_mono; [apply (painted_for fb _ _ s (λ j, cell j row (ch j))
    (λ j px py, if decide (px / 16 < j) then cell (px / 16) row (ch (px / 16)) px py else None))|].
  - intros px py [Hv _]. apply decide_False. Z.to_euclidean_division_equations; lia.
  - intros j px py Hj [Hv _]. unfold over, cell. destruct (decide (px / 16 = j)) as [<-|Hne].
    + rewrite (decide_True (P := px / 16 < px / 16 + 1)), (decide_False (P := px / 16 < px / 16)) by lia.
      by case_decide.
    + rewrite (decide_False (P := px / 16 = j ∧ _)) by tauto. repeat case_decide; try done; lia.
  - intros j s' Hj [E _]. apply Hb; [lia|done].
  - cbn beta. intros _ s'. rewrite Z2Nat.id by lia. done.
Qed.

Lemma console_refresh_spec s :
  geometry s fb → history_ok (history_buffer s) → 0 ≤ g_cursor_y s < MAX_HISTORY → 0 ≤ g_view_offset s →
  wp console_refresh s (λ _ s', painted fb s s' (λ px py,
    if decide (px / 16 < g_screen_cols s ∧ py / 16 < g_screen_rows s)
    then Some (glyph (screen_char s (px / 16) (py / 16)) (px mod 16 / 2) (py mod 16 / 2)) else None)).
Proof.
  intros Hg Hh Hcy Hoff. pose proof Hg as [Hfb Hr Hc _ _ _ _]. unfold console_refresh.
  apply wp_bind, wp_gets. rewrite Hfb. apply wp_bind, wp_gets. cbv beta zeta.
  assert ((if id s.(g_cursor_y) - (g_screen_rows s - 1) - g_view_offset s <? 0 then 0
           else g_cursor_y s - (g_screen_rows s - 1) - g_view_offset s) = top_row s) as Et.
  { unfold top_row, id. case_match eqn:E; [apply Z.ltb_lt in E|apply Z.ltb_ge in E]; lia. }
  unfold id in *. rewrite Et.
  eapply wp_mono; [apply (painted_for fb _ _ s
    (λ i px py, if decide (px / 16 < g_screen_cols s) then cell (px / 16) i (screen_char s (px / 16) i) px py else None)
    (λ i px py, if decide (px / 16 < g_screen_cols s ∧ py / 16 < i)
      then Some (glyph (screen_char s (px / 16) (py / 16)) (px mod 16 / 2) (py mod 16 / 2)) else None))|].
  - intros px py [_ Hv]. apply decide_False. Z.to_euclidean_division_equations; lia.
  - intros i px py Hi [_ Hv]. unfold over, cell. destruct (decide (py / 16 = i)) as [<-|Hne].
    + destruct (decide (px / 16 < g_screen_cols s)) as [Hlt|Hlt].
      * rewrite (decide_True (P := px / 16 = px / 16 ∧ _)), decide_True by lia. done.
      * rewrite !decide_False by lia. done.
    + rewrite (decide_False (P := px / 16 = px / 16 ∧ _)) by tauto. repeat case_decide; try done; lia.
  - intros i s1 Hi Hp1. pose proof (painted_geometry _ _ _ _ Hp1 Hg) as Hg1. destruct Hp1 as [E1 _].
    assert (g_screen_cols s1 = g_screen_cols s) as Ec by by rewrite E1.
    rewrite <- Ec. set (ch := λ j, screen_char s j i).
    assert (∀ body, (∀ j s', 0 ≤ j < g_screen_cols s1 → s' = set_vram (vram s') s1 →
              wp (body j) s' (λ _ s'', painted fb s' s'' (cell j i (ch j)))) →
      wp (for_n (Z.to_nat (g_screen_cols s1)) 0 body) s1 (λ _ s'', painted fb s1 s''
        (λ px py, if decide (px / 16 < g_screen_cols s1) then cell (px / 16) i (screen_char s (px / 16) i) px py else None))) as Hrow.
    { intros body Hb. apply (draw_row_spec s1 i ch); [done|rewrite E1; simpl; lia|exact Hb]. }
    assert (0 ≤ top_row s ≤ g_cursor_y s) as Htop by (unfold top_row; lia).
    destruct ((g_cursor_y s <? top_row s + i) || (MAX_HISTORY <=? top_row s + i)) eqn:Eb.
    + assert (g_cursor_y s < top_row s + i) as Hlt.
      { apply orb_prop in Eb as [Eb|Eb]; [by apply Z.ltb_lt|apply Z.leb_le in Eb; lia]. }
      apply Hrow. intros j s' Hj E'. assert (ch j = 32) as ->.
      { unfold ch, screen_char. by rewrite (proj2 (Z.ltb_lt _ _) Hlt). }
      apply draw_char_spec; [by rewrite E'; destruct Hg1; constructor|rewrite E'; simpl; lia|rewrite E', E1; simpl; lia|lia].
    + apply orb_false_elim in Eb as [Eb1 Eb2]. apply Z.ltb_ge in Eb1. apply Z.leb_gt in Eb2.
      apply Hrow. intros j s' Hj E'.
      assert (history_buffer s' = history_buffer s) as Ehb by by rewrite E', E1.
      destruct (get_history_ok s' (top_row s + i) j) as [Eg Hv]; [by rewrite Ehb|lia|lia|].
      apply wp_bind. eapply wp_ok; [exact Eg|].
      assert (history_at s' (top_row s + i) j = history_at s (top_row s + i) j) as Eh by (unfold history_at; by rewrite Ehb).
      assert ((if history_at s' (top_row s + i) j =? 0 then 32 else history_at s' (top_row s + i) j) = ch j) as ->.
      { unfold ch, screen_char. by rewrite (proj2 (Z.ltb_ge _ _) Eb1), Eh. }
      apply draw_char_spec; [by rewrite E'; destruct Hg1; constructor|rewrite E'; simpl; lia|rewrite E', E1; simpl; lia|].
      unfold ch, screen_char. rewrite (proj2 (Z.ltb_ge _ _) Eb1), <- Eh. destruct (Z.eqb_spec (history_at s' (top_row s + i) j) 0); lia.
  - cbn beta. intros _ s'. rewrite Z2Nat.id by lia. done.
Qed.
End chars.

(** * Incremental drawing *)

(** The cells show the characters of the view. *)
Definition synced (fb : framebuffer) (s : con_st) : Prop :=
  ∀ px py, visible fb px py → px / 16 < g_screen_cols s → py / 16 < g_screen_rows s →
    pixel fb s px py = Some (glyph (screen_char s (px / 16) (py / 16)) (px mod 16 / 2) (py mod 16 / 2)).

(** A full refresh would change nothing on the screen. *)
Definition up_to_date (fb : framebuffer) (s : con_st) : Prop :=
  wp console_refresh s (λ _ s', ∀ px py, visible fb px py → pixel fb s' px py = pixel fb s px py).

(** Consistent console: the cursor is on the screen's columns and in the history,
    and the history is empty below it. *)
Record console_ok (fb : framebuffer) (s : con_st) : Prop := {
  co_geo : geometry s fb;
  co_hist : history_ok (history_buffer s);
  co_x : 0 ≤ g_cursor_x s < g_screen_cols s;
  co_y : 0 ≤ g_cursor_y s < MAX_HISTORY;
  co_view : 0 ≤ g_view_offset s;
  co_blank r c : g_cursor_y s < r < MAX_HISTORY → 0 ≤ c < MAX_COLS → history_at s r c = 0
}.

Section incremental.
  Context (fb : framebuffer).

Lemma set_vram_ok s v : console_ok fb s → console_ok fb (set_vram v s).
Proof. intros [[] ? ? ? ? ?]. constructor; [by constructor|done..]. Qed.

Lemma refresh_synced s :
  console_ok fb s → wp console_refresh s (λ _ s', s' = set_vram (vram s') s ∧ console_ok fb s' ∧ synced fb s').
Proof.
  intros [Hg Hh ? Hy Hv ?]. eapply wp_mono; [by apply (console_refresh_spec fb)|]. cbn beta. intros _ s' [E Hp].
  split; [done|]. split; [rewrite E; by apply set_vram_ok|]. intros px py Hvis H1 H2.
  assert (∀ a b, screen_char s' a b = screen_char s a b) as Ec by (intros; by rewrite E).
  rewrite Hp by done. rewrite E in H1, H2. rewrite decide_True by done. by rewrite Ec.
Qed.

Lemma up_to_date_synced s : console_ok fb s → up_to_date fb s ↔ synced fb s.
Proof.
  intros [Hg Hh ? Hy Hv ?]. unfold up_to_date.
  destruct (wp_inv _ _ _ (console_refresh_spec fb s Hg Hh Hy Hv)) as ([] & s' & E & _ & Hp). unfold wp. rewrite E. split.
  - intros Hu px py Hvis H1 H2. rewrite <- Hu, Hp by done. by rewrite decide_True.
  - intros Hs px py Hvis. rewrite Hp by done. case_decide as Hd; [|done]. by rewrite (Hs px py Hvis) by apply Hd.
Qed.

Lemma shift_rows_ok h : history_ok h → history_ok (shift_rows h).
Proof.
  intros [Hl Hr]. unfold shift_rows. split.
  - unfold zlen, MAX_HISTORY in *. rewrite length_app, length_drop. simpl. lia.
  - apply Forall_app. split; [by apply Forall_drop|]. apply Forall_singleton. split; [done|].
    apply Forall_replicate. by left.
Qed.

Lemma put_history_ok s r c v :
  history_ok (history_buffer s) → 0 ≤ r < MAX_HISTORY → 0 ≤ c < MAX_COLS → (v = 0 ∨ 32 ≤ v ≤ 126) →
  ∃ h, put_history r c v s = Ok (tt, set_history h s) ∧ history_ok h ∧
    ∀ r' c', history_at (set_history h s) r' c' = if decide (r' = r ∧ c' = c) then v else history_at s r' c'.
Proof.
  intros Hh Hr Hc Hv. destruct (history_lookup _ r c Hh Hr Hc) as (row & w & E1 & Hl & E2 & _ & Hf).
  exists (zinsert r (zinsert c v row) (history_buffer s)). split; [|split].
  - unfold put_history, gets, or_crash. cbv [mbind M_bind]. rewrite E1. simpl. by rewrite E2.
  - destruct Hh as [Hlen Hrows]. split; [by rewrite zlen_zinsert|]. unfold zinsert at 1. rewrite decide_True by lia.
    apply Forall_insert; [done|]. split; [by rewrite zlen_zinsert|]. unfold zinsert. rewrite decide_True by lia.
    by apply Forall_insert.
  - intros r' c'. unfold history_at. simpl. pose proof (zlookup_Some _ _ _ E1). pose proof (zlookup_Some _ _ _ E2).
    destruct (decide (r' = r)) as [->|Hne].
    + rewrite zlookup_zinsert_eq by done. simpl. destruct (decide (c' = c)) as [->|Hne].
      * rewrite zlookup_zinsert_eq by done. by rewrite decide_True.
      * rewrite zlookup_zinsert_ne by done. rewrite decide_False by tauto. by rewrite E1.
    + rewrite zlookup_zinsert_ne by done. by rewrite decide_False by tauto.
Qed.

(** After the cursor has moved to the start of the next row. *)
Lemma scroll_or_refresh_spec s cx cy :
  console_ok fb (set_cursor cx cy s) → g_view_offset s = 0 → g_cursor_x s = 0 → g_cursor_y s = cy + 1 →
  synced fb (set_cursor cx cy s) →
  wp scroll_or_refresh s (λ _ s', console_ok fb s' ∧ g_view_offset s' = 0 ∧ synced fb s').
Proof.
  intros [Hg Hh Hx Hy Hv Hb] Hoff Hcx Hcy Hsy. simpl in *.
  assert (geometry s fb) as Hg' by (destruct Hg; by constructor). clear Hg. pose proof Hg' as [_ Hr Hc _ _ _ _].
  unfold scroll_or_refresh, check_history_scroll. apply wp_bind, wp_bind, wp_gets. cbv beta. unfold id.
  destruct (Z.leb_spec MAX_HISTORY (g_cursor_y s)) as [Hge|Hlt].
  - apply wp_bind, wp_modify. set (s1 := set_cursor _ _ _).
    assert (console_ok fb s1) as Hok1.
    { constructor; simpl; [by destruct Hg'; constructor|by apply shift_rows_ok|lia|unfold MAX_HISTORY; lia|lia|]. lia. }
    eapply wp_mono; [by apply refresh_synced|]. cbn beta. intros _ s2 (E2 & Hok2 & Hs2).
    apply wp_bind, wp_gets. cbv beta. case_match.
    + eapply wp_mono; [by apply refresh_synced|]. cbn beta. intros _ s3 (E3 & Hok3 & Hs3).
      split; [done|]. split; [by rewrite E3, E2|done].
    + split; [done|]. split; [by rewrite E2|done].
  - apply wp_ret, wp_bind, wp_gets. cbv beta.
    assert (console_ok fb s) as Hok.
    { constructor; [done|done|lia|lia|lia|]. intros r c Hrr Hcc. apply (Hb r c); lia. }
    destruct (Z.leb_spec (g_screen_rows s) (g_cursor_y s)) as [Hge'|Hlt'].
    + eapply wp_mono; [by apply refresh_synced|]. cbn beta. intros _ s3 (E3 & Hok3 & Hs3).
      split; [done|]. split; [by rewrite E3|done].
    + apply wp_ret. split; [done|]. split; [done|]. intros px py Hvis H1 H2. change (pixel fb s px py) with (pixel fb (set_cursor cx cy s) px py). rewrite (Hsy px py Hvis H1 H2). f_equal. f_equal.
      unfold screen_char, top_row. simpl. rewrite Hoff, Hcy, !Z.max_l by lia. rewrite !Z.add_0_l.
      change (history_at (set_cursor cx cy s)) with (history_at s) in *.
      destruct (Z.ltb_spec cy (py / 16)) as [H3|H3], (Z.ltb_spec (cy + 1) (py / 16)) as [H4|H4]; try done; [|lia].
      assert (0 ≤ px / 16) by (destruct Hvis; Z.to_euclidean_division_equations; lia).
      rewrite (Hb (py / 16) (px / 16)); [done|lia|lia].
Qed.

(** Writing a character of the cursor's row and drawing it. *)
Lemma write_cell_spec s col c :
  console_ok fb s → g_view_offset s = 0 → synced fb s → 0 ≤ col < g_screen_cols s → 32 ≤ c ≤ 126 →
  wp (put_history (g_cursor_y s) col c;; draw_char_on_screen col (screen_line s) c) s
    (λ _ s', console_ok fb s' ∧ synced fb s' ∧ ∃ h v, s' = set_vram v (set_history h s)).
Proof.
  intros [Hg Hh Hx Hy Hv Hb] Hoff Hsy Hcol Hc. pose proof Hg as [_ Hr Hcs _ _ _ _].
  destruct (put_history_ok s (g_cursor_y s) col c Hh Hy) as (h & E & Hh' & Hat); [lia|lia|].
  apply wp_bind. eapply wp_ok; [exact E|]. set (s1 := set_history h s) in *.
  assert (geometry s1 fb) as Hg1 by (destruct Hg; by constructor).
  assert (0 ≤ screen_line s < g_screen_rows s ∧ top_row s + screen_line s = g_cursor_y s) as [Hl Ht].
  { unfold screen_line, top_row. destruct (Z.leb_spec (g_screen_rows s) (g_cursor_y s)); lia. }
  eapply wp_mono; [apply (draw_char_spec fb s1); [done|done|done|lia]|]. cbn beta. intros _ s2 [E2 Hp2].
  split; [|split; [|by exists h, (vram s2)]].
  - rewrite E2. apply set_vram_ok. constructor; [done..|]. intros r c' Hr' Hc'. change (g_cursor_y s1) with (g_cursor_y s) in Hr'.
    rewrite Hat, decide_False by lia. by apply Hb.
  - intros px py Hvis H1 H2. assert (∀ a b, screen_char s2 a b = screen_char s1 a b) as Es by (intros; by rewrite E2).
    rewrite Es, Hp2 by done. rewrite E2 in H1, H2. change (g_screen_cols s1) with (g_screen_cols s) in *.
    simpl in H1, H2. assert (0 ≤ py / 16) by (destruct Hvis; Z.to_euclidean_division_equations; lia).
    assert (screen_char s1 (px / 16) (py / 16) =
      if decide (px / 16 = col ∧ py / 16 = screen_line s) then c else screen_char s (px / 16) (py / 16)) as ->.
    { unfold screen_char. change (top_row s1) with (top_row s). change (g_cursor_y s1) with (g_cursor_y s). rewrite !Hat.
      case_decide as Hd; case_decide as Hd'; try (exfalso; lia).
      - rewrite (proj2 (Z.ltb_ge _ _)) by lia. destruct (Z.eqb_spec c 0); [lia|done].
      - done. }
    unfold cell. case_decide as Hd; [done|]. change (pixel fb s1 px py) with (pixel fb s px py). by apply Hsy.
Qed.

(** Consistent, showing the latest rows, and up to date. *)
Definition live (s : con_st) : Prop := console_ok fb s ∧ g_view_offset s = 0 ∧ synced fb s.

Lemma set_cursor_ok s x : console_ok fb s → 0 ≤ x < g_screen_cols s → console_ok fb (set_cursor x (g_cursor_y s) s).
Proof. intros [[] ? ? ? ? ?] Hx. constructor; first [done|by constructor]. Qed.

Lemma newline_live s : live s →
  wp (modify (λ s, set_view 0 (set_cursor 0 (g_cursor_y s + 1) s));; scroll_or_refresh) s (λ _, live).
Proof.
  intros (Hok & Hoff & Hsy). apply wp_bind, wp_modify. apply (scroll_or_refresh_spec _ (g_cursor_x s) (g_cursor_y s)); try done.
  - destruct Hok as [[] ? ? ? ? ?]. constructor; first [done|by constructor].
  - intros px py Hvis H1 H2. etransitivity; [exact (Hsy px py Hvis H1 H2)|]. unfold screen_char, top_row. simpl.
    by rewrite Hoff.
Qed.

(** One character on a live console. *)
Lemma kprint_char_live s c : live s → wp (kprint_char c) s (λ _, live).
Proof.
  intros (Hok & Hoff & Hsy). pose proof Hok as [Hg Hh Hx Hy Hv Hb]. pose proof Hg as [_ Hr _ _ _ _ _].
  unfold kprint_char. destruct (Z.eqb_spec c 10) as [_|_]; [by apply newline_live|].
  destruct (Z.eqb_spec c 8) as [_|_].
  - apply wp_bind, wp_gets. cbv beta. unfold id. destruct (Z.ltb_spec 0 (g_cursor_x s)) as [Hpos|_]; [|by apply wp_ret].
    apply wp_bind, wp_modify. set (s1 := set_cursor _ _ s).
    assert (console_ok fb s1) as Hok1 by (apply set_cursor_ok; [done|lia]).
    rewrite Hoff. change (0 =? 0) with true. cbv iota. rewrite (proj2 (Z.ltb_lt 0 _)) by lia. cbv zeta iota.
    eapply wp_mono; [apply (write_cell_spec s1 (g_cursor_x s - 1) 32 Hok1 Hoff Hsy); [change (g_screen_cols s1) with (g_screen_cols s); lia|lia]|].
    cbn beta. intros _ s2 (Hok2 & Hs2 & h & v & ->). done.
  - destruct ((32 <=? c) && (c <=? 126)) eqn:Ec; [|by apply wp_ret].
    apply andb_prop in Ec as [E1%Z.leb_le E2%Z.leb_le].
    apply wp_bind, wp_modify. rewrite (proj2 (Z.leb_gt _ _)) by lia. apply wp_bind, wp_gets. cbv beta. unfold id.
    rewrite Hoff. change (0 =? 0) with true. cbv iota. unfold wp. rewrite <- bind_assoc.
    match goal with |- match ?m s with Ok _ => _ | Crash _ => _ end => change (wp m s (λ _, live)) end.
    apply wp_bind. eapply wp_mono; [by apply (write_cell_spec s (g_cursor_x s) c)|].
    cbn beta. intros _ s2 (Hok2 & Hs2 & h & v & E). apply wp_bind, wp_modify, wp_bind, wp_gets. cbv beta.
    unfold id. set (s3 := set_cursor _ _ s2). change (g_screen_cols s3) with (g_screen_cols s2). change (g_cursor_x s3) with (g_cursor_x s2 + 1).
    assert (g_view_offset s2 = 0 ∧ g_cursor_x s2 = g_cursor_x s) as [Ho2 Hx2] by by rewrite E.
    pose proof Hok2 as [_ _ Hcx _ _ _].
    destruct (Z.leb_spec (g_screen_cols s2) (g_cursor_x s2 + 1)) as [Hw|Hw].
    + apply wp_bind, wp_modify. apply (scroll_or_refresh_spec _ (g_cursor_x s2) (g_cursor_y s2)); try done.
      destruct Hok2 as [[] ? ? ? ? ?]. constructor; first [done|by constructor].
    + apply wp_ret. split; [apply set_cursor_ok; [done|lia]|done].
Qed.

Lemma kprint_live s str l : cstring str l → live s → wp (kprint str) s (λ _, live).
Proof.
  intros [Hl [tail ->]]. revert s. induction Hl as [|c l Hc Hl IH]; intros s Hs; simpl.
  - by apply wp_ret.
  - rewrite (proj2 (Z.eqb_neq c 0) Hc). eapply wp_bind_mono; [by apply kprint_char_live|]. intros [] s'. apply IH.
Qed.

Lemma glyph_space gx gy : glyph 32 gx gy = BG_COLOR.
Proof.
  unfold glyph. change (zlookup font8x8_basic 32) with (Some (replicate 8 0)). simpl.
  assert (default 0 (zlookup [0; 0; 0; 0; 0; 0; 0; 0] gy) = 0) as ->; [|by rewrite Z.testbit_0_l].
  destruct (zlookup (replicate 8 0) gy) as [v|] eqn:E; [|simpl in E; by rewrite E].
  simpl in E. rewrite E. unfold zlookup in E. case_decide; [|done].
  by apply (lookup_replicate_1 8) in E as [-> _].
Qed.

Lemma empty_history_ok : history_ok empty_history.
Proof.
  unfold empty_history. split; [unfold zlen; by rewrite length_replicate|].
  apply Forall_replicate. split; [unfold zlen; by rewrite length_replicate|]. apply Forall_replicate. by left.
Qed.

Lemma empty_history_at r c : default 0 (zlookup empty_history r ≫= λ row, zlookup row c) = 0.
Proof.
  unfold empty_history. destruct (decide (0 ≤ r < MAX_HISTORY)) as [Hr|Hr].
  - rewrite zlookup_replicate by done. cbn [mbind option_bind]. destruct (decide (0 ≤ c < MAX_COLS)) as [Hc|Hc].
    + by rewrite zlookup_replicate.
    + by rewrite zlookup_None by (unfold zlen; rewrite length_replicate; exact Hc).
  - by rewrite zlookup_None by (unfold zlen; rewrite length_replicate; exact Hr).
Qed.

(** A display the driver can use: 32-bit pixels without padding at the line ends,
    at least one cell, at most as many rows as the history has. *)
Definition display_ok : Prop :=
  16 ≤ width fb ∧ 16 ≤ height fb ∧ height fb / 16 ≤ MAX_HISTORY ∧ pitch fb = 4 * width fb ∧ width fb * height fb < 2 ^ 31.

Lemma console_init_live s : display_ok → wp (console_init fb) s (λ _, live).
Proof.
  intros (Hw & Hh & Hrows & Hp & Hsz). assert (pitch fb / 4 = width fb) as HP by (rewrite Hp; Z.to_euclidean_division_equations; lia).
  assert (width fb < 2 ^ 31 ∧ height fb < 2 ^ 31) as [Hw31 Hh31] by nia.
  unfold console_init. apply wp_bind, wp_modify. unfold FONT_W, FONT_H, SCALE. change (8 * 2) with 16.
  rewrite !i32_small by (Z.to_euclidean_division_equations; lia). set (s1 := ConSt _ _ _ _ _ _ _ _).
  assert (console_ok fb s1) as Hok.
  { constructor; simpl.
    - constructor; simpl; rewrite ?HP; try done; try lia.
      + Z.to_euclidean_division_equations; lia.
      + unfold MAX_COLS. case_match eqn:E; [lia|]. apply Z.ltb_ge in E. Z.to_euclidean_division_equations; lia.
      + Z.to_euclidean_division_equations; lia.
      + unfold MAX_COLS. case_match eqn:E; [apply Z.ltb_lt in E|]; Z.to_euclidean_division_equations; lia.
    - apply empty_history_ok.
    - unfold MAX_COLS. case_match; Z.to_euclidean_division_equations; lia.
    - done.
    - done.
    - intros r c _ _. apply empty_history_at. }
  unfold kclear. apply wp_bind, wp_gets. change (g_fb s1) with (Some fb). cbv iota. rewrite u64_small by nia.
  eapply wp_mono; [apply (wp_for_n (λ i s', s' = set_vram (vram s') s1 ∧ ∀ k, 0 ≤ k < i → vram s' !! k = Some BG_COLOR))|].
  - split; [done|]. intros k. lia.
  - intros i s' Hi [E Hk]. unfold put_vram. rewrite HP, (proj2 (Z.leb_le 0 i)), (proj2 (Z.ltb_lt i _)) by lia. simpl.
    apply wp_modify. split; [by rewrite E|]. intros k Hk'. simpl. destruct (decide (k = i)) as [->|Hne].
    + apply lookup_insert_eq.
    + rewrite lookup_insert_ne by done. apply Hk. lia.
  - cbn beta. intros _ s' [E Hk]. rewrite Z.add_0_l, Z2Nat.id in Hk by nia.
    split; [rewrite E; by apply set_vram_ok|]. split; [by rewrite E|]. intros px py [Hx Hy] H1 H2.
    assert (screen_char s' (px / 16) (py / 16) = 32) as ->.
    { rewrite E. unfold screen_char. case_match; [done|].
      change (history_at (set_vram (vram s') s1)) with (λ r c, default 0 (zlookup empty_history r ≫= λ row, zlookup row c)).
      cbv beta. by rewrite empty_history_at. }
    rewrite glyph_space. unfold pixel. apply Hk. rewrite HP. nia.
Qed.

(** C28: after initialisation and any text, backspaces, line ends and scrolling
    history included, the incremental drawing has left on the screen exactly the
    pixels a full [console_refresh] would draw, and printing never faults. *)
Theorem console_incremental s str l :
  display_ok → cstring str l →
  wp (console_init fb;; kprint str) s (λ _ s', console_ok fb s' ∧ g_view_offset s' = 0 ∧ up_to_date fb s').
Proof.
  intros Hd Hl. eapply wp_bind_mono; [by apply console_init_live|]. intros [] s1 Hs1.
  eapply wp_mono; [by apply (kprint_live s1 str l)|]. cbn beta. intros _ s' (Hok & Hoff & Hsy).
  split; [done|]. split; [done|]. by apply up_to_date_synced.
Qed.

(** Text printed while the user looks back is not drawn, and the next line end
    returns to the live view without a refresh unless the screen is full: with less
    than a screen of history, one line of scroll-back leaves the character [c]
    invisible although the view is live again. *)
Theorem console_stale_after_scroll s c gx gy :
  console_ok fb s → g_view_offset s = 0 →
  1 ≤ g_cursor_y s → g_cursor_y s + 1 < g_screen_rows s → g_cursor_x s + 1 < g_screen_cols s → 32 ≤ c ≤ 126 →
  0 ≤ gx < 8 → 0 ≤ gy < 8 → glyph c gx gy ≠ glyph (screen_char s (g_cursor_x s) (g_cursor_y s)) gx gy →
  wp (console_scroll 1;; kprint_char c;; kprint_char 10) s (λ _ s', g_view_offset s' = 0 ∧ ¬ up_to_date fb s').
Proof.
  intros Hok Hoff Hy1 Hy2 Hx1 Hc Hgx Hgy Hne. pose proof Hok as [Hg Hh Hx Hy Hv Hb].
  set (cx := g_cursor_x s) in *. set (cy := g_cursor_y s) in *.
  unfold console_scroll. apply wp_bind, wp_bind, wp_modify. fold cy. rewrite Hoff. change (i32 (0 + 1)) with 1.
  rewrite (proj2 (Z.ltb_ge cy 1)) by lia. change (1 <? 0) with false. cbv zeta iota.
  assert (console_ok fb (set_view 1 s)) as Hok1 by (destruct Hok as [[] ? ? ? ? ?]; constructor; first [done|by constructor]).
  eapply wp_mono; [apply refresh_synced, Hok1|]. cbn beta. intros _ s1 (E1 & _ & Hs1).
  assert (console_ok fb s1) as Hok1' by (rewrite E1; by apply set_vram_ok).
  assert (g_cursor_x s1 = cx ∧ g_cursor_y s1 = cy ∧ g_view_offset s1 = 1 ∧ g_screen_cols s1 = g_screen_cols s
    ∧ g_screen_rows s1 = g_screen_rows s) as (Ex & Ey & Eo & Ec & Er) by by rewrite E1.
  destruct (put_history_ok s1 cy cx c (co_hist _ _ Hok1')) as (h & Eh & Hh' & Hat); [lia|unfold MAX_COLS in *; destruct Hg as [_ _ [_ ?] _ _ _ _]; unfold MAX_COLS in *; lia|lia|].
  apply wp_bind. unfold kprint_char at 1. rewrite (proj2 (Z.eqb_neq c 10)), (proj2 (Z.eqb_neq c 8)) by lia.
  rewrite (proj2 (Z.leb_le 32 c)), (proj2 (Z.leb_le c 126)) by lia. cbn [andb].
  apply wp_bind, wp_modify. rewrite Ey, (proj2 (Z.leb_gt MAX_HISTORY cy)) by lia.
  apply wp_bind, wp_gets. cbv beta. unfold id. rewrite Ex, Ey, Eo. change (1 =? 0) with false. cbv iota.
  apply wp_bind. eapply wp_ok; [exact Eh|]. apply wp_bind, wp_ret, wp_bind, wp_modify, wp_bind, wp_gets. cbv beta.
  set (s2 := set_cursor _ _ _). change (g_screen_cols s2) with (g_screen_cols s1). change (g_cursor_x s2) with (g_cursor_x s1 + 1).
  rewrite Ex, Ec, (proj2 (Z.leb_gt _ _)) by lia. apply wp_ret.
  unfold kprint_char. change (10 =? 10) with true. cbv iota. apply wp_bind, wp_modify.
  change (g_cursor_y s2) with (g_cursor_y s1). rewrite Ey. set (s3 := set_view 0 _).
  unfold scroll_or_refresh, check_history_scroll. apply wp_bind, wp_bind, wp_gets. cbv beta. unfold id.
  change (g_cursor_y s3) with (cy + 1). rewrite (proj2 (Z.leb_gt MAX_HISTORY (cy + 1))) by (destruct Hg as [_ ? _ _ _ _ _]; lia).
  apply wp_ret, wp_bind, wp_gets. cbv beta. change (g_cursor_y s3) with (cy + 1). change (g_screen_rows s3) with (g_screen_rows s1).
  rewrite Er, (proj2 (Z.leb_gt _ _)) by lia. apply wp_ret. split; [done|]. intros Hu.
  assert (console_ok fb s3) as Hok3.
  { destruct Hok1' as [[] ? ? ? ? Hb1]. constructor; [by constructor|done|..]; simpl; try lia.
    intros r k Hr Hk. change (history_at s3 r k) with (history_at (set_history h s1) r k). rewrite Hat, decide_False by lia.
    apply Hb1; lia. }
  apply up_to_date_synced in Hu; [|done]. apply Hne.
  pose proof Hg as [_ _ _ Hgh Hgw _ _]. set (px := cx * 16 + 2 * gx). set (py := cy * 16 + 2 * gy).
  assert (px / 16 = cx ∧ py / 16 = cy ∧ px mod 16 / 2 = gx ∧ py mod 16 / 2 = gy) as (P1 & P2 & P3 & P4)
    by (unfold px, py; Z.to_euclidean_division_equations; lia).
  assert (visible fb px py) as Hvis by (unfold visible, px, py; lia).
  assert (pixel fb s3 px py = Some (glyph c gx gy)) as H3.
  { rewrite Hu; [|done|change (g_screen_cols s3) with (g_screen_cols s1); lia|change (g_screen_rows s3) with (g_screen_rows s1); lia].
    rewrite P1, P2, P3, P4. f_equal. f_equal. unfold screen_char, top_row. simpl. rewrite Er, Z.max_l by lia. rewrite Z.add_0_l.
    rewrite (proj2 (Z.ltb_ge _ _)) by lia. change (history_at s3 cy cx) with (history_at (set_history h s1) cy cx).
    rewrite Hat, decide_True by done. destruct (Z.eqb_spec c 0); [lia|done]. }
  assert (pixel fb s3 px py = Some (glyph (screen_char s cx cy) gx gy)) as H1.
  { change (pixel fb s3 px py) with (pixel fb s1 px py). rewrite Hs1; [|done|lia|lia]. rewrite P1, P2, P3, P4. f_equal. f_equal.
    rewrite E1. unfold screen_char, top_row. simpl. fold cy. rewrite Hoff, !Z.max_l by lia. done. }
  congruence.
Qed.
End incremental.

(** * Witnesses: a screen of 4 columns and 3 rows *)

Section example.
Definition fb_example : framebuffer := Framebuffer 64 48 256.
Definition con_off : con_st := ConSt None ∅ [] 0 0 0 0 0.

Lemma display_example_ok : display_ok fb_example.
Proof. by split_and!; vm_compute. Qed.

Abbreviation con_text text := (console_init fb_example;; kprint (text ++ [0])).

(** The text wraps, is corrected with a backspace, and scrolls. *)
Definition text_example : list Z := chars "hello" ++ [8; 10] ++ chars "big" ++ [10] ++ chars "world".

Lemma text_ok : chars_ok text_example.
Proof. unfold chars_ok. apply (bool_decide_unpack _). by vm_compute. Qed.

Lemma console_incremental_witness :
  ∃ s', con_text text_example con_off = Ok (tt, s') ∧ g_cursor_y s' = 4 ∧ up_to_date fb_example s'.
Proof.
  destruct (wp_inv _ _ _ (console_incremental fb_example con_off (text_example ++ [0]) text_example display_example_ok
    (conj text_ok (ex_intro _ [] eq_refl)))) as ([] & s' & E & _ & _ & Hu).
  exists s'. split; [exact E|]. split; [|exact Hu].
  assert (match con_text text_example con_off with Ok (_, s) => g_cursor_y s | Crash _ => 0 end = 4) as Hy by by vm_compute.
  rewrite E in Hy. exact Hy.
Defined.

(** One empty line, then a line of scroll-back, an [A] and the end of the line. *)
Definition con_example : con_st :=
  match con_text [10] con_off with Ok (_, s) => s | Crash _ => con_off end.

Lemma con_example_live : live fb_example con_example.
Proof.
  assert (wp (con_text [10]) con_off (λ _, live fb_example)) as Hw.
  { eapply wp_bind_mono; [apply console_init_live, display_example_ok|]. intros [] s1 Hs1.
    apply (kprint_live fb_example s1 _ [10]); [|done]. split; [by repeat constructor|by exists []]. }
  destruct (wp_inv _ _ _ Hw) as ([] & s' & E & Hs). unfold con_example. rewrite E. exact Hs.
Qed.

Lemma console_stale_after_scroll_witness :
  ∃ s', (console_scroll 1;; kprint_char 65;; kprint_char 10) con_example = Ok (tt, s')
    ∧ g_view_offset s' = 0 ∧ ¬ up_to_date fb_example s'.
Proof.
  destruct con_example_live as (Hok & Hoff & _).
  destruct (wp_inv _ _ _ (console_stale_after_scroll fb_example con_example 65 2 0 Hok Hoff
    ltac:(by vm_compute) ltac:(by vm_compute) ltac:(by vm_compute) ltac:(lia) ltac:(lia) ltac:(lia)
    ltac:(by vm_compute))) as ([] & s' & E & H1 & H2).
  exists s'. split; [exact E|]. split; [exact H1|exact H2].
Defined.
End example.
