(* ===== verification/Terminal.v ===== *)
(** Terminal: the keyboard driver on the console and the interrupt table: [Console] and
    [Arch] implement what [Keyboard] relies on ([KbdEnv]). *)
From S2P Require Import Prelude Arch Font Console Keyboard.

Section console.
  Context (fb : framebuffer).
  Abbreviation ok := (console_ok fb).

Lemma refresh_keeps s : ok s → wp console_refresh s (λ _, ok).
Proof. intros H. eapply wp_mono; [by apply (refresh_synced fb)|]. cbn beta. by intros _ s' (_ & ? & _). Qed.

Lemma console_scroll_keeps n s : ok s → wp (Console.console_scroll n) s (λ _, ok).
Proof.
  intros H. unfold Console.console_scroll. apply wp_bind, wp_modify, refresh_keeps. pose proof (co_y _ _ H).
  destruct H as [[] ? ? ? ? ?]. constructor; simpl; first [done|by constructor|repeat case_match; lia].
Qed.

(** The cursor has gone to the start of the row below. *)
Lemma next_row_keeps s :
  ok s → let s1 := set_cursor 0 (g_cursor_y s + 1) s in wp scroll_or_refresh s1 (λ _, ok).
Proof.
  intros Hok s1. pose proof Hok as [Hg Hh Hx Hy Hv Hb]. pose proof Hg as [_ Hr Hc _ _ _ _].
  unfold scroll_or_refresh, check_history_scroll. apply wp_bind, wp_bind, wp_gets. cbv beta. unfold id.
  assert (∀ s2, ok s2 → wp (s ← gets (λ x : con_st, x); if g_screen_rows s <=? g_cursor_y s then console_refresh else mret tt) s2 (λ _, ok)) as Hrest.
  { intros s2 H2. apply wp_bind, wp_gets. cbv beta. case_match; [by apply refresh_keeps|by apply wp_ret]. }
  change (g_cursor_y s1) with (g_cursor_y s + 1). destruct (Z.leb_spec MAX_HISTORY (g_cursor_y s + 1)) as [Hge|Hlt].
  - apply wp_bind, wp_modify. eapply wp_mono; [apply refresh_keeps|intros []; apply Hrest].
    constructor; simpl; [by destruct Hg; constructor|by apply shift_rows_ok|lia|unfold MAX_HISTORY; lia|lia|lia].
  - apply wp_ret, Hrest. constructor; simpl; [by destruct Hg; constructor|done|lia|lia|lia|]. intros r c H1 H2. apply (Hb r c); lia.
Qed.

Lemma put_history_keeps s col c : ok s → 0 ≤ col < g_screen_cols s → 32 ≤ c ≤ 126 →
  ∃ h, put_history (g_cursor_y s) col c s = Ok (tt, set_history h s) ∧ ok (set_history h s).
Proof.
  intros [Hg Hh Hx Hy Hv Hb] Hcol Hc. pose proof Hg as [_ _ [_ Hcols] _ _ _ _].
  destruct (put_history_ok s (g_cursor_y s) col c Hh Hy) as (h & E & Hh' & Hat); [lia|lia|]. exists h. split; [done|].
  constructor; simpl; [by destruct Hg; constructor|done..|]. intros r c' Hr Hc'. rewrite Hat, decide_False by lia. by apply Hb.
Qed.

Lemma draw_keeps s col row c : ok s → 0 ≤ col < g_screen_cols s → 0 ≤ row < g_screen_rows s → 32 ≤ c ≤ 126 →
  wp (draw_char_on_screen col row c) s (λ _ s', s' = set_vram (vram s') s ∧ ok s').
Proof.
  intros Hok H1 H2 Hc. eapply wp_mono; [apply (draw_char_spec fb s col row c); [apply Hok|done|done|lia]|]. cbn beta.
  intros _ s' [E _]. split; [done|]. rewrite E. by apply set_vram_ok.
Qed.

Lemma screen_line_range s : ok s → 0 ≤ screen_line s < g_screen_rows s.
Proof. intros [[] ? ? Hy ? ?]. unfold screen_line. destruct (Z.leb_spec (g_screen_rows s) (g_cursor_y s)); lia. Qed.

Lemma kprint_char_keeps c s : ok s → wp (Console.kprint_char c) s (λ _, ok).
Proof.
  intros Hok. pose proof Hok as [Hg _ Hx Hy _ _]. pose proof (screen_line_range s Hok) as Hsl. unfold Console.kprint_char.
  destruct (c =? 10).
  { apply wp_bind, wp_modify. apply (next_row_keeps (set_view 0 s)). destruct Hok as [[] ? ? ? ? ?]. constructor; first [done|by constructor]. }
  destruct (c =? 8).
  - apply wp_bind, wp_gets. cbv beta. unfold id. destruct (Z.ltb_spec 0 (g_cursor_x s)) as [Hpos|_]; [|by apply wp_ret].
    apply wp_bind, wp_modify. set (s1 := set_cursor _ _ s). assert (ok s1) as Hok1 by (apply set_cursor_ok; [done|lia]).
    destruct (put_history_keeps s1 (g_cursor_x s - 1) 32 Hok1) as (h & E & Hok2); [change (g_screen_cols s1) with (g_screen_cols s); lia|lia|].
    apply wp_bind. eapply wp_ok; [exact E|]. destruct (g_view_offset s =? 0); [|by apply wp_ret].
    rewrite (proj2 (Z.ltb_lt 0 _)) by (destruct Hg; lia). cbv zeta iota.
    eapply wp_mono; [apply (draw_keeps _ _ _ _ Hok2); [change (g_screen_cols (set_history h s1)) with (g_screen_cols s); lia|exact Hsl|lia]|]. by intros _ s2 [_ ?].
  - destruct ((32 <=? c) && (c <=? 126)) eqn:Ec; [|by apply wp_ret]. apply andb_prop in Ec as [E1%Z.leb_le E2%Z.leb_le].
    apply wp_bind, wp_modify. rewrite (proj2 (Z.leb_gt _ _)) by lia. apply wp_bind, wp_gets. cbv beta. unfold id.
    destruct (put_history_keeps s (g_cursor_x s) c Hok Hx ltac:(lia)) as (h & E & Hok1). apply wp_bind. eapply wp_ok; [exact E|].
    set (s1 := set_history h s) in *.
    apply wp_bind. eapply (wp_mono _ _ (λ _ s2, s2 = set_vram (vram s2) s1 ∧ ok s2)).
    { case_match; [|by apply wp_ret; destruct s]. by apply draw_keeps. }
    cbn beta. intros _ s2 [Es2 Hok2]. apply wp_bind, wp_modify, wp_bind, wp_gets. cbv beta. unfold id.
    assert (g_cursor_x s2 = g_cursor_x s ∧ g_screen_cols s2 = g_screen_cols s) as [Ex Ec] by by rewrite Es2.
    set (s3 := set_cursor _ _ s2). change (g_screen_cols s3) with (g_screen_cols s2). change (g_cursor_x s3) with (g_cursor_x s2 + 1).
    destruct (Z.leb_spec (g_screen_cols s2) (g_cursor_x s2 + 1)) as [Hw|Hw].
    + apply wp_bind, wp_modify. by apply (next_row_keeps s2).
    + apply wp_ret, set_cursor_ok; [done|lia].
Qed.
End console.

(** The console and the tables of the processor. *)
#[export] Program Instance console_kbd : KbdEnv (con_st * arch_st) := {|
  kc_traced := {| trace c := arch_trace c.2; push_event e c := (c.1, push_event e c.2) |};
  console_scroll n := zoom fst (λ x c, (x, c.2)) (Console.console_scroll n);
  kprint_char ch := zoom fst (λ x c, (x, c.2)) (Console.kprint_char ch);
  register_interrupt_handler n h := zoom snd (λ x c, (c.1, x)) (Arch.register_interrupt_handler n h);
  kc_ok c := ∃ fb, console_ok fb c.1
|}.
Next Obligation. done. Qed.
Next Obligation. intros n c [fb H]. apply wp_zoom. eapply wp_mono; [by apply (console_scroll_keeps fb)|]. intros ? s Hs. exists fb. exact Hs. Qed.
Next Obligation. intros ch c [fb H]. apply wp_zoom. eapply wp_mono; [by apply (kprint_char_keeps fb)|]. intros ? s Hs. exists fb. exact Hs. Qed.
