(* ===== verification/Kstack.v ===== *)
(** Kstack: kernel stacks ([kernel/src/mm/pmm.c], [kstack_init] and [kstack_free]):
    virtual ranges above [KERNEL_STACK_BASE], handed out upwards with an unmapped
    guard page below each, and backed by frames of the physical allocator. *)
From S2P Require Import Prelude Layout Frames Pmm Paging Range.

(** The paging state and the global [kstack_ptr]. *)
Record kstack_st (A : Type) := KstackSt { ks_pg : pg_st A; kstack_ptr : Z }.
Arguments KstackSt {A} _ _.
Arguments ks_pg {A} _.
Arguments kstack_ptr {A} _.

Definition set_ks_pg {A} (p : pg_st A) (s : kstack_st A) : kstack_st A := KstackSt p (kstack_ptr s).
Definition set_kstack_ptr {A} (v : Z) (s : kstack_st A) : kstack_st A := KstackSt (ks_pg s) v.

#[export] Program Instance kstack_traced {A} `{!Traced A} : Traced (kstack_st A) := {|
  trace s := trace (ks_pg s);
  push_event e s := set_ks_pg (push_event e (ks_pg s)) s
|}.
Next Obligation. intros. apply trace_push. Qed.

Section kstack.
  Context {A : Type} `{FA : FrameAlloc A}.
  Context (HHDM_OFFSET : Z).
  Abbreviation St := (kstack_st A).

Definition on_ks {R} (m : M (pg_st A) R) : M St R := zoom ks_pg set_ks_pg m.

(** The mapping loop from [v] on; false when the frames run out. *)
Fixpoint kstack_pages (n : nat) (v : Z) : M St bool :=
  match n with
  | O => mret true
  | S n' =>
    paddr ← on_ks (on_alloc fa_alloc);
    if paddr =? 0 then kprintln "Error: OOM during kstack allocation!";; mret false
    else
      on_ks (root ← gets kernel_pml4; vmm_map_page HHDM_OFFSET root v paddr (Z.lor PTE_PRESENT PTE_RW));;
      kstack_pages n' (u64 (v + PAGE_SIZE))
  end.

(** Rounds of [for (v = bottom; v < top; v += PAGE_SIZE)]. *)
Definition page_rounds (bottom top : Z) : nat := Z.to_nat ((top - bottom + PAGE_SIZE - 1) / PAGE_SIZE).

Definition kstack_init (size : Z) : M St Z :=
  kprintln "Initing kernel stack ...";;
  modify (λ s, set_kstack_ptr (u64 (kstack_ptr s + PAGE_SIZE)) s);;
  vaddr_bottom ← gets kstack_ptr;
  let vaddr_top := u64 (vaddr_bottom + size) in
  modify (set_kstack_ptr vaddr_top);;
  ok ← kstack_pages (page_rounds vaddr_bottom vaddr_top) vaddr_bottom;
  if ok : bool then
    kprintf "kernel stack allocated: %lx - %lx\n" [KInt vaddr_bottom; KInt vaddr_top];;
    mret vaddr_top
  else mret 0.

(** One round of [kstack_free]. *)
Definition kstack_free_page (vaddr : Z) : M St unit :=
  pte ← on_ks (root ← gets kernel_pml4; vmm_get_pte HHDM_OFFSET root vaddr);
  if pte =? 0 then mret tt else
  e ← on_ks (load pte);
  if pte_present e then
    on_ks (on_alloc (fa_free (PTE_GET_ADDR e)));;
    on_ks (store pte 0);;
    emit (EvInvlpg vaddr)
  else mret tt.

Definition kstack_free (kstack_base : Z) : M St unit :=
  kprintln "Freeing kernel stack ...";;
  let base := kstack_base in
  let top := u64 (base + KSTACK_SIZE) in
  for_n (page_rounds base top) 0 (λ i, kstack_free_page (u64 (base + i * PAGE_SIZE)));;
  kprintf "Kernel stack freed: %lx - %lx\n" [KInt base; KInt top].

(** * A new stack *)

Implicit Types s : St.

Definition kstack_flags : Z := Z.lor PTE_PRESENT PTE_RW.

Lemma on_ks_ok {R} (m : M (pg_st A) R) s r p : m (ks_pg s) = Ok (r, p) → on_ks m s = Ok (r, set_ks_pg p s).
Proof. intros H. unfold on_ks, zoom. by rewrite H. Qed.

Lemma kstack_pages_ok n ks root start p s :
  let i := zlen ks in
  fa_ok (pg_alloc p) → range_mapped HHDM_OFFSET root start kstack_flags ks p (ks_pg s) → root = kernel_pml4 p →
  0 ≤ start → start + (i + Z.of_nat n) * PAGE_SIZE < 2 ^ 64 → i + Z.of_nat n < 2 ^ 36 →
  (4 * n ≤ size (fa_free_set (pg_alloc (ks_pg s))))%nat →
  wp (kstack_pages n (start + i * PAGE_SIZE)) s (λ r s', r = true ∧ kstack_ptr s' = kstack_ptr s
    ∧ ∃ ks', length ks' = n ∧ range_mapped HHDM_OFFSET root start kstack_flags (ks ++ ks') p (ks_pg s')).
Proof.
  revert ks s. induction n as [|n IH]; intros ks s i Hok0 Hr Hk H0 Hb Hn Hf; cbn [kstack_pages].
  { apply wp_ret. split; [done|]. split; [done|]. exists []. by rewrite app_nil_r. }
  assert (0 ≤ i) as Hi by (unfold i, zlen; lia).
  destruct (range_step HHDM_OFFSET root start kstack_flags ks p (ks_pg s) Hok0 Hr) as (k & p2 & p3 & Ea & Hkp & Em & Hr3 & Hk2 & Hsz);
    [fold i; lia|done|done|lia|]. fold i in Em.
  apply wp_bind. eapply wp_ok; [apply on_ks_ok; exact Ea|]. rewrite (proj2 (Z.eqb_neq _ _)) by (unfold PAGE_SIZE; lia).
  apply wp_bind. eapply wp_ok.
  { apply on_ks_ok. change (ks_pg (set_ks_pg p2 s)) with p2. unfold gets. cbv [mbind M_bind].
    rewrite Hk2, (proj1 (rm_regs _ _ _ _ _ _ _ Hr)), <- Hk. exact Em. }
  assert (zlen (ks ++ [k]) = i + 1) as Ei by (unfold i, zlen; rewrite length_app; simpl; lia).
  rewrite u64_small by (unfold PAGE_SIZE in *; lia).
  replace (start + i * PAGE_SIZE + PAGE_SIZE) with (start + zlen (ks ++ [k]) * PAGE_SIZE) by (rewrite Ei; unfold PAGE_SIZE; lia).
  eapply wp_mono; [apply (IH (ks ++ [k])); [done|exact Hr3|done|done|rewrite Ei; lia|rewrite Ei; lia|simpl; lia]|].
  cbn beta. intros r s' (-> & Ep & ks' & Hl & Hr'). split; [done|]. split; [done|].
  exists (k :: ks'). split; [simpl; lia|]. by rewrite <- app_assoc in Hr'.
Qed.

(** The stack's pages, above the guard page that starts at the old [kstack_ptr]. *)
Definition stack_made (n : Z) s s' : Prop :=
  let bottom := kstack_ptr s + PAGE_SIZE in
  kstack_ptr s' = bottom + n * PAGE_SIZE
  ∧ ∃ ks, zlen ks = n ∧ range_mapped HHDM_OFFSET (kernel_pml4 (ks_pg s)) bottom kstack_flags ks (ks_pg s) (ks_pg s').

Lemma kstack_init_ok s n :
  pt_wf HHDM_OFFSET (ks_pg s) (kernel_pml4 (ks_pg s)) → 0 ≤ n < 2 ^ 35 →
  0 ≤ kstack_ptr s → kstack_ptr s + PAGE_SIZE + n * PAGE_SIZE < 2 ^ 64 →
  4 * n ≤ Z.of_nat (size (fa_free_set (pg_alloc (ks_pg s)))) →
  wp (kstack_init (n * PAGE_SIZE)) s (λ top s', top = kstack_ptr s + PAGE_SIZE + n * PAGE_SIZE ∧ stack_made n s s').
Proof.
  intros Hwf Hn H0 Hb Hf. pose proof (wf_alloc _ _ _ Hwf) as Hok. unfold kstack_init, stack_made. cbv zeta.
  set (p := ks_pg s) in *. set (bottom := kstack_ptr s + PAGE_SIZE) in *.
  apply wp_bind, wp_kprintln. set (e := EvPrint _ _). apply wp_bind, wp_modify, wp_bind, wp_gets.
  cbn [kstack_ptr set_kstack_ptr].
  assert (u64 (kstack_ptr (push_event e s) + PAGE_SIZE) = bottom) as ->.
  { change (kstack_ptr (push_event e s)) with (kstack_ptr s). apply u64_small. unfold bottom, PAGE_SIZE in *. lia. }
  rewrite (u64_small (bottom + n * PAGE_SIZE)) by (unfold bottom, PAGE_SIZE in *; lia).
  apply wp_bind, wp_modify. set (s1 := set_kstack_ptr _ _). change (ks_pg (push_event e s)) with (push_event e p) in *.
  assert (page_rounds bottom (bottom + n * PAGE_SIZE) = Z.to_nat n) as ->.
  { unfold page_rounds. f_equal. unfold PAGE_SIZE. Z.to_euclidean_division_equations; lia. }
  assert (pt_wf HHDM_OFFSET (push_event e p) (kernel_pml4 p)) as Hwf'.
  { apply pt_wf_alloc; [done|by apply fa_trace_ok|by apply fa_trace_frames|by rewrite fa_trace_set]. }
  pose proof (kstack_pages_ok (Z.to_nat n) [] (kernel_pml4 p) bottom (push_event e p) s1) as Hw. cbv zeta in Hw.
  rewrite (Z.add_0_r bottom : bottom + zlen (@nil Z) * PAGE_SIZE = bottom) in Hw. eapply wp_bind_mono; [apply Hw|]; clear Hw.
  - by apply fa_trace_ok.
  - by apply range_mapped_refl.
  - done.
  - unfold bottom, PAGE_SIZE in *. lia.
  - change (zlen (@nil Z)) with 0. rewrite Z2Nat.id by lia. unfold bottom in *. lia.
  - change (zlen (@nil Z)) with 0. lia.
  - change (pg_alloc (ks_pg s1)) with (push_event e (pg_alloc p)). rewrite fa_trace_set. lia.
  - cbn beta. intros r s' (-> & Ep & ks & Hl & Hr). apply wp_bind, wp_kprintf, wp_ret. split; [done|].
    split; [exact Ep|]. exists ks. split; [unfold zlen; lia|].
    apply range_mapped_push, (range_mapped_pushed _ _ _ _ _ e); done.
Qed.

(** C26: a new kernel stack of [n] pages lies above an unmapped guard page: every page
    is mapped, writable for the kernel, to a frame of its own that was free, and
    no other address changes its translation, the guard page included; the next
    stack starts above. *)
Theorem kstack_init_guarded s n :
  pt_wf HHDM_OFFSET (ks_pg s) (kernel_pml4 (ks_pg s)) → 0 ≤ n < 2 ^ 35 →
  0 ≤ kstack_ptr s → kstack_ptr s + PAGE_SIZE + n * PAGE_SIZE < 2 ^ 64 →
  4 * n ≤ Z.of_nat (size (fa_free_set (pg_alloc (ks_pg s)))) →
  let root := kernel_pml4 (ks_pg s) in
  let bottom := kstack_ptr s + PAGE_SIZE in
  wp (kstack_init (n * PAGE_SIZE)) s (λ top s',
    top = bottom + n * PAGE_SIZE ∧ kstack_ptr s' = top ∧ pt_wf HHDM_OFFSET (ks_pg s') root
    ∧ (∃ frames, zlen frames = n ∧ NoDup frames
        ∧ ∀ j k, frames !! j = Some k → k ∈ fa_free_set (pg_alloc (ks_pg s)) ∧ (k ∉ fa_free_set (pg_alloc (ks_pg s')))
            ∧ translate HHDM_OFFSET (pg_mem (ks_pg s')) root (bottom + Z.of_nat j * PAGE_SIZE) = Some (leaf_entry (k * PAGE_SIZE) kstack_flags))
    ∧ (∀ va, (∀ j, 0 ≤ j < n → vpn va ≠ vpn (bottom + j * PAGE_SIZE)) →
        translate HHDM_OFFSET (pg_mem (ks_pg s')) root va = translate HHDM_OFFSET (pg_mem (ks_pg s)) root va)
    ∧ translate HHDM_OFFSET (pg_mem (ks_pg s')) root (kstack_ptr s) = translate HHDM_OFFSET (pg_mem (ks_pg s)) root (kstack_ptr s)).
Proof.
  intros Hwf Hn H0 Hb Hf root bottom. eapply wp_mono; [by apply kstack_init_ok|].
  cbn beta. intros top s' (-> & Ep & ks & Hl & [R1 R2 R3 R4 R5 R6 R7 R8 _ _ _ _]). split; [done|]. split; [done|]. split; [done|].
  split; [|split].
  - exists ks. split; [done|]. split; [done|]. intros j k Hj. by destruct (R7 j k Hj) as (? & ? & _ & ?).
  - by rewrite Hl in R8.
  - apply R8. rewrite Hl. intros j Hj. pose proof (vpn_page_ne (kstack_ptr s) (j + 1) 0 ltac:(lia) ltac:(lia)) as Hv.
    by replace (kstack_ptr s + 0 * PAGE_SIZE) with (kstack_ptr s) in Hv by lia;
      replace (kstack_ptr s + (j + 1) * PAGE_SIZE) with (kstack_ptr s + PAGE_SIZE + j * PAGE_SIZE) in Hv by (unfold PAGE_SIZE; lia).
Qed.
End kstack.

(** * A witness: the boot image of the Kheap examples *)

Section example.
Let H := KERNEL_HHDM_BASE.

(** The frame allocator and the empty root of the Paging examples. *)
Definition pg_kernel : pg_st pmm_st := PgSt (pg_alloc pg_example) (pg_mem pg_example) (kva H 4) 0.
Definition kstack_example : kstack_st pmm_st := KstackSt pg_kernel KERNEL_STACK_BASE.

Lemma kstack_example_wf : pt_wf H (ks_pg kstack_example) (kernel_pml4 (ks_pg kstack_example)).
Proof. destruct pg_example_wf. by constructor. Qed.

Lemma kstack_example_guard : translate H (pg_mem pg_kernel) (kernel_pml4 pg_kernel) KERNEL_STACK_BASE = None.
Proof. by vm_compute. Qed.

Lemma kstack_init_guarded_witness :
  ∃ s' k, kstack_init H 0x1000 kstack_example = Ok (KERNEL_STACK_BASE + 0x2000, s') ∧ k ∈ fa_free_set (pg_alloc pg_kernel)
    ∧ translate H (pg_mem (ks_pg s')) (kernel_pml4 pg_kernel) (KERNEL_STACK_BASE + 0x1000) = Some (leaf_entry (k * PAGE_SIZE) kstack_flags)
    ∧ translate H (pg_mem (ks_pg s')) (kernel_pml4 pg_kernel) KERNEL_STACK_BASE = None.
Proof.
  destruct (wp_inv _ _ _ (kstack_init_guarded H kstack_example 1 kstack_example_wf ltac:(lia) ltac:(by vm_compute) ltac:(by vm_compute) ltac:(by vm_compute)))
    as (top & s' & E & -> & _ & _ & (ks & Hl & _ & Hin) & _ & Hg).
  destruct (lookup_lt_is_Some_2 ks 0) as [k Hk]; [unfold zlen in Hl; lia|]. destruct (Hin _ _ Hk) as (H1 & _ & H2).
  exists s', k. split; [exact E|]. split; [exact H1|]. split; [exact H2|]. rewrite <- kstack_example_guard. exact Hg.
Defined.
End example.
