(* ===== verification/Vaccess.v ===== *)
(** Vaccess: loads and stores of kernel code through a virtual address.  The
    processor finds the frame through the tables CR3 points to; a missing page, or a
    store to a page that is not writable, is a page fault. *)
From S2P Require Import Prelude Layout Frames Pmm Paging.

Definition pte_writable (e : Z) : bool := negb (Z.land e PTE_RW =? 0).

(** Byte [i] of the word [w] replaced by [b]. *)
Definition put_byte (w i b : Z) : Z := Z.lor (Z.land w (Z.lnot (Z.shiftl 0xFF (8 * i)))) (Z.shiftl b (8 * i)).
Definition byte_of (w i : Z) : Z := Z.land (Z.shiftr w (8 * i)) 0xFF.

Section vaccess.
  Context {A : Type} `{FA : FrameAlloc A}.
  Context (HHDM_OFFSET : Z).
  (** What a word of memory holds that was never written, by its address in the
      direct map. *)
  Context (junk : Z → Z).
  Implicit Types p : pg_st A.

(** The root CR3 points to, and the word that holds the byte at [va]. *)
Definition cr3_root p : Z := pa2kva HHDM_OFFSET (pg_cr3 p).
Definition va_word (write : bool) (va : Z) : M (pg_st A) Z :=
  root ← gets cr3_root; mem ← gets pg_mem;
  e ← or_crash PageFault (translate HHDM_OFFSET mem root va);
  if write && negb (pte_writable e) then crash PageFault
  else mret (slot (pa2kva HHDM_OFFSET (PTE_GET_ADDR e)) (OFFSET va / 8)).

Definition word_at p (a : Z) : Z := default (junk a) (pg_mem p !! a).

(** Aligned 64-bit accesses, and single bytes. *)
Definition load_word (va : Z) : M (pg_st A) Z := a ← va_word false va; gets (λ p, word_at p a).
Definition store_word (va w : Z) : M (pg_st A) unit := a ← va_word true va; store a w.
Definition store_byte (va b : Z) : M (pg_st A) unit :=
  a ← va_word true va; w ← gets (λ p, word_at p a); store a (put_byte w (va mod 8) b).

(** [memset] and [memcpy] to a virtual address, byte by byte. *)
Definition memset_va (va c n : Z) : M (pg_st A) unit := for_n (Z.to_nat n) 0 (λ i, store_byte (u64 (va + i)) c).
Fixpoint memcpy_va (va : Z) (bytes : list Z) : M (pg_st A) unit :=
  match bytes with
  | [] => mret tt
  | b :: rest => store_byte va b;; memcpy_va (u64 (va + 1)) rest
  end.

(** Structures of 64-bit words. *)
Fixpoint load_words (va : Z) (n : nat) : M (pg_st A) (list Z) :=
  match n with
  | O => mret []
  | S n' => w ← load_word va; r ← load_words (u64 (va + 8)) n'; mret (w :: r)
  end.
Fixpoint store_words (va : Z) (ws : list Z) : M (pg_st A) unit :=
  match ws with
  | [] => mret tt
  | w :: rest => store_word va w;; store_words (u64 (va + 8)) rest
  end.
End vaccess.
