(* ===== verification/Vmm.v ===== *)
(** Vmm: user address spaces, [kernel/src/mm/vmm.c] and [vmm.h]: allocation,
    mapping of ranges with rollback, deep copy and release.  The state stacks the
    object fields on the kernel heap, which holds the page tables, which hold the
    frame allocator; [kmalloc] is the kernel heap's. *)
From S2P Require Import Prelude Layout Frames Pmm Paging Range Klist Kheap.

Definition VM_READ : Z := 1.
Definition VM_WRITE : Z := 2.
Definition VM_EXEC : Z := 4.
Definition VM_SHARED : Z := 8.
Definition VM_STACK : Z := 16.
Definition VM_HEAP : Z := 32.

(** [struct vma_struct], whose list node comes first, and [struct mm_struct], whose
    [vma_list] is at offset 16; the nodes are in the link store. *)
Record vma_struct := Vma { vma_mm : Z; vm_start : Z; vm_end : Z; vm_flags : Z }.
Record mm_struct := Mm {
  mm_pml4 : Z;
  mm_pml4_pa : Z;
  map_count : Z;
  ref_count : Z;
  mmap_cache : Z;
  start_code : Z; end_code : Z;
  start_data : Z; end_data : Z;
  start_heap : Z; mm_heap : Z;
  start_stack : Z
}.
Definition sizeof_vma : Z := 48.
Definition sizeof_mm : Z := 104.
Definition vma_list (mm : Z) : Z := u64 (mm + 16).

Definition with_pml4 (va pa : Z) (m : mm_struct) : mm_struct :=
  Mm va pa (map_count m) (ref_count m) (mmap_cache m) (start_code m) (end_code m) (start_data m) (end_data m) (start_heap m) (mm_heap m) (start_stack m).
Definition with_map_count (n : Z) (m : mm_struct) : mm_struct :=
  Mm (mm_pml4 m) (mm_pml4_pa m) n (ref_count m) (mmap_cache m) (start_code m) (end_code m) (start_data m) (end_data m) (start_heap m) (mm_heap m) (start_stack m).
Definition with_heap (h : Z) (m : mm_struct) : mm_struct :=
  Mm (mm_pml4 m) (mm_pml4_pa m) (map_count m) (ref_count m) (mmap_cache m) (start_code m) (end_code m) (start_data m) (end_data m) (start_heap m) h (start_stack m).

(** Objects are removed when they are freed: a later access faults. *)
Record vmm_st (A : Type) := VmmSt {
  vm_kheap : kheap_st (pg_st A);
  vm_links : links;
  vm_vmas : gmap Z vma_struct;
  vm_mms : gmap Z mm_struct
}.
Arguments VmmSt {A} _ _ _ _.
Arguments vm_kheap {A} _.
Arguments vm_links {A} _.
Arguments vm_vmas {A} _.
Arguments vm_mms {A} _.

Definition set_kheap {A} (h : kheap_st (pg_st A)) (s : vmm_st A) : vmm_st A := VmmSt h (vm_links s) (vm_vmas s) (vm_mms s).
Definition set_vm_links {A} (l : links) (s : vmm_st A) : vmm_st A := VmmSt (vm_kheap s) l (vm_vmas s) (vm_mms s).
Definition set_vmas {A} (m : gmap Z vma_struct) (s : vmm_st A) : vmm_st A := VmmSt (vm_kheap s) (vm_links s) m (vm_mms s).
Definition set_mms {A} (m : gmap Z mm_struct) (s : vmm_st A) : vmm_st A := VmmSt (vm_kheap s) (vm_links s) (vm_vmas s) m.

(** The page tables and the frame allocator below. *)
Definition vm_pg {A} (s : vmm_st A) : pg_st A := kh_pages (vm_kheap s).
Definition set_pg {A} (p : pg_st A) (s : vmm_st A) : vmm_st A := set_kheap (set_pages p (vm_kheap s)) s.

#[export] Program Instance vmm_traced {A} `{!Traced A} : Traced (vmm_st A) := {|
  trace s := trace (vm_pg s);
  push_event e s := set_pg (push_event e (vm_pg s)) s
|}.
Next Obligation. intros. apply trace_push. Qed.

(** List nodes are in kernel memory. *)
#[export] Program Instance vmm_store {A} : LinkStore (vmm_st A) := {|
  ls_links := vm_links;
  ls_set := set_vm_links;
  ls_ok s a := 0 <? a
|}.
Solve Obligations with (intros; try done; by destruct s).

Section vmm.
  Context {A : Type} `{FA : FrameAlloc A}.
  Context (HHDM_OFFSET kheap_list : Z).
  Abbreviation St := (vmm_st A).

#[local] Instance vmm_pages : KernelPages (pg_st A) := kernel_pages HHDM_OFFSET.

Definition on_pg {R} (m : M (pg_st A) R) : M St R := zoom vm_pg set_pg m.
Definition pmm_alloc_page : M St Z := on_pg (on_alloc fa_alloc).
Definition pmm_free_page (pa : Z) : M St unit := on_pg (on_alloc (fa_free pa)).

(** The heap's [kmalloc]; every recursive call of it has used up a frame. *)
Definition kmalloc (size : Z) : M St Z :=
  zoom vm_kheap set_kheap
    (fuel ← gets (λ h, S (S (frames_left (kh_pages h)))); Kheap.kmalloc kheap_list fuel size).
Definition kfree (p : Z) : M St unit := zoom vm_kheap set_kheap (Kheap.kfree kheap_list p).

Definition get_mm (p : Z) : M St mm_struct := m ← gets vm_mms; or_crash NullDeref (m !! p).
Definition update_mm (p : Z) (f : mm_struct → mm_struct) : M St unit :=
  m ← get_mm p; modify (λ s, set_mms (<[p := f m]> (vm_mms s)) s).
Definition get_vma (p : Z) : M St vma_struct := m ← gets vm_vmas; or_crash NullDeref (m !! p).

(** [kfree] of an object. *)
Definition free_mm_object (mm : Z) : M St unit := modify (λ s, set_mms (delete mm (vm_mms s)) s);; kfree mm.
Definition free_vma_object (vma : Z) : M St unit := modify (λ s, set_vmas (delete vma (vm_vmas s)) s);; kfree vma.

Definition mm_alloc : M St Z :=
  mm ← kmalloc sizeof_mm;
  if mm =? 0 then mret 0 else
  modify (λ s, set_mms (<[mm := Mm 0 0 0 0 0 0 0 0 0 0 0 0]> (vm_mms s)) s);;
  pml4_pa ← pmm_alloc_page;
  if pml4_pa =? 0 then free_mm_object mm;; mret 0 else
  let pml4 := u64 (pml4_pa + HHDM_OFFSET) in
  update_mm mm (with_pml4 pml4 pml4_pa);;
  on_pg (memset_page pml4);;
  on_pg (root ← gets kernel_pml4; for_n 256 256 (λ i, e ← load (slot root i); store (slot pml4 i) e));;
  list_init (vma_list mm);;
  mret mm.

(** The loop over the areas of an address space; [&vma->list_node] is [vma]. *)
Fixpoint free_vmas (fuel : nat) (head node : Z) : M St unit :=
  match fuel with
  | O => crash OutOfFuel
  | S fuel' =>
    if node =? head then mret tt else
    next ← get_next node;
    free_vma_object (container_of node 0);;
    free_vmas fuel' head next
  end.

(** A list of areas cannot be longer than there are areas. *)
Definition vma_fuel (s : St) : nat := S (size (vm_vmas s)).

Definition mm_free (mm : Z) : M St unit :=
  if mm =? 0 then mret tt else
  fuel ← gets vma_fuel;
  node ← get_next (vma_list mm);
  free_vmas fuel (vma_list mm) node;;
  m ← get_mm mm;
  (if negb (mm_pml4 m =? 0) then
     on_pg (user_pgtable_free_recursive HHDM_OFFSET (mm_pml4 m) 4);;
     pmm_free_page (mm_pml4_pa m)
   else mret tt);;
  free_mm_object mm.

(** One page of the rollback: free its frame and clear its entry. *)
Definition unmap_page (root va : Z) : M St unit :=
  pte ← on_pg (vmm_get_pte HHDM_OFFSET root va);
  if pte =? 0 then mret tt else
  e ← on_pg (load pte);
  if pte_present e then
    pmm_free_page (PTE_GET_ADDR e);; on_pg (store pte 0)
  else mret tt.

(** The mapping loop of [mm_map_range] from page [i] on. *)
Fixpoint map_pages (n : nat) (i mm vma start pte_flags : Z) : M St bool :=
  match n with
  | O => mret true
  | S n' =>
    let va := u64 (start + u64 (i * PAGE_SIZE)) in
    pa ← pmm_alloc_page;
    m ← get_mm mm;
    if pa =? 0 then
      for_n (Z.to_nat i) 0 (λ j, unmap_page (mm_pml4 m) (u64 (start + u64 (j * PAGE_SIZE))));;
      free_vma_object vma;;
      mret false
    else
      on_pg (vmm_map_page HHDM_OFFSET (mm_pml4 m) va pa pte_flags);;
      map_pages n' (i + 1) mm vma start pte_flags
  end.

Definition pte_flags_of (flags : Z) : Z :=
  let pte_flags := Z.lor PTE_PRESENT PTE_USER in
  if negb (Z.land flags VM_WRITE =? 0) then Z.lor pte_flags PTE_RW else pte_flags.

Definition mm_map_range (mm va size flags : Z) : M St bool :=
  if (mm =? 0) || (size =? 0) then mret false else
  let start := ALIGN_DOWN va PAGE_SIZE in
  let end_ := ALIGN_UP (u64 (va + size)) PAGE_SIZE in
  let pages := u64 (end_ - start) / PAGE_SIZE in
  vma ← kmalloc sizeof_vma;
  if vma =? 0 then mret false else
  modify (λ s, set_vmas (<[vma := Vma mm start end_ flags]> (vm_vmas s)) s);;
  list_add_before vma (vma_list mm);;
  update_mm mm (λ m, with_map_count (i32 (map_count m + 1)) m);;
  map_pages (Z.to_nat pages) 0 mm vma start (pte_flags_of flags).

(** [memcpy] of a whole page through the direct map, word by word. *)
Definition copy_page (dst src : Z) : M St unit :=
  on_pg (modify (λ p, set_pg_mem (foldl (λ mem i,
    match pg_mem p !! slot src i with
    | Some w => <[slot dst i := w]> mem
    | None => delete (slot dst i) mem
    end) (pg_mem p) (seqZ 0 512)) p)).

(** The page loop of [mm_copy]; false when it has released [dst]. *)
Fixpoint copy_pages (n : nat) (vaddr dst : Z) (src_root dst_root : Z) : M St bool :=
  match n with
  | O => mret true
  | S n' =>
    src_pte ← on_pg (vmm_get_pte HHDM_OFFSET src_root vaddr);
    dst_pte ← on_pg (vmm_get_pte HHDM_OFFSET dst_root vaddr);
    let continue := copy_pages n' (u64 (vaddr + PAGE_SIZE)) dst src_root dst_root in
    if (src_pte =? 0) || (dst_pte =? 0) then continue else
    src_e ← on_pg (load src_pte);
    if negb (pte_present src_e) then continue else
    dst_e ← on_pg (load dst_pte);
    let src_pa := PTE_GET_ADDR src_e in
    let dst_pa := PTE_GET_ADDR dst_e in
    if dst_pa =? 0 then mm_free dst;; mret false else
    copy_page (u64 (dst_pa + HHDM_OFFSET)) (u64 (src_pa + HHDM_OFFSET));;
    on_pg (store dst_pte (Z.lor (Z.land dst_pa 0x000FFFFFFFFFF000) (Z.land src_e 0xFFF)));;
    continue
  end.

(** The area loop. *)
Fixpoint copy_vmas (fuel : nat) (dst src node : Z) : M St bool :=
  match fuel with
  | O => crash OutOfFuel
  | S fuel' =>
    if node =? vma_list src then mret true else
    let src_vma := container_of node 0 in
    next ← get_next node;
    v ← get_vma src_vma;
    ok ← mm_map_range dst (vm_start v) (u64 (vm_end v - vm_start v)) (vm_flags v);
    if negb ok then mm_free dst;; mret false else
    sm ← get_mm src; dm ← get_mm dst;
    ok ← copy_pages (Z.to_nat ((vm_end v - vm_start v + (PAGE_SIZE - 1)) / PAGE_SIZE)) (vm_start v) dst (mm_pml4 sm) (mm_pml4 dm);
    if ok : bool then copy_vmas fuel' dst src next else mret false
  end.

Definition mm_copy (dst src : Z) : M St bool :=
  if (dst =? 0) || (src =? 0) then mret false else
  fuel ← gets vma_fuel;
  node ← get_next (vma_list src);
  copy_vmas fuel dst src node.

(** * Mapping a range *)

Implicit Types s : St.

Definition free_frames s : gset Z := fa_free_set (pg_alloc (vm_pg s)).
Definition trans s (root va : Z) : option Z := translate HHDM_OFFSET (pg_mem (vm_pg s)) root va.

Lemma on_pg_ok {R} (m : M (pg_st A) R) s r p : m (vm_pg s) = Ok (r, p) → on_pg m s = Ok (r, set_pg p s).
Proof. intros H. unfold on_pg, zoom. by rewrite H. Qed.

(** The state with another page-table state. *)
Lemma set_pg_pg s p : vm_pg (set_pg p s) = p.
Proof. done. Qed.

(** One page of the loop, with enough frames for it and its tables. *)
Lemma map_page_step root start flags ks p s' :
  let i := zlen ks in
  fa_ok (pg_alloc p) → range_mapped HHDM_OFFSET root start flags ks p (vm_pg s') → i < 2 ^ 36 →
  0 ≤ flags < PAGE_SIZE → pte_present flags = true → (4 ≤ size (free_frames s'))%nat →
  ∃ k s2 s3, pmm_alloc_page s' = Ok (k * PAGE_SIZE, s2) ∧ 0 < k
    ∧ on_pg (vmm_map_page HHDM_OFFSET root (start + i * PAGE_SIZE) (k * PAGE_SIZE) flags) s2 = Ok (tt, s3)
    ∧ s3 = set_pg (vm_pg s3) s' ∧ range_mapped HHDM_OFFSET root start flags (ks ++ [k]) p (vm_pg s3) ∧ vm_mms s2 = vm_mms s' ∧ (size (free_frames s') ≤ size (free_frames s3) + 4)%nat.
Proof.
  intros i Hok0 Hr Hb Hfl Hp Hn.
  destruct (range_step HHDM_OFFSET root start flags ks p (vm_pg s') Hok0 Hr Hb Hfl Hp Hn) as (k & p2 & p3 & Ea & Hk & Em & Hr3 & _ & Hsz).
  exists k, (set_pg p2 s'), (set_pg p3 s'). split; [by apply on_pg_ok|]. split; [done|].
  split; [by erewrite on_pg_ok by exact Em|]. by rewrite set_pg_pg.
Qed.

Lemma map_pages_ok n ks mm m vma start flags p s :
  let i := zlen ks in
  fa_ok (pg_alloc p) → range_mapped HHDM_OFFSET (mm_pml4 m) start flags ks p (vm_pg s) → vm_mms s !! mm = Some m → 0 ≤ start → start mod PAGE_SIZE = 0 →
  start + (i + Z.of_nat n) * PAGE_SIZE ≤ 2 ^ 47 → 0 ≤ flags < PAGE_SIZE → pte_present flags = true →
  (4 * n ≤ size (free_frames s))%nat →
  wp (map_pages n i mm vma start flags) s (λ r s', r = true ∧ s' = set_pg (vm_pg s') s
    ∧ ∃ ks', length ks' = n ∧ range_mapped HHDM_OFFSET (mm_pml4 m) start flags (ks ++ ks') p (vm_pg s')).
Proof.
  revert ks s. induction n as [|n IH]; intros ks s i Hok0 Hr Hmm H0 Hm Hb Hfl Hp Hn; cbn [map_pages].
  - apply wp_ret. split; [done|]. split; [by destruct s as [[] ? ? ?]|]. exists []. by rewrite app_nil_r.
  - assert (0 ≤ i) as Hi by (unfold i, zlen; lia).
    destruct (map_page_step _ _ _ _ _ _ Hok0 Hr) as (k & s2 & s3 & E2 & Hk & E3 & Est & Hr3 & Hms & Hcost); [unfold PAGE_SIZE in *; fold i; lia|done|done|lia|].
    fold i in E3.
    assert (vm_mms s2 !! mm = Some m) as Hmm2 by (rewrite Hms; exact Hmm).
    apply wp_bind. eapply wp_ok; [exact E2|]. apply wp_bind. eapply wp_ok; [unfold get_mm, gets, or_crash; cbv [mbind M_bind]; by rewrite Hmm2|].
    rewrite (proj2 (Z.eqb_neq _ _)) by (unfold PAGE_SIZE; lia).
    assert (u64 (start + u64 (i * PAGE_SIZE)) = start + i * PAGE_SIZE) as ->.
    { rewrite (u64_small (i * PAGE_SIZE)), u64_small; unfold PAGE_SIZE in *; lia. }
    apply wp_bind. eapply wp_ok; [exact E3|].
    assert (zlen (ks ++ [k]) = i + 1) as Ei by (unfold i, zlen; rewrite length_app; simpl; lia). rewrite <- Ei.
    eapply wp_mono; [apply (IH (ks ++ [k]) s3 Hok0 Hr3); try done; [by rewrite Est|rewrite ?Ei; lia|lia]|].
    cbn beta. intros r s4 (-> & Est4 & ks' & Hl & Hr4). split; [done|]. split; [by rewrite Est4, Est|].
    exists (k :: ks'). split; [simpl; lia|]. by rewrite <- app_assoc in Hr4.
Qed.

(** The object at [a] is inside an allocated block of the heap. *)
Definition in_block (bs : list block) (a : Z) : Prop :=
  ∃ b, b ∈ bs ∧ b_free b = false ∧ b_addr b + HEADER_SIZE ≤ a < b_addr b + HEADER_SIZE + b_size b.

(** Allocated blocks stay what they are. *)
Definition kept_blocks (bs bs' : list block) : Prop := ∀ b, b ∈ bs → b_free b = false → b ∈ bs'.

Lemma kept_in_block bs bs' a : kept_blocks bs bs' → in_block bs a → in_block bs' a.
Proof. intros H (b & Hb & Hf & Hr). exists b. auto. Qed.

(** How many areas the free blocks have room for, at 48 bytes and a header each. *)
Definition room (bs : list block) : Z :=
  foldr (λ b n, (if b_free b then b_size b / (ALIGN_UP sizeof_vma 8 + HEADER_SIZE) else 0) + n) 0 bs.

Lemma room_app l r : room (l ++ r) = room l + room r.
Proof. induction l as [|b l IH]; [done|]. unfold room in *. simpl. rewrite IH. lia. Qed.

Lemma room_carve l y r :
  fits (ALIGN_UP sizeof_vma 8) y → room (l ++ y :: r) ≤ room (l ++ carve y (ALIGN_UP sizeof_vma 8) ++ r) + 1.
Proof.
  intros Hy. rewrite !room_app. change (y :: r) with ([y] ++ r). rewrite room_app.
  assert (room [y] ≤ room (carve y (ALIGN_UP sizeof_vma 8)) + 1); [|lia].
  unfold fits in Hy. change (ALIGN_UP sizeof_vma 8) with 48 in *. unfold carve, room. destruct (b_free y) eqn:Ef; [|done].
  unfold HEADER_SIZE, MIN_SPLIT. change (ALIGN_UP sizeof_vma 8) with 48. cbn [foldr]. simpl in Hy. apply Is_true_true, Z.leb_le in Hy.
  destruct (Z.leb_spec (48 + 32 + 16) (b_size y)); simpl; rewrite Ef; Z.to_euclidean_division_equations; lia.
Qed.

Lemma room_fits bs : Forall (λ b, 0 ≤ b_size b) bs → 0 < room bs → Exists (fits (ALIGN_UP sizeof_vma 8)) bs.
Proof.
  change (ALIGN_UP sizeof_vma 8) with 48. induction 1 as [|b bs Hb _ IH]; [done|]. unfold room. cbn [foldr]. fold (room bs).
  change (ALIGN_UP sizeof_vma 8) with 48. intros Hr. unfold fits.
  destruct (b_free b) eqn:Ef; [|right; apply IH; lia].
  destruct (Z.leb_spec 48 (b_size b)) as [Hle|Hlt]; [left; rewrite Ef; simpl; by rewrite (proj2 (Z.leb_le _ _))|].
  right. apply IH. unfold HEADER_SIZE in *. rewrite Z.div_small in Hr by lia. lia.
Qed.

(** A free block of [n] bytes. *)
Definition roomy (n : Z) (bs : list block) : Prop := ∃ b, b ∈ bs ∧ b_free b = true ∧ n ≤ b_size b.

Lemma roomy_fits n m bs : roomy n bs → m ≤ n → Exists (fits m) bs.
Proof.
  intros (b & Hb & Hf & Hn) Hm. apply Exists_exists. exists b. split; [done|]. unfold fits. rewrite Hf. simpl. apply Is_true_true, Z.leb_le. lia.
Qed.

Lemma roomy_least m n bs : (m <=? n) = true → roomy n bs → roomy m bs.
Proof. intros Hm%Z.leb_le (b & Hb & Hf & Hn). exists b. split; [done|]. split; [done|]. lia. Qed.

(** Carving one object leaves the rest of the block. *)
Lemma roomy_carve n sz l y r :
  roomy n (l ++ y :: r) → 0 ≤ sz → sz + HEADER_SIZE + MIN_SPLIT ≤ n → roomy (n - sz - HEADER_SIZE) (l ++ carve y sz ++ r).
Proof.
  intros (b & Hb & Hf & Hn) H0 Hs. unfold HEADER_SIZE, MIN_SPLIT in *. apply elem_of_app in Hb as [Hb|[->|Hb]%elem_of_cons].
  - exists b. split; [apply elem_of_app; by left|]. split; [done|]. lia.
  - unfold carve. rewrite (proj2 (Z.leb_le _ _)) by (unfold HEADER_SIZE, MIN_SPLIT; lia).
    exists (Block (b_addr y + HEADER_SIZE + sz) (b_size y - sz - HEADER_SIZE) true). split; [set_solver|]. split; [done|].
    simpl. unfold HEADER_SIZE. lia.
  - exists b. split; [rewrite !elem_of_app; tauto|]. split; [done|]. lia.
Qed.

Lemma roomy_room n bs : Forall (λ b, 0 ≤ b_size b) bs → roomy n bs → n / (ALIGN_UP sizeof_vma 8 + HEADER_SIZE) ≤ room bs.
Proof.
  change (ALIGN_UP sizeof_vma 8 + HEADER_SIZE) with 80.
  assert (∀ l, Forall (λ b, 0 ≤ b_size b) l → 0 ≤ room l) as Hpos.
  { induction 1 as [|b l Hb _ IH]; [done|]. unfold room in *. cbn [foldr]. change (ALIGN_UP sizeof_vma 8 + HEADER_SIZE) with 80 in *.
    destruct (b_free b); [|lia]. pose proof (Z.div_pos (b_size b) 80). lia. }
  intros Hall (b & (l & r & ->)%list_elem_of_split & Hf & Hn). apply Forall_app in Hall as [Hl [_ Hr]%Forall_cons].
  rewrite room_app. change (b :: r) with ([b] ++ r). rewrite room_app. pose proof (Hpos l Hl). pose proof (Hpos r Hr).
  assert (room [b] = b_size b / 80) as -> by (unfold room; simpl; rewrite Hf; change (ALIGN_UP sizeof_vma 8 + HEADER_SIZE) with 80; lia).
  pose proof (Z.div_le_mono n (b_size b) 80). lia.
Qed.

(** What is left when [c] bytes are taken from the heap. *)
Definition spends (c : Z) (bs bs' : list block) : Prop := ∀ n, c + MIN_SPLIT ≤ n → roomy n bs → roomy (n - c) bs'.

Lemma spends_carve sz l y r : 0 ≤ sz → spends (sz + HEADER_SIZE) (l ++ y :: r) (l ++ carve y sz ++ r).
Proof. intros H0 n Hn Hr. replace (n - (sz + HEADER_SIZE)) with (n - sz - HEADER_SIZE) by lia. apply roomy_carve; [done|done|lia]. Qed.

Lemma kheap_sizes h bs : kheap_ok kheap_list h bs → Forall (λ b, 0 ≤ b_size b) bs.
Proof. intros [Hh _]. apply Forall_forall. intros b Hb. by destruct (ha_in _ _ _ _ Hh b Hb) as (_ & ? & _). Qed.

(** [kmalloc] of an object when a free block fits: the page tables stay as they
    are, the object is at no address of an allocated block, and room for one area at
    most is gone. *)
Record object_at (s : St) (bs : list block) (p : Z) (h : kheap_st (pg_st A)) (bs' : list block) : Prop := {
  oa_pages : kh_pages h = vm_pg s;
  oa_heap : kheap_ok kheap_list h bs';
  oa_block : ∃ x, x ∈ bs' ∧ p = b_addr x + HEADER_SIZE;
  oa_range : KERNEL_HEAP_BASE < p ≤ KERNEL_MMIO_BASE;
  oa_fresh : ¬ in_block bs p;
  oa_in : in_block bs' p;
  oa_kept : kept_blocks bs bs'
}.

Lemma oa_old s bs p h bs' a : object_at s bs p h bs' → in_block bs a → in_block bs' a.
Proof. intros Ho. apply kept_in_block, Ho. Qed.

Lemma kmalloc_object_ok s bs size :
  kheap_ok kheap_list (vm_kheap s) bs → 0 < size ≤ 4096 → Exists (fits (ALIGN_UP size 8)) bs →
  ∃ p h bs', kmalloc size s = Ok (p, set_kheap h s) ∧ object_at s bs p h bs'
    ∧ (∀ d, 0 ≤ d < size → ¬ in_block bs (p + d) ∧ in_block bs' (p + d))
    ∧ (∃ x, x ∈ bs' ∧ b_free x = false ∧ p = b_addr x + HEADER_SIZE ∧ size ≤ b_size x)
    ∧ ∃ l y r, bs = l ++ y :: r ∧ fits (ALIGN_UP size 8) y ∧ bs' = l ++ carve y (ALIGN_UP size 8) ++ r.
Proof.
  intros Hok Hsz Hf.
  destruct (kmalloc_fit kheap_list (vm_kheap s) bs size (S (frames_left (vm_pg s))) Hok)
    as (h & bs' & x & E & Hok' & Hx & Hxs & Hp & (y & Hy & Hxy) & [Hpg _] & Hsplit); [lia|lia|done|].
  exists (b_addr x + HEADER_SIZE), h, bs'. split.
  { unfold kmalloc, zoom. change (gets _ _) with (Ok (S (S (frames_left (vm_pg s))), vm_kheap s)).
    unfold mbind, M_bind, gets. unfold vm_pg in E. by rewrite E. }
  destruct (ha_in _ _ _ _ (proj1 Hok') x Hx) as (H1 & H2 & H3 & H4).
  assert (y ∈ bs ∧ b_free y = true ∧ size ≤ b_size y) as (Hyin & Hyf & Hys).
  { destruct (list_find (fits (ALIGN_UP size 8)) bs) as [[i z]|] eqn:El; [|done]. simpl in Hy. simplify_eq.
    apply list_find_Some in El as (Hl & Hfit & _). split; [by eapply list_elem_of_lookup_2|].
    unfold fits in Hfit. destruct (b_free y); [|done]. simpl in Hfit. apply Is_true_true, Z.leb_le in Hfit.
    destruct (word_align_up size) as [_ ?]; [lia|lia|]. split; [done|lia]. }
  destruct (ha_in _ _ _ _ (proj1 Hok) y Hyin) as (H5 & H6 & H7 & H8).
  assert (∀ b, b ∈ x :: allocated bs → b ∈ bs' ∧ b_free b = false) as Hal.
  { intros b Hb. rewrite <- Hp in Hb. unfold allocated in Hb. apply list_elem_of_filter in Hb. tauto. }
  assert (∀ d, 0 ≤ d < size → ¬ in_block bs (b_addr x + HEADER_SIZE + d) ∧ in_block bs' (b_addr x + HEADER_SIZE + d)) as Hspan.
  { intros d Hd. split.
    - intros (b & Hb & Hbf & Hr). destruct (tiles_disjoint _ _ _ y b (ha_tiles _ _ _ _ (proj1 Hok)) Hyin Hb) as [->|Hdj]; [congruence|].
      rewrite Hxy in Hr. unfold HEADER_SIZE in *. lia.
    - destruct (Hal x ltac:(by left)). exists x. split; [done|]. split; [done|]. lia. }
  destruct (Hspan 0) as [Hs1 Hs2]; [lia|]. rewrite Z.add_0_r in Hs1, Hs2.
  split; [|split; [exact Hspan|split; [destruct (Hal x ltac:(by left)); by exists x|done]]].
  constructor; [done|done|by exists x|unfold HEADER_SIZE in *; lia|done|done|].
  intros b Hb Hbf. destruct (Hal b) as [? _]; [|done]. right. unfold allocated. by apply list_elem_of_filter.
Qed.

(** A well-formed address space with the areas [xs]: its list, and all its objects
    in allocated blocks of the heap. *)
Record mm_ok s (bs : list block) (mm : Z) (m : mm_struct) (xs : list Z) : Prop := {
  mo_heap : kheap_ok kheap_list (vm_kheap s) bs;
  mo_mm : vm_mms s !! mm = Some m;
  mo_pos : 0 < mm;
  mo_wf : pt_wf HHDM_OFFSET (vm_pg s) (mm_pml4 m);
  mo_ring : ring (vm_links s) (vma_list mm) xs;
  mo_nodes a : a ∈ vma_list mm :: xs → in_block bs a
}.

Lemma in_block_pos s bs a : kheap_ok kheap_list (vm_kheap s) bs → in_block bs a → 0 < a.
Proof.
  intros [Hh _] (b & Hb & _ & Hr). destruct (ha_in _ _ _ _ Hh b Hb). unfold KERNEL_HEAP_BASE, HEADER_SIZE in *. lia.
Qed.

Lemma pte_flags_ok flags : 0 ≤ pte_flags_of flags < PAGE_SIZE ∧ pte_present (pte_flags_of flags) = true.
Proof. unfold pte_flags_of. by destruct (negb (Z.land flags VM_WRITE =? 0)). Qed.

(** The addresses from [start] to [end_] are mapped, page by page, to the frames [ks]:
    different frames, all of which were free and none of which is any more.  No address
    of another page changes. *)
Definition fresh_pages s s' (root start end_ flags : Z) : Prop :=
  ∃ ks, NoDup ks ∧ end_ = start + zlen ks * PAGE_SIZE
  ∧ (∀ va, start ≤ va < end_ → ∃ k, ks !! Z.to_nat ((va - start) / PAGE_SIZE) = Some k
       ∧ k ∈ free_frames s ∧ (k ∉ free_frames s') ∧ trans s' root va = Some (leaf_entry (k * PAGE_SIZE) (pte_flags_of flags)))
  ∧ ∀ va, (∀ j, 0 ≤ j < zlen ks → vpn va ≠ vpn (start + j * PAGE_SIZE)) → trans s' root va = trans s root va.

(** The area [vma] was added to the address space [mm], with the frames [ks] for its
    pages; [bs'] are the blocks of the heap. *)
Record area_added s bs mm m xs start end_ flags s' (vma : Z) (ks : list Z) (bs' : list block) : Prop := {
  aa_vmas : vm_vmas s' = <[vma := Vma mm start end_ flags]> (vm_vmas s);
  aa_mms : vm_mms s' = <[mm := with_map_count (i32 (map_count m + 1)) m]> (vm_mms s);
  aa_links : vm_links s' = inserted (vm_links s) vma (last_or (vma_list mm) xs) (vma_list mm);
  aa_ring : ring (vm_links s') (vma_list mm) (xs ++ [vma]);
  aa_obj : object_at s bs vma (set_pages (vm_pg s) (vm_kheap s')) bs';
  aa_room : room bs ≤ room bs' + 1;
  aa_spent : spends (ALIGN_UP sizeof_vma 8 + HEADER_SIZE) bs bs';
  aa_range : range_mapped HHDM_OFFSET (mm_pml4 m) start (pte_flags_of flags) ks (vm_pg s) (vm_pg s');
  aa_pages : end_ = start + zlen ks * PAGE_SIZE ∧ 0 ≤ start ∧ start mod PAGE_SIZE = 0 ∧ end_ ≤ 2 ^ 47
}.

(** The state in which the mapping loop starts. *)
Definition area_linked s mm m (xs : list Z) start end_ flags (vma : Z) (h : kheap_st (pg_st A)) : St :=
  set_mms (<[mm := with_map_count (i32 (map_count m + 1)) m]> (vm_mms s))
    (set_vm_links (inserted (vm_links s) vma (last_or (vma_list mm) xs) (vma_list mm))
      (set_vmas (<[vma := Vma mm start end_ flags]> (vm_vmas s)) (set_kheap h s))).

Lemma mm_map_range_starts s bs mm m xs va size flags :
  mm_ok s bs mm m xs → Exists (fits (ALIGN_UP sizeof_vma 8)) bs →
  0 ≤ va → 0 < size → va + size + PAGE_SIZE ≤ 2 ^ 47 →
  let start := ALIGN_DOWN va PAGE_SIZE in
  let end_ := ALIGN_UP (va + size) PAGE_SIZE in
  let n := (end_ - start) / PAGE_SIZE in
  end_ = start + n * PAGE_SIZE ∧ 0 < n ∧ 0 ≤ start ∧ start mod PAGE_SIZE = 0 ∧ end_ ≤ 2 ^ 47
  ∧ ∃ vma h bs', let s3 := area_linked s mm m xs start end_ flags vma h in
    mm_map_range mm va size flags s = map_pages (Z.to_nat n) 0 mm vma start (pte_flags_of flags) s3
    ∧ object_at s bs vma h bs' ∧ (room bs ≤ room bs' + 1 ∧ spends (ALIGN_UP sizeof_vma 8 + HEADER_SIZE) bs bs') ∧ ring (vm_links s3) (vma_list mm) (xs ++ [vma]).
Proof.
  intros [Hok Hmm Hpos Hwf Hring Hnodes] Hfit H0 Hs Hb start end_ n.
  destruct (page_align_down va H0) as [Hdm Hd]. destruct (page_align_up (va + size)) as [Hum Hu]; [lia|unfold PAGE_SIZE in *; lia|].
  fold start in Hdm, Hd. fold end_ in Hum, Hu.
  assert (start < end_ ∧ 0 ≤ start ∧ end_ ≤ 2 ^ 47) as (Hlt & Hst0 & He47) by (unfold PAGE_SIZE in *; Z.to_euclidean_division_equations; lia).
  assert (end_ = start + n * PAGE_SIZE ∧ 0 < n) as [En Hn0] by (unfold n, PAGE_SIZE in *; Z.to_euclidean_division_equations; lia).
  do 5 (split; [done|]).
  destruct (kmalloc_object_ok s bs sizeof_vma Hok ltac:(done) Hfit) as (p & h & bs' & E & Hobj & _ & _ & l & y & r & -> & Hy & ->).
  exists p, h, (l ++ carve y (ALIGN_UP sizeof_vma 8) ++ r). intros s3.
  pose proof Hobj as [Hpg _ _ Hp Hfresh _ _].
  set (s1 := set_vmas (<[p := Vma mm start end_ flags]> (vm_vmas s)) (set_kheap h s)).
  assert (ring (ls_links s1) (vma_list mm) xs) as Hr1 by exact Hring.
  destruct (list_add_before_spec s1 (vma_list mm) xs p Hr1) as [El Hr2].
  { intros Hin'. by apply Hfresh, Hnodes. }
  { simpl. apply Z.ltb_lt. unfold KERNEL_HEAP_BASE in *. lia. }
  { intros x Hx. simpl. apply Z.ltb_lt. by eapply in_block_pos, Hnodes. }
  split; [|split; [done|split; [split; [by apply room_carve|by apply spends_carve]|exact Hr2]]].
  unfold mm_map_range. rewrite (proj2 (Z.eqb_neq mm 0)), (proj2 (Z.eqb_neq size 0)) by lia. cbn [orb].
  rewrite (u64_small (va + size)) by (unfold PAGE_SIZE in *; lia). fold start. fold end_.
  rewrite (u64_small (end_ - start)) by lia. fold n.
  rewrite (bind_ok _ _ _ _ _ E), (proj2 (Z.eqb_neq p 0)) by (unfold KERNEL_HEAP_BASE in *; lia).
  unfold modify at 1. erewrite bind_ok by reflexivity. fold s1. rewrite (bind_ok _ _ _ _ _ El).
  unfold update_mm, get_mm, gets, or_crash, modify. cbv [mbind M_bind].
  change (vm_mms (ls_set _ s1)) with (vm_mms s). rewrite Hmm. reflexivity.
Qed.

Lemma mm_map_range_ok s bs mm m xs va size flags :
  mm_ok s bs mm m xs → Exists (fits (ALIGN_UP sizeof_vma 8)) bs →
  0 ≤ va → 0 < size → va + size + PAGE_SIZE ≤ 2 ^ 47 →
  let start := ALIGN_DOWN va PAGE_SIZE in
  let end_ := ALIGN_UP (va + size) PAGE_SIZE in
  4 * ((end_ - start) / PAGE_SIZE) ≤ Z.of_nat (base.size (free_frames s)) →
  wp (mm_map_range mm va size flags) s (λ r s', r = true ∧ ∃ vma ks bs', area_added s bs mm m xs start end_ flags s' vma ks bs').
Proof.
  intros Hmok Hfit H0 Hs Hb start end_ Hfr. pose proof (mo_wf _ _ _ _ _ Hmok) as Hwf.
  destruct (mm_map_range_starts s bs mm m xs va size flags Hmok Hfit H0 Hs Hb) as (En & Hn0 & Hst & Hsm & He & p & h & bs' & E & Hobj & [Hroom Hspent] & Hr2).
  fold start in En, Hn0, Hst, Hsm, E, Hr2. fold end_ in En, Hn0, He, E, Hr2. set (n := (end_ - start) / PAGE_SIZE) in *.
  unfold wp. rewrite E. clear E. set (m' := with_map_count (i32 (map_count m + 1)) m). set (s3 := area_linked _ _ _ _ _ _ _ _ _) in *.
  assert (vm_pg s3 = vm_pg s) as Epg by apply Hobj. destruct (pte_flags_ok flags) as [Hfl1 Hfl2].
  eapply wp_mono; [apply (map_pages_ok (Z.to_nat n) [] mm m' p start (pte_flags_of flags) (vm_pg s) s3); try done|].
  - apply Hwf.
  - rewrite Epg. by apply range_mapped_refl.
  - apply lookup_insert_eq.
  - change (zlen []) with 0. lia.
  - unfold free_frames. rewrite Epg. fold (free_frames s). lia.
  - cbn beta. intros rr s4 (-> & Est4 & ks & Hl & Hr4). change (mm_pml4 m') with (mm_pml4 m) in *. rewrite app_nil_l in Hr4.
    split; [done|]. exists p, ks, bs'. constructor; [by rewrite Est4|by rewrite Est4|by rewrite Est4|by rewrite Est4| |done|done|done|].
    + rewrite Est4. assert (set_pages (vm_pg s) (vm_kheap (set_pg (vm_pg s4) s3)) = h) as ->; [|done].
      rewrite <- (oa_pages _ _ _ _ _ Hobj). by destruct h.
    + unfold zlen. rewrite Hl, Z2Nat.id by lia. done.
Qed.

Lemma area_fresh_pages s bs mm m xs start end_ flags s' vma ks bs' :
  area_added s bs mm m xs start end_ flags s' vma ks bs' → fresh_pages s s' (mm_pml4 m) start end_ flags.
Proof.
  intros [_ _ _ _ _ _ _ [Hwf _ _ _ _ Hnd Hin Hout _ _ _ _] (En & H0 & Hm & Hb)]. exists ks. split; [done|]. split; [done|].
  split; [|exact Hout]. intros a Ha. destruct (lookup_lt_is_Some_2 ks (Z.to_nat ((a - start) / PAGE_SIZE))) as [k Hk].
  { unfold zlen, PAGE_SIZE in *. Z.to_euclidean_division_equations; lia. }
  destruct (Hin _ k Hk) as (Hk1 & Hk2 & _ & Hk3). exists k. split; [done|]. split; [done|]. split; [done|].
  unfold trans. rewrite <- Hk3. apply translate_vpn. rewrite !vpn_low by (unfold PAGE_SIZE in *; Z.to_euclidean_division_equations; lia).
  unfold PAGE_SIZE in *. Z.to_euclidean_division_equations; lia.
Qed.

(** Other page tables, in which the heap is still mapped. *)
Lemma mm_ok_set_pg s bs mm m xs p :
  mm_ok s bs mm m xs → kp_ok p → (∀ x, kp_mapped (vm_pg s) x = true → kp_mapped p x = true) → pt_wf HHDM_OFFSET p (mm_pml4 m) →
  mm_ok (set_pg p s) bs mm m xs.
Proof.
  intros [[Hh Hpa] Hmm Hpos Hwf Hring Hin] Hp Hm Hw. constructor; try done.
  split; [|exact Hpa]. by apply (heap_set_pages _ (vm_kheap s)).
Qed.

(** Fewer free frames. *)
Lemma mm_ok_alloc s bs mm m xs a :
  mm_ok s bs mm m xs → fa_ok a → fa_frames a = fa_frames (pg_alloc (vm_pg s)) → fa_free_set a ⊆ free_frames s →
  mm_ok (set_pg (set_pg_alloc a (vm_pg s)) s) bs mm m xs.
Proof.
  intros Hok Ha Hfr Hs. pose proof Hok as [[Hh _] _ _ Hwf _ _]. apply mm_ok_set_pg; [done| |done|by apply (pt_wf_alloc HHDM_OFFSET)].
  by apply (pt_wf_alloc HHDM_OFFSET); [apply (ha_pages _ _ _ _ Hh)|..].
Qed.

(** C10: [mm_map_range] maps every page of the range, in a well-formed address space
    and with four frames per page available: the pages get
    pairwise different frames that were free, user-accessible and writable as asked; no
    other address changes, the page tables stay well formed, and the area is appended
    to the list. *)
Theorem mm_map_range_maps s bs mm m xs va size flags :
  mm_ok s bs mm m xs → Exists (fits (ALIGN_UP sizeof_vma 8)) bs →
  0 ≤ va → 0 < size → va + size + PAGE_SIZE ≤ 2 ^ 47 →
  let start := ALIGN_DOWN va PAGE_SIZE in
  let end_ := ALIGN_UP (va + size) PAGE_SIZE in
  4 * ((end_ - start) / PAGE_SIZE) ≤ Z.of_nat (base.size (free_frames s)) →
  wp (mm_map_range mm va size flags) s (λ r s', r = true ∧ pt_wf HHDM_OFFSET (vm_pg s') (mm_pml4 m)
    ∧ fresh_pages s s' (mm_pml4 m) start end_ flags
    ∧ ∃ vma, ring (vm_links s') (vma_list mm) (xs ++ [vma]) ∧ vm_vmas s' !! vma = Some (Vma mm start end_ flags)).
Proof.
  intros H1 H2 H3 H4 H5 start end_ H6. eapply wp_mono; [by apply (mm_map_range_ok s bs mm m xs va size flags)|].
  cbn beta. intros r s' (-> & vma & ks & bs' & Ha). split; [done|]. split; [apply (aa_range _ _ _ _ _ _ _ _ _ _ _ _ Ha)|].
  split; [by eapply area_fresh_pages|]. exists vma. split; [apply Ha|]. rewrite (aa_vmas _ _ _ _ _ _ _ _ _ _ _ _ Ha). apply lookup_insert_eq.
Qed.

(** C40: when no frame is left, [mm_map_range] reports failure and frees the new area,
    but leaves it in the list of the address space: the next walk of the list, a
    fork or the release of the space, goes through freed memory. *)
Theorem mm_map_range_dangling s bs mm m xs va size flags :
  mm_ok s bs mm m xs → Exists (fits (ALIGN_UP sizeof_vma 8)) bs →
  0 ≤ va → 0 < size → va + size + PAGE_SIZE ≤ 2 ^ 47 → free_frames s = ∅ →
  wp (mm_map_range mm va size flags) s (λ r s', r = false
    ∧ ∃ vma, ring (vm_links s') (vma_list mm) (xs ++ [vma]) ∧ vm_vmas s' !! vma = None).
Proof.
  intros Hmok Hfit H0 Hs Hb Hno. pose proof (mo_wf _ _ _ _ _ Hmok) as Hwf.
  destruct (mm_map_range_starts s bs mm m xs va size flags Hmok Hfit H0 Hs Hb) as (_ & Hn0 & _ & _ & _ & p & h & bs' & E & Hobj & _ & Hr2).
  unfold wp. rewrite E. clear E. set (start := ALIGN_DOWN va PAGE_SIZE) in *. set (end_ := ALIGN_UP (va + size) PAGE_SIZE) in *.
  set (m' := with_map_count (i32 (map_count m + 1)) m). set (s3 := area_linked _ _ _ _ _ _ _ _ _) in *.
  destruct Hobj as [Hpg Hok' (x & Hx & Epx) _ _ _ _]. assert (vm_pg s3 = vm_pg s) as Epg by exact Hpg.
  destruct (Z.to_nat ((end_ - start) / PAGE_SIZE)) as [|n] eqn:En; [lia|]. cbn [map_pages].
  destruct (wp_inv _ _ _ (fa_alloc_spec _ (wf_alloc _ _ _ Hwf))) as (pa & a & Ea & Hoka & Hfra & Hc).
  destruct Hc as [(-> & _ & Hea)|(k & Hk & _)].
  2:{ unfold free_frames in Hno. rewrite Hno in Hk. set_solver. }
  apply wp_bind. eapply wp_ok; [unfold pmm_alloc_page; apply on_pg_ok; rewrite Epg; unfold on_alloc, zoom; by rewrite Ea|].
  set (s4 := set_pg _ s3). apply wp_bind. assert (get_mm mm s4 = Ok (m', s4)) as Em4.
  { unfold get_mm, gets, or_crash. cbv [mbind M_bind]. change (vm_mms s4) with (<[mm := m']> (vm_mms s)). by rewrite lookup_insert_eq. }
  eapply wp_ok; [exact Em4|]. cbn [Z.eqb]. apply wp_bind, wp_ret. unfold free_vma_object. apply wp_bind, wp_bind, wp_modify.
  apply list_elem_of_split in Hx as (l & r & ->). subst p.
  assert (heap_at kheap_list (vm_kheap s4) (kheap_top h) (l ++ x :: r)) as Hh4.
  { apply (heap_set_pages kheap_list h); [apply Hok'| |].
    - pose proof (ha_pages _ _ _ _ (proj1 Hok')) as Hkp. rewrite Hpg in Hkp. apply (pt_wf_alloc HHDM_OFFSET); [exact Hkp|done|done|].
      rewrite Hea. set_solver.
    - intros y Hy. rewrite Hpg in Hy. exact Hy. }
  destruct (kfree_ok kheap_list _ _ _ _ _ Hh4) as (h5 & E5 & _).
  unfold kfree. apply wp_zoom. eapply wp_ok; [exact E5|]. apply wp_ret. split; [done|].
  exists (b_addr x + HEADER_SIZE). split; [exact Hr2|]. apply lookup_delete_eq.
Qed.
End vmm.

(** * Witnesses: an address space on the heap of the Kheap examples *)

Section example.
Let H := KERNEL_HHDM_BASE.

(** [mm_struct] in the first block of the heap, with no areas; it uses the kernel's
    table, frame 4. *)
Definition mm_example : Z := KERNEL_HEAP_BASE + 32.
Definition mm_fields : mm_struct := Mm (kva H 4) (4 * PAGE_SIZE) 0 0 0 0 0 0 0 0 0x400800 0.
Definition heap_mm : kheap_st (pg_st pmm_st) := run_heap (Kheap.kmalloc (KernelPages0 := kernel_pages H) list_example 2 104) heap_empty.
Definition blocks_mm : list block := [Block KERNEL_HEAP_BASE 104 false; Block (KERNEL_HEAP_BASE + 136) 3928 true].
Definition vmm_example : vmm_st pmm_st :=
  VmmSt heap_mm (Links {[vma_list mm_example := vma_list mm_example]} {[vma_list mm_example := vma_list mm_example]}) ∅ {[mm_example := mm_fields]}.

Lemma heap_mm_ok : kheap_ok (KernelPages0 := kernel_pages H) list_example heap_mm blocks_mm.
Proof.
  destruct (first_alloc_ok heap_empty 104 heap_empty_ok) as [bs Hok];
    [lia|done|apply (bool_decide_unpack _); by vm_compute|by vm_compute|].
  apply (heap_view _ _ _ Hok); clear Hok.
  - split; [|by split_and!; vm_compute]. apply (bool_decide_unpack (NoDup _)). by vm_compute.
  - by split_and!; vm_compute.
  - constructor; [by split; vm_compute|]. constructor; [by split; vm_compute|]. constructor.
  - unfold blocks_mm. by rewrite !Forall_cons, Forall_nil.
Qed.

Lemma vmm_example_ok : mm_ok H list_example vmm_example blocks_mm mm_example mm_fields [].
Proof.
  pose proof heap_mm_ok as Hok. constructor.
  - exact Hok.
  - apply lookup_singleton_eq.
  - done.
  - pose proof (ha_pages _ _ _ _ (proj1 Hok)) as Hwf.
    assert (kernel_pml4 (kh_pages heap_mm) = kva H 4) as E by by vm_compute.
    change (pt_wf H (kh_pages heap_mm) (kernel_pml4 (kh_pages heap_mm))) in Hwf. rewrite E in Hwf. exact Hwf.
  - apply ring_empty; apply lookup_singleton_eq.
  - intros a. rewrite list_elem_of_singleton. intros ->. exists (Block KERNEL_HEAP_BASE 104 false). split; [by left|].
    split; [done|]. by vm_compute.
Qed.

Lemma blocks_mm_fit : Exists (fits (ALIGN_UP sizeof_vma 8)) blocks_mm.
Proof. right. left. done. Qed.

(** Two pages are mapped; the frames are chosen by the allocator. *)
Lemma mm_map_range_maps_witness :
  ∃ s', mm_map_range H list_example mm_example 0x10000 0x1800 3 vmm_example = Ok (true, s')
    ∧ ∃ k, trans H s' (kva H 4) 0x11000 = Some (leaf_entry (k * PAGE_SIZE) 7).
Proof.
  destruct (wp_inv _ _ _ (mm_map_range_maps H list_example vmm_example blocks_mm mm_example mm_fields [] 0x10000 0x1800 3
    vmm_example_ok blocks_mm_fit ltac:(lia) ltac:(lia) ltac:(unfold PAGE_SIZE; lia) ltac:(by vm_compute)))
    as (r & s' & E & -> & _ & Hf & _).
  exists s'. split; [exact E|]. destruct Hf as (ks & _ & _ & Hf & _).
  refine (match Hf 0x11000 _ with ex_intro _ k (conj _ (conj _ (conj _ Hk))) => ex_intro _ k Hk end).
  clear. by vm_compute.
Defined.

(** The same space once every frame is taken. *)
Definition pmm_full : pmm_st := PmmSt (replicate 8 0xFF) 0 8 64 0 0 [].
Definition vmm_full : vmm_st pmm_st := set_pg (set_pg_alloc pmm_full (vm_pg vmm_example)) vmm_example.

Lemma vmm_full_ok : mm_ok H list_example vmm_full blocks_mm mm_example mm_fields [].
Proof.
  assert (fa_ok pmm_full) as Hfa by by apply pmm_okb_sound; vm_compute.
  assert (fa_free_set pmm_full ⊆ free_frames vmm_example) as He by by apply (bool_decide_unpack _); vm_compute.
  assert (fa_frames pmm_full = fa_frames (pg_alloc (vm_pg vmm_example))) as Hfr by by vm_compute.
  exact (mm_ok_alloc H list_example vmm_example _ _ _ _ pmm_full vmm_example_ok Hfa Hfr He).
Qed.

Lemma mm_map_range_dangling_witness :
  ∃ s' vma, mm_map_range H list_example mm_example 0x10000 0x1800 3 vmm_full = Ok (false, s')
    ∧ ring (vm_links s') (vma_list mm_example) [vma] ∧ vm_vmas s' !! vma = None.
Proof.
  destruct (wp_inv _ _ _ (mm_map_range_dangling H list_example vmm_full blocks_mm mm_example mm_fields [] 0x10000 0x1800 3
    vmm_full_ok blocks_mm_fit ltac:(lia) ltac:(lia) ltac:(unfold PAGE_SIZE; lia)
    ltac:(by apply (bool_decide_unpack _); vm_compute))) as (r & s' & E & -> & vma & Hr & Hv).
  exists s', vma. split; [exact E|]. split; [exact Hr|exact Hv].
Defined.
End example.
