(* ===== verification/Vmmcopy.v ===== *)
(** Vmmcopy: what [mm_alloc] and [mm_copy] of [kernel/src/mm/vmm.c] promise to [fork]:
    a fresh address space that shares the kernel's half, and a deep copy of another
    one in it. *)
From S2P Require Import Prelude Layout Frames Pmm Paging Range Klist Kheap Vmm.

Section copy.
  Context {A : Type} `{FA : FrameAlloc A}.
  Context (HHDM_OFFSET kheap_list : Z).
  Abbreviation St := (vmm_st A).
  Abbreviation kva := (kva HHDM_OFFSET).
  Abbreviation translate := (translate HHDM_OFFSET).
  Abbreviation walk := (walk HHDM_OFFSET).
  Abbreviation pt_wf := (pt_wf HHDM_OFFSET).
  Abbreviation is_table := (is_table HHDM_OFFSET).
  Abbreviation private := (private HHDM_OFFSET).
  Abbreviation space_kept := (space_kept HHDM_OFFSET).

#[local] Instance copy_pages_env : KernelPages (pg_st A) := kernel_pages HHDM_OFFSET.

Implicit Types s : St.
Implicit Types p : pg_st A.

(** * Writing to data frames *)

(** [p'] differs from [p] in what the frames [ks] hold, at most. *)
Record frames_written (ks : list Z) p p' : Prop := {
  fs_alloc : pg_alloc p' = pg_alloc p;
  fs_regs : same_regs p p';
  fs_other k' i : 0 < k' < fa_frames (pg_alloc p) → k' ∉ ks → vidx i → pg_mem p' !! slot (kva k') i = pg_mem p !! slot (kva k') i
}.

(** A space none of whose tables is in the frames does not notice. *)
Lemma frames_written_kept p p' r ks :
  pt_wf p r → (∀ k, k ∈ ks → ¬ is_table p r k) → frames_written ks p p' →
  pt_wf p' r ∧ (∀ q, vpath q → (length q ≤ 3)%nat → walk (pg_mem p') r q = walk (pg_mem p) r q)
  ∧ (∀ va, translate (pg_mem p') r va = translate (pg_mem p) r va) ∧ ∀ k', is_table p' r k' ↔ is_table p r k'.
Proof.
  intros Hwf Hk [Ha _ Hm].
  assert (∀ q t i, vpath q → (length q ≤ 3)%nat → vidx i → walk (pg_mem p) r q = Some t →
    pg_mem p' !! slot t i = pg_mem p !! slot t i) as Hs.
  { intros q t i Hq Hl Hi Hw. destruct (wf_table _ _ _ Hwf q t Hq Hl Hw) as (k' & [Hr _] & -> & _).
    apply Hm; [done| |done]. intros Hin. apply (Hk k' Hin). by exists q. }
  assert (∀ q, vpath q → (length q ≤ 3)%nat → walk (pg_mem p') r q = walk (pg_mem p) r q) as Hw.
  { apply walk_mem_ext. intros q t i Hq Hl. apply Hs; [done|lia]. }
  split; [|split; [done|split]].
  - constructor; rewrite ?Ha; [apply Hwf|apply Hwf| |].
    + intros q t Hq Hl. rewrite Hw by done. intros Hwt. destruct (wf_table _ _ _ Hwf q t Hq Hl Hwt) as (k' & Hb & -> & Hi).
      exists k'. split; [done|]. split; [done|]. intros i Hvi. rewrite (Hs q); [by apply Hi|done..].
    + intros q q' t Hq Hq' Hl Hl'. rewrite !Hw by done. by apply (wf_inj _ _ _ Hwf).
  - intros va. apply leaf_ext; [apply Hw; [apply va_path_valid|done]|].
    intros t Hwt. apply (Hs (va_path va)); [apply va_path_valid|done|apply idx_range|done].
  - intros k'. split; intros (q & Hq & Hl & Hq'); exists q; [by rewrite Hw in Hq' by done|by rewrite Hw by done].
Qed.

(** [p'] differs from [p] in what frame [k] holds, at most. *)
Record frame_written (k : Z) p p' : Prop := {
  fw_alloc : pg_alloc p' = pg_alloc p;
  fw_regs : same_regs p p';
  fw_other k' i : 0 < k' < fa_frames (pg_alloc p) → k' ≠ k → vidx i → pg_mem p' !! slot (kva k') i = pg_mem p !! slot (kva k') i
}.

Lemma frame_written_among k ks p p' : k ∈ ks → frame_written k p p' → frames_written ks p p'.
Proof. intros Hk [H1 H2 H3]. constructor; [done|done|]. intros k' i Hr Hn Hi. apply H3; [done| |done]. by intros ->. Qed.

Lemma frame_written_kept p p' r k :
  pt_wf p r → ¬ is_table p r k → frame_written k p p' →
  pt_wf p' r ∧ (∀ q, vpath q → (length q ≤ 3)%nat → walk (pg_mem p') r q = walk (pg_mem p) r q)
  ∧ (∀ va, translate (pg_mem p') r va = translate (pg_mem p) r va) ∧ ∀ k', is_table p' r k' ↔ is_table p r k'.
Proof.
  intros Hwf Hk Hw. apply (frames_written_kept p p' r [k] Hwf); [by intros k' ->%list_elem_of_singleton|].
  apply (frame_written_among k); [by left|done].
Qed.

Section copy_page.
  Context (p : pg_st A) (kd ks : Z).
  Context (Hh : hhdm_fits HHDM_OFFSET (pg_alloc p)) (Hd : 0 < kd < fa_frames (pg_alloc p)) (Hs : 0 < ks < fa_frames (pg_alloc p)) (Hne : kd ≠ ks).

Let word (mem : gmap Z Z) (i : Z) : gmap Z Z :=
  match pg_mem p !! slot (kva ks) i with
  | Some w => <[slot (kva kd) i := w]> mem
  | None => delete (slot (kva kd) i) mem
  end.

Lemma copy_words l mem :
  Forall vidx l → NoDup l →
  (∀ i, i ∈ l → foldl word mem l !! slot (kva kd) i = pg_mem p !! slot (kva ks) i)
  ∧ ∀ a, (∀ i, i ∈ l → a ≠ slot (kva kd) i) → foldl word mem l !! a = mem !! a.
Proof using All.
  revert mem. induction l as [|j l IH]; intros mem Hv Hnd; simpl; [split; [set_solver|done]|].
  apply Forall_cons in Hv as [Hj Hv]. apply NoDup_cons in Hnd as [Hjl Hnd]. destruct (IH (word mem j) Hv Hnd) as [H1 H2].
  assert (∀ a, word mem j !! a = if decide (a = slot (kva kd) j) then pg_mem p !! slot (kva ks) j else mem !! a) as Hw.
  { intros a. unfold word. destruct (pg_mem p !! slot (kva ks) j) as [w|].
    - rewrite lookup_insert. repeat case_decide; congruence.
    - case_decide as E; [subst a; apply lookup_delete_eq|by apply lookup_delete_ne, not_eq_sym]. }
  split.
  - intros i [->|Hi]%elem_of_cons; [|by apply H1]. rewrite H2, Hw; [by rewrite decide_True|].
    intros i Hi Heq. apply (slot_inj _ _ Hh) in Heq as [_ ->]; [done|lia|lia|done|]. by eapply Forall_forall in Hv.
  - intros a Ha. rewrite H2 by (intros; apply Ha; by right). rewrite Hw, decide_False; [done|]. apply Ha. by left.
Qed.

Lemma copy_page_ok s :
  vm_pg s = p →
  ∃ p', copy_page (kva kd) (kva ks) s = Ok (tt, set_pg p' s) ∧ frame_written kd p p'
    ∧ ∀ i, vidx i → pg_mem p' !! slot (kva kd) i = pg_mem p !! slot (kva ks) i.
Proof using All.
  intros Ep. destruct (copy_words (seqZ 0 512) (pg_mem p)) as [H1 H2].
  { apply Forall_seqZ. unfold vidx. lia. }
  { apply NoDup_seqZ. }
  eexists. split; [unfold copy_page; apply on_pg_ok; unfold modify; rewrite Ep; reflexivity|]. split; [split; [done|done|]|].
  - intros k' i Hk' Hk Hi. apply H2. intros j Hj Heq. apply elem_of_seqZ in Hj.
    apply (slot_inj _ _ Hh) in Heq as [-> _]; [done|lia|lia|done|unfold vidx; lia].
  - intros i Hi. apply H1, elem_of_seqZ. unfold vidx in Hi. lia.
Qed.
End copy_page.

(** * One page of [mm_copy] *)

(** The entry [mm_copy] leaves for frame [kd], with the flags of the source entry. *)
Definition copied_entry (kd es : Z) : Z := Z.lor (kd * PAGE_SIZE) (Z.land es 0xFFF).

Lemma land_fff_bound e : 0 ≤ Z.land e 0xFFF < PAGE_SIZE.
Proof. change 0xFFF with (Z.ones 12). rewrite Z.land_ones by lia. apply Z.mod_pos_bound. done. Qed.

Lemma copied_entry_addr kd es : 0 ≤ kd < 2 ^ 40 → PTE_GET_ADDR (copied_entry kd es) = kd * PAGE_SIZE.
Proof. intros. apply pte_get_addr_lor; [done|apply land_fff_bound]. Qed.

Lemma copied_entry_present kd es : pte_present es = true → pte_present (copied_entry kd es) = true.
Proof.
  unfold copied_entry. rewrite pte_present_lor, !pte_present_bit. intros H.
  change 0xFFF with (Z.ones 12). rewrite Z.land_spec, H, Z.ones_spec_low by lia. by rewrite orb_true_r.
Qed.

(** What the page loop does for one mapped page [va]: frame [kd] behind [va] in [dr]
    gets the content of frame [ks] and the flags of [es]. *)
Record page_copied p p' (dr va kd ks es : Z) : Prop := {
  pc_alloc : pg_alloc p' = pg_alloc p;
  pc_regs : same_regs p p';
  pc_wf : pt_wf p' dr;
  pc_table k : is_table p' dr k ↔ is_table p dr k;
  pc_trans va' : translate (pg_mem p') dr va' =
    if decide (vpn va' = vpn va) then Some (copied_entry kd es) else translate (pg_mem p) dr va';
  pc_copied i : vidx i → pg_mem p' !! slot (kva kd) i = pg_mem p !! slot (kva ks) i;
  pc_data k i : fa_busy (pg_alloc p) k → k ≠ kd → ¬ is_table p dr k → vidx i → pg_mem p' !! slot (kva k) i = pg_mem p !! slot (kva k) i;
  pc_other r : pt_wf p r → private p dr r → ¬ is_table p r kd → space_kept p p' dr r
}.

Lemma page_copied_intro p p1 dr va kd ks es pt :
  pt_wf p dr → 0 ≤ va < 2 ^ 47 → fa_busy (pg_alloc p) kd → ¬ is_table p dr kd → pte_present es = true →
  frame_written kd p p1 → (∀ i, vidx i → pg_mem p1 !! slot (kva kd) i = pg_mem p !! slot (kva ks) i) →
  walk (pg_mem p) dr (va_path va) = Some pt →
  page_copied p (set_pg_mem (<[slot pt (PT_IDX va) := copied_entry kd es]> (pg_mem p1)) p1) dr va kd ks es.
Proof.
  intros Hwf Hva Hkd Hnt Hes Hfw Hcp Hpt. destruct (frame_written_kept p p1 dr kd Hwf Hnt Hfw) as (Hwf1 & Hw1 & Ht1 & Hi1).
  assert (walk (pg_mem p1) dr (va_path va) = Some pt) as Hpt1 by (rewrite Hw1; [done|apply va_path_valid|done]).
  set (p2 := set_pg_mem _ p1). pose proof (va_path_valid va) as Hvp. pose proof (idx_range (Z.shiftr va 12) : vidx (PT_IDX va)) as Hix.
  pose proof (leaf_store_wf HHDM_OFFSET p1 dr pt (PT_IDX va) (copied_entry kd es) (va_path va) Hwf1 Hvp eq_refl Hix Hpt1) as Hwf2.
  pose proof (leaf_store_walk HHDM_OFFSET p1 dr pt (PT_IDX va) (copied_entry kd es) (va_path va) Hwf1 Hvp eq_refl Hix Hpt1) as Hw2.
  pose proof (leaf_store_keeps HHDM_OFFSET p1 dr pt (PT_IDX va) (copied_entry kd es) (va_path va) Hwf1 Hvp eq_refl Hix Hpt1) as Hk2.
  pose proof (leaf_store_leaf HHDM_OFFSET p1 dr pt (PT_IDX va) (copied_entry kd es) (va_path va) Hwf1 Hvp eq_refl Hix Hpt1) as Hl2.
  cbv zeta in *. fold p2 in Hwf2, Hw2, Hk2, Hl2.
  assert (∀ k, is_table p2 dr k ↔ is_table p dr k) as Hi2.
  { intros k. rewrite <- Hi1. split; intros (q & Hq & Hl & Hq'); exists q; [by rewrite Hw2 in Hq' by done|by rewrite Hw2 by done]. }
  constructor; [exact (fw_alloc _ _ _ Hfw)|exact (fw_regs _ _ _ Hfw)|done|done| | | |].
  - intros va'. unfold translate at 1. rewrite Hl2 by (apply va_path_valid || done || apply idx_range).
    rewrite copied_entry_present by done. destruct (decide (vpn va' = vpn va)) as [Hv|Hv].
    + rewrite decide_True; [done|]. apply same_page_vpn in Hv as [-> ->]. done.
    + rewrite decide_False; [apply Ht1|]. intros E. apply Hv, same_page_vpn. injection E as E1 E2 E3 E4. split; [|done].
      unfold va_path. by rewrite E1, E2, E3.
  - intros i Hi. rewrite <- Hcp by done. apply (keeps_data HHDM_OFFSET p1 p2 dr (slot_path va)); try done.
    + by rewrite (fw_alloc _ _ _ Hfw).
    + by rewrite Hi1.
  - intros k i Hb Hne Hn Hi. rewrite (keeps_data HHDM_OFFSET p1 p2 dr (slot_path va)); try done.
    + apply (fw_other _ _ _ Hfw); [apply Hb|done|done].
    + by rewrite (fw_alloc _ _ _ Hfw).
    + by rewrite Hi1.
  - intros r Hr Hpr Hrn. destruct (frame_written_kept p p1 r kd Hr Hrn Hfw) as (Hr1 & Hrw1 & Hrt1 & Hri1).
    assert (private p1 dr r) as Hpr1.
    { intros q k Hq Hl Hlow. rewrite Hw1, Hri1 by done. by apply Hpr. }
    destruct (keeps_other HHDM_OFFSET p1 p2 dr r (slot_path va)) as [H1 H2 H3 H4]; try done.
    { by apply slot_path_low. }
    { apply Hr1. }
    constructor; [done|intros; by rewrite H2, Hrw1|intros; by rewrite H3, Hrt1|done].
Qed.

(** [vmm_get_pte] and the load behind it, seen through the translation. *)
Lemma get_pte_on_pg s root va :
  pt_wf (vm_pg s) root →
  ∃ r, on_pg (vmm_get_pte HHDM_OFFSET root va) s = Ok (r, s)
    ∧ ((r = 0 ∧ translate (pg_mem (vm_pg s)) root va = None)
       ∨ (r ≠ 0 ∧ ∃ e pt, walk (pg_mem (vm_pg s)) root (va_path va) = Some pt ∧ r = slot pt (PT_IDX va)
          ∧ on_pg (load r) s = Ok (e, s) ∧ translate (pg_mem (vm_pg s)) root va = if pte_present e then Some e else None)).
Proof.
  intros Hwf. destruct (vmm_get_pte_wp HHDM_OFFSET (vm_pg s) root va Hwf) as (r & E & Hr). exists r. split.
  { rewrite (on_pg_ok _ _ _ _ E). by destruct s as [[] ? ? ?]. }
  unfold translate at 1 2, leaf. destruct (walk (pg_mem (vm_pg s)) root (va_path va)) as [pt|] eqn:Ew.
  - right. destruct Hr as (Er & Hr0 & [e He]). split; [done|]. exists e, pt. rewrite <- Er. split; [done|]. split; [done|]. split.
    + assert (load r (vm_pg s) = Ok (e, vm_pg s)) as El by (unfold load, gets, or_crash; cbv [mbind M_bind]; by rewrite He).
      rewrite (on_pg_ok _ _ _ _ El). by destruct s as [[] ? ? ?].
    + simpl. rewrite Er in He. by rewrite He.
  - left. done.
Qed.

Lemma copy_step_skip n va dst sr dr s :
  pt_wf (vm_pg s) sr → pt_wf (vm_pg s) dr → translate (pg_mem (vm_pg s)) sr va = None →
  copy_pages HHDM_OFFSET kheap_list (S n) va dst sr dr s = copy_pages HHDM_OFFSET kheap_list n (u64 (va + PAGE_SIZE)) dst sr dr s.
Proof.
  intros Hs Hd Ht. cbn [copy_pages].
  destruct (get_pte_on_pg s sr va Hs) as (rs & Es & Hrs). destruct (get_pte_on_pg s dr va Hd) as (rd & Ed & Hrd).
  rewrite (bind_ok _ _ _ _ _ Es), (bind_ok _ _ _ _ _ Ed). cbv zeta.
  destruct Hrs as [[-> _]|(Hr0 & e & pt & _ & _ & El & Hte)]; [done|].
  rewrite (proj2 (Z.eqb_neq rs 0) Hr0). cbn [orb]. destruct (Z.eqb_spec rd 0); [done|].
  rewrite (bind_ok _ _ _ _ _ El). rewrite Ht in Hte. by destruct (pte_present e).
Qed.

Lemma copy_step_mapped n va dst sr dr s es ed kd :
  pt_wf (vm_pg s) sr → pt_wf (vm_pg s) dr → 0 ≤ va < 2 ^ 47 →
  translate (pg_mem (vm_pg s)) sr va = Some es → translate (pg_mem (vm_pg s)) dr va = Some ed → PTE_GET_ADDR ed = kd * PAGE_SIZE →
  fa_busy (pg_alloc (vm_pg s)) (frame_of es) → fa_busy (pg_alloc (vm_pg s)) kd → ¬ is_table (vm_pg s) dr kd → kd ≠ frame_of es →
  ∃ p', copy_pages HHDM_OFFSET kheap_list (S n) va dst sr dr s
      = copy_pages HHDM_OFFSET kheap_list n (u64 (va + PAGE_SIZE)) dst sr dr (set_pg p' s)
    ∧ page_copied (vm_pg s) p' dr va kd (frame_of es) es.
Proof.
  intros Hs Hd Hva Hts Htd Hed Hks Hkd Hnt Hne. cbn [copy_pages].
  destruct (get_pte_on_pg s sr va Hs) as (rs & Es & Hrs). destruct (get_pte_on_pg s dr va Hd) as (rd & Ed & Hrd).
  rewrite (bind_ok _ _ _ _ _ Es), (bind_ok _ _ _ _ _ Ed). cbv zeta.
  destruct Hrs as [[_ Hx]|(Hr0 & e & pts & _ & _ & El & Hte)]; [congruence|].
  destruct Hrd as [[_ Hx]|(Hr1 & e' & ptd & Hwd & Erd & El' & Hte')]; [congruence|].
  rewrite (proj2 (Z.eqb_neq rs 0) Hr0), (proj2 (Z.eqb_neq rd 0) Hr1). cbn [orb].
  rewrite Hts in Hte. rewrite Htd in Hte'. destruct (pte_present e) eqn:Hpe; [|done]. destruct (pte_present e'); [|done].
  injection Hte as <-. injection Hte' as <-. rewrite (bind_ok _ _ _ _ _ El), Hpe. cbn [negb]. rewrite (bind_ok _ _ _ _ _ El').
  rewrite Hed. pose proof (proj1 Hkd) as Hkr. rewrite (proj2 (Z.eqb_neq _ _)) by (unfold PAGE_SIZE; lia).
  pose proof (wf_hhdm _ _ _ Hd) as Hh. pose proof (fa_width _ (wf_alloc _ _ _ Hd)) as Hfw.
  rewrite pte_get_addr_frame.
  change (u64 (kd * PAGE_SIZE + HHDM_OFFSET)) with (pa2kva HHDM_OFFSET (kd * PAGE_SIZE)).
  change (u64 (frame_of es * PAGE_SIZE + HHDM_OFFSET)) with (pa2kva HHDM_OFFSET (frame_of es * PAGE_SIZE)).
  rewrite !(pa2kva_frame HHDM_OFFSET _ Hh) by (pose proof (proj1 Hks); lia).
  destruct (copy_page_ok (vm_pg s) kd (frame_of es) Hh (proj1 Hkd) (proj1 Hks) Hne s eq_refl) as (p1 & Ec & Hfr & Hcp).
  rewrite (bind_ok _ _ _ _ _ Ec).
  assert (Z.land (kd * PAGE_SIZE) 0x000FFFFFFFFFF000 = kd * PAGE_SIZE) as Hmask.
  { pose proof (pte_get_addr_lor kd 0 ltac:(lia) ltac:(unfold PAGE_SIZE; lia)) as Hg. by rewrite Z.lor_0_r in Hg. }
  rewrite Hmask. fold (copied_entry kd es).
  eexists. split.
  - erewrite bind_ok; [|apply on_pg_ok; unfold store, modify; reflexivity]. rewrite Erd. reflexivity.
  - rewrite set_pg_pg. by apply page_copied_intro.
Qed.

(** * The page loop *)

(** From [p0] to [p] the first [n] pages from [start] were copied from the space [sr]
    to the frames [kd] of the space [dr]. *)
Record pages_copied (n : Z) p0 p (start sr dr : Z) (kd : Z → Z) : Prop := {
  pl_alloc : pg_alloc p = pg_alloc p0;
  pl_regs : same_regs p0 p;
  pl_wf : pt_wf p dr;
  pl_table k : is_table p dr k ↔ is_table p0 dr k;
  pl_done j es : 0 ≤ j < n → translate (pg_mem p0) sr (start + j * PAGE_SIZE) = Some es →
    translate (pg_mem p) dr (start + j * PAGE_SIZE) = Some (copied_entry (kd j) es)
    ∧ ∀ i, vidx i → pg_mem p !! slot (kva (kd j)) i = pg_mem p0 !! slot (kva (frame_of es)) i;
  pl_blank j : 0 ≤ j < n → translate (pg_mem p0) sr (start + j * PAGE_SIZE) = None →
    translate (pg_mem p) dr (start + j * PAGE_SIZE) = translate (pg_mem p0) dr (start + j * PAGE_SIZE);
  pl_rest va : (∀ j, 0 ≤ j < n → vpn va ≠ vpn (start + j * PAGE_SIZE)) → translate (pg_mem p) dr va = translate (pg_mem p0) dr va;
  pl_data k i : fa_busy (pg_alloc p0) k → (∀ j, 0 ≤ j < n → k ≠ kd j) → ¬ is_table p0 dr k → vidx i →
    pg_mem p !! slot (kva k) i = pg_mem p0 !! slot (kva k) i;
  pl_other r : pt_wf p0 r → private p0 dr r → (∀ j, 0 ≤ j < n → ¬ is_table p0 r (kd j)) → space_kept p0 p dr r
}.

Lemma space_kept_refl p d r : pt_wf p r → private p d r → space_kept p p d r.
Proof. by constructor. Qed.

Lemma space_kept_trans p1 p2 p3 d r : space_kept p1 p2 d r → space_kept p2 p3 d r → space_kept p1 p3 d r.
Proof. intros [_ W1 T1 _] [H W2 T2 P2]. constructor; [done|intros; by rewrite W2, W1|intros; by rewrite T2, T1|done]. Qed.

Lemma space_kept_table p p' d r k : space_kept p p' d r → is_table p' r k ↔ is_table p r k.
Proof. intros [_ W _ _]. split; intros (q & Hq & Hl & Hw); exists q; [by rewrite W in Hw by done|by rewrite W by done]. Qed.

Section page_loop.
  Context (p0 : pg_st A) (start sr dr N : Z) (kd : Z → Z).
  Context (Hs : pt_wf p0 sr) (Hd : pt_wf p0 dr) (Hpr : private p0 dr sr).
  Context (H0 : 0 ≤ start) (Hm : start mod PAGE_SIZE = 0) (Hb : start + N * PAGE_SIZE ≤ 2 ^ 47).
  Context (Hdst : ∀ j, 0 ≤ j < N → fa_busy (pg_alloc p0) (kd j) ∧ ¬ is_table p0 dr (kd j) ∧ ¬ is_table p0 sr (kd j)
    ∧ ∃ ed, translate (pg_mem p0) dr (start + j * PAGE_SIZE) = Some ed ∧ PTE_GET_ADDR ed = kd j * PAGE_SIZE).
  Context (Hinj : ∀ j j', 0 ≤ j < N → 0 ≤ j' < N → kd j = kd j' → j = j').
  Context (Hsrc : ∀ j es, 0 ≤ j < N → translate (pg_mem p0) sr (start + j * PAGE_SIZE) = Some es →
    fa_busy (pg_alloc p0) (frame_of es) ∧ ¬ is_table p0 dr (frame_of es) ∧ ∀ j', 0 ≤ j' < N → kd j' ≠ frame_of es).

Lemma page_vpn_inj j j' : 0 ≤ j < N → 0 ≤ j' < N → vpn (start + j * PAGE_SIZE) = vpn (start + j' * PAGE_SIZE) → j = j'.
Proof using H0 Hm Hb.
  intros Hj Hj'. rewrite !vpn_low by (unfold PAGE_SIZE in *; lia). unfold PAGE_SIZE in *. Z.to_euclidean_division_equations; lia.
Qed.

Lemma pages_copied_0 : pages_copied 0 p0 p0 start sr dr kd.
Proof using Hd. constructor; try done; intros; try lia. Qed.

Lemma pages_copied_skip j p :
  pages_copied j p0 p start sr dr kd → 0 ≤ j < N → translate (pg_mem p0) sr (start + j * PAGE_SIZE) = None →
  pages_copied (j + 1) p0 p start sr dr kd.
Proof using All.
  intros [H1 H2 H3 H4 H5 HB H6 H7 H8] [Hj HjN] Hn. constructor; try done.
  - intros i es Hi He. apply H5; [|done]. assert (i ≠ j) by (intros ->; congruence). lia.
  - intros i Hi He. destruct (decide (i = j)) as [->|Hne]; [|apply HB; [lia|done]].
    apply H6. intros i' Hi' Hv. assert (j = i'); [|lia]. apply page_vpn_inj; [lia|lia|done].
  - intros va Hva. apply H6. intros i Hi. apply Hva. lia.
  - intros k i Hk Hne. apply H7; [done|]. intros j' Hj'. apply Hne. lia.
  - intros r Hr Hp Ht. apply H8; [done|done|]. intros j' Hj'. apply Ht. lia.
Qed.

Lemma pages_copied_snoc j p p' es :
  pages_copied j p0 p start sr dr kd → 0 ≤ j < N → translate (pg_mem p0) sr (start + j * PAGE_SIZE) = Some es →
  page_copied p p' dr (start + j * PAGE_SIZE) (kd j) (frame_of es) es →
  pages_copied (j + 1) p0 p' start sr dr kd.
Proof using All.
  intros [H1 H2 H3 H4 H5 HB H6 H7 H8] Hj Hes [C1 C2 C3 C4 C5 C6 C7 C8].
  destruct (Hsrc j es Hj Hes) as (Hks & Hkt & Hkn).
  constructor.
  - congruence.
  - destruct H2, C2. split; congruence.
  - done.
  - intros k. by rewrite C4.
  - intros i e Hi He. destruct (decide (i = j)) as [->|Hne].
    + assert (e = es) as -> by congruence. split; [rewrite C5, decide_True; done|].
      intros x Hx. rewrite C6 by done. apply H7; [done| |done|done]. intros j' Hj'. apply not_eq_sym, Hkn. lia.
    + destruct (H5 i e) as [Ht Hc]; [lia|done|]. split.
      * rewrite C5, decide_False; [done|]. intros Hv. apply Hne. apply page_vpn_inj; [lia|done|done].
      * intros x Hx. rewrite <- Hc by done. destruct (Hdst i) as (Hbi & Hti & _); [lia|].
        apply C7; [by rewrite H1| |by rewrite H4|done]. intros Hk. apply Hne, Hinj; [lia|done|done].
  - intros i Hi Hn. assert (i ≠ j) as Hne by (intros ->; congruence). rewrite C5, decide_False; [apply HB; [lia|done]|].
    intros Hv. apply Hne. apply page_vpn_inj; [lia|done|done].
  - intros va Hva. rewrite C5, decide_False; [|apply Hva; lia]. apply H6. intros i Hi. apply Hva. lia.
  - intros k i Hk Hne Ht Hi. rewrite C7; [|by rewrite H1|apply Hne; lia|by rewrite H4|done].
    apply H7; [done| |done|done]. intros j' Hj'. apply Hne. lia.
  - intros r Hr Hp Ht. assert (space_kept p0 p dr r) as Hk by (apply H8; [done|done|intros; apply Ht; lia]).
    apply (space_kept_trans _ p); [done|]. apply C8; [apply Hk|apply Hk|]. rewrite (space_kept_table _ _ _ _ _ Hk). apply Ht. lia.
Qed.

Lemma copy_pages_ok n dst j s :
  pages_copied j p0 (vm_pg s) start sr dr kd → 0 ≤ j → j + Z.of_nat n = N →
  wp (copy_pages HHDM_OFFSET kheap_list n (start + j * PAGE_SIZE) dst sr dr) s
    (λ r s', r = true ∧ s' = set_pg (vm_pg s') s ∧ pages_copied N p0 (vm_pg s') start sr dr kd).
Proof using All.
  revert j s. induction n as [|n IH]; intros j s Hc Hj Hn.
  { apply wp_ret. split; [done|]. split; [by destruct s as [[] ? ? ?]|]. by replace N with j by lia. }
  assert (space_kept p0 (vm_pg s) dr sr) as Hsr.
  { apply Hc; [done|done|]. intros j' Hj'. apply Hdst. lia. }
  assert (u64 (start + j * PAGE_SIZE + PAGE_SIZE) = start + (j + 1) * PAGE_SIZE) as Enext.
  { rewrite u64_small; unfold PAGE_SIZE in *; lia. }
  destruct (translate (pg_mem p0) sr (start + j * PAGE_SIZE)) as [es|] eqn:Hes.
  - destruct (Hdst j) as (Hkb & Hkt & _ & ed & Hed & Hea); [lia|]. destruct (Hsrc j es) as (Hsb & _ & Hsn); [lia|done|].
    destruct (copy_step_mapped n (start + j * PAGE_SIZE) dst sr dr s es ed (kd j)) as (p' & E & Hp').
    + apply Hsr.
    + apply Hc.
    + unfold PAGE_SIZE in *. lia.
    + by rewrite (sk_trans _ _ _ _ _ Hsr).
    + rewrite (pl_rest _ _ _ _ _ _ _ Hc); [done|]. intros i Hi Hv. assert (j = i); [|lia]. apply page_vpn_inj; [lia|lia|done].
    + done.
    + by rewrite (pl_alloc _ _ _ _ _ _ _ Hc).
    + by rewrite (pl_alloc _ _ _ _ _ _ _ Hc).
    + by rewrite (pl_table _ _ _ _ _ _ _ Hc).
    + apply Hsn. lia.
    + unfold wp. rewrite E, Enext. eapply wp_mono; [apply (IH (j + 1) (set_pg p' s)); [|lia|lia]|].
      * rewrite set_pg_pg. eapply pages_copied_snoc; [done|lia|done|done].
      * cbn beta. intros r s' (-> & Es & Hs'). split; [done|]. split; [by rewrite Es|done].
  - unfold wp. rewrite copy_step_skip, Enext; [|apply Hsr|apply Hc|by rewrite (sk_trans _ _ _ _ _ Hsr)].
    apply (IH (j + 1) s); [apply pages_copied_skip; [done|lia|done]|lia|lia].
Qed.
End page_loop.

(** * The areas of an address space *)

Definition area_pages (v : vma_struct) : Z := (vm_end v - vm_start v) / PAGE_SIZE.
Definition in_area (v : vma_struct) (va : Z) : Prop := vm_start v ≤ va < vm_end v ∧ va mod PAGE_SIZE = 0.
Definition total_pages (areas : list (Z * vma_struct)) : Z := foldr (λ x n, area_pages x.2 + n) 0 areas.

(** Page-aligned and not empty, in the lower half. *)
Record area_ok (v : vma_struct) : Prop := {
  ao_start : 0 ≤ vm_start v ∧ vm_start v mod PAGE_SIZE = 0;
  ao_end : vm_start v < vm_end v ∧ vm_end v mod PAGE_SIZE = 0;
  ao_low : vm_end v + PAGE_SIZE ≤ 2 ^ 47
}.

Lemma align_page a : 0 ≤ a → a + PAGE_SIZE ≤ 2 ^ 64 → a mod PAGE_SIZE = 0 → ALIGN_DOWN a PAGE_SIZE = a ∧ ALIGN_UP a PAGE_SIZE = a.
Proof.
  intros H0 Hb Hm. destruct (page_align_down a H0). destruct (page_align_up a H0 Hb).
  unfold PAGE_SIZE in *. split; Z.to_euclidean_division_equations; lia.
Qed.

Lemma area_pages_eq v : area_ok v → vm_end v = vm_start v + area_pages v * PAGE_SIZE ∧ 0 < area_pages v.
Proof. intros [[? ?] [? ?] ?]. unfold area_pages, PAGE_SIZE in *. Z.to_euclidean_division_equations; lia. Qed.

Lemma total_pages_app l r : total_pages (l ++ r) = total_pages l + total_pages r.
Proof. induction l as [|x l IH]; [done|]. unfold total_pages in *. simpl. rewrite IH. lia. Qed.

(** A page that was copied: the frame behind it in [dr] was free, and holds what the
    frame of the source entry [es] held, under the same flags. *)
Definition page_copy p0 p (dr va es : Z) : Prop :=
  ∃ k, k ∈ fa_free_set (pg_alloc p0) ∧ fa_busy (pg_alloc p) k ∧ ¬ is_table p dr k
    ∧ translate (pg_mem p) dr va = Some (copied_entry k es)
    ∧ ∀ i, vidx i → pg_mem p !! slot (kva k) i = pg_mem p0 !! slot (kva (frame_of es)) i.

(** A page of the copy: mapped to a frame that was free and is neither free nor a page
    table any more. *)
Definition page_owned p0 p (dr va : Z) : Prop :=
  ∃ e, translate (pg_mem p) dr va = Some e ∧ frame_of e ∈ fa_free_set (pg_alloc p0) ∧ fa_busy (pg_alloc p) (frame_of e)
    ∧ ¬ is_table p dr (frame_of e).

(** The entry of a page that the source has not mapped: the fresh frame of the area. *)
Definition blank_page p (dr va flags : Z) : Prop :=
  ∃ k, translate (pg_mem p) dr va = Some (leaf_entry (k * PAGE_SIZE) (pte_flags_of flags)).

(** From [p] to [p'] the area [v] was mapped in [dr] and copied from [sr]. *)
Record area_done p p' (v : vma_struct) (sr dr : Z) : Prop := {
  ad_wf : pt_wf p' dr;
  ad_regs : same_regs p p';
  ad_frames : fa_frames (pg_alloc p') = fa_frames (pg_alloc p);
  ad_free : fa_free_set (pg_alloc p') ⊆ fa_free_set (pg_alloc p);
  ad_cost : Z.of_nat (size (fa_free_set (pg_alloc p))) ≤ Z.of_nat (size (fa_free_set (pg_alloc p'))) + 4 * area_pages v;
  ad_plain k : fa_busy (pg_alloc p) k → ¬ is_table p dr k →
    ¬ is_table p' dr k ∧ ∀ i, vidx i → pg_mem p' !! slot (kva k) i = pg_mem p !! slot (kva k) i;
  ad_copy va es : in_area v va → translate (pg_mem p) sr va = Some es → page_copy p p' dr va es;
  ad_owned va : in_area v va → page_owned p p' dr va;
  ad_blank va : in_area v va → translate (pg_mem p) sr va = None → blank_page p' dr va (vm_flags v);
  ad_apart va va' e e' : in_area v va → in_area v va' → translate (pg_mem p') dr va = Some e → translate (pg_mem p') dr va' = Some e' →
    frame_of e = frame_of e' → va = va';
  ad_rest va : 0 ≤ va < 2 ^ 47 → ¬ vm_start v ≤ va < vm_end v → translate (pg_mem p') dr va = translate (pg_mem p) dr va;
  ad_other r : pt_wf p r → private p dr r → space_kept p p' dr r
}.

Section one_area.
  Context (p p1 : pg_st A) (v : vma_struct) (ks : list Z) (fl sr dr : Z) (Efl : fl = pte_flags_of (vm_flags v)).
  Context (Hv : area_ok v) (Hl : zlen ks = area_pages v) (Hfl : 0 ≤ fl < PAGE_SIZE).
  Context (Hs : pt_wf p sr) (Hd : pt_wf p dr) (Hpr : private p dr sr).
  Context (Hsrc : ∀ va es, in_area v va → translate (pg_mem p) sr va = Some es →
    fa_busy (pg_alloc p) (frame_of es) ∧ ¬ is_table p dr (frame_of es)).
  Context (Hr : range_mapped HHDM_OFFSET dr (vm_start v) fl ks p p1).

Let kd (j : Z) : Z := default 0 (ks !! Z.to_nat j).

Lemma area_frame j : 0 ≤ j < area_pages v → ks !! Z.to_nat j = Some (kd j).
Proof using All.
  intros Hj. destruct (lookup_lt_is_Some_2 ks (Z.to_nat j)) as [k Hk]; [unfold zlen in Hl; lia|]. unfold kd. by rewrite Hk.
Qed.

Lemma area_frame_in j : 0 ≤ j < area_pages v →
  kd j ∈ fa_free_set (pg_alloc p) ∧ fa_busy (pg_alloc p1) (kd j) ∧ kd j < 2 ^ 40 ∧ ¬ is_table p1 dr (kd j)
  ∧ translate (pg_mem p1) dr (vm_start v + j * PAGE_SIZE) = Some (leaf_entry (kd j * PAGE_SIZE) fl).
Proof using All.
  intros Hj. destruct (rm_in _ _ _ _ _ _ _ Hr _ _ (area_frame j Hj)) as (H1 & H2 & H3 & H4).
  pose proof (fa_range _ _ (wf_alloc _ _ _ Hs) H1). pose proof (fa_width _ (wf_alloc _ _ _ Hs)).
  split; [done|]. split; [split; [by rewrite (rm_frames _ _ _ _ _ _ _ Hr)|done]|]. split; [lia|]. split; [done|].
  by rewrite Z2Nat.id in H4 by lia.
Qed.

Lemma area_other r : pt_wf p r → private p dr r → space_kept p p1 dr r.
Proof using All.
  destruct (area_pages_eq v Hv) as [En Hn]. pose proof Hv as [[Hv1 Hv2] [Hv3 Hv4] Hv5].
  apply (rm_other _ _ _ _ _ _ _ Hr); [done|]. rewrite Hl. unfold PAGE_SIZE in *. lia.
Qed.

Lemma free_not_table r k : pt_wf p r → private p dr r → k ∈ fa_free_set (pg_alloc p) → ¬ is_table p1 r k.
Proof using All.
  intros Hw Hp Hk. rewrite (space_kept_table _ _ _ _ _ (area_other r Hw Hp)).
  intros Hc. by destruct (is_table_busy _ _ _ _ Hw Hc).
Qed.

Lemma area_page va : in_area v va → ∃ j, 0 ≤ j < area_pages v ∧ va = vm_start v + j * PAGE_SIZE.
Proof using All.
  destruct (area_pages_eq v Hv) as [En Hn]. destruct Hv as [[Hv1 Hv2] [Hv3 Hv4] Hv5].
  intros [Ha Hm]. exists ((va - vm_start v) / PAGE_SIZE). unfold area_pages, PAGE_SIZE in *. Z.to_euclidean_division_equations; lia.
Qed.

Lemma page_in_area j : 0 ≤ j < area_pages v → in_area v (vm_start v + j * PAGE_SIZE).
Proof using All.
  destruct (area_pages_eq v Hv) as [En Hn]. destruct Hv as [[Hv1 Hv2] [Hv3 Hv4] Hv5].
  intros Hj. unfold in_area, area_pages, PAGE_SIZE in *. split; [lia|]. Z.to_euclidean_division_equations; lia.
Qed.

(** The frame behind a page of the area, copied or not. *)
Lemma copied_frame p2 j :
  pages_copied (area_pages v) p1 p2 (vm_start v) sr dr kd → 0 ≤ j < area_pages v →
  ∃ e, translate (pg_mem p2) dr (vm_start v + j * PAGE_SIZE) = Some e ∧ frame_of e = kd j
    ∧ (translate (pg_mem p) sr (vm_start v + j * PAGE_SIZE) = None → e = leaf_entry (kd j * PAGE_SIZE) fl).
Proof using All.
  intros Hc Hj. destruct (area_frame_in j Hj) as (_ & [Hk _] & Hk2 & _ & Ht).
  pose proof (area_other sr Hs Hpr) as Hsr. destruct (translate (pg_mem p) sr (vm_start v + j * PAGE_SIZE)) as [es|] eqn:Hes.
  - destruct (pl_done _ _ _ _ _ _ _ Hc j es Hj) as [Q _]; [by rewrite (sk_trans _ _ _ _ _ Hsr)|].
    exists (copied_entry (kd j) es). split; [done|]. split; [|done]. unfold frame_of. rewrite copied_entry_addr by lia. by apply Z.div_mul.
  - exists (leaf_entry (kd j * PAGE_SIZE) fl). split; [|split; [|done]].
    + rewrite (pl_blank _ _ _ _ _ _ _ Hc j Hj); [done|]. by rewrite (sk_trans _ _ _ _ _ Hsr).
    + unfold frame_of. rewrite leaf_entry_addr by (done || lia). by apply Z.div_mul.
Qed.

Lemma area_copied dst s :
  vm_pg s = p1 →
  wp (copy_pages HHDM_OFFSET kheap_list (Z.to_nat (area_pages v)) (vm_start v) dst sr dr) s
    (λ r s', r = true ∧ s' = set_pg (vm_pg s') s ∧ area_done p (vm_pg s') v sr dr).
Proof using All.
  intros Es. destruct (area_pages_eq v Hv) as [En Hn]. pose proof Hv as [[Hv1 Hv2] [Hv3 Hv4] Hv5].
  pose proof (area_other sr Hs Hpr) as Hsr.
  assert (∀ k, fa_busy (pg_alloc p) k → fa_busy (pg_alloc p1) k) as Hbb.
  { intros k [H1 H2]. pose proof (rm_free _ _ _ _ _ _ _ Hr). split; [by rewrite (rm_frames _ _ _ _ _ _ _ Hr)|set_solver]. }
  pose proof (pages_copied_0 p1 (vm_start v) sr dr kd (rm_wf _ _ _ _ _ _ _ Hr)) as H0. rewrite <- Es in H0 at 2.
  replace (vm_start v) with (vm_start v + 0 * PAGE_SIZE) at 1 by lia.
  eapply wp_mono; [apply (copy_pages_ok p1 (vm_start v) sr dr (area_pages v) kd); [apply Hsr|apply Hr|apply Hsr|done|done|lia| | | |exact H0|lia|lia]|].
  - intros j Hj. destruct (area_frame_in j Hj) as (H1 & H2 & H3 & H4 & H5). split; [done|]. split; [done|].
    split; [by apply free_not_table|]. eexists. split; [done|]. apply leaf_entry_addr; [destruct H2; lia|done].
  - intros j j' Hj Hj' Ee. pose proof (area_frame j Hj) as H1. rewrite Ee in H1.
    pose proof (NoDup_lookup _ _ _ _ (rm_nodup _ _ _ _ _ _ _ Hr) H1 (area_frame j' Hj')). lia.
  - intros j es Hj. rewrite (sk_trans _ _ _ _ _ Hsr). intros Hes.
    destruct (Hsrc _ es (page_in_area j Hj) Hes) as [Hb Ht]. split; [by apply Hbb|]. split; [by apply (rm_plain _ _ _ _ _ _ _ Hr)|].
    intros j' Hj' Ee. destruct (area_frame_in j' Hj') as (H1 & _). rewrite Ee in H1. by destruct Hb.
  - cbn beta. intros r s' (-> & Es' & [P1 P2 P3 P4 P5 PB P6 P7 P8]). split; [done|]. split; [done|]. constructor.
    + done.
    + destruct (rm_regs _ _ _ _ _ _ _ Hr), P2. split; congruence.
    + rewrite P1. apply Hr.
    + rewrite P1. apply Hr.
    + rewrite P1. pose proof (rm_cost _ _ _ _ _ _ _ Hr) as Hc. by rewrite Hl in Hc.
    + intros k Hb Ht. split; [rewrite P4; by apply (rm_plain _ _ _ _ _ _ _ Hr)|]. intros i Hi.
      rewrite P7; [by apply (rm_data _ _ _ _ _ _ _ Hr)|by apply Hbb| |by apply (rm_plain _ _ _ _ _ _ _ Hr)|done].
      intros j Hj ->. destruct (area_frame_in j Hj) as (H1 & _). by destruct Hb.
    + intros va es Hva Hes. destruct (area_page va Hva) as (j & Hj & ->). destruct (area_frame_in j Hj) as (H1 & H2 & H3 & H4 & H5).
      destruct (Hsrc _ es Hva Hes) as [Hb Ht]. destruct (P5 j es Hj) as [Q1 Q2]; [by rewrite (sk_trans _ _ _ _ _ Hsr)|].
      exists (kd j). split; [done|]. split; [by rewrite P1|]. split; [by rewrite P4|]. split; [done|]. intros i Hi. rewrite Q2 by done.
      by apply (rm_data _ _ _ _ _ _ _ Hr).
    + intros va Hva. destruct (area_page va Hva) as (j & Hj & ->). destruct (copied_frame (vm_pg s') j ltac:(by constructor) Hj) as (e & H1 & H2 & _).
      destruct (area_frame_in j Hj) as (H3 & H4 & _ & H5 & _). exists e. rewrite H2, P1, P4. done.
    + intros va Hva Hno. destruct (area_page va Hva) as (j & Hj & ->). destruct (copied_frame (vm_pg s') j ltac:(by constructor) Hj) as (e & H1 & _ & H2).
      exists (kd j). by rewrite <- Efl, <- H2.
    + intros va va' e e' Hva Hva' He He' Hee. destruct (area_page va Hva) as (j & Hj & ->). destruct (area_page va' Hva') as (j' & Hj' & ->).
      destruct (copied_frame (vm_pg s') j ltac:(by constructor) Hj) as (? & H1 & H2 & _).
      destruct (copied_frame (vm_pg s') j' ltac:(by constructor) Hj') as (? & H3 & H4 & _).
      assert (kd j = kd j') as Ek by congruence. pose proof (area_frame j Hj) as E1. rewrite Ek in E1.
      pose proof (NoDup_lookup _ _ _ _ (rm_nodup _ _ _ _ _ _ _ Hr) E1 (area_frame j' Hj')). f_equal. f_equal. lia.
    + intros va Hva Hna.
      assert (∀ j, 0 ≤ j < area_pages v → vpn va ≠ vpn (vm_start v + j * PAGE_SIZE)) as Hne.
      { intros j Hj. rewrite !vpn_low by (unfold PAGE_SIZE in *; lia). unfold PAGE_SIZE in *. Z.to_euclidean_division_equations; lia. }
      rewrite P6 by done. apply (rm_out _ _ _ _ _ _ _ Hr). by rewrite Hl.
    + intros r Hwr Hpp. apply (space_kept_trans _ p1); [by apply area_other|].
      apply P8; [by apply area_other|by apply area_other|].
      intros j Hj. apply free_not_table; [done|done|]. by destruct (area_frame_in j Hj).
Qed.
End one_area.

(** * All areas *)

(** [n] of the [areas] of the source are copied from [p0] to [p]. *)
Record areas_done (n : nat) p0 p (areas : list (Z * vma_struct)) (sr dr : Z) : Prop := {
  as_wf : pt_wf p dr;
  as_regs : same_regs p0 p;
  as_frames : fa_frames (pg_alloc p) = fa_frames (pg_alloc p0);
  as_free : fa_free_set (pg_alloc p) ⊆ fa_free_set (pg_alloc p0);
  as_cost : Z.of_nat (size (fa_free_set (pg_alloc p0)))
    ≤ Z.of_nat (size (fa_free_set (pg_alloc p))) + 4 * total_pages (take n areas);
  as_plain k : fa_busy (pg_alloc p0) k → ¬ is_table p0 dr k →
    ¬ is_table p dr k ∧ ∀ i, vidx i → pg_mem p !! slot (kva k) i = pg_mem p0 !! slot (kva k) i;
  as_copy x va es : x ∈ take n areas → in_area x.2 va → translate (pg_mem p0) sr va = Some es → page_copy p0 p dr va es;
  as_owned x va : x ∈ take n areas → in_area x.2 va → page_owned p0 p dr va;
  as_blank x va : x ∈ take n areas → in_area x.2 va → translate (pg_mem p0) sr va = None → blank_page p dr va (vm_flags x.2);
  as_apart x x' va va' e e' : x ∈ take n areas → x' ∈ take n areas → in_area x.2 va → in_area x'.2 va' →
    translate (pg_mem p) dr va = Some e → translate (pg_mem p) dr va' = Some e' → frame_of e = frame_of e' → va = va';
  as_rest va : 0 ≤ va < 2 ^ 47 → (∀ x, x ∈ take n areas → ¬ vm_start x.2 ≤ va < vm_end x.2) →
    translate (pg_mem p) dr va = translate (pg_mem p0) dr va;
  as_other r : pt_wf p0 r → private p0 dr r → space_kept p0 p dr r
}.

(** What the source must look like: its areas are pages of the lower half that do not
    overlap, and its pages are data frames. *)
Record copyable p0 (areas : list (Z * vma_struct)) (sr dr : Z) : Prop := {
  cp_src : pt_wf p0 sr;
  cp_private : private p0 dr sr;
  cp_areas x : x ∈ areas → area_ok x.2;
  cp_disjoint i j x y : areas !! i = Some x → areas !! j = Some y → i ≠ j → vm_end x.2 ≤ vm_start y.2 ∨ vm_end y.2 ≤ vm_start x.2;
  cp_data x va es : x ∈ areas → in_area x.2 va → translate (pg_mem p0) sr va = Some es →
    fa_busy (pg_alloc p0) (frame_of es) ∧ ¬ is_table p0 dr (frame_of es)
}.

Lemma areas_done_0 p0 areas sr dr : pt_wf p0 dr → areas_done 0 p0 p0 areas sr dr.
Proof.
  intros Hd. constructor; rewrite ?take_0; try done; [change (total_pages []) with 0; lia|..];
    intros x; by intros * Hx%elem_of_nil.
Qed.

Lemma page_copy_step p0 p p' v sr dr va es :
  page_copy p0 p dr va es → area_done p p' v sr dr → 0 ≤ va < 2 ^ 47 → ¬ vm_start v ≤ va < vm_end v → page_copy p0 p' dr va es.
Proof.
  intros (k & H1 & H2 & H3 & H4 & H5) Ha Hva Hn. destruct (ad_plain _ _ _ _ _ Ha k H2 H3) as [H6 H7].
  exists k. split; [done|]. split; [|split; [done|split]].
  - destruct H2 as [H2 H2']. split; [by rewrite (ad_frames _ _ _ _ _ Ha)|]. intros Hc. by apply H2', (ad_free _ _ _ _ _ Ha).
  - by rewrite (ad_rest _ _ _ _ _ Ha).
  - intros i Hi. by rewrite H7, H5.
Qed.

(** The pages of the other areas are not touched. *)
Lemma page_owned_step p0 p p' v sr dr va :
  page_owned p0 p dr va → area_done p p' v sr dr → 0 ≤ va < 2 ^ 47 → ¬ vm_start v ≤ va < vm_end v → page_owned p0 p' dr va.
Proof.
  intros (e & H1 & H2 & H3 & H4) Ha Hva Hn. destruct (ad_plain _ _ _ _ _ Ha _ H3 H4) as [H6 _].
  exists e. split; [by rewrite (ad_rest _ _ _ _ _ Ha)|]. split; [done|]. split; [|done].
  destruct H3 as [H3 H3']. split; [by rewrite (ad_frames _ _ _ _ _ Ha)|]. intros Hc. by apply H3', (ad_free _ _ _ _ _ Ha).
Qed.

(** A page of an area done before and one of the area that is new. *)
Lemma owned_apart p0 p p' v sr dr va va' e e' :
  page_owned p0 p dr va → area_done p p' v sr dr → 0 ≤ va < 2 ^ 47 → ¬ vm_start v ≤ va < vm_end v → in_area v va' →
  translate (pg_mem p') dr va = Some e → translate (pg_mem p') dr va' = Some e' → frame_of e ≠ frame_of e'.
Proof.
  intros (f & H1 & _ & [_ H3] & _) Ha Hva Hn Hin He He' Hee. rewrite (ad_rest _ _ _ _ _ Ha) in He by done.
  destruct (ad_owned _ _ _ _ _ Ha va' Hin) as (f' & H4 & H5 & _). apply H3. congruence.
Qed.

Lemma areas_done_S n p0 p p' areas x sr dr :
  copyable p0 areas sr dr → areas !! n = Some x → areas_done n p0 p areas sr dr → area_done p p' x.2 sr dr →
  areas_done (S n) p0 p' areas sr dr.
Proof.
  intros [C1 C2 C3 C4 C5] Hx [A1 A2 A3 A4 A5 A6 A7 AO AB AP A8 A9] Ha. pose proof Ha as [B1 B2 B3 B4 B5 B6 B7 BO BB BP B8 B9].
  assert (x ∈ areas) as Hxin by by eapply list_elem_of_lookup_2.
  assert (∀ y, y ∈ take n areas → vm_end y.2 ≤ vm_start x.2 ∨ vm_end x.2 ≤ vm_start y.2) as Hdis.
  { intros y [j Hj]%list_elem_of_lookup. apply lookup_take_Some in Hj as [Hj Hlt]. apply (C4 j n); [done|done|lia]. }
  assert (space_kept p0 p dr sr) as Hsr by by apply A9.
  assert (∀ y va, y ∈ take n areas → in_area y.2 va → 0 ≤ va < 2 ^ 47 ∧ ¬ vm_start x.2 ≤ va < vm_end x.2) as Hout.
  { intros y va Hy [Hva _]. destruct (C3 y) as [[Y1 _] _ Y2]; [apply elem_of_take in Hy as (j & Hj & _); by eapply list_elem_of_lookup_2|].
    destruct (Hdis y Hy); unfold PAGE_SIZE in *; lia. }
  assert (∀ y, y ∈ take n areas ++ [x] → y ∈ take n areas ∨ y = x) as Hcase by (intros y; rewrite elem_of_app, list_elem_of_singleton; done).
  constructor; rewrite ?(take_S_r _ _ _ Hx).
  - done.
  - destruct A2, B2. split; congruence.
  - congruence.
  - set_solver.
  - rewrite total_pages_app. change (total_pages [x]) with (area_pages x.2 + 0). lia.
  - intros k Hb Ht. destruct (A6 k Hb Ht) as [H1 H2].
    assert (fa_busy (pg_alloc p) k) as Hb' by (destruct Hb; split; [congruence|set_solver]).
    destruct (B6 k Hb' H1) as [H3 H4]. split; [done|]. intros i Hi. by rewrite H4, H2.
  - intros y va es [Hy| ->]%Hcase Hva Hes.
    + destruct (Hout y va Hy Hva). by apply (page_copy_step p0 p p' x.2 sr); [by apply (A7 y)|..].
    + destruct (B7 va es Hva) as (k & H1 & H2 & H3 & H4 & H5); [by rewrite (sk_trans _ _ _ _ _ Hsr)|].
      exists k. split; [by apply A4|]. split; [done|]. split; [done|]. split; [done|]. intros i Hi. rewrite H5 by done.
      destruct (C5 x va es Hxin Hva Hes) as [Hb Ht]. by apply A6.
  - intros y va [Hy| ->]%Hcase Hva.
    + destruct (Hout y va Hy Hva). by apply (page_owned_step p0 p p' x.2 sr); [by apply (AO y)|..].
    + destruct (BO va Hva) as (e & H1 & H2 & H3). exists e. split; [done|]. split; [by apply A4|done].
  - intros y va [Hy| ->]%Hcase Hva Hno.
    + destruct (Hout y va Hy Hva), (AB y va Hy Hva Hno) as [k Hk]. exists k. by rewrite B8.
    + apply BB; [done|]. by rewrite (sk_trans _ _ _ _ _ Hsr).
  - intros y y' va va' e e' [Hy| ->]%Hcase [Hy'| ->]%Hcase Hva Hva' He He' Hee.
    + destruct (Hout y va Hy Hva), (Hout y' va' Hy' Hva'). rewrite B8 in He, He' by done. by apply (AP y y' va va' e e').
    + destruct (Hout y va Hy Hva). by destruct (owned_apart p0 p p' x.2 sr dr va va' e e' ltac:(by apply (AO y))).
    + destruct (Hout y' va' Hy' Hva'). by destruct (owned_apart p0 p p' x.2 sr dr va' va e' e ltac:(by apply (AO y'))).
    + by apply (BP va va' e e').
  - intros va Hva Hn. rewrite B8; [apply A8; [done|intros y Hy; apply Hn; set_solver]|done|apply Hn; set_solver].
  - intros r Hr Hp. pose proof (A9 r Hr Hp) as Hk. apply (space_kept_trans _ p); [done|]. apply B9; apply Hk.
Qed.

(** * [mm_copy] *)

Lemma total_pages_nonneg l : (∀ x, x ∈ l → area_ok x.2) → 0 ≤ total_pages l.
Proof.
  induction l as [|x l IH]; intros Hl; [done|]. unfold total_pages. simpl. fold (total_pages l).
  destruct (area_pages_eq x.2 (Hl x ltac:(by left))). assert (0 ≤ total_pages l) by (apply IH; intros y Hy; apply Hl; by right). lia.
Qed.

Section mm_copy.
  Context (s0 : St) (bs0 : list block) (dst src : Z) (sm : mm_struct) (dr : Z) (areas : list (Z * vma_struct)).
  Context (Hne : dst ≠ src) (Hcp : copyable (vm_pg s0) areas (mm_pml4 sm) dr).
  Context (Hbudget : 4 * total_pages areas ≤ Z.of_nat (size (free_frames s0))).

(** [n] areas are copied, and the objects of both address spaces are in order. *)
Record copy_state (n : nat) s (bs : list block) (dm : mm_struct) (ys : list Z) : Prop := {
  cs_dst : mm_ok HHDM_OFFSET kheap_list s bs dst dm ys;
  cs_root : mm_pml4 dm = dr;
  cs_src : vm_mms s !! src = Some sm;
  cs_ring : ring (vm_links s) (vma_list src) areas.*1;
  cs_nodes a : a ∈ vma_list src :: areas.*1 → in_block bs a ∧ a ∉ vma_list dst :: ys;
  cs_vmas x : x ∈ areas → vm_vmas s !! x.1 = Some x.2;
  cs_kernel : private (vm_pg s) dr (kernel_pml4 (vm_pg s));
  cs_room : Z.of_nat (length areas) - Z.of_nat n ≤ room bs;
  cs_mms a : a ≠ dst → vm_mms s !! a = vm_mms s0 !! a;
  cs_links a : a ∉ vma_list dst :: ys → same_links a (vm_links s0) (vm_links s);
  cs_blocks : kept_blocks bs0 bs;
  cs_new a : in_block bs0 a → a ∉ ys;
  cs_done : areas_done n (vm_pg s0) (vm_pg s) areas (mm_pml4 sm) dr
}.

Lemma copy_state_S n s s1 bs dm ys x vma ks bs' p2 :
  copy_state n s bs dm ys → areas !! n = Some x →
  area_added HHDM_OFFSET kheap_list s bs dst dm ys (vm_start x.2) (vm_end x.2) (vm_flags x.2) s1 vma ks bs' →
  area_done (vm_pg s) p2 x.2 (mm_pml4 sm) dr →
  copy_state (S n) (set_pg p2 s1) bs' (with_map_count (i32 (map_count dm + 1)) dm) (ys ++ [vma]).
Proof using All.
  intros [[H1 H2 H3 H4 H5 H6] C2 C3 C4 C5 C6 C7 C8 C10 C11 C12 C13 C9] Hx Ha Hd.
  pose proof (aa_obj _ _ _ _ _ _ _ _ _ _ _ _ _ _ Ha) as Ho. pose proof Ho as [_ Hheap _ _ Hfr _ _].
  assert (∀ a, in_block bs a → a ≠ vma) as Hva by (intros a Hb ->; done).
  assert (kernel_pml4 p2 = kernel_pml4 (vm_pg s)) as Ek by apply (ad_regs _ _ _ _ _ Hd).
  assert (space_kept (vm_pg s) p2 dr (kernel_pml4 (vm_pg s))) as Hk.
  { apply (ad_other _ _ _ _ _ Hd); [|done]. apply (ha_pages _ _ _ _ (proj1 H1)). }
  constructor.
  - constructor.
    + assert (vm_kheap (set_pg p2 s1) = set_pages p2 (set_pages (vm_pg s) (vm_kheap s1))) as -> by done.
      destruct Hheap as [Hh Hpa]. split; [|exact Hpa]. apply heap_set_pages; [exact Hh| |].
      * change (pt_wf p2 (kernel_pml4 p2)). rewrite Ek. apply Hk.
      * intros a. change (kernel_mapped HHDM_OFFSET (vm_pg s) a = true → kernel_mapped HHDM_OFFSET p2 a = true).
        unfold kernel_mapped. by rewrite Ek, (sk_trans _ _ _ _ _ Hk).
    + change (vm_mms (set_pg p2 s1)) with (vm_mms s1). rewrite (aa_mms _ _ _ _ _ _ _ _ _ _ _ _ _ _ Ha). apply lookup_insert_eq.
    + done.
    + rewrite set_pg_pg. change (mm_pml4 (with_map_count _ dm)) with (mm_pml4 dm). rewrite C2. apply Hd.
    + apply Ha.
    + intros a. change (vma_list dst :: ys ++ [vma]) with ((vma_list dst :: ys) ++ [vma]). intros Hin.
      apply elem_of_app in Hin as [Hin|Hin]; [by apply (oa_old _ _ _ _ _ _ _ _ Ho), H6|]. apply list_elem_of_singleton in Hin as ->. apply Ho.
  - done.
  - change (vm_mms (set_pg p2 s1)) with (vm_mms s1). rewrite (aa_mms _ _ _ _ _ _ _ _ _ _ _ _ _ _ Ha). by rewrite lookup_insert_ne.
  - change (vm_links (set_pg p2 s1)) with (vm_links s1). rewrite (aa_links _ _ _ _ _ _ _ _ _ _ _ _ _ _ Ha).
    apply ring_inserted_frame; [| | |done].
    + intros Hin. by apply Hfr, C5.
    + intros Hin. destruct (C5 _ Hin) as [_ Hn]. apply Hn, last_or_in.
    + intros Hin. destruct (C5 _ Hin) as [_ Hn]. apply Hn. by left.
  - intros a Hin. destruct (C5 a Hin) as [Hb Hn]. split; [by apply (oa_old _ _ _ _ _ _ _ _ Ho)|].
    change (vma_list dst :: ys ++ [vma]) with ((vma_list dst :: ys) ++ [vma]).
    rewrite elem_of_app, list_elem_of_singleton. intros [?| ->]; [done|]. by apply Hva in Hb.
  - intros y Hy. change (vm_vmas (set_pg p2 s1)) with (vm_vmas s1). rewrite (aa_vmas _ _ _ _ _ _ _ _ _ _ _ _ _ _ Ha).
    rewrite lookup_insert_ne; [by apply C6|]. apply not_eq_sym, Hva, C5. right. by apply list_elem_of_fmap_2.
  - rewrite set_pg_pg, Ek. apply Hk.
  - pose proof (aa_room _ _ _ _ _ _ _ _ _ _ _ _ _ _ Ha). lia.
  - intros a Han. change (vm_mms (set_pg p2 s1)) with (vm_mms s1). rewrite (aa_mms _ _ _ _ _ _ _ _ _ _ _ _ _ _ Ha).
    rewrite lookup_insert_ne by done. by apply C10.
  - intros a. change (vma_list dst :: ys ++ [vma]) with ((vma_list dst :: ys) ++ [vma]).
    rewrite not_elem_of_app, list_elem_of_singleton. intros [Han Hav]. change (vm_links (set_pg p2 s1)) with (vm_links s1).
    rewrite (aa_links _ _ _ _ _ _ _ _ _ _ _ _ _ _ Ha). destruct (C11 a Han) as [E1 E2].
    destruct (same_links_inserted a (vm_links s) vma (last_or (vma_list dst) ys) (vma_list dst)) as [E3 E4]; [done| | |].
    + intros ->. apply Han, last_or_in.
    + intros ->. apply Han. by left.
    + split; congruence.
  - intros b Hb Hf. apply Ho; [by apply C12|done].
  - intros a Ha0. rewrite not_elem_of_app, list_elem_of_singleton. split; [by apply C13|].
    intros ->. by apply (Hva _ (kept_in_block _ _ _ C12 Ha0)).
  - rewrite set_pg_pg. by eapply areas_done_S.
Qed.

Lemma in_block_range s bs a : kheap_ok kheap_list (vm_kheap s) bs → in_block bs a → 0 < a < 2 ^ 64.
Proof using All.
  intros [Hh _] (b & Hb & _ & Hr). destruct (ha_in _ _ _ _ Hh b Hb). unfold KERNEL_HEAP_BASE, KERNEL_MMIO_BASE, HEADER_SIZE in *. lia.
Qed.

(** The node of area [n] and its successor in the source's list. *)
Lemma area_node n s bs dm ys x rest :
  copy_state n s bs dm ys → drop n areas = x :: rest →
  areas !! n = Some x ∧ 0 < x.1 < 2 ^ 64 ∧ x.1 ≠ vma_list src ∧ get_next x.1 s = Ok (head_or (vma_list src) rest.*1, s)
  ∧ get_vma x.1 s = Ok (x.2, s).
Proof using All.
  intros [C1 _ _ C4 C5 C6 _ _ _ _ _ _ _] Hd.
  assert (areas = take n areas ++ x :: rest) as Ea by (rewrite <- Hd; symmetry; apply take_drop).
  assert (x ∈ areas) as Hin by (rewrite Ea; set_solver).
  assert (areas !! n = Some x) as Hx by (rewrite <- (Nat.add_0_r n), <- lookup_drop, Hd; done).
  assert (x.1 ∈ areas.*1) as Hin1 by by apply list_elem_of_fmap_2.
  pose proof (in_block_range s bs x.1 (mo_heap _ _ _ _ _ _ _ C1) (proj1 (C5 _ ltac:(by right)))) as Hrg.
  split; [done|]. split; [done|]. split; [|split].
  - intros Heq. destruct C4 as [Hnd _]. apply NoDup_cons in Hnd as [Hnd _]. apply Hnd. by rewrite <- Heq.
  - apply get_next_ok; [simpl; apply Z.ltb_lt; lia|]. rewrite Ea, fmap_app in C4. simpl in C4. apply ring_at in C4. apply C4.
  - unfold get_vma, gets, or_crash. cbv [mbind M_bind]. by rewrite (C6 x Hin).
Qed.

(** The range handed to [mm_map_range] is the area. *)
Lemma area_range v :
  area_ok v → let size := u64 (vm_end v - vm_start v) in
  size = vm_end v - vm_start v ∧ ALIGN_DOWN (vm_start v) PAGE_SIZE = vm_start v ∧ ALIGN_UP (vm_start v + size) PAGE_SIZE = vm_end v
  ∧ (vm_end v - vm_start v + (PAGE_SIZE - 1)) / PAGE_SIZE = area_pages v.
Proof using All.
  intros [[H1 H2] [H3 H4] H5] size. assert (size = vm_end v - vm_start v) as -> by (apply u64_small; unfold PAGE_SIZE in *; lia).
  replace (vm_start v + (vm_end v - vm_start v)) with (vm_end v) by lia.
  destruct (align_page (vm_start v)) as [? _]; [lia|unfold PAGE_SIZE in *; lia|done|].
  destruct (align_page (vm_end v)) as [_ ?]; [lia|unfold PAGE_SIZE in *; lia|done|].
  split; [done|]. split; [done|]. split; [done|]. unfold area_pages, PAGE_SIZE in *. Z.to_euclidean_division_equations; lia.
Qed.

Lemma copy_vmas_ok fuel n s bs dm ys :
  copy_state n s bs dm ys → (n ≤ length areas)%nat → (length areas - n < fuel)%nat →
  wp (copy_vmas HHDM_OFFSET kheap_list fuel dst src (head_or (vma_list src) (drop n areas).*1)) s
    (λ r s', r = true ∧ ∃ bs' dm' ys', copy_state (length areas) s' bs' dm' ys').
Proof using All.
  revert n s bs dm ys. induction fuel as [|fuel IH]; intros n s bs dm ys Hst Hn Hf; [lia|]. cbn [copy_vmas].
  destruct (drop n areas) as [|x rest] eqn:Hd.
  { change (head_or (vma_list src) [].*1) with (vma_list src). rewrite Z.eqb_refl. apply wp_ret. split; [done|].
    apply (f_equal length) in Hd. rewrite length_drop in Hd. simpl in Hd. replace (length areas) with n by lia. by exists bs, dm, ys. }
  destruct (area_node n s bs dm ys x rest Hst Hd) as (Hx & Hrg & Hxn & Enext & Evma).
  change (head_or (vma_list src) (x :: rest).*1) with x.1. rewrite (proj2 (Z.eqb_neq _ _) Hxn). cbv zeta.
  assert (container_of x.1 0 = x.1) as -> by (unfold container_of; rewrite Z.sub_0_r; apply u64_small; lia).
  apply wp_bind. eapply wp_ok; [exact Enext|]. apply wp_bind. eapply wp_ok; [exact Evma|].
  assert (x ∈ areas) as Hxin by by eapply list_elem_of_lookup_2.
  pose proof (cp_areas _ _ _ _ Hcp x Hxin) as Hao. destruct (area_range x.2 Hao) as (Es & Ed & Eu & En). destruct Hao as [[A1 A2] [A3 A4] A5].
  pose proof (cs_done _ _ _ _ _ Hst) as Hdn. pose proof (cs_dst _ _ _ _ _ Hst) as Hmm. pose proof (cs_room _ _ _ _ _ Hst) as Hroom.
  pose proof (as_cost _ _ _ _ _ _ Hdn) as Hcost.
  assert (total_pages areas = total_pages (take n areas) + (area_pages x.2 + total_pages rest) ∧ 0 ≤ total_pages rest) as [Etot Hrest].
  { rewrite <- (take_drop n areas) at 1. rewrite total_pages_app, Hd. split; [done|]. apply total_pages_nonneg. intros y Hy.
    apply Hcp. rewrite <- (take_drop n areas), Hd. set_solver. }
  assert (n < length areas)%nat as Hlt by by eapply lookup_lt_Some.
  eapply wp_bind_mono; [apply (mm_map_range_ok HHDM_OFFSET kheap_list s bs dst dm ys (vm_start x.2) (u64 (vm_end x.2 - vm_start x.2)) (vm_flags x.2));
    [done| |done|rewrite Es; lia|rewrite Es; lia|]|].
  { apply room_fits; [by eapply kheap_sizes, Hmm|lia]. }
  { rewrite Ed, Eu. unfold free_frames in *. fold (area_pages x.2). lia. }
  cbn beta. rewrite Ed, Eu. intros r s1 (-> & vma & ks & bs' & Ha). cbn [negb].
  pose proof (aa_mms _ _ _ _ _ _ _ _ _ _ _ _ _ _ Ha) as Hms. pose proof (cs_root _ _ _ _ _ Hst) as Hroot.
  apply wp_bind. eapply wp_ok; [unfold get_mm, gets, or_crash; cbv [mbind M_bind]; rewrite Hms, lookup_insert_ne, (cs_src _ _ _ _ _ Hst) by done; reflexivity|].
  apply wp_bind. eapply wp_ok; [unfold get_mm, gets, or_crash; cbv [mbind M_bind]; rewrite Hms, lookup_insert_eq; reflexivity|].
  rewrite En. change (mm_pml4 (with_map_count _ dm)) with (mm_pml4 dm). rewrite Hroot.
  assert (space_kept (vm_pg s0) (vm_pg s) dr (mm_pml4 sm)) as Hsp by (apply Hdn; apply Hcp).
  pose proof (aa_range _ _ _ _ _ _ _ _ _ _ _ _ _ _ Ha) as Hrm. rewrite Hroot in Hrm.
  eapply wp_bind_mono; [apply (area_copied (vm_pg s) (vm_pg s1) x.2 ks (pte_flags_of (vm_flags x.2)) (mm_pml4 sm) dr)|].
  - done.
  - by constructor.
  - destruct (aa_pages _ _ _ _ _ _ _ _ _ _ _ _ _ _ Ha) as (E1 & _). unfold area_pages. rewrite E1. unfold PAGE_SIZE. Z.to_euclidean_division_equations; lia.
  - apply pte_flags_ok.
  - apply Hsp.
  - apply Hdn.
  - apply Hsp.
  - intros va es Hva. rewrite (sk_trans _ _ _ _ _ Hsp). intros Hes. destruct (cp_data _ _ _ _ Hcp x va es Hxin Hva Hes) as [Hb Ht].
    split; [|by apply Hdn]. destruct Hb as [Hb1 Hb2]. split; [by rewrite (as_frames _ _ _ _ _ _ Hdn)|]. intros Hc. by apply Hb2, (as_free _ _ _ _ _ _ Hdn).
  - exact Hrm.
  - done.
  - cbn beta. intros r s2 (-> & Es2 & Had). cbv iota.
    assert (rest = drop (S n) areas) as ->.
    { rewrite <- (take_drop n areas), Hd. rewrite (drop_app_ge _ _ (S n)); rewrite length_take; [|lia]. by replace (S n - n `min` length areas)%nat with 1%nat by lia. }
    eapply IH; [|lia|lia]. rewrite Es2. by eapply copy_state_S.
Qed.

End mm_copy.

(** * [mm_alloc]: a root that shares the kernel's half *)

Section shared_root.
  Context (p p' : pg_st A) (kr k : Z).
  Context (Hwf : pt_wf p kr) (Hk : k ∈ fa_free_set (pg_alloc p)).
  Context (Hok : fa_ok (pg_alloc p')) (Hframes : fa_frames (pg_alloc p') = fa_frames (pg_alloc p)).
  Context (Hfree : fa_free_set (pg_alloc p') = fa_free_set (pg_alloc p) ∖ {[k]}) (Hregs : same_regs p p').
  Context (Hother : ∀ a, (∀ i, vidx i → a ≠ slot (kva k) i) → pg_mem p' !! a = pg_mem p !! a).
  Context (Hlow : ∀ i, 0 ≤ i < 256 → pg_mem p' !! slot (kva k) i = Some 0).
  Context (Hhigh : ∀ i, 256 ≤ i < 512 → pg_mem p' !! slot (kva k) i = pg_mem p !! slot kr i).

Let pa := set_pg_alloc (pg_alloc p') p.

Lemma shared_alloc r : pt_wf p r → pt_wf pa r ∧ ¬ is_table pa r k.
Proof using All.
  intros Hr. split; [apply pt_wf_alloc; [done|done|done|set_solver]|].
  intros Hc. by destruct (is_table_busy _ _ _ _ Hr Hc).
Qed.

Lemma shared_written : frame_written k pa p'.
Proof using All.
  constructor; [done|done|]. intros k' i Hk' Hne Hi. apply Hother. intros j Hj Heq. simpl in Hk'.
  pose proof (fa_range _ _ (wf_alloc _ _ _ Hwf) Hk).
  apply (slot_inj _ _ (wf_hhdm _ _ _ Hwf)) in Heq as [-> _]; [done|lia|lia|done|done].
Qed.

Lemma shared_walk i q : vidx i → vpath q → (length q ≤ 2)%nat →
  walk (pg_mem p') (kva k) (i :: q) = if decide (i < 256) then None else walk (pg_mem p) kr (i :: q).
Proof using All.
  intros Hi Hq Hl. destruct (shared_alloc kr Hwf) as [Hwa Hna].
  destruct (frame_written_kept pa p' kr k Hwa Hna shared_written) as (_ & Hw & _). change (pg_mem pa) with (pg_mem p) in Hw.
  destruct (decide (i < 256)) as [Hlt|Hge]; unfold vidx in Hi.
  - simpl. by rewrite Hlow by lia.
  - rewrite <- (Hw (i :: q)); [|by constructor|simpl; lia]. simpl. rewrite Hhigh by lia.
    assert (pg_mem p' !! slot kr i = pg_mem p !! slot kr i) as ->; [|done].
    destruct (wf_root _ _ _ Hwf) as (kk & [Hb Hn] & Ekr). rewrite Ekr.
    apply (fw_other _ _ _ shared_written); [by simpl; rewrite Hframes|by intros ->|done].
Qed.

Lemma shared_wf : pt_wf p' (kva k).
Proof using All.
  pose proof (fa_range _ _ (wf_alloc _ _ _ Hwf) Hk) as Hkr. destruct (shared_alloc kr Hwf) as [Hwa Hna].
  assert (∀ q t, vpath q → (length q ≤ 3)%nat → walk (pg_mem p) kr q = Some t → t ≠ kva k) as Hold.
  { intros q t Hq Hl Hw ->. apply Hna. by exists q. }
  constructor; [done| | |].
  - destruct (wf_hhdm _ _ _ Hwf). split; [done|]. by rewrite Hframes.
  - intros [|i q] t Hq Hl Hw.
    + injection Hw as <-. exists k. split; [split; [by rewrite Hframes|rewrite Hfree; set_solver]|]. split; [done|].
      intros i Hi. destruct (decide (i < 256)); unfold vidx in Hi; [rewrite Hlow by lia; by eexists|]. rewrite Hhigh by lia.
      destruct (wf_table _ _ _ Hwf [] kr) as (? & _ & _ & Hs); [constructor|simpl; lia|done|]. by apply Hs.
    + pose proof Hq as [Hi Hq']%Forall_cons. simpl in Hl. rewrite shared_walk in Hw by (done || lia). case_decide; [done|].
      destruct (wf_table _ _ _ Hwf (i :: q) t) as (k' & [Hb Hn] & -> & Hs); [done|simpl; lia|done|].
      exists k'. split; [split; [by rewrite Hframes|rewrite Hfree; set_solver]|]. split; [done|].
      intros j Hj. rewrite (fw_other _ _ _ shared_written); [by apply Hs|by simpl; rewrite Hframes| |done]. intros ->. by apply (Hold (i :: q) (kva k)).
  - intros [|i q] [|j q'] t Hq Hq' Hl Hl' Hw Hw'; [done| | |].
    + injection Hw as <-. pose proof Hq' as [Hj Hq'']%Forall_cons. simpl in Hl'. rewrite shared_walk in Hw' by (done || lia).
      case_decide; [done|]. by apply (Hold (j :: q')) in Hw'; [|done|simpl; lia].
    + injection Hw' as <-. pose proof Hq as [Hj Hq'']%Forall_cons. simpl in Hl. rewrite shared_walk in Hw by (done || lia).
      case_decide; [done|]. by apply (Hold (i :: q)) in Hw; [|done|simpl; lia].
    + pose proof Hq as [Hi Hqi]%Forall_cons. pose proof Hq' as [Hj Hqj]%Forall_cons. simpl in Hl, Hl'.
      rewrite shared_walk in Hw, Hw' by (done || lia). repeat case_decide; try done.
      apply (wf_inj _ _ _ Hwf (i :: q) (j :: q') t); done || simpl; lia.
Qed.

Lemma shared_kept r : pt_wf p r → space_kept p p' (kva k) r.
Proof using All.
  intros Hr. destruct (shared_alloc r Hr) as [Hra Hrn].
  destruct (frame_written_kept pa p' r k Hra Hrn shared_written) as (H1 & H2 & H3 & H4).
  constructor; [done|done|done|]. intros [|i q] k' Hq Hl Hlp Hw.
  - injection Hw as Hw. apply kva_inj in Hw as <-. by rewrite H4.
  - apply Forall_cons in Hq as [Hi Hq]. simpl in Hl. rewrite shared_walk in Hw by (done || lia). by rewrite decide_True in Hw.
Qed.

Lemma shared_table k' : is_table p' (kva k) k' → k' = k ∨ is_table p kr k'.
Proof using All.
  intros ([|i q] & Hq & Hl & Hw).
  - left. injection Hw as Hw. by apply kva_inj in Hw.
  - right. exists (i :: q). split; [done|]. split; [done|]. apply Forall_cons in Hq as [Hi Hq]. simpl in Hl.
    rewrite shared_walk in Hw by (done || lia). by case_decide.
Qed.

Lemma shared_trans va : translate (pg_mem p') (kva k) va = if decide (PML4_IDX va < 256) then None else translate (pg_mem p) kr va.
Proof using All.
  destruct (shared_alloc kr Hwf) as [Hwa Hna]. destruct (frame_written_kept pa p' kr k Hwa Hna shared_written) as (_ & H2 & H3 & _).
  change (pg_mem pa) with (pg_mem p) in *.
  pose proof (va_path_valid va) as Hv. unfold va_path in Hv. apply Forall_cons in Hv as [Hi Hq].
  unfold translate at 1, leaf, va_path. rewrite shared_walk by done. case_decide as E; [done|].
  rewrite <- (H3 va). unfold translate, leaf. rewrite (H2 (va_path va)) by (apply va_path_valid || done).
  unfold va_path. done.
Qed.
End shared_root.

(** The object of a fresh address space with its root in frame [k]. *)
Definition new_mm (k : Z) : mm_struct := Mm (kva k) (k * PAGE_SIZE) 0 0 0 0 0 0 0 0 0 0.

(** From [s] to [s'] the address space [dst] was made, with its root in frame [k]. *)
Record space_made s (bs : list block) s' (bs' : list block) (dst k : Z) : Prop := {
  sm_mms : vm_mms s' = <[dst := new_mm k]> (vm_mms s);
  sm_vmas : vm_vmas s' = vm_vmas s;
  sm_links x : x ≠ vma_list dst → l_next (vm_links s') !! x = l_next (vm_links s) !! x ∧ l_prev (vm_links s') !! x = l_prev (vm_links s) !! x;
  sm_ok : mm_ok HHDM_OFFSET kheap_list s' bs' dst (new_mm k) [];
  sm_fresh : ¬ in_block bs dst ∧ ¬ in_block bs (vma_list dst);
  sm_blocks : kept_blocks bs bs';
  sm_room : room bs ≤ room bs' + 2;
  sm_spent : spends (ALIGN_UP sizeof_mm 8 + HEADER_SIZE) bs bs';
  sm_frame : k ∈ free_frames s;
  sm_free : free_frames s' = free_frames s ∖ {[k]};
  sm_frames : fa_frames (pg_alloc (vm_pg s')) = fa_frames (pg_alloc (vm_pg s));
  sm_regs : same_regs (vm_pg s) (vm_pg s');
  sm_mem a : (∀ i, vidx i → a ≠ slot (kva k) i) → pg_mem (vm_pg s') !! a = pg_mem (vm_pg s) !! a;
  sm_kept r : pt_wf (vm_pg s) r → space_kept (vm_pg s) (vm_pg s') (kva k) r;
  sm_table k' : is_table (vm_pg s') (kva k) k' → k' = k ∨ is_table (vm_pg s) (kernel_pml4 (vm_pg s)) k';
  sm_trans va : translate (pg_mem (vm_pg s')) (kva k) va =
    if decide (PML4_IDX va < 256) then None else translate (pg_mem (vm_pg s)) (kernel_pml4 (vm_pg s)) va;
  sm_shared i : 256 ≤ i < 512 → walk (pg_mem (vm_pg s')) (kva k) [i] = walk (pg_mem (vm_pg s)) (kernel_pml4 (vm_pg s)) [i]
}.

Lemma room_carve_mm l y r :
  fits (ALIGN_UP sizeof_mm 8) y → room (l ++ y :: r) ≤ room (l ++ carve y (ALIGN_UP sizeof_mm 8) ++ r) + 2.
Proof.
  intros Hy. rewrite !room_app. change (y :: r) with ([y] ++ r). rewrite room_app.
  assert (room [y] ≤ room (carve y (ALIGN_UP sizeof_mm 8)) + 2); [|lia].
  unfold fits in Hy. change (ALIGN_UP sizeof_mm 8) with 104 in *. unfold carve, room. destruct (b_free y) eqn:Ef; [|done].
  unfold HEADER_SIZE, MIN_SPLIT. change (ALIGN_UP sizeof_vma 8) with 48. cbn [foldr]. simpl in Hy. apply Is_true_true, Z.leb_le in Hy.
  destruct (Z.leb_spec (104 + 32 + 16) (b_size y)); simpl; rewrite Ef; Z.to_euclidean_division_equations; lia.
Qed.

(** The kernel's half copied into a cleared root. *)
Definition high_copied (root : Z) (n : Z) (k : Z) p p' : Prop :=
  same_but_mem p p'
  ∧ (∀ a, (∀ i, vidx i → a ≠ slot (kva k) i) → pg_mem p' !! a = pg_mem p !! a)
  ∧ (∀ i, 0 ≤ i < 256 → pg_mem p' !! slot (kva k) i = Some 0)
  ∧ ∀ i, 256 ≤ i < n → pg_mem p' !! slot (kva k) i = pg_mem p !! slot root i.

Lemma copy_high_ok p root k :
  pt_wf p root → fa_busy (pg_alloc p) k → ¬ is_table p root k → root = kernel_pml4 p →
  wp (memset_page (kva k);; root ← gets kernel_pml4; for_n 256 256 (λ i, e ← load (slot root i); store (slot (kva k) i) e)) p
    (λ _ p', high_copied root 512 k p p').
Proof.
  intros Hwf [Hkr Hkn] Hnt Hroot. pose proof (wf_hhdm _ _ _ Hwf) as Hh.
  eapply wp_bind_mono; [apply memset_page_wp|]. cbn beta. intros _ p1 ((Ha & Hk1 & Hc1) & Hz & Ho).
  apply wp_bind, wp_gets. rewrite Hk1, <- Hroot.
  destruct (wf_root _ _ _ Hwf) as (kr & [Hrr Hrn] & Er).
  assert (kr ≠ k) as Hne. { intros ->. apply Hnt. exists []. split; [constructor|]. split; [simpl; lia|]. by rewrite Er. }
  assert (∀ i j, vidx i → vidx j → slot root i ≠ slot (kva k) j) as Hsl.
  { intros i j Hi Hj Heq. rewrite Er in Heq. apply (slot_inj _ _ Hh) in Heq as [? _]; [done|lia|lia|done|done]. }
  eapply wp_mono; [apply (wp_for_n (λ n p', high_copied root n k p p'))|done].
  - split; [done|]. split; [intros a Hna; apply Ho; intros i Hi; apply Hna; unfold vidx; lia|]. split; [intros i Hi; apply Hz; lia|intros; lia].
  - intros j p2 Hj ((A2 & K2 & C2) & O2 & L2 & G2). destruct (wf_table _ _ _ Hwf [] root) as (kt & _ & _ & Hs); [constructor|simpl; lia|done|].
    assert (vidx j) as Hvj by (unfold vidx; lia). destruct (Hs j Hvj) as [e He].
    apply wp_bind. eapply load_wp; [rewrite O2 by (intros; by apply Hsl); exact He|]. apply wp_modify. split; [done|]. cbn [set_pg_mem pg_mem].
    assert (∀ i, vidx i → i ≠ j → slot (kva k) j ≠ slot (kva k) i) as Hij.
    { intros i Hi Hn Heq. apply (slot_inj _ _ Hh) in Heq as [_ ?]; [by apply Hn|lia|lia|done|done]. }
    split; [|split].
    + intros a Hna. rewrite lookup_insert_ne by by apply not_eq_sym, Hna. by apply O2.
    + intros i Hi. rewrite lookup_insert_ne by (apply Hij; unfold vidx; lia). by apply L2.
    + intros i Hi. destruct (decide (i = j)) as [->|Hn]; [by rewrite lookup_insert_eq|].
      rewrite lookup_insert_ne by (apply Hij; unfold vidx; lia). apply G2. lia.
Qed.

Lemma on_pg_seq {R} (m1 m2 : M (pg_st A) unit) (m : M St R) s p :
  (m1;; m2) (vm_pg s) = Ok (tt, p) → (on_pg m1;; on_pg m2;; m) s = m (set_pg p s).
Proof.
  unfold on_pg, zoom, mbind, M_bind. destruct (m1 (vm_pg s)) as [[[] q]|]; [|done]. rewrite set_pg_pg. by intros ->.
Qed.

Lemma mm_alloc_ok s bs :
  kheap_ok kheap_list (vm_kheap s) bs → Exists (fits (ALIGN_UP sizeof_mm 8)) bs → free_frames s ≠ ∅ →
  wp (mm_alloc HHDM_OFFSET kheap_list) s (λ dst s', ∃ bs' k, space_made s bs s' bs' dst k).
Proof.
  intros Hok Hfit Hfree. pose proof (ha_pages _ _ _ _ (proj1 Hok)) as Hkr. set (kr := kernel_pml4 (vm_pg s)).
  change (pt_wf (vm_pg s) kr) in Hkr. pose proof (wf_hhdm _ _ _ Hkr) as Hh.
  destruct (kmalloc_object_ok HHDM_OFFSET kheap_list s bs sizeof_mm Hok ltac:(done) Hfit)
    as (dst & h & bs' & E & Hobj & Hspan & _ & l & y & r & Ebs & Hy & Ebs').
  pose proof Hobj as [Hpg Hheap _ Hrg _ _ Hold].
  unfold mm_alloc. apply wp_bind. eapply wp_ok; [exact E|]. rewrite (proj2 (Z.eqb_neq dst 0)) by (unfold KERNEL_HEAP_BASE in *; lia).
  apply wp_bind, wp_modify. set (s1 := set_mms _ (set_kheap h s)). assert (vm_pg s1 = vm_pg s) as E1 by exact Hpg.
  destruct (wp_inv _ _ _ (fa_alloc_spec _ (wf_alloc _ _ _ Hkr))) as (pa & a & Ea & Hoka & Hfra & Hc).
  destruct Hc as [(_ & He & _)|(k & Hk & -> & Hset)]; [done|]. pose proof (fa_range _ _ (wf_alloc _ _ _ Hkr) Hk) as Hkk.
  apply wp_bind. eapply wp_ok; [unfold pmm_alloc_page; apply on_pg_ok; rewrite E1; unfold on_alloc, zoom; by rewrite Ea|].
  rewrite (proj2 (Z.eqb_neq (k * PAGE_SIZE) 0)) by (unfold PAGE_SIZE; lia).
  change (u64 (k * PAGE_SIZE + HHDM_OFFSET)) with (pa2kva HHDM_OFFSET (k * PAGE_SIZE)). rewrite (pa2kva_frame _ _ Hh) by lia.
  set (pg2 := set_pg_alloc a (vm_pg s)). set (s2 := set_pg pg2 s1).
  apply wp_bind. unfold update_mm. apply wp_bind. eapply wp_ok.
  { unfold get_mm, gets, or_crash. cbv [mbind M_bind]. change (vm_mms s2) with (<[dst := Mm 0 0 0 0 0 0 0 0 0 0 0 0]> (vm_mms s)).
    rewrite lookup_insert_eq. reflexivity. }
  apply wp_modify. set (s3 := set_mms _ s2). change (with_pml4 (kva k) (k * PAGE_SIZE) _) with (new_mm k) in s3.
  assert (pt_wf pg2 kr ∧ ¬ is_table pg2 kr k) as [Hwf2 Hnt2].
  { split; [apply pt_wf_alloc; [done|done|done|rewrite Hset; set_solver]|]. intros Hc. by destruct (is_table_busy _ _ _ _ Hkr Hc). }
  assert (fa_busy (pg_alloc pg2) k) as Hb2 by (split; simpl; [by rewrite Hfra|rewrite Hset; set_solver]).
  destruct (wp_inv _ _ _ (copy_high_ok pg2 kr k Hwf2 Hb2 Hnt2 eq_refl))
    as ([] & p4 & E4 & (Hal4 & Hk4 & Hc4) & Ho4 & Hl4 & Hg4).
  unfold wp. rewrite (on_pg_seq _ _ _ s3 p4 E4).
  set (s4 := set_pg p4 s3).
  assert (0 < vma_list dst) as Hvl by (unfold vma_list; rewrite u64_small; unfold KERNEL_HEAP_BASE, KERNEL_MMIO_BASE in *; lia).
  destruct (list_init_spec s4 (vma_list dst)) as (lk & Eli & Hring & Hlk); [by apply Z.ltb_lt|].
  rewrite (bind_ok _ _ _ _ _ Eli). unfold mret, M_ret. exists bs', k.
  assert (vma_list dst = dst + 16) as Evl by (unfold vma_list; rewrite u64_small; unfold KERNEL_HEAP_BASE, KERNEL_MMIO_BASE in *; lia).
  destruct (Hspan 0) as [Hf0 _]; [done|]. rewrite Z.add_0_r in Hf0. destruct (Hspan 16) as [Hf16 Hi16]; [done|]. rewrite <- Evl in Hf16, Hi16.
  assert (fa_ok (pg_alloc p4) ∧ fa_frames (pg_alloc p4) = fa_frames (pg_alloc (vm_pg s)) ∧ fa_free_set (pg_alloc p4) = fa_free_set (pg_alloc (vm_pg s)) ∖ {[k]}) as (Hok4 & Hfr4 & Hfs4) by (rewrite Hal4; done).
  assert (same_regs (vm_pg s) p4) as Hregs by by split.
  pose proof (shared_kept (vm_pg s) p4 kr k Hkr Hk Hok4 Hfr4 Hfs4 Hregs Ho4 Hl4 Hg4) as Hkept.
  constructor; try done.
  - change (vm_mms (ls_set lk s4)) with (<[dst := new_mm k]> (<[dst := Mm 0 0 0 0 0 0 0 0 0 0 0 0]> (vm_mms s))). by rewrite insert_insert_eq.
  - constructor.
    + change (vm_kheap (ls_set lk s4)) with (set_pages p4 h). destruct Hheap as [Hha Hhb]. split; [|exact Hhb]. apply heap_set_pages; [done| |].
      * change (pt_wf p4 (kernel_pml4 p4)). rewrite (proj1 Hregs). by apply Hkept.
      * intros x. rewrite Hpg. change (kernel_mapped HHDM_OFFSET (vm_pg s) x = true → kernel_mapped HHDM_OFFSET p4 x = true).
        unfold kernel_mapped. by rewrite (proj1 Hregs), (sk_trans _ _ _ _ _ (Hkept kr Hkr)).
    + apply lookup_insert_eq.
    + unfold KERNEL_HEAP_BASE in *. lia.
    + by apply (shared_wf (vm_pg s) p4 kr k).
    + exact Hring.
    + intros x. rewrite list_elem_of_singleton. by intros ->.
  - rewrite Ebs, Ebs'. by apply room_carve_mm.
  - rewrite Ebs, Ebs'. by apply spends_carve.
  - by apply (shared_table (vm_pg s) p4 kr k).
  - by apply (shared_trans (vm_pg s) p4 kr k).
  - intros i Hi. change (pg_mem (vm_pg (ls_set lk s4))) with (pg_mem p4). rewrite (shared_walk (vm_pg s) p4 kr k) by (done || (unfold vidx; lia) || apply Forall_nil_2 || simpl; lia).
    by rewrite decide_False by lia.
Qed.

(** * Fork's copy of an address space *)

(** An address space [src] that can be copied: its areas [areas] are page ranges of the
    lower half that do not overlap, every mapped page of them is a data frame, and the
    heap and the frames suffice for the copy and its tables. *)
Record forkable s (bs : list block) (src : Z) (sm : mm_struct) (areas : list (Z * vma_struct)) : Prop := {
  fk_mm : mm_ok HHDM_OFFSET kheap_list s bs src sm areas.*1;
  fk_vmas x : x ∈ areas → vm_vmas s !! x.1 = Some x.2;
  fk_areas x : x ∈ areas → area_ok x.2;
  fk_disjoint i j x y : areas !! i = Some x → areas !! j = Some y → i ≠ j → vm_end x.2 ≤ vm_start y.2 ∨ vm_end y.2 ≤ vm_start x.2;
  fk_data x va es : x ∈ areas → in_area x.2 va → trans HHDM_OFFSET s (mm_pml4 sm) va = Some es →
    fa_busy (pg_alloc (vm_pg s)) (frame_of es) ∧ ¬ is_table (vm_pg s) (kernel_pml4 (vm_pg s)) (frame_of es);
  fk_heap : Exists (fits (ALIGN_UP sizeof_mm 8)) bs ∧ Z.of_nat (length areas) + 2 ≤ room bs;
  fk_frames : 1 + 4 * total_pages areas ≤ Z.of_nat (size (free_frames s))
}.

Lemma made_copyable s bs s1 bs1 src sm areas dst k :
  forkable s bs src sm areas → space_made s bs s1 bs1 dst k → copyable (vm_pg s1) areas (mm_pml4 sm) (kva k).
Proof.
  intros [F1 F2 F3 F4 F5 F6 F7] Hm. pose proof (sm_kept _ _ _ _ _ _ Hm (mm_pml4 sm) (mo_wf _ _ _ _ _ _ _ F1)) as Hk.
  constructor; [apply Hk|apply Hk|done|done|].
  intros x va es Hx Hva. rewrite (sk_trans _ _ _ _ _ Hk). intros Hes. destruct (F5 x va es Hx Hva Hes) as [[Hb Hn] Ht].
  pose proof (sm_free _ _ _ _ _ _ Hm) as Hf. unfold free_frames in Hf. split.
  - split; [by rewrite (sm_frames _ _ _ _ _ _ Hm)|]. rewrite Hf. set_solver.
  - intros Hc. apply (sm_table _ _ _ _ _ _ Hm) in Hc as [Hc|Hc]; [|done]. apply Hn. rewrite Hc. apply (sm_frame _ _ _ _ _ _ Hm).
Qed.

Lemma made_ne s bs s1 bs1 src sm areas dst k :
  forkable s bs src sm areas → space_made s bs s1 bs1 dst k → dst ≠ src.
Proof.
  intros [F1 _ _ _ _ _ _] Hm ->. destruct (sm_fresh _ _ _ _ _ _ Hm) as [_ Hf]. apply Hf, (mo_nodes _ _ _ _ _ _ _ F1). by left.
Qed.

Lemma made_copy_state s bs s1 bs1 src sm areas dst k :
  forkable s bs src sm areas → space_made s bs s1 bs1 dst k →
  copy_state s1 bs1 dst src sm (kva k) areas 0 s1 bs1 (new_mm k) [].
Proof.
  intros Hf Hm. pose proof (made_ne _ _ _ _ _ _ _ _ _ Hf Hm) as Hne. destruct Hf as [F1 F2 F3 F4 F5 F6 F7].
  pose proof (sm_fresh _ _ _ _ _ _ Hm) as [_ Hfr].
  assert (∀ a, a ∈ vma_list src :: areas.*1 → in_block bs a ∧ a ≠ vma_list dst) as Hn.
  { intros a Ha. pose proof (mo_nodes _ _ _ _ _ _ _ F1 a Ha) as Hb. split; [done|]. by intros ->. }
  constructor.
  - apply Hm.
  - done.
  - rewrite (sm_mms _ _ _ _ _ _ Hm), lookup_insert_ne by done. apply F1.
  - eapply ring_ext; [|apply F1]. intros a Ha. by apply Hm, Hn.
  - intros a Ha. destruct (Hn a Ha). split; [by apply (kept_in_block bs _ _ (sm_blocks _ _ _ _ _ _ Hm))|]. by rewrite list_elem_of_singleton.
  - intros x Hx. rewrite (sm_vmas _ _ _ _ _ _ Hm). by apply F2.
  - destruct (sm_regs _ _ _ _ _ _ Hm) as [-> _]. apply (sm_kept _ _ _ _ _ _ Hm).
    apply (ha_pages _ _ _ _ (proj1 (mo_heap _ _ _ _ _ _ _ F1))).
  - pose proof (sm_room _ _ _ _ _ _ Hm). lia.
  - done.
  - done.
  - by intros b Hb _.
  - intros a Ha. by apply not_elem_of_nil.
  - apply areas_done_0, (sm_ok _ _ _ _ _ _ Hm).
Qed.

(** There are enough areas for the fuel. *)
Lemma areas_fuel s areas :
  NoDup areas.*1 → (∀ x, x ∈ areas → vm_vmas s !! x.1 = Some x.2) → (length areas < vma_fuel s)%nat.
Proof.
  intros Hnd Hx. unfold vma_fuel. assert (list_to_map areas ⊆ vm_vmas s) as Hsub.
  { apply map_subseteq_spec. intros a v Ha. apply elem_of_list_to_map_2 in Ha. by apply (Hx (a, v)). }
  apply map_subseteq_size in Hsub.
  rewrite map_size_list_to_map in Hsub by done. lia.
Qed.

Lemma mm_copy_ok s bs s1 bs1 src sm areas dst k :
  forkable s bs src sm areas → space_made s bs s1 bs1 dst k →
  wp (mm_copy HHDM_OFFSET kheap_list dst src) s1
    (λ r s', r = true ∧ ∃ bs' dm' ys', copy_state s1 bs1 dst src sm (kva k) areas (length areas) s' bs' dm' ys').
Proof.
  intros Hf Hm. pose proof (made_copy_state _ _ _ _ _ _ _ _ _ Hf Hm) as Hst. pose proof Hst as [C1 _ _ C4 C5 C6 _ _ _ _ _ _ _].
  unfold mm_copy. rewrite (proj2 (Z.eqb_neq dst 0)) by (pose proof (mo_pos _ _ _ _ _ _ _ C1); lia).
  rewrite (proj2 (Z.eqb_neq src 0)) by (pose proof (mo_pos _ _ _ _ _ _ _ (fk_mm _ _ _ _ _ Hf)); lia). cbn [orb].
  apply wp_bind, wp_gets. apply wp_bind. eapply wp_ok.
  { apply get_next_ok; [|exact (ring_next _ _ _ C4)]. simpl. apply Z.ltb_lt. eapply in_block_pos; [apply C1|]. apply C5. by left. }
  apply (copy_vmas_ok s1 bs1 dst src sm (kva k) areas) with (n := 0%nat) (bs := bs1) (dm := new_mm k) (ys := []); try done.
  - by eapply made_ne.
  - by eapply made_copyable.
  - pose proof (fk_frames _ _ _ _ _ Hf) as Hb. rewrite (sm_free _ _ _ _ _ _ Hm), size_difference, size_singleton; [lia|].
    apply singleton_subseteq_l, (sm_frame _ _ _ _ _ _ Hm).
  - lia.
  - rewrite Nat.sub_0_r. apply areas_fuel; [|exact C6]. destruct C4 as [Hnd _]. by apply NoDup_cons in Hnd as [_ Hnd].
Qed.

(** What [mm_alloc] and [mm_copy] do together. *)
Record space_copied s (bs : list block) s' (bs' : list block) (sm : mm_struct) (areas : list (Z * vma_struct)) (dst : Z) (dm : mm_struct) : Prop := {
  sc_heap : kheap_ok kheap_list (vm_kheap s') bs';
  sc_blocks : kept_blocks bs bs';
  sc_dst : dst ≠ 0 ∧ ¬ in_block bs dst ∧ vm_mms s' !! dst = Some dm;
  sc_mms a : a ≠ dst → vm_mms s' !! a = vm_mms s !! a;
  sc_links a : (in_block bs a ∨ ¬ KERNEL_HEAP_BASE ≤ a < KERNEL_MMIO_BASE) → same_links a (vm_links s) (vm_links s');
  sc_regs : same_regs (vm_pg s) (vm_pg s');
  sc_frames : fa_frames (pg_alloc (vm_pg s')) = fa_frames (pg_alloc (vm_pg s));
  sc_free : free_frames s' ⊆ free_frames s;
  sc_cost : Z.of_nat (size (free_frames s)) ≤ Z.of_nat (size (free_frames s')) + 1 + 4 * total_pages areas;
  sc_wf : pt_wf (vm_pg s') (mm_pml4 dm);
  sc_private : private (vm_pg s') (mm_pml4 dm) (kernel_pml4 (vm_pg s));
  sc_kept r : pt_wf (vm_pg s) r → space_kept (vm_pg s) (vm_pg s') (mm_pml4 dm) r;
  sc_data k i : fa_busy (pg_alloc (vm_pg s)) k → ¬ is_table (vm_pg s) (kernel_pml4 (vm_pg s)) k → vidx i →
    pg_mem (vm_pg s') !! slot (kva k) i = pg_mem (vm_pg s) !! slot (kva k) i;
  sc_copy x va es : x ∈ areas → in_area x.2 va → trans HHDM_OFFSET s (mm_pml4 sm) va = Some es →
    page_copy (vm_pg s) (vm_pg s') (mm_pml4 dm) va es;
  sc_owned x va : x ∈ areas → in_area x.2 va → page_owned (vm_pg s) (vm_pg s') (mm_pml4 dm) va;
  sc_blank x va : x ∈ areas → in_area x.2 va → trans HHDM_OFFSET s (mm_pml4 sm) va = None →
    blank_page (vm_pg s') (mm_pml4 dm) va (vm_flags x.2);
  sc_apart x x' va va' e e' : x ∈ areas → x' ∈ areas → in_area x.2 va → in_area x'.2 va' →
    trans HHDM_OFFSET s' (mm_pml4 dm) va = Some e → trans HHDM_OFFSET s' (mm_pml4 dm) va' = Some e' → frame_of e = frame_of e' → va = va';
  sc_rest va : 0 ≤ va < 2 ^ 47 → (∀ x, x ∈ areas → ¬ vm_start x.2 ≤ va < vm_end x.2) → trans HHDM_OFFSET s' (mm_pml4 dm) va = None
}.

Lemma copied_space s bs s1 bs1 src sm areas dst k0 s' bs' dm ys :
  forkable s bs src sm areas → space_made s bs s1 bs1 dst k0 →
  copy_state s1 bs1 dst src sm (kva k0) areas (length areas) s' bs' dm ys → space_copied s bs s' bs' sm areas dst dm.
Proof.
  intros Hf Hm [C1 C2 C3 _ _ _ C6 _ C7 C8 C9 C10 C11]. pose proof (fk_mm _ _ _ _ _ Hf) as Hmm.
  pose proof C1 as [M1 M2 M3 _ _ M4].
  pose proof (sm_fresh _ _ _ _ _ _ Hm) as [Hfd Hfv]. pose proof (sm_frame _ _ _ _ _ _ Hm) as Hk0.
  pose proof (sm_free _ _ _ _ _ _ Hm) as Hfr. pose proof (as_free _ _ _ _ _ _ C11) as Hfs.
  destruct (sm_regs _ _ _ _ _ _ Hm) as [R1 R2], (as_regs _ _ _ _ _ _ C11) as [R3 R4].
  pose proof (as_cost _ _ _ _ _ _ C11) as Hcost. rewrite firstn_all in Hcost.
  assert (∀ r, pt_wf (vm_pg s) r → space_kept (vm_pg s) (vm_pg s') (kva k0) r) as Hkept.
  { intros r Hr. pose proof (sm_kept _ _ _ _ _ _ Hm r Hr) as Hk. apply (space_kept_trans _ (vm_pg s1)); [done|]. apply C11; apply Hk. }
  assert (∀ k, fa_busy (pg_alloc (vm_pg s)) k → ¬ is_table (vm_pg s) (kernel_pml4 (vm_pg s)) k →
    fa_busy (pg_alloc (vm_pg s1)) k ∧ ¬ is_table (vm_pg s1) (kva k0) k ∧ ∀ i, vidx i → pg_mem (vm_pg s1) !! slot (kva k) i = pg_mem (vm_pg s) !! slot (kva k) i) as Hdata.
  { intros k [Hb Hn] Ht. assert (k ≠ k0) as Hne by (by intros ->). unfold free_frames in Hfr. split; [|split].
    - split; [by rewrite (sm_frames _ _ _ _ _ _ Hm)|rewrite Hfr; set_solver].
    - intros [?|?]%(sm_table _ _ _ _ _ _ Hm); done.
    - intros i Hi. apply (sm_mem _ _ _ _ _ _ Hm). intros j Hj Heq. pose proof (wf_alloc _ _ _ (mo_wf _ _ _ _ _ _ _ Hmm)) as Hal.
      destruct (fa_range _ _ Hal Hk0). apply (slot_inj _ _ (wf_hhdm _ _ _ (mo_wf _ _ _ _ _ _ _ Hmm))) in Heq as [Heq _]; [done|lia|lia|done|done]. }
  constructor; rewrite ?C2.
  - done.
  - intros b Hb Hbf. apply C9; [by apply (sm_blocks _ _ _ _ _ _ Hm)|done].
  - split; [lia|]. split; [done|]. done.
  - intros a Ha. rewrite C7 by done. rewrite (sm_mms _ _ _ _ _ _ Hm). by rewrite lookup_insert_ne.
  - intros a Ha. assert (a ∉ vma_list dst :: ys) as Hno.
    { destruct Ha as [Ha|Ha].
      - intros [->|Hin]%elem_of_cons; [done|]. by apply (C10 a (kept_in_block _ _ _ (sm_blocks _ _ _ _ _ _ Hm) Ha)).
      - intros Hin. apply M4 in Hin as (b & Hb & _ & Hr). destruct (ha_in _ _ _ _ (proj1 M1) b Hb). unfold HEADER_SIZE in *. lia. }
    destruct (C8 a Hno) as [E1 E2]. destruct (sm_links _ _ _ _ _ _ Hm a) as [E3 E4]; [set_solver|]. split; congruence.
  - split; congruence.
  - rewrite (as_frames _ _ _ _ _ _ C11). apply (sm_frames _ _ _ _ _ _ Hm).
  - unfold free_frames in *. set_solver.
  - unfold free_frames in *. rewrite Hfr, size_difference, size_singleton in Hcost; [lia|by apply singleton_subseteq_l].
  - apply C11.
  - by rewrite R3, R1 in C6.
  - done.
  - intros k i Hb Ht Hi. destruct (Hdata k Hb Ht) as (D1 & D2 & D3). rewrite <- D3 by done. by apply (as_plain _ _ _ _ _ _ C11).
  - intros x va es Hx Hva Hes. pose proof (sm_kept _ _ _ _ _ _ Hm (mm_pml4 sm) (mo_wf _ _ _ _ _ _ _ Hmm)) as Hk1.
    destruct (as_copy _ _ _ _ _ _ C11 x va es) as (k & Q1 & Q2 & Q3 & Q4 & Q5); [by rewrite firstn_all|done|by rewrite (sk_trans _ _ _ _ _ Hk1)|].
    destruct (fk_data _ _ _ _ _ Hf x va es Hx Hva Hes) as [Hb Ht]. destruct (Hdata _ Hb Ht) as (_ & _ & Hsame).
    exists k. split; [unfold free_frames in *; set_solver|]. split; [done|]. split; [done|]. split; [done|]. intros i Hi. by rewrite Q5, Hsame.
  - intros x va Hx Hva. destruct (as_owned _ _ _ _ _ _ C11 x va) as (e & Q1 & Q2 & Q3); [by rewrite firstn_all|done|].
    exists e. split; [done|]. split; [unfold free_frames in *; set_solver|done].
  - intros x va Hx Hva Hno. pose proof (sm_kept _ _ _ _ _ _ Hm (mm_pml4 sm) (mo_wf _ _ _ _ _ _ _ Hmm)) as Hk1.
    apply (as_blank _ _ _ _ _ _ C11 x va); [by rewrite firstn_all|done|by rewrite (sk_trans _ _ _ _ _ Hk1)].
  - intros x x' va va' e e' Hx Hx'. apply (as_apart _ _ _ _ _ _ C11 x x'); by rewrite firstn_all.
  - intros va Hva Hn. unfold trans. rewrite (as_rest _ _ _ _ _ _ C11) by (rewrite ?firstn_all; done).
    rewrite (sm_trans _ _ _ _ _ _ Hm), decide_True; [done|]. apply slot_path_low in Hva. exact Hva.
Qed.

(** A space that has been given its first area can be forked, when the area's frames
    hold no table of the kernel and room is left for the copy. *)
Lemma first_area_forkable s bs mm m start end_ flags s' vma ks bs' bs2 :
  mm_ok HHDM_OFFSET kheap_list s bs mm m [] → start + PAGE_SIZE < end_ + PAGE_SIZE → end_ + PAGE_SIZE ≤ 2 ^ 47 →
  area_added HHDM_OFFSET kheap_list s bs mm m [] start end_ flags s' vma ks bs' →
  kheap_ok kheap_list (vm_kheap s') bs2 → (∀ j k, ks !! j = Some k → ¬ is_table (vm_pg s') (kernel_pml4 (vm_pg s')) k) →
  in_block bs2 (vma_list mm) → in_block bs2 vma →
  (Exists (fits (ALIGN_UP sizeof_mm 8)) bs2 ∧ 3 ≤ room bs2) → 1 + 4 * zlen ks ≤ Z.of_nat (size (free_frames s')) →
  forkable s' bs2 mm (with_map_count (i32 (map_count m + 1)) m) [(vma, Vma mm start end_ flags)].
Proof.
  intros [_ Hmm Hpos Hwf Hring Hin] Hlt Hb [V1 V2 V3 V4 _ V6 _ V7 (P1 & P2 & P3 & P4)] Hbs Hnt Hi1 Hi2 Hfit Hfr.
  assert (area_ok (Vma mm start end_ flags)) as Hao.
  { constructor; cbn; [done| |lia]. split; [lia|]. unfold PAGE_SIZE in *. Z.to_euclidean_division_equations; lia. }
  constructor.
  - constructor; [done| |done|apply V7|apply V4|].
    + rewrite V2. apply lookup_insert_eq.
    + intros a [->| ->%list_elem_of_singleton]%elem_of_cons; done.
  - intros x ->%list_elem_of_singleton. rewrite V1. apply lookup_insert_eq.
  - by intros x ->%list_elem_of_singleton.
  - intros i j x y [-> _]%list_lookup_singleton_Some [-> _]%list_lookup_singleton_Some. done.
  - intros x va es ->%list_elem_of_singleton [Hva Hvm]. cbn in Hva. intros Hes. unfold trans in Hes.
    destruct (lookup_lt_is_Some_2 ks (Z.to_nat ((va - start) / PAGE_SIZE))) as [k Hk].
    { unfold zlen, PAGE_SIZE in *. Z.to_euclidean_division_equations; lia. }
    destruct (rm_in _ _ _ _ _ _ _ V7 _ k Hk) as (K1 & K2 & K3 & K4).
    replace (start + _) with va in K4 by (unfold PAGE_SIZE in *; Z.to_euclidean_division_equations; lia).
    change (mm_pml4 (with_map_count _ m)) with (mm_pml4 m) in Hes. rewrite K4 in Hes. injection Hes as <-.
    pose proof (fa_range _ _ (wf_alloc _ _ _ Hwf) K1). pose proof (fa_width _ (wf_alloc _ _ _ Hwf)). destruct (pte_flags_ok flags).
    assert (frame_of (leaf_entry (k * PAGE_SIZE) (pte_flags_of flags)) = k) as ->.
    { unfold frame_of. rewrite leaf_entry_addr by lia. apply Z.div_mul. unfold PAGE_SIZE. lia. }
    split; [|by eapply Hnt]. split; [|done]. by rewrite (rm_frames _ _ _ _ _ _ _ V7).
  - exact Hfit.
  - unfold total_pages. cbn. unfold area_pages. cbn. replace ((end_ - start) / PAGE_SIZE) with (zlen ks); [lia|].
    unfold PAGE_SIZE in *. Z.to_euclidean_division_equations; lia.
Qed.

(** The heap and the frames of a new area, in a space that uses the kernel's root
    and in one of its own. *)
Lemma area_added_heap s bs mm m xs start end_ flags s' vma ks bs' :
  mm_ok HHDM_OFFSET kheap_list s bs mm m xs →
  mm_pml4 m = kernel_pml4 (vm_pg s) ∨ private (vm_pg s) (mm_pml4 m) (kernel_pml4 (vm_pg s)) →
  area_added HHDM_OFFSET kheap_list s bs mm m xs start end_ flags s' vma ks bs' →
  kheap_ok kheap_list (vm_kheap s') bs' ∧ ∀ j k, ks !! j = Some k → ¬ is_table (vm_pg s') (kernel_pml4 (vm_pg s')) k.
Proof.
  intros [[Hh Hpa] _ _ Hwf _ _] Hroot [_ _ _ _ [_ O2 _ _ _ _ _] _ _ V7 (P1 & P2 & P3 & P4)].
  pose proof (rm_regs _ _ _ _ _ _ _ V7) as [Er _]. pose proof (ha_pages _ _ _ _ Hh : pt_wf (vm_pg s) (kernel_pml4 (vm_pg s))) as Hkr.
  assert (pt_wf (vm_pg s') (kernel_pml4 (vm_pg s))
    ∧ (∀ a, is_Some (translate (pg_mem (vm_pg s)) (kernel_pml4 (vm_pg s)) a) → is_Some (translate (pg_mem (vm_pg s')) (kernel_pml4 (vm_pg s)) a))
    ∧ ∀ j k, ks !! j = Some k → ¬ is_table (vm_pg s') (kernel_pml4 (vm_pg s)) k) as (W1 & W2 & W3).
  { destruct Hroot as [<-|Hpr].
    - split; [apply V7|]. split; [intros a; by apply (range_mapped_mono HHDM_OFFSET _ _ _ _ _ _ _ V7)|]. intros j k Hk. by apply (rm_in _ _ _ _ _ _ _ V7 j k Hk).
    - pose proof (rm_other _ _ _ _ _ _ _ V7 _ ltac:(lia) ltac:(lia) Hkr Hpr) as Hk. split; [apply Hk|]. split.
      + intros a. by rewrite (sk_trans _ _ _ _ _ Hk).
      + intros j k Hj Ht. apply (space_kept_table _ _ _ _ _ Hk) in Ht. destruct (rm_in _ _ _ _ _ _ _ V7 j k Hj) as (K1 & _).
        by destruct (is_table_busy _ _ _ _ Hkr Ht). }
  rewrite Er. split; [|done]. destruct O2 as [Hh2 Hpa2]. split; [|exact Hpa2].
  assert (vm_kheap s' = set_pages (vm_pg s') (set_pages (vm_pg s) (vm_kheap s'))) as -> by by destruct s' as [[]].
  apply heap_set_pages; [exact Hh2| |].
  - change (pt_wf (vm_pg s') (kernel_pml4 (vm_pg s'))). by rewrite Er.
  - intros x. change (kernel_mapped HHDM_OFFSET (vm_pg s) x = true → kernel_mapped HHDM_OFFSET (vm_pg s') x = true).
    unfold kernel_mapped. rewrite !bool_decide_eq_true, Er. apply W2.
Qed.

(** C8: [fork]'s deep copy: for an address space with room for a copy, [mm_alloc] and
    [mm_copy] succeed.  The new space has a root of its own and well-formed tables.
    Every page of every area of the source is mapped in it, each to a different frame
    that was free: a page the source has mapped with the flags of the source's entry
    and the same content, a page the source has not mapped with the flags of the area
    (and whatever the frame held).  No address of the lower half outside the areas is
    mapped; and the source keeps its translations and the content of its pages. *)
Theorem mm_copy_deep s bs src sm areas :
  forkable s bs src sm areas →
  wp (dst ← mm_alloc HHDM_OFFSET kheap_list; ok ← mm_copy HHDM_OFFSET kheap_list dst src; mret (dst, ok)) s
    (λ r s', r.2 = true ∧ r.1 ≠ src ∧ vm_mms s' !! src = Some sm ∧ ∃ dm, vm_mms s' !! r.1 = Some dm
      ∧ pt_wf (vm_pg s') (mm_pml4 dm)
      ∧ (∀ va, trans HHDM_OFFSET s' (mm_pml4 sm) va = trans HHDM_OFFSET s (mm_pml4 sm) va)
      ∧ (∀ x va es, x ∈ areas → in_area x.2 va → trans HHDM_OFFSET s (mm_pml4 sm) va = Some es →
           ∃ k, k ∈ free_frames s ∧ (k ∉ free_frames s') ∧ trans HHDM_OFFSET s' (mm_pml4 dm) va = Some (copied_entry k es)
             ∧ ∀ i, vidx i → let content := pg_mem (vm_pg s) !! slot (kva (frame_of es)) i in
                 pg_mem (vm_pg s') !! slot (kva k) i = content ∧ pg_mem (vm_pg s') !! slot (kva (frame_of es)) i = content)
      ∧ (∀ x va, x ∈ areas → in_area x.2 va → trans HHDM_OFFSET s (mm_pml4 sm) va = None → blank_page (vm_pg s') (mm_pml4 dm) va (vm_flags x.2))
      ∧ (∀ x va, x ∈ areas → in_area x.2 va → ∃ e, trans HHDM_OFFSET s' (mm_pml4 dm) va = Some e
           ∧ frame_of e ∈ free_frames s ∧ (frame_of e ∉ free_frames s')
           ∧ ∀ x' va', x' ∈ areas → in_area x'.2 va' → va' ≠ va → ∀ e', trans HHDM_OFFSET s' (mm_pml4 dm) va' = Some e' → frame_of e' ≠ frame_of e)
      ∧ ∀ va, 0 ≤ va < 2 ^ 47 → (∀ x, x ∈ areas → ¬ vm_start x.2 ≤ va < vm_end x.2) → trans HHDM_OFFSET s' (mm_pml4 dm) va = None).
Proof.
  intros Hf. pose proof (fk_mm _ _ _ _ _ Hf) as Hmm.
  eapply wp_bind_mono; [apply (mm_alloc_ok s bs); [apply Hmm|apply Hf|]|].
  { intros He. pose proof (fk_frames _ _ _ _ _ Hf) as Hb. rewrite He, size_empty in Hb.
    pose proof (total_pages_nonneg areas (fk_areas _ _ _ _ _ Hf)). lia. }
  cbn beta. intros dst s1 (bs1 & k0 & Hm). eapply wp_bind_mono; [by eapply mm_copy_ok|].
  cbn beta. intros ok s' (-> & bs' & dm & ys & Hst). apply wp_ret. cbn [fst snd].
  pose proof (copied_space _ _ _ _ _ _ _ _ _ _ _ _ _ Hf Hm Hst) as [_ _ [_ [_ D]] Hms _ _ _ _ _ Hwf _ Hkept Hdata Hcopy Howned Hblank Hapart Hrest].
  pose proof (made_ne _ _ _ _ _ _ _ _ _ Hf Hm) as Hne. pose proof (Hkept _ (mo_wf _ _ _ _ _ _ _ Hmm)) as Hk.
  split; [done|]. split; [done|]. split; [rewrite Hms by done; apply Hmm|]. exists dm. split; [done|]. split; [done|].
  split; [intros va; apply Hk|]. split; [|split; [done|split; [|done]]].
  - intros x va es Hx Hva Hes. destruct (Hcopy x va es Hx Hva Hes) as (k & Q1 & [_ Q2] & Q3 & Q4 & Q5).
    exists k. split; [done|]. split; [done|]. split; [done|]. intros i Hi. split; [by rewrite Q5|].
    destruct (fk_data _ _ _ _ _ Hf x va es Hx Hva Hes). by apply Hdata.
  - intros x va Hx Hva. destruct (Howned x va Hx Hva) as (e & H1 & H2 & [_ H3] & _). exists e. split; [done|]. split; [done|]. split; [done|].
    intros x' va' Hx' Hva' Hn e' He' Hee. by apply Hn, (Hapart x' x va' va e' e).
Qed.
End copy.

(** * A witness: the space of the Vmm examples with one page mapped *)

Section example.
Let H := KERNEL_HHDM_BASE.

Definition run_vmm {A} (m : M (vmm_st pmm_st) A) (s : vmm_st pmm_st) : vmm_st pmm_st := match m s with Ok (_, s') => s' | Crash _ => s end.
Definition vmm_area : vmm_st pmm_st := run_vmm (mm_map_range H list_example mm_example 0x10000 0x1000 3) vmm_example.
Definition vma_example : Z := KERNEL_HEAP_BASE + 168.
Definition areas_example : list (Z * vma_struct) := [(vma_example, Vma mm_example 0x10000 0x11000 3)].
Definition mm_one_area : mm_struct := with_map_count 1 mm_fields.
Definition blocks_area : list block :=
  [Block KERNEL_HEAP_BASE 104 false; Block (KERNEL_HEAP_BASE + 136) 48 false; Block (KERNEL_HEAP_BASE + 216) 3848 true].

Lemma blocks_area_view bs :
  kheap_ok (KernelPages0 := kernel_pages H) list_example (vm_kheap vmm_area) bs →
  kheap_ok (KernelPages0 := kernel_pages H) list_example (vm_kheap vmm_area) blocks_area.
Proof.
  intros Hok. apply (heap_view _ _ _ Hok); clear Hok.
  - split; [|by split_and!; vm_compute]. apply (bool_decide_unpack (NoDup _)). by vm_compute.
  - by split_and!; vm_compute.
  - repeat (constructor; [by split; vm_compute|]). constructor.
  - unfold blocks_area. by rewrite !Forall_cons, Forall_nil.
Qed.

Lemma vmm_area_forkable : forkable H list_example vmm_area blocks_area mm_example mm_one_area areas_example.
Proof.
  assert (wp (mm_map_range H list_example mm_example 0x10000 0x1000 3) vmm_example (λ r s', r = true ∧
    ∃ vma ks bs', area_added H list_example vmm_example blocks_mm mm_example mm_fields [] 0x10000 0x11000 3 s' vma ks bs')) as Hw.
  { apply (mm_map_range_ok H list_example vmm_example blocks_mm mm_example mm_fields [] 0x10000 0x1000 3); [exact vmm_example_ok|exact blocks_mm_fit|lia|lia| |].
    - unfold PAGE_SIZE. lia.
    - by vm_compute. }
  destruct (wp_inv _ _ _ Hw) as (r & s' & E & -> & vma & ks & bs' & Ha). clear Hw.
  assert (s' = vmm_area) as -> by (unfold vmm_area, run_vmm; by rewrite E). clear E.
  assert (vm_vmas vmm_area !! vma_example = Some (Vma mm_example 0x10000 0x11000 3)) as Hv by by vm_compute.
  rewrite (aa_vmas _ _ _ _ _ _ _ _ _ _ _ _ _ _ Ha) in Hv.
  assert (vma_example = vma) as <-.
  { apply lookup_insert_Some in Hv as [[? _]|[_ Hv]]; [done|]. change (vm_vmas vmm_example) with (∅ : gmap Z vma_struct) in Hv. by rewrite lookup_empty in Hv. }
  pose proof (aa_pages _ _ _ _ _ _ _ _ _ _ _ _ _ _ Ha) as [En _].
  destruct (area_added_heap H list_example _ _ _ _ _ _ _ _ _ _ _ _ vmm_example_ok ltac:(left; by vm_compute) Ha) as [Hheap Hnt].
  apply (first_area_forkable H list_example vmm_example blocks_mm mm_example mm_fields 0x10000 0x11000 3 vmm_area vma_example ks bs' blocks_area);
    [exact vmm_example_ok|lia|unfold PAGE_SIZE; lia|exact Ha|by eapply blocks_area_view|exact Hnt| | | |]; clear Ha Hheap Hnt.
  - exists (Block KERNEL_HEAP_BASE 104 false). split; [by left|]. split; [done|]. by vm_compute.
  - exists (Block (KERNEL_HEAP_BASE + 136) 48 false). split; [by right; left|]. split; [done|]. by vm_compute.
  - split; [by right; right; left|]. by vm_compute.
  - assert (zlen ks = 1) as -> by (unfold PAGE_SIZE in En; lia). by vm_compute.
Qed.

Lemma vmm_area_mapped : trans H vmm_area (mm_pml4 mm_one_area) 0x10000 = Some (leaf_entry (9 * PAGE_SIZE) 7).
Proof. by vm_compute. Qed.

Lemma vmm_area_page : in_area (Vma mm_example 0x10000 0x11000 3) 0x10000.
Proof. split; [cbn; lia|done]. Qed.

Lemma mm_copy_deep_witness :
  ∃ dst s' k, (dst ← mm_alloc H list_example; ok ← mm_copy H list_example dst mm_example; mret (dst, ok)) vmm_area = Ok ((dst, true), s')
    ∧ ∃ dm, vm_mms s' !! dst = Some dm ∧ trans H s' (mm_pml4 dm) 0x10000 = Some (copied_entry k (leaf_entry (9 * PAGE_SIZE) 7)).
Proof.
  destruct (wp_inv _ _ _ (mm_copy_deep H list_example vmm_area blocks_area mm_example mm_one_area areas_example vmm_area_forkable))
    as ([dst ok] & s' & E & Hok & _ & _ & dm & Hdm & _ & _ & Hc & _).
  simpl in Hok. subst ok.
  destruct (Hc (vma_example, Vma mm_example 0x10000 0x11000 3) 0x10000 (leaf_entry (9 * PAGE_SIZE) 7) ltac:(left) vmm_area_page vmm_area_mapped)
    as (k & _ & _ & Hk & _).
  exists dst, s', k. split; [exact E|]. exists dm. split; [exact Hdm|exact Hk].
Defined.
End example.
