(* ===== verification/Stack.v ===== *)
(** Stack: the words of a kernel stack, written through the address space the
    processor is in.  Every space shares the kernel's tables for the stack area, so
    the stack [kstack_init] mapped in the kernel's root is there in all of them. *)
From S2P Require Import Prelude Layout Frames Pmm Paging Range Kstack Vaccess Vmm Vmmcopy.

Definition STACK_IDX : Z := PML4_IDX KERNEL_STACK_BASE.

Lemma stack_idx va : KERNEL_STACK_BASE ≤ va < KERNEL_STACK_BASE + 2 ^ 39 → PML4_IDX va = STACK_IDX.
Proof.
  intros H. unfold STACK_IDX. rewrite !pml4_idx_eq. unfold KERNEL_STACK_BASE in *. unfold vpn, PAGE_SIZE. Z.to_euclidean_division_equations; lia.
Qed.

Section stack.
  Context {A : Type} `{FA : FrameAlloc A}.
  Context (HHDM_OFFSET : Z) (junk : Z → Z).
  Abbreviation kva := (kva HHDM_OFFSET).
  Abbreviation translate := (translate HHDM_OFFSET).
  Abbreviation walk := (walk HHDM_OFFSET).
  Abbreviation pt_wf := (pt_wf HHDM_OFFSET).
  Abbreviation is_table := (is_table HHDM_OFFSET).
  Abbreviation cr3_root := (cr3_root HHDM_OFFSET).
  Implicit Types p : pg_st A.

(** The root [r] has the kernel's table for the addresses of index [i]. *)
Definition shares p (r i : Z) : Prop :=
  ∃ t, walk (pg_mem p) r [i] = Some t ∧ walk (pg_mem p) (kernel_pml4 p) [i] = Some t.

Lemma shares_translate p r va :
  shares p r (PML4_IDX va) → translate (pg_mem p) r va = translate (pg_mem p) (kernel_pml4 p) va.
Proof.
  intros (t & H1 & H2). unfold Paging.translate, leaf, va_path.
  change [PML4_IDX va; PDPT_IDX va; PD_IDX va] with ([PML4_IDX va] ++ [PDPT_IDX va; PD_IDX va]).
  by rewrite !walk_app, H1, H2.
Qed.

(** The word [w] is at [va] in the kernel's root, in a frame that holds no page table. *)
Definition word_is p (va w : Z) : Prop :=
  ∃ e, translate (pg_mem p) (kernel_pml4 p) va = Some e ∧ fa_busy (pg_alloc p) (frame_of e)
    ∧ ¬ is_table p (kernel_pml4 p) (frame_of e) ∧ word_at junk p (slot (kva (frame_of e)) (OFFSET va / 8)) = w.

(** The words [ws] are at [va], in the stack area. *)
Record words_at p (va : Z) (ws : list Z) : Prop := {
  wa_range : KERNEL_STACK_BASE ≤ va ∧ va + 8 * zlen ws ≤ KERNEL_STACK_BASE + 2 ^ 39;
  wa_word j w : ws !! j = Some w → word_is p (va + 8 * Z.of_nat j) w
}.

(** * The page at the top of a stack *)

(** The page at [tb] is the frame [kt], which holds no page table. *)
Record stack_page p (tb kt : Z) : Prop := {
  sp_wf : pt_wf p (kernel_pml4 p);
  sp_range : KERNEL_STACK_BASE ≤ tb ∧ tb + PAGE_SIZE ≤ KERNEL_STACK_BASE + 2 ^ 39 ∧ tb mod PAGE_SIZE = 0;
  sp_trans : translate (pg_mem p) (kernel_pml4 p) tb = Some (leaf_entry (kt * PAGE_SIZE) kstack_flags);
  sp_busy : fa_busy (pg_alloc p) kt;
  sp_table : ¬ is_table p (kernel_pml4 p) kt;
  sp_shared : shares p (cr3_root p) STACK_IDX;
  sp_root : ∃ kc, cr3_root p = kva kc ∧ 0 < kc < fa_frames (pg_alloc p) ∧ kc ≠ kt
}.

Lemma frame_written_word p k i w :
  hhdm_fits HHDM_OFFSET (pg_alloc p) → fa_busy (pg_alloc p) k → vidx i →
  frame_written HHDM_OFFSET k p (set_pg_mem (<[slot (kva k) i := w]> (pg_mem p)) p).
Proof.
  intros Hh [Hk _] Hi. constructor; [done|by split|]. intros k' j Hk' Hne Hj. simpl. rewrite lookup_insert_ne; [done|].
  intros E. apply (slot_inj _ _ Hh) in E as [-> _]; [done|lia|lia|done|done].
Qed.

Lemma stack_page_written p p' tb kt : stack_page p tb kt → frame_written HHDM_OFFSET kt p p' → stack_page p' tb kt.
Proof.
  intros [H1 H2 H3 H4 H5 (t & S1 & S2) (kc & R1 & R2 & R3)] Hw. pose proof Hw as [W1 [W2 W3] W4].
  destruct (frame_written_kept HHDM_OFFSET p p' (kernel_pml4 p) kt H1 H5 Hw) as (K1 & K2 & K3 & K4).
  assert (cr3_root p' = cr3_root p) as Ec by (unfold Vaccess.cr3_root; by rewrite W3).
  constructor; rewrite ?W1, ?W2, ?Ec; try done.
  - by rewrite K3.
  - by rewrite K4.
  - assert (vpath [STACK_IDX]) as Hv by (apply Forall_singleton, idx_range). exists t. split.
    + cbn [Paging.walk] in *. rewrite R1 in *. by rewrite (W4 kc STACK_IDX) by (done || apply idx_range).
    + rewrite W2, K2 by (done || simpl; lia). done.
  - by exists kc.
Qed.

Section page.
  Context (tb kt : Z).

Lemma stack_word p i :
  stack_page p tb kt → vidx i → ∀ write, va_word HHDM_OFFSET write (tb + 8 * i) p = Ok (slot (kva kt) i, p).
Proof.
  intros Hs Hi write. pose proof Hs as [H1 (B1 & B2 & B3) H3 [H4 _] _ Hsh _]. unfold vidx in Hi.
  assert (translate (pg_mem p) (cr3_root p) (tb + 8 * i) = Some (leaf_entry (kt * PAGE_SIZE) kstack_flags)) as Et.
  { rewrite shares_translate; [|rewrite stack_idx by (unfold PAGE_SIZE in *; lia); done]. rewrite <- H3. apply translate_vpn.
    unfold vpn, PAGE_SIZE in *. Z.to_euclidean_division_equations; lia. }
  unfold va_word, gets, or_crash. cbv [mbind M_bind]. rewrite Et. unfold mret, M_ret. cbv beta iota.
  pose proof (wf_alloc _ _ _ H1) as Hal. pose proof (fa_width _ Hal).
  assert (pte_writable (leaf_entry (kt * PAGE_SIZE) kstack_flags) = true) as ->.
  { unfold pte_writable, leaf_entry, PTE_RW. rewrite land_pow2_nonzero by lia. rewrite !Z.lor_spec. change (Z.testbit kstack_flags 1) with true. by rewrite orb_true_r. }
  rewrite andb_false_r. do 2 f_equal.
  rewrite leaf_entry_addr, (pa2kva_frame _ _ (wf_hhdm _ _ _ H1)) by (done || lia). f_equal. unfold OFFSET.
  change 0xFFF with (Z.ones 12). rewrite Z.land_ones by lia. unfold PAGE_SIZE in *. Z.to_euclidean_division_equations; lia.
Qed.

(** The words [ws] from index [i] on are written, and nothing else. *)
Definition words_stored (i : Z) (ws : list Z) p p' : Prop :=
  frame_written HHDM_OFFSET kt p p'
  ∧ ∀ j, vidx j → pg_mem p' !! slot (kva kt) j =
      if decide (i ≤ j < i + zlen ws) then ws !! Z.to_nat (j - i) else pg_mem p !! slot (kva kt) j.

(** The words [ws] are in the page from index [i] on. *)
Definition slots_hold (i : Z) (ws : list Z) p : Prop := ∀ j w, ws !! j = Some w → pg_mem p !! slot (kva kt) (i + Z.of_nat j) = Some w.

Lemma slots_stored i ws p p' : words_stored i ws p p' → 0 ≤ i → i + zlen ws ≤ 512 → slots_hold i ws p'.
Proof.
  intros [_ Hm] Hi Hl j w Hj. pose proof (lookup_lt_Some _ _ _ Hj). unfold zlen in *.
  rewrite Hm, decide_True by (unfold vidx; lia). by replace (Z.to_nat (i + Z.of_nat j - i)) with j by lia.
Qed.

(** One more word, among them or before them. *)
Lemma slots_store i ws j w p p' :
  slots_hold i ws p → words_stored (i + Z.of_nat j) [w] p p' → 0 ≤ i → i + zlen ws ≤ 512 → slots_hold i (<[j := w]> ws) p'.
Proof.
  intros Hs [_ Hm] Hi Hl n x Hn. pose proof (lookup_lt_Some _ _ _ Hn) as Hlt. rewrite length_insert in Hlt. unfold zlen in Hl.
  rewrite Hm by (unfold vidx; lia). change (zlen [w]) with 1. destruct (decide (n = j)) as [->|Hne].
  - rewrite list_lookup_insert_eq in Hn by lia. rewrite decide_True, Z.sub_diag by lia. done.
  - rewrite list_lookup_insert_ne in Hn by done. rewrite decide_False by lia. by apply Hs.
Qed.

Lemma slots_push i ws w p p' :
  slots_hold (i + 1) ws p → words_stored i [w] p p' → 0 ≤ i → i + 1 + zlen ws ≤ 512 → slots_hold i (w :: ws) p'.
Proof.
  intros Hs [_ Hm] Hi Hl n x Hn. pose proof (lookup_lt_Some _ _ _ Hn) as Hlt. cbn [length] in Hlt. unfold zlen in Hl.
  rewrite Hm by (unfold vidx; lia). change (zlen [w]) with 1. destruct n as [|n].
  - injection Hn as <-. by rewrite decide_True, Z.add_0_r, Z.sub_diag by lia.
  - rewrite decide_False by lia. replace (i + Z.of_nat (S n)) with (i + 1 + Z.of_nat n) by lia. by apply Hs.
Qed.

Lemma frame_written_trans p p1 p2 :
  frame_written HHDM_OFFSET kt p p1 → frame_written HHDM_OFFSET kt p1 p2 → frame_written HHDM_OFFSET kt p p2.
Proof.
  intros [A1 [A2 A3] A4] [B1 [B2 B3] B4]. constructor; [congruence|split; congruence|].
  intros k j Hk Hne Hj. rewrite B4; [by apply A4|by rewrite A1|done|done].
Qed.

Lemma store_words_ok ws : ∀ i p,
  stack_page p tb kt → 0 ≤ i → i + zlen ws ≤ 512 →
  wp (store_words HHDM_OFFSET (tb + 8 * i) ws) p (λ _ p', stack_page p' tb kt ∧ words_stored i ws p p').
Proof.
  induction ws as [|w ws IH]; intros i p Hs Hi Hl; cbn [store_words].
  - apply wp_ret. split; [done|]. split; [by constructor|]. intros j Hj. rewrite decide_False; [done|].
    change (zlen (@nil Z)) with 0. lia.
  - assert (zlen (w :: ws) = zlen ws + 1) as El by (unfold zlen; simpl; lia). rewrite El in Hl.
    assert (0 ≤ zlen ws) by auto. assert (vidx i) as Hvi by (unfold vidx; lia).
    unfold store_word. apply wp_bind, wp_bind. eapply wp_ok; [by apply stack_word|]. apply wp_modify.
    set (p1 := set_pg_mem _ p). pose proof Hs as [H1 (B1 & B2 & B3) _ H4 _ _ _].
    pose proof (frame_written_word p kt i w (wf_hhdm _ _ _ H1) H4 Hvi) as Hw.
    assert (u64 (tb + 8 * i + 8) = tb + 8 * (i + 1)) as ->.
    { unfold PAGE_SIZE, KERNEL_STACK_BASE in *. rewrite u64_small; lia. }
    eapply wp_mono; [apply (IH (i + 1) p1); [by eapply stack_page_written|lia|lia]|].
    cbn beta. intros _ p2 [Hs2 [Hw2 Hm2]]. split; [done|].
    assert (words_stored i [w] p p1) as Hw1.
    { split; [done|]. intros j Hj. unfold p1. simpl. change (zlen [w]) with 1. destruct (decide (i ≤ j < i + 1)).
      - replace j with i by lia. rewrite Z.sub_diag. apply lookup_insert_eq.
      - rewrite lookup_insert_ne; [done|]. pose proof H4 as [Hk _]. intros E.
        apply (slot_inj _ _ (wf_hhdm _ _ _ H1)) in E as [_ E]; [lia|lia|lia|done|done]. }
    split; [by eapply frame_written_trans; [apply Hw1|]|]. intros j Hj. rewrite Hm2, El by done. destruct Hw1 as [_ Hm1]. change (zlen [w]) with 1 in Hm1.
    destruct (decide (i ≤ j < i + (zlen ws + 1))).
    + destruct (decide (j = i)) as [->|].
      * rewrite decide_False by lia. rewrite Hm1, decide_True, Z.sub_diag by (done || lia). done.
      * rewrite decide_True by lia. replace (Z.to_nat (j - i)) with (S (Z.to_nat (j - (i + 1)))) by lia. done.
    + rewrite decide_False by lia. rewrite Hm1, decide_False by (done || lia). done.
Qed.

Lemma store_word_ok i w p :
  stack_page p tb kt → vidx i →
  wp (store_word HHDM_OFFSET (tb + 8 * i) w) p (λ _ p', stack_page p' tb kt ∧ words_stored i [w] p p').
Proof.
  intros Hs Hi. unfold vidx in Hi.
  pose proof (store_words_ok [w] i p Hs ltac:(lia) ltac:(change (zlen [w]) with 1; lia)) as H.
  unfold wp, store_words, mbind, M_bind in *. by destruct (store_word _ _ _ p) as [[[] ?]|].
Qed.
End page.

(** * Reading a stack *)

Lemma load_word_ok p va w :
  shares p (cr3_root p) STACK_IDX → hhdm_fits HHDM_OFFSET (pg_alloc p) →
  KERNEL_STACK_BASE ≤ va < KERNEL_STACK_BASE + 2 ^ 39 → word_is p va w → load_word HHDM_OFFSET junk va p = Ok (w, p).
Proof.
  intros Hs Hh Hr (e & Ee & [Hb _] & _ & Hw). unfold load_word, va_word, gets, or_crash. cbv [mbind M_bind].
  rewrite shares_translate, Ee by (rewrite stack_idx by lia; done). unfold mret, M_ret. cbv beta iota. cbn [andb].
  rewrite pte_get_addr_frame, (pa2kva_frame _ _ Hh) by lia. by rewrite Hw.
Qed.

Lemma load_words_ok p n : ∀ va ws,
  shares p (cr3_root p) STACK_IDX → hhdm_fits HHDM_OFFSET (pg_alloc p) → words_at p va ws → length ws = n →
  load_words HHDM_OFFSET junk va n p = Ok (ws, p).
Proof.
  induction n as [|n IH]; intros va [|w ws] Hs Hh [[R1 R2] Hw] Hl; try done. cbn [load_words].
  assert (zlen (w :: ws) = zlen ws + 1) as El by (unfold zlen; simpl; lia). rewrite El in *. assert (0 ≤ zlen ws) by auto.
  pose proof (Hw 0%nat w eq_refl) as H0. replace (va + 8 * Z.of_nat 0) with va in H0 by lia.
  rewrite (bind_ok _ _ _ _ _ (load_word_ok p va w Hs Hh ltac:(lia) H0)).
  assert (u64 (va + 8) = va + 8) as -> by (apply u64_small; unfold KERNEL_STACK_BASE in *; lia).
  assert (words_at p (va + 8) ws) as Hws.
  { constructor; [lia|]. intros j w' Hj. replace (va + 8 + 8 * Z.of_nat j) with (va + 8 * Z.of_nat (S j)) by lia. by apply Hw. }
  simpl in Hl. by rewrite (bind_ok _ _ _ _ _ (IH (va + 8) ws Hs Hh Hws ltac:(lia))).
Qed.

(** What was written to the page is there. *)
Lemma stored_words_at p tb kt i ws :
  stack_page p tb kt → 0 ≤ i → i + zlen ws ≤ 512 → slots_hold kt i ws p → words_at p (tb + 8 * i) ws.
Proof.
  intros Hs Hi Hl Hw. pose proof Hs as [H1 (B1 & B2 & B3) H3 H4 H5 _ _]. pose proof H4 as [Hk _].
  pose proof (fa_width _ (wf_alloc _ _ _ H1)).
  constructor; [unfold PAGE_SIZE in *; lia|]. intros j w Hj. exists (leaf_entry (kt * PAGE_SIZE) kstack_flags).
  apply lookup_lt_Some in Hj as Hlt. unfold zlen in *.
  assert (frame_of (leaf_entry (kt * PAGE_SIZE) kstack_flags) = kt) as ->.
  { unfold frame_of. rewrite leaf_entry_addr by (done || lia). apply Z.div_mul. unfold PAGE_SIZE. lia. }
  split; [|split; [done|split; [done|]]].
  - rewrite <- H3. apply translate_vpn. unfold vpn, PAGE_SIZE in *. Z.to_euclidean_division_equations; lia.
  - unfold word_at. assert (OFFSET (tb + 8 * i + 8 * Z.of_nat j) / 8 = i + Z.of_nat j) as ->.
    { unfold OFFSET. change 0xFFF with (Z.ones 12). rewrite Z.land_ones by lia. unfold PAGE_SIZE in *. Z.to_euclidean_division_equations; lia. }
    by rewrite (Hw j w Hj).
Qed.

(** * A new stack *)

(** There is room for another stack, and the processor is in the kernel's space or in
    one that shares the kernel's tables for it. *)
Record stack_room p (ptr : Z) : Prop := {
  sr_ptr : KERNEL_STACK_BASE ≤ ptr ∧ ptr + PAGE_SIZE + KSTACK_SIZE ≤ KERNEL_STACK_BASE + 2 ^ 39 ∧ ptr mod PAGE_SIZE = 0;
  sr_root : cr3_root p = kernel_pml4 p
    ∨ shares p (cr3_root p) STACK_IDX ∧ ∃ kc, cr3_root p = kva kc ∧ fa_busy (pg_alloc p) kc ∧ ¬ is_table p (kernel_pml4 p) kc;
  sr_frames : (16 ≤ size (fa_free_set (pg_alloc p)))%nat
}.

(** Afterwards the processor's space has the tables of the new stack. *)
Lemma new_stack_shared p p' start ks va e :
  range_mapped HHDM_OFFSET (kernel_pml4 p) start kstack_flags ks p p' →
  cr3_root p = kernel_pml4 p ∨ shares p (cr3_root p) STACK_IDX ∧ (∃ kc, cr3_root p = kva kc ∧ fa_busy (pg_alloc p) kc ∧ ¬ is_table p (kernel_pml4 p) kc) →
  translate (pg_mem p') (kernel_pml4 p) va = Some e → KERNEL_STACK_BASE ≤ va < KERNEL_STACK_BASE + 2 ^ 39 → shares p' (cr3_root p) STACK_IDX.
Proof.
  intros Hr Hroot Ht Hva. destruct (rm_regs _ _ _ _ _ _ _ Hr) as [R1 _]. unfold shares. rewrite R1.
  assert (vpath [STACK_IDX]) as Hv by (apply Forall_singleton, idx_range).
  destruct Hroot as [->|((t & T1 & T2) & kc & E & Hb & Hn)].
  - unfold Paging.translate, leaf, va_path in Ht.
    change [PML4_IDX va; PDPT_IDX va; PD_IDX va] with ([PML4_IDX va] ++ [PDPT_IDX va; PD_IDX va]) in Ht.
    rewrite walk_app, stack_idx in Ht by done. destruct (walk (pg_mem p') (kernel_pml4 p) [STACK_IDX]) as [t|]; [by exists t|done].
  - exists t. split; [|apply (rm_old _ _ _ _ _ _ _ Hr); [done|simpl; lia|done]].
    rewrite <- T1. cbn [Paging.walk]. rewrite E. by rewrite (rm_data _ _ _ _ _ _ _ Hr kc STACK_IDX Hb Hn (idx_range _)).
Qed.

Lemma new_stack p ptr :
  pt_wf p (kernel_pml4 p) → stack_room p ptr →
  wp (kstack_init HHDM_OFFSET KSTACK_SIZE) (KstackSt p ptr) (λ top k,
    top = ptr + PAGE_SIZE + KSTACK_SIZE ∧ kstack_ptr k = top ∧ ∃ ks kt, zlen ks = 4
      ∧ range_mapped HHDM_OFFSET (kernel_pml4 p) (ptr + PAGE_SIZE) kstack_flags ks p (ks_pg k)
      ∧ kt ∈ fa_free_set (pg_alloc p) ∧ stack_page (ks_pg k) (top - PAGE_SIZE) kt).
Proof.
  intros Hwf [(P1 & P2 & P3) Hroot Hfr]. change KSTACK_SIZE with (4 * PAGE_SIZE) in *.
  eapply wp_mono; [apply (kstack_init_ok HHDM_OFFSET (KstackSt p ptr) 4); [done|lia| | |]|].
  - simpl. unfold KERNEL_STACK_BASE in *. lia.
  - simpl. unfold KERNEL_STACK_BASE in *. lia.
  - simpl. lia.
  - cbn beta. cbn [kstack_ptr]. intros top k (-> & Ep & ks & Hl & Hr). cbn [kstack_ptr ks_pg] in *. split; [done|]. split; [done|].
    destruct (lookup_lt_is_Some_2 ks 3) as [kt Hkt]; [unfold zlen in Hl; lia|].
    destruct (rm_in _ _ _ _ _ _ _ Hr _ _ Hkt) as (K1 & K2 & K3 & K4). pose proof (wf_alloc _ _ _ Hwf) as Hal.
    pose proof (fa_range _ _ Hal K1) as Hkr. destruct (rm_regs _ _ _ _ _ _ _ Hr) as [R1 R2].
    assert (cr3_root (ks_pg k) = cr3_root p) as Ec by (unfold Vaccess.cr3_root; by rewrite R2).
    assert (translate (pg_mem (ks_pg k)) (kernel_pml4 p) (ptr + PAGE_SIZE + 4 * PAGE_SIZE - PAGE_SIZE) = Some (leaf_entry (kt * PAGE_SIZE) kstack_flags)) as Htr.
    { rewrite <- K4. f_equal. unfold PAGE_SIZE. lia. }
    exists ks, kt. split; [done|]. split; [done|]. split; [done|]. constructor; rewrite ?R1, ?Ec.
    + apply Hr.
    + unfold PAGE_SIZE in *. split; [lia|]. split; [lia|]. Z.to_euclidean_division_equations; lia.
    + exact Htr.
    + split; [by rewrite (rm_frames _ _ _ _ _ _ _ Hr)|done].
    + done.
    + eapply new_stack_shared; [exact Hr|exact Hroot|exact Htr|unfold PAGE_SIZE in *; lia].
    + rewrite (rm_frames _ _ _ _ _ _ _ Hr). destruct Hroot as [E|(_ & kc & E & [Hb Hn] & _)].
      * destruct (wf_root _ _ _ Hwf) as (kc & [Hb Hn] & Ek). exists kc. rewrite E. split; [done|]. split; [done|]. by intros ->.
      * exists kc. split; [done|]. split; [done|]. by intros ->.
Qed.

(** Mapping new pages moves no word. *)
Lemma words_at_range root start flags ks p p' va ws :
  range_mapped HHDM_OFFSET root start flags ks p p' → root = kernel_pml4 p →
  (∀ i j, 0 ≤ i < zlen ws → 0 ≤ j < zlen ks → vpn (va + 8 * i) ≠ vpn (start + j * PAGE_SIZE)) →
  words_at p va ws → words_at p' va ws.
Proof.
  intros Hr -> Hne [Hrg Hw]. constructor; [done|]. intros j w Hj. destruct (Hw j w Hj) as (e & H1 & [Hb Hn] & H3 & H4).
  destruct (rm_regs _ _ _ _ _ _ _ Hr) as [R1 _]. apply lookup_lt_Some in Hj. unfold zlen in *.
  exists e. rewrite R1. split; [rewrite (rm_out _ _ _ _ _ _ _ Hr); [done|]; intros i Hi; unfold zlen in Hi; apply Hne; lia|].
  split; [split; [by rewrite (rm_frames _ _ _ _ _ _ _ Hr)|]; intros Hc; by apply Hn, (rm_free _ _ _ _ _ _ _ Hr)|].
  split; [by apply (rm_plain _ _ _ _ _ _ _ Hr)|]. rewrite <- H4. unfold word_at. f_equal.
  apply (rm_data _ _ _ _ _ _ _ Hr); [done|done|]. unfold vidx, OFFSET. change 0xFFF with (Z.ones 12). rewrite Z.land_ones by lia.
  Z.to_euclidean_division_equations; lia.
Qed.

Lemma words_at_push e p va ws : words_at p va ws → words_at (push_event e p) va ws.
Proof.
  intros [Hrg Hw]. constructor; [done|]. intros j w Hj. destruct (Hw j w Hj) as (x & H1 & [Hb Hn] & H3 & H4). exists x.
  split; [done|]. split; [|done]. change (pg_alloc (push_event e p)) with (push_event e (pg_alloc p)).
  split; [by rewrite fa_trace_frames|by rewrite fa_trace_set].
Qed.
(** Data frames that are in use are not touched. *)
Definition data_kept (root : Z) (p p' : pg_st A) : Prop :=
  ∀ k i, fa_busy (pg_alloc p) k → ¬ is_table p root k → vidx i → pg_mem p' !! slot (kva k) i = pg_mem p !! slot (kva k) i.

(** Making a stack and writing to its top touch no data. *)
Lemma stack_data_kept p p1 p2 start flags ks kt :
  range_mapped HHDM_OFFSET (kernel_pml4 p) start flags ks p p1 → kt ∈ fa_free_set (pg_alloc p) → frame_written HHDM_OFFSET kt p1 p2 →
  data_kept (kernel_pml4 p) p p2.
Proof.
  intros Hr Hkt Hw k i [Hk Hn] Ht Hi. rewrite (fw_other _ _ _ _ Hw) by (rewrite ?(rm_frames _ _ _ _ _ _ _ Hr); try done; by intros ->).
  by apply (rm_data _ _ _ _ _ _ _ Hr).
Qed.

End stack.
