(* ===== verification/Proc.v ===== *)
(** Proc: processes, [kernel/src/proc/proc.c]: creation of kernel threads and of user
    processes from ELF images ([lib/elf.h]), [fork] and release.  The environment of
    the scheduler is the address spaces with [kstack_ptr]; contexts and trap frames
    are words of the kernel stacks. *)
From S2P Require Import Prelude Layout Frames Pmm Paging Range CString Klist Sched Kheap Kstack Vaccess Vmm.

(** * State *)

Record kern (A : Type) := Kern { kn_vmm : vmm_st A; kn_kstack_ptr : Z }.
Arguments Kern {A} _ _.
Arguments kn_vmm {A} _.
Arguments kn_kstack_ptr {A} _.

Definition set_kn_vmm {A} (v : vmm_st A) (s : kern A) : kern A := Kern v (kn_kstack_ptr s).
Definition kn_pg {A} (s : kern A) : pg_st A := vm_pg (kn_vmm s).
Definition set_kn_pg {A} (p : pg_st A) (s : kern A) : kern A := set_kn_vmm (set_pg p (kn_vmm s)) s.

#[export] Program Instance kern_traced {A} `{!Traced A} : Traced (kern A) := {|
  trace s := trace (kn_vmm s);
  push_event e s := set_kn_vmm (push_event e (kn_vmm s)) s
|}.
Next Obligation. intros. apply trace_push. Qed.

#[export] Program Instance kern_store {A} : LinkStore (kern A) := {|
  ls_links s := vm_links (kn_vmm s);
  ls_set l s := set_kn_vmm (set_vm_links l (kn_vmm s)) s;
  ls_ok s a := 0 <? a
|}.
Solve Obligations with (intros; try done; by destruct s as [[] ?]).

Definition load_cr3 {A} (v : Z) (s : kern A) : kern A :=
  set_kn_pg (PgSt (pg_alloc (kn_pg s)) (pg_mem (kn_pg s)) (kernel_pml4 (kn_pg s)) v) s.

#[export] Program Instance kern_env {A} `{!Traced A} : SchedEnv (kern A) := {|
  se_store := kern_store;
  se_traced := kern_traced;
  se_mms s := mm_pml4_pa <$> vm_mms (kn_vmm s);
  se_cr3 s := pg_cr3 (kn_pg s);
  se_lcr3 := load_cr3
|}.
Solve Obligations with done.

(** * The ELF image (elf.h): fields by offset, little endian *)

Fixpoint le (elf : list Z) (off : Z) (n : nat) : res Z :=
  match n with
  | O => Ok 0
  | S n' =>
    match zlookup elf off with
    | Some b => r ← le elf (off + 1) n'; Ok (b + 256 * r)
    | None => Crash OutOfBounds
    end
  end.

Definition e_ident (elf : list Z) (i : Z) : res Z := le elf i 1.
Definition e_entry (elf : list Z) : res Z := le elf 24 8.
Definition e_phoff (elf : list Z) : res Z := le elf 32 8.
Definition e_phnum (elf : list Z) : res Z := le elf 56 2.

(** Fields of the program header at offset [ph]. *)
Definition p_type (elf : list Z) (ph : Z) : res Z := le elf ph 4.
Definition p_flags (elf : list Z) (ph : Z) : res Z := le elf (ph + 4) 4.
Definition p_offset (elf : list Z) (ph : Z) : res Z := le elf (ph + 8) 8.
Definition p_vaddr (elf : list Z) (ph : Z) : res Z := le elf (ph + 16) 8.
Definition p_filesz (elf : list Z) (ph : Z) : res Z := le elf (ph + 32) 8.
Definition p_memsz (elf : list Z) (ph : Z) : res Z := le elf (ph + 40) 8.
Definition sizeof_phdr : Z := 56.
Definition PT_LOAD : Z := 1.
Definition PF_X : Z := 1.

(** [n] bytes of the image from [off] on. *)
Fixpoint elf_bytes (elf : list Z) (off : Z) (n : nat) : res (list Z) :=
  match n with
  | O => Ok []
  | S n' => b ← le elf off 1; r ← elf_bytes elf (off + 1) n'; Ok (b :: r)
  end.

(** * Operations *)

Definition MAX_FD : Z := 16.

(** Words of [context_t] and [trap_frame_t] (trap.h). *)
Definition sizeof_context : Z := 64.
Definition ctx_r13 : Z := 16.
Definition ctx_r12 : Z := 24.
Definition ctx_rbx : Z := 32.
Definition ctx_rdi : Z := 48.
Definition ctx_rip : Z := 56.
Definition sizeof_trap_frame : Z := 176.
Definition tf_words : nat := 22.
Definition tf_rax : Z := 112.

Section proc.
  Context {A : Type} `{FA : FrameAlloc A}.
  Context (HHDM_OFFSET kheap_list : Z) (junk : Z → Z).
  (** [&proc_list], [&ready_queue] and the three entry points. *)
  Context (proc_list ready_queue kernel_thread_entry user_entry_addr fork_ret_entry : Z).
  Abbreviation St := (proc_st (kern A)).

Definition on_vm {R} (m : M (vmm_st A) R) : M St R := on_env (zoom kn_vmm set_kn_vmm m).
Definition on_page {R} (m : M (pg_st A) R) : M St R := on_env (zoom kn_pg set_kn_pg m).
Definition on_kstack {R} (m : M (kstack_st A) R) : M St R :=
  on_env (zoom (λ s, KstackSt (kn_pg s) (kn_kstack_ptr s))
    (λ k s, Kern (set_pg (ks_pg k) (kn_vmm s)) (kstack_ptr k)) m).

Definition rcr3 : M St Z := gets (λ s, pg_cr3 (kn_pg (env s))).
Definition mm_of (p : Z) : M St mm_struct := c ← get_pcb p; on_vm (get_mm (p_mm c)).

Definition get_next_pid : M St Z :=
  n ← gets next_pid; modify (set_next_pid (i32 (n + 1)));; mret n.

(** [name] is the bytes from the pointer on. *)
Definition set_proc_name (proc : Z) (name : list Z) : M St unit :=
  c ← get_pcb proc;
  n ← lift_res (strncpy (p_name c) name (Z.to_nat PROCNAME_LEN));
  update_pcb proc (with_name (zinsert PROCNAME_LEN 0 n)).

(** All fields as [memset] and the assignments leave them. *)
Definition new_pcb (pid : Z) : pcb_t :=
  Pcb 0 0 0 0 0 0 TIME_SLICE_DEFAULT pid 0 PROC_READY (replicate (Z.to_nat (PROCNAME_LEN + 1)) 0)
    (replicate (Z.to_nat MAX_FD) None) 0 0.

(** A new block holds no PCB that [switch_to] could resume. *)
Definition alloc_new_pcb : M St Z :=
  new ← on_vm (kmalloc HHDM_OFFSET kheap_list sizeof_pcb);
  if new =? 0 then crash NullDeref else
  on_env (put_next (proc_list_node new) 0;; put_prev (proc_list_node new) 0;;
    put_next (sched_node new) 0;; put_prev (sched_node new) 0);;
  modify (λ s, set_suspended (delete new (suspended s)) s);;
  pid ← get_next_pid;
  modify (λ s, set_pcbs (<[new := new_pcb pid]> (pcbs s)) s);;
  mret new.

Definition free_pcb_object (proc : Z) : M St unit :=
  modify (λ s, set_pcbs (delete proc (pcbs s)) s);; on_vm (kfree HHDM_OFFSET kheap_list proc).

Definition proc_init : M St unit :=
  kprintln " === Initializing process management === ";;
  on_env (list_init proc_list);;
  on_env (list_init ready_queue);;
  idle ← alloc_new_pcb;
  kprintf "Idle PCB address: %lx\n" [KInt idle];;
  if idle =? 0 then
    kprintln "Panic: kmalloc returned NULL for idle process!";; emit EvHlt;; crash Halted
  else
  set_proc_name idle (lit "idle");;
  update_pcb idle (with_state PROC_RUNNING);;
  modify (set_current idle);;
  on_env (list_add_after (proc_list_node idle) proc_list);;
  modify (set_idle idle);;
  kprintln "Idle process (PID 0) created.".

(** The end of every creation: the process joins the list and the ready queue. *)
Definition enqueue (proc : Z) : M St unit :=
  on_env (list_add_after (proc_list_node proc) proc_list);;
  on_env (list_add_before (sched_node proc) ready_queue).

Definition kthread_create (parent : Z) (name : list Z) (kthread_func arg : Z) : M St Z :=
  proc ← alloc_new_pcb;
  if proc =? 0 then mret 0 else
  set_proc_name proc name;;
  update_pcb proc (with_parent parent);;
  update_pcb proc (with_state PROC_READY);;
  p ← get_pcb parent;
  update_pcb proc (with_mm (p_mm p));;
  kstack_top ← on_kstack (kstack_init HHDM_OFFSET KSTACK_SIZE);
  if kstack_top =? 0 then free_pcb_object proc;; mret 0 else
  update_pcb proc (with_rsp kstack_top);;
  update_pcb proc (with_kstack_base (u64 (kstack_top - KSTACK_SIZE)));;
  let context := u64 (kstack_top - sizeof_context) in
  on_page (store_words HHDM_OFFSET context (replicate 8 0));;
  update_pcb proc (with_context context);;
  update_pcb proc (with_rsp context);;
  on_page (store_word HHDM_OFFSET (u64 (context + ctx_rip)) kernel_thread_entry);;
  on_page (store_word HHDM_OFFSET (u64 (context + ctx_rdi)) arg);;
  on_page (store_word HHDM_OFFSET (u64 (context + ctx_rbx)) kthread_func);;
  enqueue proc;;
  c ← get_pcb proc;
  kprintf "Kernel thread '%s' (PID %d) created.\n" [KStr name; KInt (p_pid c)];;
  mret proc.

(** [list_del] of a node whose two fields are not NULL. *)
Definition unlink (node : Z) : M St unit :=
  prev ← on_env (get_prev node);
  next ← on_env (get_next node);
  if negb (prev =? 0) && negb (next =? 0) then on_env (list_del node) else mret tt.

Definition free_proc (proc : Z) : M St unit :=
  if proc =? 0 then mret tt else
  c ← get_pcb proc;
  (if bool_decide (p_state c = PROC_ZOMBIE) then mret tt
   else kprintf "Warning: free_proc called on non-zombie process PID %d\n" [KInt (p_pid c)]);;
  unlink (proc_list_node proc);;
  unlink (sched_node proc);;
  (if negb (p_kstack_base c =? 0) then on_kstack (kstack_free HHDM_OFFSET (p_kstack_base c)) else mret tt);;
  (if negb (p_mm c =? 0) then on_vm (mm_free HHDM_OFFSET kheap_list (p_mm c)) else mret tt);;
  free_pcb_object proc.

(** What [user_entry] hands to [enter_user_mode], given the registers r12 and r13
    that [switch_to] restored. *)
Definition user_entry (r12 r13 : Z) : M St (Z * Z) :=
  cur ← gets current_proc;
  c ← get_pcb cur;
  set_tss_stack (u64 (p_kstack_base c + KSTACK_SIZE));;
  kprintf "Jumping to Ring 3...\n" [];;
  mret (r12, r13).

(** The program headers from the [i]-th on; false when a segment cannot be mapped. *)
Fixpoint load_segments (n : nat) (mm : Z) (elf : list Z) (ph : Z) : M St bool :=
  match n with
  | O => mret true
  | S n' =>
    ty ← lift_res (p_type elf ph);
    if ty =? PT_LOAD then
      fl ← lift_res (p_flags elf ph);
      va ← lift_res (p_vaddr elf ph);
      memsz ← lift_res (p_memsz elf ph);
      let vm_flags := Z.lor VM_READ VM_WRITE in
      let vm_flags := if negb (Z.land fl PF_X =? 0) then Z.lor vm_flags VM_EXEC else vm_flags in
      ok ← on_vm (mm_map_range HHDM_OFFSET kheap_list mm va memsz vm_flags);
      if negb ok then kprintf "Error: Failed to map segment at %lx\n" [KInt va];; mret false else
      on_page (memset_va HHDM_OFFSET junk va 0 memsz);;
      off ← lift_res (p_offset elf ph);
      filesz ← lift_res (p_filesz elf ph);
      data ← lift_res (elf_bytes elf off (Z.to_nat filesz));
      on_page (memcpy_va HHDM_OFFSET junk va data);;
      load_segments n' mm elf (ph + sizeof_phdr)
    else load_segments n' mm elf (ph + sizeof_phdr)
  end.

Definition elf_magic : list Z := [0x7F; 69; 76; 70].

Definition load_elf (proc : Z) (elf : list Z) : M St Z :=
  kprintln "Start Loading ELF ... ";;
  m0 ← lift_res (e_ident elf 0); m1 ← lift_res (e_ident elf 1);
  m2 ← lift_res (e_ident elf 2); m3 ← lift_res (e_ident elf 3);
  if negb (m0 =? 0x7F) || negb (m1 =? 69) || negb (m2 =? 76) || negb (m3 =? 70) then
    c ← get_pcb proc;
    kprintf "Error: Invalid ELF Magic Number for process PID %d\n" [KInt (p_pid c)];;
    kprintf "Magic: %02x %c %c %c\n" [KInt m0; KInt m1; KInt m2; KInt m3];;
    mret 0
  else
  old_cr3 ← rcr3;
  c ← get_pcb proc;
  m ← mm_of proc;
  lcr3 (mm_pml4_pa m);;
  ph ← lift_res (e_phoff elf);
  n ← lift_res (e_phnum elf);
  ok ← load_segments (Z.to_nat n) (p_mm c) elf ph;
  lcr3 old_cr3;;
  if ok : bool then lift_res (e_entry elf) else mret 0.

Definition create_user_process (name elf : list Z) (size : Z) : M St Z :=
  kprintf "Start creating user process %s \n" [KStr name];;
  proc ← alloc_new_pcb;
  if proc =? 0 then mret 0 else
  set_proc_name proc name;;
  mm ← on_vm (mm_alloc HHDM_OFFSET kheap_list);
  update_pcb proc (with_mm mm);;
  if mm =? 0 then free_pcb_object proc;; mret 0 else
  entry_point ← load_elf proc elf;
  if entry_point =? 0 then
    kprintln "Error: Failed to load ELF";;
    c ← get_pcb proc;
    (if negb (p_mm c =? 0) then
       on_vm (mm_free HHDM_OFFSET kheap_list (p_mm c));; update_pcb proc (with_mm 0)
     else mret tt);;
    free_proc proc;; mret 0
  else
  old_cr3 ← rcr3;
  m ← mm_of proc;
  lcr3 (mm_pml4_pa m);;
  let user_stack_base := USER_STACK_TOP - USER_STACK_SIZE in
  ok ← on_vm (mm_map_range HHDM_OFFSET kheap_list mm user_stack_base USER_STACK_SIZE (Z.lor (Z.lor VM_READ VM_WRITE) VM_STACK));
  if negb ok then
    kprintln "Error: Failed to map user stack";; lcr3 old_cr3;; free_proc proc;; mret 0
  else
  on_page (memset_va HHDM_OFFSET junk user_stack_base 0 USER_STACK_SIZE);;
  lcr3 old_cr3;;
  kstack_top ← on_kstack (kstack_init HHDM_OFFSET KSTACK_SIZE);
  if kstack_top =? 0 then free_proc proc;; kprintln "Error: Failed to alloc kernel stack";; mret 0 else
  update_pcb proc (with_rsp kstack_top);;
  update_pcb proc (with_kstack_base (u64 (kstack_top - KSTACK_SIZE)));;
  let context := u64 (kstack_top - sizeof_context) in
  update_pcb proc (with_rsp context);;
  on_page (store_words HHDM_OFFSET context (replicate 8 0));;
  on_page (store_word HHDM_OFFSET (u64 (context + ctx_rip)) user_entry_addr);;
  on_page (store_word HHDM_OFFSET (u64 (context + ctx_r12)) entry_point);;
  on_page (store_word HHDM_OFFSET (u64 (context + ctx_r13)) USER_STACK_TOP);;
  update_pcb proc (with_context context);;
  update_pcb proc (with_trap_frame 0);;
  update_pcb proc (with_state PROC_READY);;
  enqueue proc;;
  kprintf "Process '%s' created. Entry: %lx, Stack: %lx\n" [KStr name; KInt entry_point; KInt USER_STACK_TOP];;
  mret proc.

(** The end of [sys_fork]'s set-up: the trap frame of the parent with rax = 0 and the
    context that enters [fork_ret_entry], on the new stack of a now ready child. *)
Definition fork_stack (child parent_tf kstack_top : Z) : M St unit :=
  update_pcb child (with_rsp kstack_top);;
  update_pcb child (with_kstack_base (u64 (kstack_top - KSTACK_SIZE)));;
  let child_tf := u64 (kstack_top - sizeof_trap_frame) in
  update_pcb child (with_rsp child_tf);;
  regs ← on_page (load_words HHDM_OFFSET junk parent_tf tf_words);
  on_page (store_words HHDM_OFFSET child_tf regs);;
  on_page (store_word HHDM_OFFSET (u64 (child_tf + tf_rax)) 0);;
  update_pcb child (with_trap_frame child_tf);;
  let context := u64 (child_tf - sizeof_context) in
  update_pcb child (with_rsp context);;
  on_page (store_word HHDM_OFFSET (u64 (context + ctx_rip)) fork_ret_entry);;
  update_pcb child (with_context context);;
  update_pcb child (with_state PROC_READY).

Definition sys_fork : M St Z :=
  parent ← gets current_proc;
  child ← alloc_new_pcb;
  p ← get_pcb parent;
  update_pcb child (with_cwd_inode (p_cwd_inode p));;
  if child =? 0 then mret (-1) else
  set_proc_name child (p_name p);;
  update_pcb child (with_parent parent);;
  mm ← on_vm (mm_alloc HHDM_OFFSET kheap_list);
  update_pcb child (with_mm mm);;
  ok ← on_vm (mm_copy HHDM_OFFSET kheap_list mm (p_mm p));
  if negb ok then free_proc child;; mret (-1) else
  kstack_top ← on_kstack (kstack_init HHDM_OFFSET KSTACK_SIZE);
  if kstack_top =? 0 then free_proc child;; mret (-1) else
  fork_stack child (p_trap_frame p) kstack_top;;
  enqueue child;;
  c ← get_pcb child;
  mret (p_pid c).

Definition init_userproc (elf : list Z) (size : Z) : M St unit :=
  init_proc ← create_user_process (lit "init") elf size;
  if init_proc =? 0 then
    kprintln "Failed to create init process!";; emit EvHlt;; crash Halted
  else mret tt.

(** * Running the operations on one process *)

Implicit Types (sb s : St) (v : vmm_st A) (c : pcb_t).

(** The state [sb] but for the block [c] of [proc] and the environment. *)
Definition at_proc sb (proc : Z) c v (ptr : Z) : St := set_pcbs (<[proc := c]> (pcbs sb)) (set_env (Kern v ptr) sb).

Lemma wp_upd sb proc c v ptr f (Q : unit → St → Prop) :
  Q tt (at_proc sb proc (f c) v ptr) → wp (update_pcb proc f) (at_proc sb proc c v ptr) Q.
Proof.
  intros H. eapply wp_ok; [apply update_pcb_ok, lookup_insert_eq|].
  change (pcbs (at_proc sb proc c v ptr)) with (<[proc := c]> (pcbs sb)). rewrite insert_insert_eq. exact H.
Qed.

Lemma wp_get sb proc c v ptr (Q : pcb_t → St → Prop) :
  Q c (at_proc sb proc c v ptr) → wp (get_pcb proc) (at_proc sb proc c v ptr) Q.
Proof. intros H. eapply wp_ok; [apply get_pcb_ok, lookup_insert_eq|exact H]. Qed.

Lemma wp_get_other sb proc c v ptr q d (Q : pcb_t → St → Prop) :
  q ≠ proc → pcbs sb !! q = Some d → Q d (at_proc sb proc c v ptr) → wp (get_pcb q) (at_proc sb proc c v ptr) Q.
Proof.
  intros Hn Hd H. eapply wp_ok; [|exact H]. apply get_pcb_ok. by rewrite <- Hd; apply lookup_insert_ne.
Qed.

Lemma wp_vm {R} (m : M (vmm_st A) R) sb proc c v ptr (Q : R → St → Prop) :
  wp m v (λ r v', Q r (at_proc sb proc c v' ptr)) → wp (on_vm m) (at_proc sb proc c v ptr) Q.
Proof. intros H. unfold on_vm, on_env. apply wp_zoom, wp_zoom. exact H. Qed.

Lemma wp_page {R} (m : M (pg_st A) R) sb proc c v ptr (Q : R → St → Prop) :
  wp m (vm_pg v) (λ r p, Q r (at_proc sb proc c (set_pg p v) ptr)) → wp (on_page m) (at_proc sb proc c v ptr) Q.
Proof. intros H. unfold on_page, on_env. apply wp_zoom, wp_zoom. exact H. Qed.

Lemma wp_stack {R} (m : M (kstack_st A) R) sb proc c v ptr (Q : R → St → Prop) :
  wp m (KstackSt (vm_pg v) ptr) (λ r k, Q r (at_proc sb proc c (set_pg (ks_pg k) v) (kstack_ptr k))) →
  wp (on_kstack m) (at_proc sb proc c v ptr) Q.
Proof. intros H. unfold on_kstack, on_env. apply wp_zoom, wp_zoom. exact H. Qed.

Lemma wp_name sb proc c v ptr name n (Q : unit → St → Prop) :
  strncpy (p_name c) name (Z.to_nat PROCNAME_LEN) = Ok n →
  Q tt (at_proc sb proc (with_name (zinsert PROCNAME_LEN 0 n) c) v ptr) → wp (set_proc_name proc name) (at_proc sb proc c v ptr) Q.
Proof.
  intros Hn H. unfold set_proc_name. apply wp_bind, wp_get, wp_bind. eapply wp_ok; [unfold lift_res; by rewrite Hn|]. by apply wp_upd.
Qed.

(** * The process list and the ready queue *)

Lemma kern_add_after v ptr head xs new :
  ring (vm_links v) head xs → new ∉ head :: xs → 0 < new → (∀ x, x ∈ head :: xs → 0 < x) →
  list_add_after new head (Kern v ptr) = Ok (tt, Kern (set_vm_links (inserted (vm_links v) new head (head_or head xs)) v) ptr)
  ∧ ring (inserted (vm_links v) new head (head_or head xs)) head (new :: xs).
Proof.
  intros Hr Hn H0 Hp. apply (list_add_after_spec (H := kern_store) (Kern v ptr) head xs new Hr Hn).
  - by apply Z.ltb_lt.
  - intros x Hx. by apply Z.ltb_lt, Hp.
Qed.

Lemma kern_add_before v ptr head xs new :
  ring (vm_links v) head xs → new ∉ head :: xs → 0 < new → (∀ x, x ∈ head :: xs → 0 < x) →
  list_add_before new head (Kern v ptr) = Ok (tt, Kern (set_vm_links (inserted (vm_links v) new (last_or head xs) head) v) ptr)
  ∧ ring (inserted (vm_links v) new (last_or head xs) head) head (xs ++ [new]).
Proof.
  intros Hr Hn H0 Hp. apply (list_add_before_spec (H := kern_store) (Kern v ptr) head xs new Hr Hn).
  - by apply Z.ltb_lt.
  - intros x Hx. by apply Z.ltb_lt, Hp.
Qed.

(** The new process is put first in the list and last in the queue. *)
Lemma enqueue_ok sb proc c v ptr ps qs (Q : unit → St → Prop) :
  let pn := map proc_list_node ps in let sn := map sched_node qs in
  ring (vm_links v) proc_list pn → ring (vm_links v) ready_queue sn →
  (∀ a, a ∈ proc_list :: pn → a ∉ ready_queue :: sn) →
  (∀ a, a ∈ proc_list_node proc :: sched_node proc :: proc_list :: pn ++ ready_queue :: sn → 0 < a) →
  (∀ a, a ∈ proc_list :: pn ++ ready_queue :: sn → a ≠ proc_list_node proc ∧ a ≠ sched_node proc) →
  proc_list_node proc ≠ sched_node proc →
  (∀ l, ring l proc_list (proc_list_node proc :: pn) → ring l ready_queue (sn ++ [sched_node proc]) →
     Q tt (at_proc sb proc c (set_vm_links l v) ptr)) →
  wp (enqueue proc) (at_proc sb proc c v ptr) Q.
Proof using.
  clear junk. intros pn sn Hp Hs Hdis Hpos Hne Hnn HQ. unfold enqueue.
  assert (∀ a, a ∈ proc_list :: pn → 0 < a) as Hpp by (intros; apply Hpos; set_solver).
  assert (∀ a, a ∈ ready_queue :: sn → 0 < a) as Hps by (intros; apply Hpos; set_solver).
  destruct (kern_add_after v ptr proc_list pn (proc_list_node proc) Hp) as [E1 Hp1].
  - intros Hin. destruct (Hne (proc_list_node proc)); [set_solver|done].
  - apply Hpos. by left.
  - done.
  - set (l1 := inserted _ _ _ _) in *.
    assert (ring l1 ready_queue sn) as Hs1.
    { apply ring_inserted_frame; [| | |done].
      - intros Hin. destruct (Hne (proc_list_node proc)); [set_solver|done].
      - intros Hin. by apply (Hdis proc_list); [left|].
      - intros Hin. pose proof (head_or_in proc_list pn) as Hh. by apply (Hdis (head_or proc_list pn)); [set_solver|]. }
    destruct (kern_add_before (set_vm_links l1 v) ptr ready_queue sn (sched_node proc) Hs1) as [E2 Hs2].
    + intros Hin. destruct (Hne (sched_node proc)); [set_solver|done].
    + apply Hpos. by right; left.
    + done.
    + change (vm_links (set_vm_links l1 v)) with l1 in *. set (l2 := inserted l1 _ _ _) in *.
      apply wp_bind. eapply wp_ok; [apply on_env_ok; exact E1|]. eapply wp_ok; [apply on_env_ok; exact E2|].
      apply (HQ l2); [|done]. apply ring_inserted_frame; [| | |done].
      * intros [E|Hin]%elem_of_cons; [destruct (Hne proc_list); [set_solver|congruence]|].
        apply elem_of_cons in Hin as [E|Hin]; [done|]. destruct (Hne (sched_node proc)); [set_solver|done].
      * pose proof (last_or_in ready_queue sn) as Hl. intros Hin.
        apply elem_of_cons in Hin as [E|[E|Hin]%elem_of_cons].
        -- apply (Hdis proc_list); [by left|by rewrite <- E].
        -- destruct (Hne (last_or ready_queue sn)); [set_solver|done].
        -- apply (Hdis (last_or ready_queue sn)); [by right|done].
      * intros Hin. apply elem_of_cons in Hin as [E|[E|Hin]%elem_of_cons].
        -- apply (Hdis proc_list); [by left|]. rewrite <- E. by left.
        -- destruct (Hne ready_queue); [set_solver|done].
        -- apply (Hdis ready_queue); [by right|by left].
Qed.

(** * Allocation of a PCB *)

Lemma kern_put_next (e : kern A) (a w : Z) :
  0 < a → put_next a w e = Ok (tt, ls_set (Links (<[a := w]> (l_next (vm_links (kn_vmm e)))) (l_prev (vm_links (kn_vmm e)))) e).
Proof. intros Ha. exact (put_next_ok (H := kern_store) e a w (proj2 (Z.ltb_lt _ _) Ha)). Qed.

Lemma kern_put_prev (e : kern A) (a w : Z) :
  0 < a → put_prev a w e = Ok (tt, ls_set (Links (l_next (vm_links (kn_vmm e))) (<[a := w]> (l_prev (vm_links (kn_vmm e))))) e).
Proof. intros Ha. exact (put_prev_ok (H := kern_store) e a w (proj2 (Z.ltb_lt _ _) Ha)). Qed.

(** The PCB is a block of the heap. *)
Definition pcb_block (bs : list block) (p : Z) : Prop :=
  ∃ b, b ∈ bs ∧ b_free b = false ∧ p = b_addr b + HEADER_SIZE ∧ sizeof_pcb ≤ b_size b.

Lemma pcb_block_in bs p d : pcb_block bs p → 0 ≤ d < sizeof_pcb → in_block bs (p + d).
Proof. intros (b & Hb & Hf & -> & Hs) Hd. exists b. split; [done|]. split; [done|]. lia. Qed.

Lemma pcb_block_kept bs bs' p : kept_blocks bs bs' → pcb_block bs p → pcb_block bs' p.
Proof. intros Hk (b & Hb & Hf & H). exists b. auto. Qed.

(** What [alloc_new_pcb] leaves: a zeroed block at a fresh address whose list nodes
    are not linked. *)
Record pcb_made s (bs : list block) (new : Z) v (bs' : list block) : Prop := {
  pm_object : ∃ l, v = set_vm_links l (set_kheap (vm_kheap v) (kn_vmm (env s))) ∧ (∀ a, a ≠ proc_list_node new → a ≠ sched_node new → same_links a (vm_links (kn_vmm (env s))) l);
  pm_pages : vm_pg v = vm_pg (kn_vmm (env s));
  pm_heap : kheap_ok (KernelPages0 := kernel_pages HHDM_OFFSET) kheap_list (vm_kheap v) bs';
  pm_range : KERNEL_HEAP_BASE < new ∧ new + sizeof_pcb ≤ KERNEL_MMIO_BASE;
  pm_fresh d : 0 ≤ d < sizeof_pcb → ¬ in_block bs (new + d);
  pm_block : pcb_block bs' new;
  pm_kept : kept_blocks bs bs';
  pm_carve : ∃ l y r, bs = l ++ y :: r ∧ fits (ALIGN_UP sizeof_pcb 8) y ∧ bs' = l ++ carve y (ALIGN_UP sizeof_pcb 8) ++ r
}.

(** The state before the fields of the new process are set. *)
Definition pcb_base s (new : Z) : St := set_next_pid (i32 (next_pid s + 1)) (set_suspended (delete new (suspended s)) s).

Lemma alloc_new_pcb_ok s bs :
  kheap_ok (KernelPages0 := kernel_pages HHDM_OFFSET) kheap_list (vm_kheap (kn_vmm (env s))) bs → Exists (fits (ALIGN_UP sizeof_pcb 8)) bs →
  wp alloc_new_pcb s (λ new s', ∃ v bs', pcb_made s bs new v bs' ∧ new ≠ 0
    ∧ s' = at_proc (pcb_base s new) new (new_pcb (next_pid s)) v (kn_kstack_ptr (env s))).
Proof.
  intros Hok Hfit. set (v0 := kn_vmm (env s)) in *.
  destruct (kmalloc_object_ok HHDM_OFFSET kheap_list v0 bs sizeof_pcb Hok ltac:(done) Hfit)
    as (new & h & bs' & E & Hobj & Hspan & (x & Hx & Hxf & Hxp & Hxs) & Hcarve).
  pose proof Hobj as [Hpg Hheap _ Hrg _ _ Hkept].
  destruct (ha_in _ _ _ _ (proj1 Hheap) x Hx) as (X1 & X2 & X3 & X4).
  assert (new + sizeof_pcb ≤ KERNEL_MMIO_BASE) as Hend by (unfold HEADER_SIZE in *; lia).
  assert (sched_node new = new + 56 ∧ proc_list_node new = new + 40) as [Es Ep].
  { unfold sched_node, proc_list_node, sched_off, proc_list_off, sizeof_pcb, KERNEL_HEAP_BASE, KERNEL_MMIO_BASE in *. rewrite !u64_small by lia. done. }
  unfold alloc_new_pcb. apply wp_bind. unfold on_vm, on_env. apply wp_zoom, wp_zoom. eapply wp_ok; [exact E|].
  rewrite (proj2 (Z.eqb_neq new 0)) by (unfold KERNEL_HEAP_BASE in *; lia).
  set (e1 := set_kn_vmm (set_kheap h v0) (env s)).
  set (ln := vm_links v0).
  set (l := Links (<[sched_node new := 0]> (<[proc_list_node new := 0]> (l_next ln))) (<[sched_node new := 0]> (<[proc_list_node new := 0]> (l_prev ln)))).
  apply wp_bind. eapply wp_ok.
  { apply on_env_ok. change (env (set_env e1 s)) with e1.
    assert (0 < sched_node new ∧ 0 < proc_list_node new) as [P1 P2] by (unfold KERNEL_HEAP_BASE in *; lia).
    rewrite (bind_ok _ _ _ _ _ (kern_put_next e1 (proc_list_node new) 0 P2)), (bind_ok _ _ _ _ _ (kern_put_prev _ (proc_list_node new) 0 P2)).
    rewrite (bind_ok _ _ _ _ _ (kern_put_next _ (sched_node new) 0 P1)). exact (kern_put_prev _ (sched_node new) 0 P1). }
  apply wp_bind, wp_modify. unfold get_next_pid. apply wp_bind, wp_bind, wp_gets, wp_bind, wp_modify, wp_ret.
  apply wp_bind, wp_modify, wp_ret.
  exists (set_vm_links l (set_kheap h v0)), bs'. split; [|split; [unfold KERNEL_HEAP_BASE in *; lia|reflexivity]].
  constructor; try done.
  - exists l. split; [done|]. intros a Ha1 Ha2. split; simpl; by rewrite !lookup_insert_ne.
  - lia.
  - intros d Hd. by apply Hspan.
  - by exists x.
Qed.
End proc.
