(* ===== verification/Spawn.v ===== *)
(** Spawn: the invariant of the kernel's processes, and that a new process keeps it:
    it is a heap block of its own, has a fresh PID, and joins the process list and
    the ready queue ([kthread_create] of [kernel/src/proc/proc.c]). *)
From S2P Require Import Prelude Layout Frames Pmm Paging Range CString Klist Sched Kheap Kstack Vaccess Vmm Vmmcopy Stack Proc.

Section spawn.
  Context {A : Type} `{FA : FrameAlloc A}.
  Context (HHDM_OFFSET kheap_list : Z) (junk : Z → Z).
  Context (proc_list ready_queue : Z).
  Abbreviation St := (proc_st (kern A)).
  Abbreviation heap_ok := (kheap_ok (KernelPages0 := kernel_pages HHDM_OFFSET) kheap_list).
  Implicit Types (s : St) (v : vmm_st A) (c : pcb_t).

(** The two list heads are globals: different, and not in the heap. *)
Definition heads_ok : Prop :=
  proc_list ≠ ready_queue
  ∧ ∀ a, a = proc_list ∨ a = ready_queue → 0 < a ∧ ¬ (KERNEL_HEAP_BASE ≤ a < KERNEL_MMIO_BASE).

(** Every PCB is a heap block with a PID of its own; the list [ps] and the ready
    queue [qs] are rings of PCBs. *)
Record procs_ok s (bs : list block) (qs ps : list Z) : Prop := {
  pr_sched : sched_ok ready_queue s qs;
  pr_heap : heap_ok (vm_kheap (kn_vmm (env s))) bs;
  pr_block p : is_Some (pcbs s !! p) → pcb_block bs p;
  pr_ring : ring (vm_links (kn_vmm (env s))) proc_list (map proc_list_node ps);
  pr_procs p : p ∈ ps → is_Some (pcbs s !! p);
  pr_pids p q c d : pcbs s !! p = Some c → pcbs s !! q = Some d → p_pid c = p_pid d → p = q;
  pr_next p c : pcbs s !! p = Some c → 0 ≤ p_pid c < next_pid s
}.

Lemma pcb_block_range h bs p : heap_ok h bs → pcb_block bs p → KERNEL_HEAP_BASE < p ∧ p + sizeof_pcb ≤ KERNEL_MMIO_BASE.
Proof.
  intros [Hh _] (b & Hb & _ & -> & Hs). destruct (ha_in _ _ _ _ Hh b Hb). unfold HEADER_SIZE in *. lia.
Qed.

Lemma pcb_nodes p : KERNEL_HEAP_BASE < p ∧ p + sizeof_pcb ≤ KERNEL_MMIO_BASE → sched_node p = p + 56 ∧ proc_list_node p = p + 40.
Proof.
  unfold sched_node, proc_list_node, sched_off, proc_list_off, sizeof_pcb, KERNEL_HEAP_BASE, KERNEL_MMIO_BASE. intros.
  by rewrite !u64_small by lia.
Qed.

(** Two PCBs do not overlap. *)
Lemma pcb_blocks_apart h bs p q :
  heap_ok h bs → pcb_block bs p → pcb_block bs q → p = q ∨ p + sizeof_pcb ≤ q ∨ q + sizeof_pcb ≤ p.
Proof.
  intros [Hh _] (b & Hb & _ & -> & Hs) (b' & Hb' & _ & -> & Hs').
  destruct (tiles_disjoint _ _ _ b b' (ha_tiles _ _ _ _ Hh) Hb Hb') as [->|?]; [by left|right]. unfold HEADER_SIZE in *. lia.
Qed.

(** The nodes of the two lists. *)
Definition list_nodes (qs ps : list Z) : list Z := proc_list :: map proc_list_node ps ++ ready_queue :: map sched_node qs.

Lemma list_node_cases s bs qs ps a :
  procs_ok s bs qs ps → a ∈ list_nodes qs ps → (a = proc_list ∨ a = ready_queue) ∨ in_block bs a.
Proof.
  intros [H1 H2 H3 H4 H5 _ _] Ha. unfold list_nodes in Ha.
  assert (∀ p d, is_Some (pcbs s !! p) → 0 ≤ d < sizeof_pcb → in_block bs (p + d)) as Hin by (intros; apply pcb_block_in; [by apply H3|done]).
  assert (∀ p, is_Some (pcbs s !! p) → sched_node p = p + 56 ∧ proc_list_node p = p + 40) as Hn.
  { intros p Hp. apply pcb_nodes. eapply pcb_block_range; [exact H2|by apply H3]. }
  apply elem_of_cons in Ha as [->|Ha]; [by left; left|]. apply elem_of_app in Ha as [Ha|Ha].
  - right. apply list_elem_of_fmap in Ha as (p & -> & Hp). destruct (Hn p (H5 p Hp)) as [_ ->]. apply Hin; [by apply H5|done].
  - apply elem_of_cons in Ha as [->|Ha]; [by left; right|right]. apply list_elem_of_fmap in Ha as (p & -> & Hp).
    destruct (so_ready _ _ _ H1 p Hp) as (c & Hc & _). assert (is_Some (pcbs s !! p)) as Hs by by exists c.
    destruct (Hn p Hs) as [-> _]. by apply Hin.
Qed.

Lemma in_block_heap h bs a : heap_ok h bs → in_block bs a → KERNEL_HEAP_BASE ≤ a < KERNEL_MMIO_BASE.
Proof.
  intros [Hh _] (b & Hb & _ & Hr). destruct (ha_in _ _ _ _ Hh b Hb). unfold HEADER_SIZE in *. lia.
Qed.

Lemma lists_apart s bs qs ps :
  heads_ok → procs_ok s bs qs ps → ∀ a, a ∈ proc_list :: map proc_list_node ps → a ∉ ready_queue :: map sched_node qs.
Proof.
  intros [Hne Hh] Hok. pose proof Hok as [H1 H2 H3 H4 H5 _ _].
  assert (∀ p, is_Some (pcbs s !! p) → sched_node p = p + 56 ∧ proc_list_node p = p + 40 ∧ KERNEL_HEAP_BASE < p ∧ p + sizeof_pcb ≤ KERNEL_MMIO_BASE) as Hn.
  { intros p Hp. assert (KERNEL_HEAP_BASE < p ∧ p + sizeof_pcb ≤ KERNEL_MMIO_BASE) as Hr by (eapply pcb_block_range; [exact H2|by apply H3]).
    destruct (pcb_nodes p Hr). tauto. }
  assert (∀ q, q ∈ qs → is_Some (pcbs s !! q)) as Hq by (intros q Hin; destruct (so_ready _ _ _ H1 q Hin) as (c & Hc & _); by exists c).
  destruct (Hh proc_list) as [_ Hpl]; [by left|]. destruct (Hh ready_queue) as [_ Hrq]; [by right|]. unfold sizeof_pcb in *.
  intros a [->|(p & -> & Hp)%list_elem_of_fmap]%elem_of_cons [E|(q & E & Hqin)%list_elem_of_fmap]%elem_of_cons.
  - done.
  - destruct (Hn q (Hq q Hqin)) as (En & _ & ?). lia.
  - destruct (Hn p (H5 p Hp)) as (_ & En & ?). lia.
  - destruct (Hn p (H5 p Hp)) as (_ & En & ?), (Hn q (Hq q Hqin)) as (En' & _ & ?).
    destruct (pcb_blocks_apart _ _ p q H2 (H3 p (H5 p Hp)) (H3 q (Hq q Hqin))); unfold sizeof_pcb in *; subst; try lia.
Qed.

(** What a PCB takes from the heap. *)
Definition pcb_bytes : Z := ALIGN_UP sizeof_pcb 8 + HEADER_SIZE.

Lemma pcb_spends s bs new v bs' : pcb_made HHDM_OFFSET kheap_list s bs new v bs' → spends pcb_bytes bs bs'.
Proof. intros [_ _ _ _ _ _ _ (l & y & r & -> & _ & ->)]. by apply spends_carve. Qed.

(** What a new process must not touch while it is built: the old blocks, the old
    list nodes and the old address spaces. *)
Record world_kept s bs qs ps (new : Z) v (bs' : list block) : Prop := {
  wk_heap : heap_ok (vm_kheap v) bs';
  wk_blocks : kept_blocks bs bs';
  wk_new : pcb_block bs' new;
  wk_fresh d : 0 ≤ d < sizeof_pcb → ¬ in_block bs (new + d);
  wk_links a : a ∈ list_nodes qs ps → same_links a (vm_links (kn_vmm (env s))) (vm_links v);
  wk_mms a : is_Some (vm_mms (kn_vmm (env s)) !! a) → is_Some (vm_mms v !! a)
}.

Lemma new_not_listed s bs qs ps new v bs' a :
  heads_ok → procs_ok s bs qs ps → world_kept s bs qs ps new v bs' → a ∈ list_nodes qs ps → a ≠ proc_list_node new ∧ a ≠ sched_node new.
Proof.
  intros [_ Hh] Hok [K1 _ K3 K4 _ _] Ha. pose proof (pcb_block_range _ _ _ K1 K3) as Hr. destruct (pcb_nodes new Hr) as [-> ->].
  unfold sizeof_pcb in *. destruct (list_node_cases s bs qs ps a Hok Ha) as [Hc|Hb].
  - destruct (Hh a Hc) as [_ Hno]. lia.
  - split; intros ->; [by apply (K4 40)|by apply (K4 56)].
Qed.

Lemma spawn_enqueue s bs qs ps new c v bs' ptr :
  heads_ok → procs_ok s bs qs ps → world_kept s bs qs ps new v bs' → next_pid s < 2 ^ 31 - 1 →
  p_pid c = next_pid s → p_state c = PROC_READY → p_time_slice c = TIME_SLICE_DEFAULT → (p_mm c ≠ 0 → is_Some (vm_mms v !! p_mm c)) →
  wp (enqueue proc_list ready_queue new) (at_proc (pcb_base s new) new c v ptr) (λ _ s',
    procs_ok s' bs' (qs ++ [new]) (new :: ps) ∧ ∃ l, s' = at_proc (pcb_base s new) new c (set_vm_links l v) ptr).
Proof.
  intros Hh Hok Hw Hmax Hpid Hst Hsl Hmm. pose proof Hok as [H1 H2 H3 H4 H5 H6 H7]. pose proof Hw as [K1 K2 K3 K4 K5 K6].
  pose proof (pcb_block_range _ _ _ K1 K3) as Hr. destruct (pcb_nodes new Hr) as [En Ep].
  assert (∀ p, is_Some (pcbs s !! p) → p ≠ new) as Hnew.
  { intros p Hp ->. apply (K4 0); [done|]. by apply pcb_block_in; [apply H3|]. }
  assert (0 ≤ next_pid s) as Hn0.
  { destruct (so_cur _ _ _ H1) as [_ [d Hd]]. pose proof (H7 _ _ Hd). lia. }
  assert (i32 (next_pid s + 1) = next_pid s + 1) as Ei by (apply i32_small; lia).
  apply (enqueue_ok proc_list ready_queue _ new c v ptr ps qs).
  - eapply ring_ext; [|exact H4]. intros a Ha. apply K5. unfold list_nodes. set_solver.
  - eapply ring_ext; [|exact (so_ring _ _ _ H1)]. intros a Ha. apply K5. unfold list_nodes. set_solver.
  - by eapply lists_apart.
  - intros a Ha. rewrite !elem_of_cons in Ha. destruct Ha as [->|[->|Ha]]; [unfold KERNEL_HEAP_BASE in *; lia..|].
    assert (a ∈ list_nodes qs ps) as Ha' by (unfold list_nodes; rewrite elem_of_cons; tauto).
    destruct (list_node_cases s bs qs ps a Hok Ha') as [Hc|Hb]; [by apply Hh|].
    pose proof (in_block_heap _ _ _ H2 Hb). unfold KERNEL_HEAP_BASE in *. lia.
  - intros a Ha. by eapply new_not_listed.
  - rewrite En, Ep. lia.
  - intros l Hl1 Hl2. split; [|by exists l]. constructor.
    + constructor; cbn [env at_proc set_pcbs set_env pcb_base current_proc idle_proc pcbs].
      * rewrite map_app. exact Hl2.
      * apply Z.ltb_lt, Hh. by right.
      * destruct (so_cur _ _ _ H1) as [Q1 Q2]. split; [|by apply lookup_insert_is_Some'; right].
        rewrite not_elem_of_app, list_elem_of_singleton. split; [done|by apply Hnew].
      * destruct (so_idle _ _ _ H1) as [Q1 Q2]. split; [|by apply lookup_insert_is_Some'; right].
        rewrite not_elem_of_app, list_elem_of_singleton. split; [done|by apply Hnew].
      * intros p d Hd. apply lookup_insert_Some in Hd as [[<- <-]|[Hne Hd]].
        -- constructor.
           ++ unfold sizeof_pcb, KERNEL_HEAP_BASE, KERNEL_MMIO_BASE in *. lia.
           ++ apply Z.ltb_lt. rewrite En. unfold KERNEL_HEAP_BASE in *. lia.
           ++ rewrite En. destruct Hh as [_ Hh]. destruct (Hh ready_queue) as [_ Hno]; [by right|]. unfold sizeof_pcb in *. lia.
           ++ intros Hm. simpl. rewrite lookup_fmap. destruct (Hmm Hm) as [m ->]. by eexists.
           ++ by rewrite Hsl.
        -- destruct (so_pcb _ _ _ H1 p d Hd) as [O1 O2 O3 O4 O5]. constructor; try done.
           intros Hm. specialize (O4 Hm). simpl in *. rewrite lookup_fmap in *. destruct (vm_mms (kn_vmm (env s)) !! p_mm d) eqn:Em; [|by destruct O4].
           destruct (K6 (p_mm d)) as [m' ->]; [by rewrite Em|by eexists].
      * intros p [Hp|Hp]%elem_of_app.
        -- destruct (so_ready _ _ _ H1 p Hp) as (d & Hd & Hds). exists d. split; [|done]. rewrite lookup_insert_ne; [done|].
           apply not_eq_sym, Hnew. by exists d.
        -- apply list_elem_of_singleton in Hp as ->. exists c. split; [apply lookup_insert_eq|done].
    + exact K1.
    + cbn [pcbs at_proc set_pcbs pcb_base set_next_pid set_suspended]. intros p Hp. destruct (decide (p = new)) as [->|]; [done|].
      rewrite lookup_insert_ne in Hp by done. eapply pcb_block_kept; [done|by apply H3].
    + exact Hl1.
    + cbn [pcbs at_proc set_pcbs pcb_base set_next_pid set_suspended]. intros p [->|Hp]%elem_of_cons; apply lookup_insert_is_Some'; [by left|right; by apply H5].
    + cbn [pcbs at_proc set_pcbs pcb_base set_next_pid set_suspended]. intros p q d e Hd He Epd.
      apply lookup_insert_Some in Hd as [[<- <-]|[Hne Hd]], He as [[<- <-]|[Hne' He]]; [done| | |by eapply H6].
      * pose proof (H7 _ _ He). lia.
      * pose proof (H7 _ _ Hd). lia.
    + cbn [pcbs at_proc set_pcbs pcb_base set_next_pid set_suspended next_pid set_env]. rewrite Ei. intros p d Hd.
      apply lookup_insert_Some in Hd as [[<- <-]|[Hne Hd]]; [lia|]. pose proof (H7 _ _ Hd). lia.
Qed.

(** * Names *)

Lemma proc_name_ok name l :
  cstring name l → ∃ n, strncpy (replicate (Z.to_nat (PROCNAME_LEN + 1)) 0) name (Z.to_nat PROCNAME_LEN) = Ok n
    ∧ cstring (zinsert PROCNAME_LEN 0 n) (take 32 l) ∧ length (zinsert PROCNAME_LEN 0 n) = 33%nat.
Proof.
  intros Hc. change (Z.to_nat PROCNAME_LEN) with 32%nat. change (Z.to_nat (PROCNAME_LEN + 1)) with 33%nat.
  rewrite (strncpy_spec _ _ l) by done. destruct Hc as [Hl _].
  assert (∀ k, chars_ok (take k l)) as Ht by (intros; by apply Forall_take).
  assert (∀ n, n !! 32%nat = Some 0 → zinsert PROCNAME_LEN 0 n = n) as Hz.
  { intros n Hn. unfold zinsert. change (Z.to_nat PROCNAME_LEN) with 32%nat. rewrite decide_True by done. by apply list_insert_id. }
  case_decide.
  - rewrite decide_True by (rewrite length_replicate; lia). eexists. split; [done|].
    assert (length (take 32 l) = 32%nat) as El by (rewrite length_take; lia). change (drop 32 (replicate 33 0)) with [0].
    rewrite Hz by (rewrite lookup_app_r by lia; by rewrite El). split; [by split; [|exists []]|]. rewrite length_app, El. done.
  - rewrite decide_True by (rewrite length_replicate; lia). eexists. split; [done|].
    replace (S 32 - length l)%nat with (S (32 - length l)) by lia. change (drop 33 (replicate 33 0)) with (@nil Z). rewrite app_nil_r.
    rewrite Hz. 2:{ rewrite lookup_app_r by lia. apply lookup_replicate. lia. }
    rewrite take_ge by lia. split; [split; [done|by exists (replicate (32 - length l) 0)]|].
    rewrite length_app, length_replicate. lia.
Qed.

(** * The heap under other page tables *)

Lemma heap_repaged v p bs :
  heap_ok (vm_kheap v) bs → pt_wf HHDM_OFFSET p (kernel_pml4 p) →
  (∀ a, is_Some (translate HHDM_OFFSET (pg_mem (vm_pg v)) (kernel_pml4 (vm_pg v)) a) → is_Some (translate HHDM_OFFSET (pg_mem p) (kernel_pml4 p) a)) →
  heap_ok (vm_kheap (set_pg p v)) bs.
Proof.
  intros [Hh Hpa] Hwf Hm. split; [|exact Hpa]. apply (heap_set_pages _ (vm_kheap v)); [exact Hh|exact Hwf|].
  intros a. change (kernel_mapped HHDM_OFFSET (vm_pg v) a = true → kernel_mapped HHDM_OFFSET p a = true).
  unfold kernel_mapped. rewrite !bool_decide_eq_true. apply Hm.
Qed.

Lemma heap_range v bs start flags ks p :
  heap_ok (vm_kheap v) bs → range_mapped HHDM_OFFSET (kernel_pml4 (vm_pg v)) start flags ks (vm_pg v) p → heap_ok (vm_kheap (set_pg p v)) bs.
Proof.
  intros Hh Hr. destruct (rm_regs _ _ _ _ _ _ _ Hr) as [R1 _]. apply heap_repaged; rewrite ?R1; [done|apply Hr|].
  intros a. by apply (range_mapped_mono HHDM_OFFSET _ _ _ _ _ _ _ Hr).
Qed.

Lemma heap_written v bs tb kt p :
  heap_ok (vm_kheap v) bs → stack_page HHDM_OFFSET (vm_pg v) tb kt → frame_written HHDM_OFFSET kt (vm_pg v) p → heap_ok (vm_kheap (set_pg p v)) bs.
Proof.
  intros Hh Hs Hw. destruct (frame_written_kept HHDM_OFFSET _ _ _ _ (sp_wf _ _ _ _ Hs) (sp_table _ _ _ _ Hs) Hw) as (K1 & _ & K3 & _).
  destruct (fw_regs _ _ _ _ Hw) as [R1 _]. apply heap_repaged; rewrite ?R1; [done|done|]. intros a. by rewrite K3.
Qed.

Lemma heap_pushed e v bs : heap_ok (vm_kheap v) bs → heap_ok (vm_kheap (push_event e v)) bs.
Proof.
  intros [Hh Hpa]. change (push_event e v) with (set_pg (push_event e (vm_pg v)) v).
  pose proof (ha_pages _ _ _ _ Hh : pt_wf HHDM_OFFSET (vm_pg v) (kernel_pml4 (vm_pg v))) as Hwf.
  pose proof (wf_alloc _ _ _ Hwf) as Hal. apply heap_repaged; [by split| |done].
  apply pt_wf_alloc; [done|by apply fa_trace_ok|by apply fa_trace_frames|by rewrite fa_trace_set].
Qed.

Lemma heap_load_cr3 (v3 : Z) (e : kern A) bs : heap_ok (vm_kheap (kn_vmm e)) bs → heap_ok (vm_kheap (kn_vmm (load_cr3 v3 e))) bs.
Proof.
  intros Hh. apply heap_repaged; [done| |done].
  destruct (ha_pages _ _ _ _ (proj1 Hh) : pt_wf HHDM_OFFSET (vm_pg (kn_vmm e)) (kernel_pml4 (vm_pg (kn_vmm e)))). by constructor.
Qed.

Lemma procs_ok_push e s bs qs ps : procs_ok s bs qs ps → procs_ok (push_event e s) bs qs ps.
Proof.
  intros [[S1 S2 S3 S4 S5 S6] Hh H3 H4 H5 H6 H7]. constructor; try done.
  - constructor; try done. intros p c Hc. destruct (S5 p c Hc). by constructor.
  - by apply heap_pushed.
Qed.

(** Building a process on a new PCB keeps the world when it keeps the old blocks, the
    old list nodes and the old address spaces. *)
Lemma made_world s bs qs ps new v1 bs1 v bs' :
  heads_ok → procs_ok s bs qs ps → pcb_made HHDM_OFFSET kheap_list s bs new v1 bs1 → heap_ok (vm_kheap v) bs' → kept_blocks bs1 bs' →
  (∀ a, a ∈ list_nodes qs ps → same_links a (vm_links v1) (vm_links v)) →
  (∀ a, is_Some (vm_mms v1 !! a) → is_Some (vm_mms v !! a)) → world_kept s bs qs ps new v bs'.
Proof.
  intros [_ Hh] Hok [(l & Ev & Hl) P2 P3 P4 P5 P6 P7 _] Hheap Hk Hlk Hm. destruct (pcb_nodes new P4) as [En Ep].
  constructor; [done| | |done| |].
  - intros b Hb Hf. apply Hk; [by apply P7|done].
  - by eapply pcb_block_kept.
  - intros a Ha. assert (a ≠ proc_list_node new ∧ a ≠ sched_node new) as [N1 N2].
    { rewrite En, Ep. unfold sizeof_pcb in *. destruct (list_node_cases s bs qs ps a Hok Ha) as [Hc|Hb].
      - destruct (Hh a Hc) as [_ Hno]. lia.
      - split; intros ->; [by apply (P5 40)|by apply (P5 56)]. }
    destruct (Hl a N1 N2) as [E1 E2], (Hlk a Ha) as [E3 E4]. rewrite Ev in E3, E4. simpl in E3, E4. split; congruence.
  - intros a Ha. apply Hm. rewrite Ev. exact Ha.
Qed.

(** A new PCB is none of the old ones. *)
Lemma made_fresh s bs qs ps new v1 bs1 p :
  procs_ok s bs qs ps → pcb_made HHDM_OFFSET kheap_list s bs new v1 bs1 → is_Some (pcbs s !! p) → p ≠ new.
Proof. intros Hok Hpm Hp ->. apply (pm_fresh _ _ _ _ _ _ _ Hpm 0); [done|]. apply pcb_block_in; [by apply Hok|done]. Qed.

(** Addresses on the top page of the stack that starts above the guard page at [ptr]. *)
Lemma stack_top_page ptr :
  KERNEL_STACK_BASE ≤ ptr ∧ ptr + PAGE_SIZE + KSTACK_SIZE ≤ KERNEL_STACK_BASE + 2 ^ 39 →
  let top := ptr + PAGE_SIZE + KSTACK_SIZE in let tb := top - PAGE_SIZE in
  top ≠ 0 ∧ u64 (top - KSTACK_SIZE) = top - KSTACK_SIZE ∧ (∀ d, 0 ≤ d < PAGE_SIZE → u64 (tb + d) = tb + d)
  ∧ top - sizeof_context = tb + 8 * 504 ∧ top - sizeof_trap_frame = tb + 8 * 490 ∧ tb + 8 * 490 - sizeof_context = tb + 8 * 482.
Proof.
  unfold sizeof_context, sizeof_trap_frame, KSTACK_SIZE, PAGE_SIZE, KERNEL_STACK_BASE. cbv zeta. intros [H1 H2].
  split; [lia|]. split; [apply u64_small; lia|]. split; [intros d Hd; apply u64_small; lia|]. lia.
Qed.

(** * The first process *)

(** The same page tables, registers and free frames. *)
Definition pages_kept (p p' : pg_st A) : Prop :=
  pg_mem p' = pg_mem p ∧ same_regs p p' ∧ fa_frames (pg_alloc p') = fa_frames (pg_alloc p) ∧ fa_free_set (pg_alloc p') = fa_free_set (pg_alloc p).

Lemma pages_kept_push e p p' : pages_kept p p' → pages_kept p (push_event e p').
Proof.
  intros (H1 & H2 & H3 & H4). split; [done|]. split; [done|]. change (pg_alloc (push_event e p')) with (push_event e (pg_alloc p')).
  by rewrite fa_trace_frames, fa_trace_set.
Qed.

Lemma room_kept p p' ptr :
  pages_kept p p' → cr3_root HHDM_OFFSET p = kernel_pml4 p → (42 ≤ size (fa_free_set (pg_alloc p)))%nat →
  KERNEL_STACK_BASE ≤ ptr ∧ ptr + PAGE_SIZE + KSTACK_SIZE ≤ KERNEL_STACK_BASE + 2 ^ 39 ∧ ptr mod PAGE_SIZE = 0 → stack_room HHDM_OFFSET p' ptr.
Proof.
  intros (_ & [R1 R2] & _ & Hf) Hr Hs Hp. constructor; [done| |rewrite Hf; lia]. left. rewrite R1, <- Hr. unfold cr3_root. by rewrite R2.
Qed.

(** One process, which is not ready, with no address space. *)
Lemma idle_only s bs idle c :
  heads_ok → heap_ok (vm_kheap (kn_vmm (env s))) bs → pcb_block bs idle → pcbs s = {[idle := c]} → current_proc s = idle → idle_proc s = idle →
  ring (vm_links (kn_vmm (env s))) proc_list [proc_list_node idle] → ring (vm_links (kn_vmm (env s))) ready_queue [] →
  p_mm c = 0 → p_time_slice c = TIME_SLICE_DEFAULT → 0 ≤ p_pid c < next_pid s → procs_ok s bs [] [idle].
Proof.
  intros [_ Hh] Hheap Hb Hp Hc Hi Hr1 Hr2 Hm Ht Hpid. pose proof (pcb_block_range _ _ _ Hheap Hb) as Hrg. destruct (pcb_nodes idle Hrg) as [Es _].
  destruct (Hh ready_queue) as [Hq0 Hrq]; [by right|].
  assert (∀ p d, pcbs s !! p = Some d → p = idle ∧ d = c) as Hone by (intros p d; rewrite Hp; by intros [-> ->]%lookup_singleton_Some).
  assert (is_Some (pcbs s !! idle)) as His by (rewrite Hp, lookup_singleton_eq; by eexists).
  constructor; try done.
  - constructor; rewrite ?Hc, ?Hi; try done.
    + by apply Z.ltb_lt.
    + split; [apply not_elem_of_nil|done].
    + split; [apply not_elem_of_nil|done].
    + intros p d [-> ->]%Hone. constructor; rewrite ?Hm, ?Ht; try done.
      * unfold sizeof_pcb, KERNEL_HEAP_BASE, KERNEL_MMIO_BASE in *. lia.
      * apply Z.ltb_lt. rewrite Es. unfold KERNEL_HEAP_BASE in *. lia.
      * rewrite Es. unfold sizeof_pcb in *. lia.
    + by intros p ?%elem_of_nil.
  - intros p [d Hd]. by destruct (Hone p d Hd) as [-> _].
  - by intros p ->%list_elem_of_singleton.
  - intros p q d e Hd He _. destruct (Hone p d Hd), (Hone q e He). congruence.
  - by intros p d [-> ->]%Hone.
Qed.

(** What [proc_init] makes: the idle process, alone. *)
Record idle_made s (bs : list block) s' (bs' : list block) : Prop := {
  im_procs : procs_ok s' bs' [] [current_proc s'];
  im_idle : idle_proc s' = current_proc s';
  im_pid : next_pid s' = next_pid s + 1;
  im_spent : spends pcb_bytes bs bs';
  im_stack : kn_kstack_ptr (env s') = kn_kstack_ptr (env s);
  im_pages : pages_kept (kn_pg (env s)) (kn_pg (env s'));
  im_pcb : ∃ pname, cstring pname (chars "idle") ∧ pcbs s' = {[current_proc s' := with_name pname (with_state PROC_RUNNING (new_pcb (next_pid s)))]}
}.

Lemma proc_init_ok s bs :
  heads_ok → heap_ok (vm_kheap (kn_vmm (env s))) bs → Exists (fits (ALIGN_UP sizeof_pcb 8)) bs →
  pcbs s = ∅ → 0 ≤ next_pid s < 2 ^ 31 - 1 →
  wp (proc_init HHDM_OFFSET kheap_list proc_list ready_queue) s (λ _ s', ∃ bs', idle_made s bs s' bs').
Proof.
  intros [Hne Hh] Hheap Hfit Hnone Hpid. destruct (proc_name_ok (lit "idle") (chars "idle")) as (n & En & Hcn & _).
  { apply cstring_lit. by apply (bool_decide_unpack _); vm_compute. }
  unfold proc_init. apply wp_bind, wp_kprintln. set (e1 := EvPrint _ _).
  destruct (Hh proc_list) as [Hp0 Hpl]; [by left|]. destruct (Hh ready_queue) as [Hq0 Hrq]; [by right|].
  set (k1 := env (push_event e1 s)).
  destruct (list_init_spec (H := kern_store) k1 proc_list) as (l1 & E1 & Hr1 & _); [by apply Z.ltb_lt|].
  destruct (list_init_spec (H := kern_store) (ls_set l1 k1) ready_queue) as (l2 & E2 & Hr2 & Hl2); [by apply Z.ltb_lt|].
  apply wp_bind. eapply wp_ok; [apply on_env_ok; exact E1|]. apply wp_bind. eapply wp_ok; [apply on_env_ok; exact E2|].
  set (s2 := set_env _ _). assert (ring l2 proc_list []) as Hr1'.
  { eapply ring_ext; [|exact Hr1]. intros a ->%list_elem_of_singleton. apply (Hl2 proc_list Hne). }
  assert (heap_ok (vm_kheap (kn_vmm (env s2))) bs) as Hheap2 by exact (heap_pushed e1 (kn_vmm (env s)) bs Hheap).
  apply wp_bind. eapply wp_mono; [apply (alloc_new_pcb_ok HHDM_OFFSET kheap_list s2 bs Hheap2 Hfit)|]. cbn beta.
  intros idle s3 (v & bs' & Hpm & Hi0 & ->). set (ptr := kn_kstack_ptr (env s2)).
  pose proof Hpm as [(l & Ev & Hl) Epg Hheap3 Hrg _ Hblock _ _]. destruct (pcb_nodes idle Hrg) as [Es Ep].
  apply wp_bind, wp_kprintf. set (e2 := EvPrint _ _). change (push_event e2 (at_proc _ _ _ _ _)) with (at_proc (pcb_base s2 idle) idle (new_pcb (next_pid s2)) (push_event e2 v) ptr).
  rewrite (proj2 (Z.eqb_neq idle 0) Hi0). apply wp_bind. eapply wp_name; [exact En|]. apply wp_bind, wp_upd, wp_bind, wp_modify.
  change (set_current idle (at_proc ?sb ?p ?c ?v ?k)) with (at_proc (set_current idle sb) p c v k).
  assert (ring (vm_links (push_event e2 v)) proc_list []) as Hr3.
  { change (vm_links (push_event e2 v)) with (vm_links v). rewrite Ev. eapply ring_ext; [|exact Hr1']. intros a ->%list_elem_of_singleton.
    apply Hl; rewrite ?Es, ?Ep; unfold sizeof_pcb in *; lia. }
  assert (ring (vm_links (push_event e2 v)) ready_queue []) as Hr4.
  { change (vm_links (push_event e2 v)) with (vm_links v). rewrite Ev. eapply ring_ext; [|exact Hr2]. intros a ->%list_elem_of_singleton.
    apply Hl; rewrite ?Es, ?Ep; unfold sizeof_pcb in *; lia. }
  set (c := with_state _ _). set (sb := set_current idle (pcb_base s2 idle)). set (v' := push_event e2 v) in *.
  destruct (kern_add_after v' ptr proc_list [] (proc_list_node idle) Hr3) as [E3 Hr5].
  { rewrite Ep. intros E%list_elem_of_singleton. unfold sizeof_pcb in *. lia. }
  { rewrite Ep. unfold KERNEL_HEAP_BASE in *. lia. }
  { by intros x ->%list_elem_of_singleton. }
  set (l3 := inserted _ _ _ _) in *.
  assert (ring l3 ready_queue []) as Hr6.
  { apply ring_inserted_frame; [| | |done]; rewrite list_elem_of_singleton; [rewrite Ep; unfold sizeof_pcb in *; lia|by apply Hne..]. }
  apply wp_bind. eapply wp_ok; [apply on_env_ok; exact E3|]. apply wp_bind, wp_modify, wp_kprintln.
  set (e3 := EvPrint _ _). set (s' := push_event e3 _). assert (pcbs s' = {[idle := c]}) as Epc.
  { change (pcbs s') with (<[idle := c]> (pcbs s)). by rewrite Hnone. }
  assert (next_pid s' = next_pid s + 1) as Enp.
  { change (next_pid s') with (i32 (next_pid s + 1)). apply i32_small. lia. }
  exists bs'. constructor; try done.
  - apply idle_only with (c := c); try done; [by apply heap_pushed, heap_pushed|].
    rewrite Enp. change (p_pid c) with (next_pid s). lia.
  - by eapply pcb_spends.
  - change (kn_pg (env s')) with (push_event e3 (push_event e2 (vm_pg v))). rewrite Epg. by do 3 apply pages_kept_push.
  - by exists (zinsert PROCNAME_LEN 0 n).
Qed.

(** [proc_init] with no process yet and room in the heap makes the idle process,
    PID the first one, and makes it the current one; the invariant of the processes
    holds, the ready queue is empty and the process list holds the idle process; the
    heap has lost the bytes of one PCB at most; page tables, frames and the stack area are
    as before. *)
Theorem proc_init_establishes s bs :
  heads_ok → heap_ok (vm_kheap (kn_vmm (env s))) bs → Exists (fits (ALIGN_UP sizeof_pcb 8)) bs →
  pcbs s = ∅ → 0 ≤ next_pid s < 2 ^ 31 - 1 →
  wp (proc_init HHDM_OFFSET kheap_list proc_list ready_queue) s (λ _ s',
    let idle := current_proc s' in
    idle_proc s' = idle ∧ next_pid s' = next_pid s + 1 ∧ (∃ bs', procs_ok s' bs' [] [idle] ∧ spends pcb_bytes bs bs')
    ∧ kn_kstack_ptr (env s') = kn_kstack_ptr (env s) ∧ pages_kept (kn_pg (env s)) (kn_pg (env s'))
    ∧ ∃ pname, cstring pname (chars "idle") ∧ pcbs s' = {[idle := with_name pname (with_state PROC_RUNNING (new_pcb (next_pid s)))]}).
Proof.
  intros H1 H2 H3 H4 H5. eapply wp_mono; [by apply (proc_init_ok s bs)|]. cbn beta. intros _ s' (bs' & [Q1 Q2 Q3 Q4 Q5 Q6 Q7]).
  split; [done|]. split; [done|]. split; [by exists bs'|]. done.
Qed.


(** * Kernel threads *)

(** The stack is made, then the context is written at its top. *)
Context (kernel_thread_entry : Z).

(** What a new thread starts from: r15 to rip. *)
Definition thread_context (func arg : Z) : list Z := [0; 0; 0; 0; func; 0; arg; kernel_thread_entry].

Lemma thread_context_ok p p1 p2 p3 p4 tb kt func arg :
  words_stored HHDM_OFFSET kt 504 (replicate 8 0) p p1 → words_stored HHDM_OFFSET kt 511 [kernel_thread_entry] p1 p2 →
  words_stored HHDM_OFFSET kt 510 [arg] p2 p3 → words_stored HHDM_OFFSET kt 508 [func] p3 p4 → stack_page HHDM_OFFSET p4 tb kt →
  frame_written HHDM_OFFSET kt p p4 ∧ words_at HHDM_OFFSET junk p4 (tb + 8 * 504) (thread_context func arg).
Proof.
  intros W1 W2 W3 W4 Hs. split.
  - eapply frame_written_trans; [apply W1|]. eapply frame_written_trans; [apply W2|]. eapply frame_written_trans; [apply W3|apply W4].
  - apply (stored_words_at HHDM_OFFSET junk p4 tb kt 504); [done|lia|done|].
    pose proof (slots_stored _ _ _ _ _ _ W1 ltac:(lia) ltac:(done)) as H1. pose proof (slots_store _ _ _ _ 7 _ _ _ H1 W2 ltac:(lia) ltac:(done)) as H2.
    pose proof (slots_store _ _ _ _ 6 _ _ _ H2 W3 ltac:(lia) ltac:(done)) as H3. exact (slots_store _ _ _ _ 4 _ _ _ H3 W4 ltac:(lia) ltac:(done)).
Qed.

(** C9: from any state that satisfies the invariant, with heap and frames left, a new
    kernel thread is a fresh block with the next PID, ready, with the name cut to 32
    characters and the address space of its parent; its stack starts a page
    above the one before and holds the context that enters [kernel_thread_entry] with the function and its
    argument; it is first in the process list and last in the ready queue; the
    invariant, the scheduler's included, holds again and no other process changes. *)
Theorem kthread_create_spawns s bs qs ps parent pp name l func arg :
  heads_ok → procs_ok s bs qs ps → next_pid s < 2 ^ 31 - 1 → pcbs s !! parent = Some pp → cstring name l →
  Exists (fits (ALIGN_UP sizeof_pcb 8)) bs → stack_room HHDM_OFFSET (kn_pg (env s)) (kn_kstack_ptr (env s)) →
  wp (kthread_create HHDM_OFFSET kheap_list proc_list ready_queue kernel_thread_entry parent name func arg) s (λ new s',
    pcbs s !! new = None ∧ (∃ bs', procs_ok s' bs' (qs ++ [new]) (new :: ps) ∧ spends pcb_bytes bs bs')
    ∧ let top := kn_kstack_ptr (env s) + PAGE_SIZE + KSTACK_SIZE in let context := top - sizeof_context in
      kn_kstack_ptr (env s') = top
      ∧ (∃ pname, cstring pname (take 32 l) ∧ pcbs s' = <[new :=
           Pcb context (top - KSTACK_SIZE) context 0 (p_mm pp) 0 TIME_SLICE_DEFAULT (next_pid s) parent PROC_READY pname (replicate 16 None) 0 0]> (pcbs s))
      ∧ words_at HHDM_OFFSET junk (kn_pg (env s')) context (thread_context func arg)).
Proof.
  intros Hh Hok Hmax Hpar Hname Hfit Hroom. pose proof Hok as [H1 H2 H3 _ _ _ _]. pose proof Hroom as [(P1 & P2 & P3) _ _].
  set (ptr := kn_kstack_ptr (env s)) in *. destruct (proc_name_ok name l Hname) as (n & En & Hcn & _).
  unfold kthread_create. eapply wp_bind_mono; [by apply alloc_new_pcb_ok|]. cbn beta. intros new s1 (v & bs1 & Hpm & Hn0 & ->).
  pose proof Hpm as [(lk & Ev & _) Epg Hheap Hrg Hfresh Hblock Hkept _].
  rewrite (proj2 (Z.eqb_neq new 0) Hn0). fold ptr. set (sb := pcb_base s new).
  assert (∀ p, is_Some (pcbs s !! p) → p ≠ new) as Hnew by (intros p; by eapply made_fresh).
  assert (parent ≠ new) as Hne by (apply Hnew; by exists pp).
  apply wp_bind. eapply wp_name; [exact En|]. apply wp_bind, wp_upd, wp_bind, wp_upd, wp_bind.
  eapply (wp_get_other sb new _ v ptr parent pp); [done|exact Hpar|]. apply wp_bind, wp_upd.
  apply wp_bind, wp_stack. rewrite Epg.
  eapply wp_mono; [apply (new_stack HHDM_OFFSET junk); [apply (ha_pages _ _ _ _ (proj1 H2))|exact Hroom]|].
  cbn beta. intros top k (-> & Etop & ks & kt & _ & Hr & Hkt & Hsp). rewrite Etop. set (top := ptr + PAGE_SIZE + KSTACK_SIZE) in *.
  destruct (stack_top_page ptr (conj P1 P2)) as (Ht0 & Esub & Eu & Ec & _). fold top in Ht0, Esub, Eu, Ec.
  rewrite (proj2 (Z.eqb_neq top 0) Ht0). set (v2 := set_pg (ks_pg k) v).
  apply wp_bind, wp_upd, wp_bind, wp_upd.
  rewrite Ec, (Eu (8 * 504)) by done. rewrite <- !Z.add_assoc.
  change (8 * 504 + ctx_rip) with (8 * 511). change (8 * 504 + ctx_rdi) with (8 * 510). change (8 * 504 + ctx_rbx) with (8 * 508).
  rewrite !Eu by done. set (tb := top - PAGE_SIZE) in *.
  apply wp_bind, wp_page. eapply wp_mono; [by apply (store_words_ok HHDM_OFFSET junk tb kt (replicate 8 0) 504)|].
  cbn beta. intros _ p1 [Hs1 Hw1]. apply wp_bind, wp_upd, wp_bind, wp_upd.
  apply wp_bind, wp_page. eapply wp_mono; [by apply (store_word_ok HHDM_OFFSET junk tb kt 511)|]. cbn beta. intros _ p2 [Hs2 Hw2].
  apply wp_bind, wp_page. eapply wp_mono; [by apply (store_word_ok HHDM_OFFSET junk tb kt 510)|]. cbn beta. intros _ p3 [Hs3 Hw3].
  apply wp_bind, wp_page. eapply wp_mono; [by apply (store_word_ok HHDM_OFFSET junk tb kt 508)|]. cbn beta. intros _ p4 [Hs4 Hw4].
  destruct (thread_context_ok _ _ _ _ _ tb kt func arg Hw1 Hw2 Hw3 Hw4 Hs4) as [Hw Hctx].
  rewrite Esub. set (c := with_rsp _ _). set (v4 := set_pg p4 _).
  assert (heap_ok (vm_kheap v2) bs1) as Hh2 by (apply (heap_range _ _ (ptr + PAGE_SIZE) kstack_flags ks); [done|by rewrite Epg]).
  assert (heap_ok (vm_kheap v4) bs1) as Hh4 by (apply (heap_written v2 bs1 tb kt p4); done).
  assert (world_kept s bs qs ps new v4 bs1) as Hworld.
  { eapply made_world; [done|done|exact Hpm|done|by intros b Hb _|done|done]. }
  eapply wp_bind_mono; [apply (spawn_enqueue s bs qs ps new c v4 bs1 top); try done|].
  - intros Hm. destruct (so_pcb _ _ _ H1 parent pp Hpar) as [_ _ _ O4 _]. specialize (O4 Hm). simpl in O4. rewrite lookup_fmap in O4.
    change (vm_mms v4) with (vm_mms v). rewrite Ev. simpl. destruct (vm_mms (kn_vmm (env s)) !! p_mm pp); [done|by destruct O4].
  - cbn beta. intros _ s' (Hok' & l' & ->). apply wp_bind, wp_get, wp_bind, wp_kprintf, wp_ret. split; [|split; [|split; [|split]]].
    + apply eq_None_not_Some. intros Hs. by apply (Hnew new Hs).
    + exists bs1. split; [by apply procs_ok_push|by eapply pcb_spends].
    + done.
    + exists (zinsert PROCNAME_LEN 0 n). split; [done|]. unfold c, tb, sizeof_context. simpl. by do 2 f_equal.
    + apply words_at_push. exact Hctx.
Qed.
End spawn.

(** * Witnesses: the first processes on the heap of the Vmm examples *)

Section example.
Let H := KERNEL_HHDM_BASE.

(** CR3 holds the kernel's root; no stack and no process have been made. *)
Definition kern_boot : kern pmm_st := load_cr3 (4 * PAGE_SIZE) (Kern vmm_example KERNEL_STACK_BASE).
Definition boot_example : proc_st (kern pmm_st) := ProcSt kern_boot ∅ 0 0 0 0 false 0 ∅.
Definition proc_list_example : Z := 0xFFFFFFFF80010060.
Definition ready_example : Z := 0xFFFFFFFF80010080.
Definition thread_entry_example : Z := 0xFFFFFFFF80002000.

Lemma heads_example : heads_ok proc_list_example ready_example.
Proof.
  split; [done|]. unfold proc_list_example, ready_example, KERNEL_HEAP_BASE, KERNEL_MMIO_BASE. intros a [->| ->]; lia.
Qed.

Lemma kern_boot_heap : kheap_ok (KernelPages0 := kernel_pages H) list_example (vm_kheap (kn_vmm kern_boot)) blocks_mm.
Proof. apply (heap_load_cr3 H list_example (4 * PAGE_SIZE) (Kern vmm_example KERNEL_STACK_BASE)). exact heap_mm_ok. Qed.

Lemma blocks_mm_roomy : roomy 3928 blocks_mm.
Proof. exists (Block (KERNEL_HEAP_BASE + 136) 3928 true). split; [by right; left|done]. Qed.

Lemma roomy_pcb n bs : (272 <=? n) = true → roomy n bs → Exists (fits (ALIGN_UP sizeof_pcb 8)) bs.
Proof. intros Hn Hr. apply (roomy_fits n); [done|]. apply Z.leb_le in Hn. exact Hn. Qed.

(** The kernel's root is the current one, and 55 frames are free; one stack needs 16. *)
Lemma kern_boot_room : cr3_root H (kn_pg kern_boot) = kernel_pml4 (kn_pg kern_boot) ∧ (42 ≤ size (fa_free_set (pg_alloc (kn_pg kern_boot))))%nat.
Proof. apply (bool_decide_unpack _). by vm_compute. Qed.

Lemma first_stack : let ptr := KERNEL_STACK_BASE in
  KERNEL_STACK_BASE ≤ ptr ∧ ptr + PAGE_SIZE + KSTACK_SIZE ≤ KERNEL_STACK_BASE + 2 ^ 39 ∧ ptr mod PAGE_SIZE = 0.
Proof. split; [done|]. split; [unfold PAGE_SIZE, KSTACK_SIZE; lia|done]. Qed.

Lemma lit_debugA : cstring (lit "debugA") (chars "debugA").
Proof. apply cstring_lit. by apply (bool_decide_unpack _); vm_compute. Qed.

Lemma first_pid : 0 ≤ next_pid boot_example < 2 ^ 31 - 1.
Proof. simpl. lia. Qed.

Lemma pcb_3928 : pcb_bytes + MIN_SPLIT ≤ 3928.
Proof. done. Qed.

Lemma second_pid n : n = 1 → n < 2 ^ 31 - 1.
Proof. by intros ->. Qed.

Lemma proc_init_establishes_witness :
  ∃ s' bs', proc_init H list_example proc_list_example ready_example boot_example = Ok (tt, s')
    ∧ procs_ok H list_example proc_list_example ready_example s' bs' [] [current_proc s'] ∧ next_pid s' = 1.
Proof.
  destruct (wp_inv _ _ _ (proc_init_establishes H list_example proc_list_example ready_example boot_example blocks_mm
    heads_example kern_boot_heap (roomy_pcb 3928 blocks_mm eq_refl blocks_mm_roomy) eq_refl first_pid))
    as ([] & s' & E & _ & Hn & (bs' & Hok & Hs) & _).
  exists s', bs'. split; [exact E|]. split; [exact Hok|exact Hn].
Defined.

(** The state after [proc_init]. *)
Lemma idle_example : ∃ s bs, procs_ok H list_example proc_list_example ready_example s bs [] [current_proc s] ∧ next_pid s = 1
  ∧ roomy 3624 bs ∧ kn_kstack_ptr (env s) = KERNEL_STACK_BASE ∧ pages_kept (kn_pg kern_boot) (kn_pg (env s))
  ∧ ∃ c, pcbs s !! current_proc s = Some c ∧ cstring (p_name c) (chars "idle").
Proof.
  destruct (wp_inv _ _ _ (proc_init_ok H list_example proc_list_example ready_example boot_example blocks_mm
    heads_example kern_boot_heap (roomy_pcb 3928 blocks_mm eq_refl blocks_mm_roomy) eq_refl first_pid))
    as ([] & s & _ & bs & [Q1 _ Q3 Q4 Q5 Q6 (pname & Q7 & Q8)]).
  exists s, bs. split; [exact Q1|]. split; [exact Q3|]. split; [exact (Q4 3928 pcb_3928 blocks_mm_roomy)|]. split; [exact Q5|]. split; [exact Q6|].
  rewrite Q8. eexists. split; [apply lookup_singleton_eq|exact Q7].
Qed.

(** The first thread, child of the idle process. *)
Lemma kthread_create_spawns_witness :
  ∃ s s' thread, kthread_create H list_example proc_list_example ready_example thread_entry_example (current_proc s) (lit "debugA") 0x1000 7 s = Ok (thread, s')
    ∧ (∃ bs', procs_ok H list_example proc_list_example ready_example s' bs' [thread] [thread; current_proc s])
    ∧ words_at H (λ _, 0) (kn_pg (env s')) (KERNEL_STACK_BASE + 5 * PAGE_SIZE - 64) (thread_context thread_entry_example 0x1000 7).
Proof.
  destruct idle_example as (s & bs & Hok & Hpid & Hroom & Hk & Hpages & pp & Hpp & _). destruct kern_boot_room as [B1 B2].
  assert (stack_room H (kn_pg (env s)) (kn_kstack_ptr (env s))) as Hst.
  { rewrite Hk. exact (room_kept H (kn_pg kern_boot) _ _ Hpages B1 B2 first_stack). }
  destruct (wp_inv _ _ _ (kthread_create_spawns H list_example (λ _, 0) proc_list_example ready_example thread_entry_example s bs [] [current_proc s]
    (current_proc s) pp (lit "debugA") (chars "debugA") 0x1000 7 heads_example Hok (second_pid _ Hpid) Hpp
    lit_debugA (roomy_pcb 3624 bs eq_refl Hroom) Hst))
    as (thread & s' & E & _ & (bs' & Hok' & _) & _ & _ & Hw).
  exists s, s', thread. split; [exact E|]. split; [exists bs'; exact Hok'|]. rewrite Hk in Hw. exact Hw.
Defined.
End example.
