(* ===== verification/Fork.v ===== *)
(** Fork: [sys_fork] of [kernel/src/proc/proc.c]: the child is a new process with a
    deep copy of its parent's address space, whose kernel stack holds the parent's
    trap frame with rax cleared below a context that enters [fork_ret_entry]. *)
From S2P Require Import Prelude Layout Frames Pmm Paging Range CString Klist Sched Kheap Kstack Vaccess Vmm Vmmcopy Stack Proc Spawn.

Section fork.
  Context {A : Type} `{FA : FrameAlloc A}.
  Context (HHDM_OFFSET kheap_list : Z) (junk : Z → Z).
  Context (proc_list ready_queue fork_ret_entry : Z).
  Abbreviation St := (proc_st (kern A)).
  Abbreviation kva := (kva HHDM_OFFSET).
  Abbreviation translate := (translate HHDM_OFFSET).
  Abbreviation is_table := (is_table HHDM_OFFSET).
  Abbreviation private := (private HHDM_OFFSET).
  Abbreviation pt_wf := (pt_wf HHDM_OFFSET).
  Abbreviation words_at := (words_at HHDM_OFFSET junk).
  Abbreviation word_is := (word_is HHDM_OFFSET junk).
  Implicit Types s : St.
  Implicit Types p : pg_st A.

(** * The copy, as the stacks see it *)

(** A page above [a] that is not the page of [a]. *)
Lemma vpn_ne_below a b :
  KERNEL_STACK_BASE ≤ a < b → b < KERNEL_STACK_BASE + 2 ^ 39 → b mod PAGE_SIZE = 0 → vpn a ≠ vpn b.
Proof. unfold vpn, KERNEL_STACK_BASE, PAGE_SIZE. intros. Z.to_euclidean_division_equations; lia. Qed.

Section copied.
  Context (s s' : vmm_st A) (bs bs' : list block) (sm : mm_struct) (areas : list (Z * vma_struct)) (dst : Z) (dm : mm_struct).
  Context (Hkr : pt_wf (vm_pg s) (kernel_pml4 (vm_pg s))).
  Context (Hc : space_copied HHDM_OFFSET kheap_list s bs s' bs' sm areas dst dm).
  Abbreviation p := (vm_pg s).
  Abbreviation p' := (vm_pg s').

Lemma copied_busy k : fa_busy (pg_alloc p) k → fa_busy (pg_alloc p') k.
Proof using Hc.
  intros [Hk Hn]. split; [by rewrite (sc_frames _ _ _ _ _ _ _ _ _ _ Hc)|]. intros Hf. by apply Hn, (sc_free _ _ _ _ _ _ _ _ _ _ Hc).
Qed.

Lemma copied_kernel_table k : is_table p' (kernel_pml4 p') k ↔ is_table p (kernel_pml4 p) k.
Proof using Hc Hkr.
  destruct (sc_regs _ _ _ _ _ _ _ _ _ _ Hc) as [-> _]. apply (space_kept_table HHDM_OFFSET _ _ _ _ k (sc_kept _ _ _ _ _ _ _ _ _ _ Hc _ Hkr)).
Qed.

Lemma copied_words va ws : words_at p va ws → words_at p' va ws.
Proof using Hc Hkr.
  intros [Hrg Hw]. constructor; [done|]. intros j w Hj. destruct (Hw j w Hj) as (e & H1 & H2 & H3 & H4). exists e.
  pose proof (sc_kept _ _ _ _ _ _ _ _ _ _ Hc _ Hkr) as Hk. destruct (sc_regs _ _ _ _ _ _ _ _ _ _ Hc) as [R1 _].
  split; [|split; [by apply copied_busy|split; [by rewrite copied_kernel_table|]]].
  - rewrite R1, (sk_trans _ _ _ _ _ Hk). exact H1.
  - rewrite <- H4. unfold word_at. f_equal. apply (sc_data _ _ _ _ _ _ _ _ _ _ Hc); [done|done|].
    unfold vidx, OFFSET. change 0xFFF with (Z.ones 12). rewrite Z.land_ones by lia. Z.to_euclidean_division_equations; lia.
Qed.

(** The stack area is shared as before, and there are frames for another stack. *)
Lemma copied_stack_room ptr root :
  cr3_root HHDM_OFFSET p = root → pt_wf p root → private p root (kernel_pml4 p) → shares HHDM_OFFSET p root STACK_IDX →
  KERNEL_STACK_BASE ≤ ptr ∧ ptr + PAGE_SIZE + KSTACK_SIZE ≤ KERNEL_STACK_BASE + 2 ^ 39 ∧ ptr mod PAGE_SIZE = 0 →
  17 + 4 * total_pages areas ≤ Z.of_nat (size (free_frames s)) → stack_room HHDM_OFFSET p' ptr.
Proof using Hc Hkr.
  intros Er Hwf Hpr (t & T1 & T2) Hptr Hfr. destruct (sc_regs _ _ _ _ _ _ _ _ _ _ Hc) as [R1 R2].
  pose proof (sc_kept _ _ _ _ _ _ _ _ _ _ Hc root Hwf) as Hk. pose proof (sc_kept _ _ _ _ _ _ _ _ _ _ Hc _ Hkr) as Hkk.
  assert (cr3_root HHDM_OFFSET p' = root) as Er' by (unfold cr3_root; rewrite R2; exact Er).
  assert (vpath [STACK_IDX]) as Hv by (apply Forall_singleton, idx_range).
  constructor; rewrite ?Er'; [done| |].
  - right. split.
    + exists t. rewrite R1, (sk_walk _ _ _ _ _ Hk), (sk_walk _ _ _ _ _ Hkk) by (done || simpl; lia). done.
    + destruct (wf_root _ _ _ Hwf) as (kc & Hb & Ek). exists kc. split; [done|]. split; [by apply copied_busy|].
      rewrite copied_kernel_table. apply (Hpr []); [apply Forall_nil_2|simpl; lia|done|]. simpl. by rewrite Ek.
  - pose proof (sc_cost _ _ _ _ _ _ _ _ _ _ Hc). unfold free_frames in *. lia.
Qed.

(** A space that is private against the kernel's stays so. *)
Lemma copied_private root : pt_wf p root → private p root (kernel_pml4 p) → private p' root (kernel_pml4 p').
Proof using Hc Hkr.
  intros Hwf Hpr q k Hq Hl Hlow Hw. rewrite copied_kernel_table. apply (Hpr q k Hq Hl Hlow).
  by rewrite <- (sk_walk _ _ _ _ _ (sc_kept _ _ _ _ _ _ _ _ _ _ Hc root Hwf)) by done.
Qed.
End copied.

(** * The parent's space after the child's PCB is allocated *)

(** Bytes the heap needs in one piece: the PCB, the [mm_struct], the areas. *)
Definition fork_bytes (areas : list (Z * vma_struct)) : Z := 304 + 80 * (Z.of_nat (length areas) + 2).

Lemma made_forkable s bs new v1 bs1 src sm areas :
  forkable HHDM_OFFSET kheap_list (kn_vmm (env s)) bs src sm areas → roomy (fork_bytes areas) bs →
  pcb_made HHDM_OFFSET kheap_list s bs new v1 bs1 → forkable HHDM_OFFSET kheap_list v1 bs1 src sm areas.
Proof.
  intros [[F1 F2 F3 F4 F5 F6] G2 G3 G4 G5 _ G7] Hroom [(l & -> & Hl) P2 P3 P4 P5 P6 P7 (bl & y & br & Ebs & Hy & Ebs1)].
  destruct (pcb_nodes new P4) as [En Ep].
  assert (roomy (80 * (Z.of_nat (length areas) + 2)) bs1) as Hroom1.
  { rewrite Ebs in Hroom. change (ALIGN_UP sizeof_pcb 8) with 272 in *. rewrite Ebs1.
    pose proof (roomy_carve (fork_bytes areas) 272 bl y br Hroom) as Hrc. unfold fork_bytes, HEADER_SIZE, MIN_SPLIT in *.
    replace (304 + 80 * (Z.of_nat (length areas) + 2) - 272 - 32) with (80 * (Z.of_nat (length areas) + 2)) in Hrc by lia.
    apply Hrc; lia. }
  set (v0 := kn_vmm (env s)) in *. constructor; try done.
  - constructor; try done.
    + rewrite P2. exact F4.
    + eapply ring_ext; [|exact F5]. intros a Ha. apply F6 in Ha. apply Hl; rewrite ?En, ?Ep; intros ->; [by apply (P5 40)|by apply (P5 56)].
    + intros a Ha. by eapply kept_in_block, F6.
  - unfold trans. rewrite P2. exact G5.
  - split; [apply (roomy_fits _ _ _ Hroom1); change (ALIGN_UP sizeof_mm 8) with 104; lia|].
    pose proof (roomy_room _ bs1 (kheap_sizes HHDM_OFFSET kheap_list _ _ P3) Hroom1) as Hr.
    change (ALIGN_UP sizeof_vma 8 + HEADER_SIZE) with 80 in Hr. by rewrite Z.mul_comm, Z.div_mul in Hr by done.
  - unfold free_frames. rewrite P2. exact G7.
Qed.

(** * The child's stack *)

(** What the child starts from: the context's rip, and above it the parent's trap
    frame with rax cleared. *)
Definition child_words (regs : list Z) : list Z := fork_ret_entry :: <[14%nat := 0]> regs.

Lemma child_words_ok p p1 p2 p3 tb kt regs :
  length regs = 22%nat →
  words_stored HHDM_OFFSET kt 490 regs p p1 → words_stored HHDM_OFFSET kt 504 [0] p1 p2 →
  words_stored HHDM_OFFSET kt 489 [fork_ret_entry] p2 p3 → stack_page HHDM_OFFSET p3 tb kt →
  frame_written HHDM_OFFSET kt p p3 ∧ words_at p3 (tb + 8 * 489) (child_words regs).
Proof.
  intros Hl W1 W2 W3 Hs. assert (zlen regs = 22) as Ez by (unfold zlen; lia). split.
  - eapply frame_written_trans; [apply W1|]. eapply frame_written_trans; [apply W2|apply W3].
  - assert (zlen (<[14%nat := 0]> regs) = 22) as Ei by (unfold zlen; rewrite length_insert; lia).
    apply (stored_words_at HHDM_OFFSET junk p3 tb kt 489); [done|lia|unfold child_words, zlen in *; simpl; lia|].
    pose proof (slots_stored _ _ _ _ _ _ W1 ltac:(lia) ltac:(lia)) as H1. pose proof (slots_store _ _ _ _ 14 _ _ _ H1 W2 ltac:(lia) ltac:(lia)) as H2.
    exact (slots_push _ _ 489 _ _ _ _ H2 W3 ltac:(lia) ltac:(lia)).
Qed.

(** * [sys_fork] *)

(** The parent [pp] is running in its own space [sm] with the areas [areas]; its trap
    frame [regs] is on a stack below the next one; heap and frames suffice. *)
Record fork_ready s (bs : list block) (qs ps : list Z) (pp : pcb_t) (sm : mm_struct) (areas : list (Z * vma_struct)) (regs : list Z) : Prop := {
  fr_procs : procs_ok HHDM_OFFSET kheap_list proc_list ready_queue s bs qs ps;
  fr_pids : next_pid s < 2 ^ 31 - 1;
  fr_parent : pcbs s !! current_proc s = Some pp;
  fr_space : forkable HHDM_OFFSET kheap_list (kn_vmm (env s)) bs (p_mm pp) sm areas;
  fr_heap : roomy (fork_bytes areas) bs;
  fr_frames : 17 + 4 * total_pages areas ≤ Z.of_nat (size (free_frames (kn_vmm (env s))));
  fr_root : cr3_root HHDM_OFFSET (kn_pg (env s)) = mm_pml4 sm;
  fr_private : private (kn_pg (env s)) (mm_pml4 sm) (kernel_pml4 (kn_pg (env s)));
  fr_shared : shares HHDM_OFFSET (kn_pg (env s)) (mm_pml4 sm) STACK_IDX;
  fr_stack : let ptr := kn_kstack_ptr (env s) in
    KERNEL_STACK_BASE ≤ ptr ∧ ptr + PAGE_SIZE + KSTACK_SIZE ≤ KERNEL_STACK_BASE + 2 ^ 39 ∧ ptr mod PAGE_SIZE = 0;
  fr_regs : length regs = tf_words ∧ words_at (kn_pg (env s)) (p_trap_frame pp) regs;
  fr_below : p_trap_frame pp + sizeof_trap_frame ≤ kn_kstack_ptr (env s)
}.

(** The pages of parent and child afterwards. *)
Record spaces_forked p p' (sm : mm_struct) (areas : list (Z * vma_struct)) (dm : mm_struct) : Prop := {
  sf_copy x va es : x ∈ areas → in_area x.2 va → translate (pg_mem p) (mm_pml4 sm) va = Some es →
    ∃ k, k ∈ fa_free_set (pg_alloc p) ∧ translate (pg_mem p') (mm_pml4 dm) va = Some (copied_entry k es)
      ∧ ∀ i, vidx i → let content := pg_mem p !! slot (kva (frame_of es)) i in
          pg_mem p' !! slot (kva k) i = content ∧ pg_mem p' !! slot (kva (frame_of es)) i = content;
  sf_blank x va : x ∈ areas → in_area x.2 va → translate (pg_mem p) (mm_pml4 sm) va = None → blank_page HHDM_OFFSET p' (mm_pml4 dm) va (vm_flags x.2);
  sf_apart x x' va va' e e' : x ∈ areas → x' ∈ areas → in_area x.2 va → in_area x'.2 va' →
    translate (pg_mem p') (mm_pml4 dm) va = Some e → translate (pg_mem p') (mm_pml4 dm) va' = Some e' → frame_of e = frame_of e' → va = va';
  sf_rest va : 0 ≤ va < 2 ^ 47 → (∀ x, x ∈ areas → ¬ vm_start x.2 ≤ va < vm_end x.2) → translate (pg_mem p') (mm_pml4 dm) va = None;
  sf_parent va : 0 ≤ va < 2 ^ 47 → translate (pg_mem p') (mm_pml4 sm) va = translate (pg_mem p) (mm_pml4 sm) va
}.

Lemma copied_forked (v v2 : vmm_st A) bs bs2 src sm areas dst dm p' :
  forkable HHDM_OFFSET kheap_list v bs src sm areas → private (vm_pg v) (mm_pml4 sm) (kernel_pml4 (vm_pg v)) →
  space_copied HHDM_OFFSET kheap_list v bs v2 bs2 sm areas dst dm → data_kept HHDM_OFFSET (kernel_pml4 (vm_pg v2)) (vm_pg v2) p' →
  spaces_forked (vm_pg v) p' sm areas dm.
Proof.
  intros Hf Hpr Hc Hd. pose proof (fk_mm _ _ _ _ _ _ _ Hf) as Hmm. pose proof (mo_wf _ _ _ _ _ _ _ Hmm) as Hwf.
  pose proof (ha_pages _ _ _ _ (proj1 (mo_heap _ _ _ _ _ _ _ Hmm)) : pt_wf (vm_pg v) (kernel_pml4 (vm_pg v))) as Hkr.
  destruct (sc_regs _ _ _ _ _ _ _ _ _ _ Hc) as [R1 _]. pose proof (sc_kept _ _ _ _ _ _ _ _ _ _ Hc _ Hwf) as Hk.
  assert (private (vm_pg v2) (mm_pml4 dm) (kernel_pml4 (vm_pg v2))) as Hpd by (rewrite R1; apply (sc_private _ _ _ _ _ _ _ _ _ _ Hc)).
  destruct (low_kept HHDM_OFFSET _ p' _ _ Hpd (sc_wf _ _ _ _ _ _ _ _ _ _ Hc) Hd) as (_ & _ & Hdt).
  destruct (low_kept HHDM_OFFSET _ p' _ _ (copied_private _ _ _ _ _ _ _ _ Hkr Hc _ Hwf Hpr) (sk_wf _ _ _ _ _ Hk) Hd) as (_ & _ & Hst).
  assert (∀ x va, x ∈ areas → in_area x.2 va → 0 ≤ va < 2 ^ 47) as Hlow.
  { intros x va Hx [Hva _]. destruct (fk_areas _ _ _ _ _ _ _ Hf x Hx) as [? _ ?]. unfold PAGE_SIZE in *. lia. }
  constructor.
  - intros x va es Hx Hva Hes. destruct (sc_copy _ _ _ _ _ _ _ _ _ _ Hc x va es Hx Hva Hes) as (k & Q1 & Q2 & Q3 & Q4 & Q5).
    destruct (fk_data _ _ _ _ _ _ _ Hf x va es Hx Hva Hes) as [Hb Ht].
    exists k. split; [done|]. split; [by rewrite Hdt by by apply (Hlow x)|]. intros i Hi. cbv zeta. split.
    + rewrite Hd; [by apply Q5|done| |done]. rewrite (copied_kernel_table _ _ _ _ _ _ _ _ Hkr Hc). intros Hk'.
      by destruct (is_table_busy HHDM_OFFSET _ _ _ Hkr Hk').
    + rewrite Hd; [by apply (sc_data _ _ _ _ _ _ _ _ _ _ Hc)|by apply (copied_busy _ _ _ _ _ _ _ _ Hc)| |done].
      by rewrite (copied_kernel_table _ _ _ _ _ _ _ _ Hkr Hc).
  - intros x va Hx Hva Hno. destruct (sc_blank _ _ _ _ _ _ _ _ _ _ Hc x va Hx Hva Hno) as [k Hk']. exists k. by rewrite Hdt by by apply (Hlow x).
  - intros x x' va va' e e' Hx Hx' Hva Hva'. rewrite !Hdt by (by apply (Hlow x)) || (by apply (Hlow x')). by apply (sc_apart _ _ _ _ _ _ _ _ _ _ Hc x x').
  - intros va Hva Hno. rewrite Hdt by done. by apply (sc_rest _ _ _ _ _ _ _ _ _ _ Hc).
  - intros va Hva. rewrite Hst by done. apply Hk.
Qed.

(** The child's block: ready, with a stack of its own below [top], the space [mm] and
    the parent's directory. *)
Definition child_pcb s (pp : pcb_t) (top mm : Z) (pname : list Z) : pcb_t :=
  let trap_frame := top - sizeof_trap_frame in
  let context := trap_frame - sizeof_context in
  Pcb context (top - KSTACK_SIZE) context trap_frame mm 0 TIME_SLICE_DEFAULT (next_pid s) (current_proc s) PROC_READY pname
    (replicate (Z.to_nat MAX_FD) None) (p_cwd_inode pp) 0.

(** The parent's trap frame can be read after the new stack is mapped. *)
Lemma frame_loaded p start ks p1 tb kt va regs :
  pt_wf p (kernel_pml4 p) → range_mapped HHDM_OFFSET (kernel_pml4 p) start kstack_flags ks p p1 → stack_page HHDM_OFFSET p1 tb kt →
  words_at p va regs → length regs = tf_words → va + sizeof_trap_frame ≤ start → start mod PAGE_SIZE = 0 →
  start + zlen ks * PAGE_SIZE ≤ KERNEL_STACK_BASE + 2 ^ 39 → load_words HHDM_OFFSET junk va tf_words p1 = Ok (regs, p1).
Proof.
  intros Hwf Hr Hs Hw Hl Hb Hm Hend. assert (zlen regs = 22) as Ez by (unfold zlen; rewrite Hl; done). pose proof Hw as [[B1 B2] _].
  apply load_words_ok; [apply Hs|apply (wf_hhdm _ _ _ (sp_wf _ _ _ _ Hs))| |done].
  eapply (words_at_range HHDM_OFFSET junk); [exact Hr|done| |done]. intros i j Hi Hj. unfold sizeof_trap_frame in *.
  apply vpn_ne_below; unfold PAGE_SIZE in *; [lia|lia|]. Z.to_euclidean_division_equations; lia.
Qed.

(** The block of a child whose new stack ends at [top]. *)
Definition forked_pcb (top : Z) (c : pcb_t) : pcb_t :=
  let trap_frame := top - sizeof_trap_frame in
  let context := trap_frame - sizeof_context in
  with_state PROC_READY (with_context context (with_rsp context (with_trap_frame trap_frame
    (with_rsp trap_frame (with_kstack_base (top - KSTACK_SIZE) (with_rsp top c)))))).

(** The child's stack is set up in the frame [kt] of its last page. *)
Lemma fork_stack_ok s child c v p ptr ks kt tf regs :
  let top := ptr + PAGE_SIZE + KSTACK_SIZE in
  KERNEL_STACK_BASE ≤ ptr ∧ top ≤ KERNEL_STACK_BASE + 2 ^ 39 ∧ ptr mod PAGE_SIZE = 0 →
  pt_wf (vm_pg v) (kernel_pml4 (vm_pg v)) → zlen ks = 4 →
  range_mapped HHDM_OFFSET (kernel_pml4 (vm_pg v)) (ptr + PAGE_SIZE) kstack_flags ks (vm_pg v) p →
  stack_page HHDM_OFFSET p (top - PAGE_SIZE) kt →
  length regs = tf_words → words_at (vm_pg v) tf regs → tf + sizeof_trap_frame ≤ ptr →
  wp (fork_stack HHDM_OFFSET junk fork_ret_entry child tf top) (at_proc s child c (set_pg p v) top) (λ _ s', ∃ p',
    s' = at_proc s child (forked_pcb top c) (set_pg p' (set_pg p v)) top
    ∧ frame_written HHDM_OFFSET kt p p' ∧ stack_page HHDM_OFFSET p' (top - PAGE_SIZE) kt
    ∧ words_at p' (top - sizeof_trap_frame - 8) (child_words regs)).
Proof.
  intros top (P1 & P2 & P3) Hkr Hlk Hr Hsp Hl Hregs Hbelow.
  destruct (stack_top_page ptr (conj P1 P2)) as (_ & Esub & Eu & _ & Etf & Ectx). fold top in Esub, Eu, Etf, Ectx.
  unfold fork_stack, forked_pcb. apply wp_bind, wp_upd, wp_bind, wp_upd. set (tb := top - PAGE_SIZE) in *.
  rewrite Etf, (Eu (8 * 490)) by done.
  rewrite Ectx, (Eu (8 * 482)), <- !Z.add_assoc by done.
  change (8 * 482 + ctx_rip) with (8 * 489). change (8 * 490 + tf_rax) with (8 * 504). rewrite !Eu by done.
  apply wp_bind, wp_upd, wp_bind, wp_page. eapply wp_ok.
  { eapply (frame_loaded (vm_pg v) (ptr + PAGE_SIZE) ks); [done|exact Hr|exact Hsp|exact Hregs|done|unfold PAGE_SIZE in *; lia|..].
    - unfold PAGE_SIZE in *. Z.to_euclidean_division_equations; lia.
    - rewrite Hlk. unfold top, KSTACK_SIZE, PAGE_SIZE in *. lia. }
  assert (zlen regs = 22) as Ez by (unfold zlen; by rewrite Hl).
  apply wp_bind, wp_page. eapply wp_mono; [apply (store_words_ok HHDM_OFFSET junk tb kt regs 490); [done|lia|lia]|].
  cbn beta. intros _ p1 [Hs1 Hw1]. apply wp_bind, wp_page. eapply wp_mono; [by apply (store_word_ok HHDM_OFFSET junk tb kt 504)|].
  cbn beta. intros _ p2 [Hs2 Hw2]. apply wp_bind, wp_upd, wp_bind, wp_upd.
  apply wp_bind, wp_page. eapply wp_mono; [by apply (store_word_ok HHDM_OFFSET junk tb kt 489)|]. cbn beta. intros _ p3 [Hs3 Hw3].
  apply wp_bind, wp_upd, wp_upd. rewrite Esub.
  destruct (child_words_ok _ _ _ _ tb kt regs Hl Hw1 Hw2 Hw3 Hs3) as [Hw Hctx].
  exists p3. split; [done|]. split; [exact Hw|]. split; [done|].
  replace (tb + 8 * 490 - 8) with (tb + 8 * 489) by lia. exact Hctx.
Qed.

(** The child is built without touching what the invariant holds of. *)
Lemma forked_world s bs qs ps child v1 bs1 v3 bs3 sm areas dst dm v5 :
  heads_ok proc_list ready_queue → procs_ok HHDM_OFFSET kheap_list proc_list ready_queue s bs qs ps →
  pcb_made HHDM_OFFSET kheap_list s bs child v1 bs1 → space_copied HHDM_OFFSET kheap_list v1 bs1 v3 bs3 sm areas dst dm →
  kheap_ok (KernelPages0 := kernel_pages HHDM_OFFSET) kheap_list (vm_kheap v5) bs3 → vm_links v5 = vm_links v3 → vm_mms v5 = vm_mms v3 →
  world_kept HHDM_OFFSET kheap_list proc_list ready_queue s bs qs ps child v5 bs3.
Proof.
  intros Hh Hok Hpm Hc Hh5 El Em. destruct (sc_dst _ _ _ _ _ _ _ _ _ _ Hc) as (_ & _ & Hd).
  apply (made_world HHDM_OFFSET kheap_list proc_list ready_queue _ _ _ _ _ v1 bs1 v5 bs3 Hh Hok Hpm Hh5 (sc_blocks _ _ _ _ _ _ _ _ _ _ Hc)).
  - intros a Ha. rewrite El. apply (sc_links _ _ _ _ _ _ _ _ _ _ Hc).
    destruct (list_node_cases HHDM_OFFSET kheap_list proc_list ready_queue s bs qs ps a Hok Ha) as [Hca|Hb]; [right; by apply Hh|left].
    by eapply kept_in_block; [apply Hpm|].
  - intros a [m Ha]. rewrite Em. destruct (decide (a = dst)) as [->|Hne]; [by exists dm|]. exists m.
    by rewrite (sc_mms _ _ _ _ _ _ _ _ _ _ Hc).
Qed.

(** C7: [fork] of a process that runs in its own space returns the PID of a new process
    that is ready, has the parent's name (at most 32 characters) and directory, no open
    files, and a space of its own: every mapped page of every area of the parent is
    mapped in it to a frame that was free, with the same flags and content; an unmapped
    page of an area is mapped too, to some frame with the flags of the area; no two of
    these pages share a frame, no address of the lower half outside the areas is mapped,
    and the parent keeps its translations and its data.  The child's stack holds the parent's trap frame with rax = 0, below it the
    entry [fork_ret_entry].  The child is first in the process list and last in the
    ready queue, and the invariant of the processes and the scheduler holds again. *)
Theorem sys_fork_forks s bs qs ps pp sm areas regs name :
  heads_ok proc_list ready_queue → fork_ready s bs qs ps pp sm areas regs → cstring (p_name pp) name →
  wp (sys_fork HHDM_OFFSET kheap_list junk proc_list ready_queue fork_ret_entry) s (λ pid s', pid = next_pid s ∧ ∃ child dst dm pname,
    pcbs s !! child = None ∧ (∃ bs', procs_ok HHDM_OFFSET kheap_list proc_list ready_queue s' bs' (qs ++ [child]) (child :: ps))
    ∧ cstring pname (take 32 name)
    ∧ let top := kn_kstack_ptr (env s) + PAGE_SIZE + KSTACK_SIZE in
      kn_kstack_ptr (env s') = top ∧ pcbs s' = <[child := child_pcb s pp top dst pname]> (pcbs s)
    ∧ words_at (kn_pg (env s')) (top - sizeof_trap_frame - 8) (child_words regs)
    ∧ vm_mms (kn_vmm (env s')) !! dst = Some dm ∧ spaces_forked (kn_pg (env s)) (kn_pg (env s')) sm areas dm).
Proof.
  intros Hh [Hok Hmax Hpar Hf Hroom Hfr Hroot Hpriv Hsh Hst [Hl Hregs] Hbelow] Hname. pose proof Hok as [H1 H2 H3 _ _ _ _].
  cbv zeta in Hst. pose proof Hst as (P1 & P2 & P3). set (ptr := kn_kstack_ptr (env s)) in *. destruct (proc_name_ok _ _ Hname) as (n & En & Hcn & _).
  unfold sys_fork. apply wp_bind, wp_gets.
  eapply wp_bind_mono; [apply (alloc_new_pcb_ok HHDM_OFFSET kheap_list s bs H2), (roomy_fits _ _ _ Hroom); unfold fork_bytes; change (ALIGN_UP sizeof_pcb 8) with 272; lia|].
  cbn beta. intros child s1 (v1 & bs1 & Hpm & Hc0 & ->). pose proof (made_forkable s bs child v1 bs1 (p_mm pp) sm areas Hf Hroom Hpm) as Hf1.
  pose proof (pm_pages _ _ _ _ _ _ _ Hpm) as Epg. pose proof (pm_heap _ _ _ _ _ _ _ Hpm) as Hheap. fold ptr. set (sb := pcb_base s child).
  assert (∀ q, is_Some (pcbs s !! q) → q ≠ child) as Hnew by (intros q; by eapply made_fresh).
  assert (current_proc s ≠ child) as Hne by (apply Hnew; by exists pp).
  apply wp_bind. eapply (wp_get_other sb child _ v1 ptr _ pp); [done|exact Hpar|]. apply wp_bind, wp_upd.
  rewrite (proj2 (Z.eqb_neq child 0) Hc0). apply wp_bind. eapply wp_name; [exact En|]. apply wp_bind, wp_upd.
  apply wp_bind, wp_vm. eapply wp_mono.
  { apply (mm_alloc_ok HHDM_OFFSET kheap_list v1 bs1 Hheap); [apply Hf1|]. intros He. pose proof (fk_frames _ _ _ _ _ _ _ Hf1) as Hb.
    rewrite He, size_empty in Hb. pose proof (total_pages_nonneg areas (fk_areas _ _ _ _ _ _ _ Hf)). lia. }
  cbn beta. intros dst v2 (bs2 & k0 & Hm). apply wp_bind, wp_upd, wp_bind, wp_vm.
  eapply wp_mono; [by eapply mm_copy_ok|]. cbn beta. intros ok v3 (-> & bs3 & dm & ys & Hcp). cbn [negb].
  pose proof (copied_space HHDM_OFFSET kheap_list _ _ _ _ _ _ _ _ _ _ _ _ _ Hf1 Hm Hcp) as Hc. clear Hm Hcp.
  pose proof (ha_pages _ _ _ _ (proj1 Hheap) : pt_wf (vm_pg v1) (kernel_pml4 (vm_pg v1))) as Hkr.
  change (kn_pg (env s)) with (vm_pg (kn_vmm (env s))) in *. rewrite <- Epg in *. unfold free_frames in Hfr. rewrite <- Epg in Hfr.
  pose proof (mo_wf _ _ _ _ _ _ _ (fk_mm _ _ _ _ _ _ _ Hf1)) as Hwfs.
  pose proof (copied_stack_room v1 v3 bs1 bs3 sm areas dst dm Hkr Hc ptr _ Hroot Hwfs Hpriv Hsh Hst Hfr) as Hsr.
  pose proof (copied_words v1 v3 bs1 bs3 sm areas dst dm Hkr Hc _ _ Hregs) as Hregs3.
  pose proof (sc_heap _ _ _ _ _ _ _ _ _ _ Hc) as Hheap3. pose proof (ha_pages _ _ _ _ (proj1 Hheap3) : pt_wf (vm_pg v3) (kernel_pml4 (vm_pg v3))) as Hkr3.
  apply wp_bind, wp_stack. eapply wp_mono; [by apply (new_stack HHDM_OFFSET junk)|].
  cbn beta. intros top k (-> & Etop & ks & kt & Hlk & Hr & Hkt & Hsp). rewrite Etop. set (top := ptr + PAGE_SIZE + KSTACK_SIZE) in *.
  rewrite (proj2 (Z.eqb_neq top 0) (proj1 (stack_top_page ptr (conj P1 P2)))). apply wp_bind. eapply wp_mono.
  { eapply (fork_stack_ok sb child _ v3 (ks_pg k) ptr ks kt); done || (split; done) || exact Hregs3. }
  cbn beta. intros _ s2 (p3 & -> & Hw & Hs3 & Hctx). fold top.
  set (c := forked_pcb _ _). set (v4 := set_pg (ks_pg k) v3). set (v5 := set_pg p3 v4).
  assert (kheap_ok (KernelPages0 := kernel_pages HHDM_OFFSET) kheap_list (vm_kheap v5) bs3) as Hh5.
  { apply (heap_written HHDM_OFFSET kheap_list v4 bs3 (top - PAGE_SIZE) kt p3); [|done|done]. by apply (heap_range _ _ v3 bs3 (ptr + PAGE_SIZE) kstack_flags ks). }
  assert (world_kept HHDM_OFFSET kheap_list proc_list ready_queue s bs qs ps child v5 bs3) as Hworld.
  { by apply (forked_world s bs qs ps child v1 bs1 v3 bs3 sm areas dst dm). }
  eapply wp_bind_mono; [apply (spawn_enqueue HHDM_OFFSET kheap_list junk proc_list ready_queue s bs qs ps child c v5 bs3 top); try done|].
  { intros _. change (is_Some (vm_mms v3 !! dst)). exists dm. apply Hc. }
  cbn beta. intros _ s' (Hok' & l' & ->). apply wp_bind, wp_get, wp_ret. split; [done|]. exists child, dst, dm, (zinsert PROCNAME_LEN 0 n).
  split; [apply eq_None_not_Some; intros Hs; by apply (Hnew child Hs)|]. split; [by exists bs3|]. split; [done|]. split; [done|].
  split; [done|]. split; [exact Hctx|]. split; [apply Hc|].
  eapply copied_forked; [exact Hf1|done|exact Hc|]. by eapply stack_data_kept.
Qed.

(** * A process that can fork *)

(** Words of a kernel stack while a space is made and given its first area. *)
Lemma space_words (v v1 v2 : vmm_st A) bs bs1 dst k start end_ flags vma ks bs2 va ws :
  pt_wf (vm_pg v) (kernel_pml4 (vm_pg v)) → space_made HHDM_OFFSET kheap_list v bs v1 bs1 dst k →
  area_added HHDM_OFFSET kheap_list v1 bs1 dst (new_mm HHDM_OFFSET k) [] start end_ flags v2 vma ks bs2 →
  words_at (vm_pg v) va ws → words_at (vm_pg v2) va ws.
Proof.
  intros Hkr Hm [_ _ _ _ _ _ _ V7 (P1 & P2 & P3 & P4)] [Hrg Hw]. constructor; [done|]. intros j w Hj. destruct (Hw j w Hj) as (e & H1 & H2 & H3 & H4). exists e.
  destruct (sm_regs _ _ _ _ _ _ _ _ Hm) as [R1 _], (rm_regs _ _ _ _ _ _ _ V7) as [R2 _]. pose proof (sm_kept _ _ _ _ _ _ _ _ Hm _ Hkr) as Hk1.
  pose proof (rm_other _ _ _ _ _ _ _ V7 (kernel_pml4 (vm_pg v)) ltac:(lia) ltac:(lia) (sk_wf _ _ _ _ _ Hk1) (sk_private _ _ _ _ _ Hk1)) as Hk2.
  pose proof (sm_free _ _ _ _ _ _ _ _ Hm) as Hf1. pose proof (sm_frame _ _ _ _ _ _ _ _ Hm) as Hk0. unfold free_frames in *.
  destruct H2 as [Hb Hn]. assert (frame_of e ≠ k) as Hne by by intros E; rewrite E in Hn.
  assert (fa_busy (pg_alloc (vm_pg v1)) (frame_of e)) as Hb1 by (split; [by rewrite (sm_frames _ _ _ _ _ _ _ _ Hm)|rewrite Hf1; set_solver]).
  assert (vidx (OFFSET (va + 8 * Z.of_nat j) / 8)) as Hi.
  { unfold vidx, OFFSET. change 0xFFF with (Z.ones 12). rewrite Z.land_ones by lia. Z.to_euclidean_division_equations; lia. }
  rewrite R2, R1. split; [by rewrite (sk_trans _ _ _ _ _ Hk2), (sk_trans _ _ _ _ _ Hk1)|]. split; [|split].
  - destruct Hb1 as [Hb1 Hn1]. split; [by rewrite (rm_frames _ _ _ _ _ _ _ V7)|]. intros Hc. by apply Hn1, (rm_free _ _ _ _ _ _ _ V7).
  - rewrite (space_kept_table _ _ _ _ _ _ Hk2). by rewrite (space_kept_table _ _ _ _ _ _ Hk1).
  - rewrite <- H4. unfold word_at. f_equal. rewrite (rm_data _ _ _ _ _ _ _ V7); [|done| |done].
    + apply (sm_mem _ _ _ _ _ _ _ _ Hm). intros i Hvi Heq. pose proof (fa_range _ _ (wf_alloc _ _ _ Hkr) Hk0).
      apply (slot_inj _ _ (wf_hhdm _ _ _ Hkr)) in Heq as [Heq _]; [done|lia|lia|done|done].
    + intros [?|?]%(sm_table _ _ _ _ _ _ _ _ Hm); done.
Qed.

(** A space with one page at 0x10000. *)
Definition make_space : M (vmm_st A) Z :=
  mm ← mm_alloc HHDM_OFFSET kheap_list;
  ok ← mm_map_range HHDM_OFFSET kheap_list mm 0x10000 PAGE_SIZE 3;
  mret mm.

(** The same, and a stack with the trap frame [regs] at its top. *)
Definition make_parent (ptr : Z) (regs : list Z) : M (vmm_st A) Z :=
  top ← zoom (λ v, KstackSt (vm_pg v) ptr) (λ k v, set_pg (ks_pg k) v) (kstack_init HHDM_OFFSET KSTACK_SIZE);
  on_pg (store_words HHDM_OFFSET (top - PAGE_SIZE + 8 * 490) regs);;
  make_space.

Definition first_area (mm : Z) : vma_struct := Vma mm 0x10000 0x11000 3.

Record parent_made (v : vmm_st A) (bs : list block) (tf : Z) (regs : list Z) v' (bs' : list block) (mm vma : Z) (sm : mm_struct) : Prop := {
  pa_space : forkable HHDM_OFFSET kheap_list v' bs' mm sm [(vma, first_area mm)];
  pa_roomy : roomy (fork_bytes [(vma, first_area mm)]) bs';
  pa_kept : kept_blocks bs bs';
  pa_links a : (in_block bs a ∨ ¬ KERNEL_HEAP_BASE ≤ a < KERNEL_MMIO_BASE) → same_links a (vm_links v) (vm_links v');
  pa_mms a : is_Some (vm_mms v !! a) → is_Some (vm_mms v' !! a);
  pa_frames : (21 ≤ size (free_frames v'))%nat;
  pa_private : private (vm_pg v') (mm_pml4 sm) (kernel_pml4 (vm_pg v'));
  pa_shared : shares HHDM_OFFSET (vm_pg v') (mm_pml4 sm) STACK_IDX;
  pa_regs : words_at (vm_pg v') tf regs;
  pa_root : mm_pml4 sm = pa2kva HHDM_OFFSET (mm_pml4_pa sm)
}.

Lemma make_space_ok v bs tf regs :
  kheap_ok (KernelPages0 := kernel_pages HHDM_OFFSET) kheap_list (vm_kheap v) bs → roomy 820 bs → (26 ≤ size (free_frames v))%nat →
  is_Some (walk HHDM_OFFSET (pg_mem (vm_pg v)) (kernel_pml4 (vm_pg v)) [STACK_IDX]) → words_at (vm_pg v) tf regs →
  wp make_space v (λ mm v', ∃ bs' sm vma, parent_made v bs tf regs v' bs' mm vma sm).
Proof.
  intros Hh Hroomy Hfr [t Ht] Hregs. pose proof (ha_pages _ _ _ _ (proj1 Hh) : pt_wf (vm_pg v) (kernel_pml4 (vm_pg v))) as Hkr. unfold make_space.
  eapply wp_bind_mono; [apply (mm_alloc_ok HHDM_OFFSET kheap_list v bs Hh)|].
  { apply (roomy_fits _ _ _ Hroomy). change (ALIGN_UP sizeof_mm 8) with 104. lia. }
  { intros He. rewrite He, size_empty in Hfr. lia. }
  cbn beta. intros mm v1 (bs1 & k & Hm). pose proof Hm as [M1 M2 M3 M4 [M5 M5'] M6 _ M7 M8 M9 M10 M11 _ M12 _ _ M13].
  assert (roomy 684 bs1) as Hr1 by (apply (M7 820); [done|exact Hroomy]).
  assert (size (free_frames v1) + 1 = size (free_frames v))%nat as Hsz.
  { rewrite M9, size_difference, size_singleton by by apply singleton_subseteq_l. lia. }
  eapply wp_bind_mono; [apply (mm_map_range_ok HHDM_OFFSET kheap_list v1 bs1 mm (new_mm HHDM_OFFSET k) [] 0x10000 PAGE_SIZE 3 M4)|].
  { apply (roomy_fits _ _ _ Hr1). change (ALIGN_UP sizeof_vma 8) with 48. lia. }
  { lia. } { done. } { done. } { change (4 * _) with 4. lia. }
  change (ALIGN_DOWN 0x10000 PAGE_SIZE) with 0x10000. change (ALIGN_UP (0x10000 + PAGE_SIZE) PAGE_SIZE) with 0x11000.
  cbn beta. intros r v2 (-> & vma & ks & bs2 & Ha). apply wp_ret. pose proof (aa_pages _ _ _ _ _ _ _ _ _ _ _ _ _ _ Ha) as [En _].
  pose proof (aa_obj _ _ _ _ _ _ _ _ _ _ _ _ _ _ Ha) as [_ _ _ _ Ho5 Ho6 Ho7]. pose proof (aa_range _ _ _ _ _ _ _ _ _ _ _ _ _ _ Ha) as V7.
  assert (zlen ks = 1) as Ez by (unfold PAGE_SIZE in En; lia). destruct M11 as [R1 R2], (rm_regs _ _ _ _ _ _ _ V7) as [R3 R4].
  pose proof (M12 _ Hkr) as Hk1. assert (private (vm_pg v1) (mm_pml4 (new_mm HHDM_OFFSET k)) (kernel_pml4 (vm_pg v1))) as Hpr1 by (rewrite R1; apply Hk1).
  assert (space_kept HHDM_OFFSET (vm_pg v1) (vm_pg v2) (mm_pml4 (new_mm HHDM_OFFSET k)) (kernel_pml4 (vm_pg v))) as Hk2.
  { apply (rm_other _ _ _ _ _ _ _ V7); [lia|rewrite Ez; unfold PAGE_SIZE; lia|apply Hk1|apply Hk1]. }
  destruct (area_added_heap HHDM_OFFSET kheap_list _ _ _ _ _ _ _ _ _ _ _ _ M4 (or_intror Hpr1) Ha) as [Hh2 Hnt].
  pose proof (aa_spent _ _ _ _ _ _ _ _ _ _ _ _ _ _ Ha 684 ltac:(done) Hr1) as Hr2. change (684 - _) with 604 in Hr2.
  assert (21 ≤ size (free_frames v2))%nat as Hfr2 by (pose proof (rm_cost _ _ _ _ _ _ _ V7); unfold free_frames in *; lia).
  exists bs2, (with_map_count (i32 (map_count (new_mm HHDM_OFFSET k) + 1)) (new_mm HHDM_OFFSET k)), vma. constructor.
  - apply (first_area_forkable HHDM_OFFSET kheap_list v1 bs1 mm (new_mm HHDM_OFFSET k) _ _ _ v2 vma ks bs2 bs2 M4); try done; [| |lia].
    + eapply kept_in_block; [exact Ho7|]. apply (mo_nodes _ _ _ _ _ _ _ M4). by left.
    + split; [apply (roomy_fits _ _ _ Hr2); change (ALIGN_UP sizeof_mm 8) with 104; lia|].
      pose proof (roomy_room _ bs2 (kheap_sizes HHDM_OFFSET kheap_list _ _ Hh2) Hr2) as Hrr. change (604 / _) with 7 in Hrr. lia.
  - destruct Hr2 as (b & Hb & Hf & Hs). exists b. split; [done|]. split; [done|]. unfold fork_bytes. simpl. lia.
  - intros b Hb Hf. apply Ho7; [by apply M6|done].
  - intros a Ha'. rewrite (aa_links _ _ _ _ _ _ _ _ _ _ _ _ _ _ Ha).
    assert (in_block bs1 (vma_list mm)) as Hvl by (apply (mo_nodes _ _ _ _ _ _ _ M4); by left).
    assert (a ≠ vma_list mm ∧ a ≠ vma) as [N1 N2].
    { destruct Ha' as [Hb|Ho]; split; intros ->; [done|by apply Ho5; eapply kept_in_block| |].
      - apply Ho. apply (in_block_heap HHDM_OFFSET kheap_list (vm_kheap v1) bs1); [apply M4|done].
      - apply Ho. by apply (in_block_heap HHDM_OFFSET kheap_list (vm_kheap v2) bs2). }
    destruct (M3 a N1) as [E1 E2]. destruct (same_links_inserted a (vm_links v1) vma (last_or (vma_list mm) []) (vma_list mm) N2 N1 N1) as [E3 E4].
    split; congruence.
  - intros a Ha'. rewrite (aa_mms _ _ _ _ _ _ _ _ _ _ _ _ _ _ Ha), M1. rewrite !lookup_insert_is_Some'. tauto.
  - exact Hfr2.
  - rewrite R3, R1. apply Hk2.
  - exists t. rewrite R3, R1, (sk_walk _ _ _ _ _ Hk2), (sk_walk _ _ _ _ _ Hk1) by (done || apply Forall_singleton, idx_range || simpl; lia). split; [|done].
    apply (rm_old _ _ _ _ _ _ _ V7); [apply Forall_singleton, idx_range|simpl; lia|]. rewrite <- Ht. apply (M13 STACK_IDX). by vm_compute.
  - by eapply space_words.
  - simpl. symmetry. apply (pa2kva_frame _ _ (wf_hhdm _ _ _ Hkr)). pose proof (fa_range _ _ (wf_alloc _ _ _ Hkr) M8). lia.
Qed.

Lemma make_parent_ok v bs ptr regs :
  kheap_ok (KernelPages0 := kernel_pages HHDM_OFFSET) kheap_list (vm_kheap v) bs → roomy 820 bs → stack_room HHDM_OFFSET (vm_pg v) ptr →
  (42 ≤ size (free_frames v))%nat → length regs = tf_words →
  wp (make_parent ptr regs) v (λ mm v', ∃ bs' sm vma, parent_made v bs (ptr + PAGE_SIZE + KSTACK_SIZE - sizeof_trap_frame) regs v' bs' mm vma sm).
Proof.
  intros Hh Hroomy Hst Hfr Hl. pose proof Hst as [(P1 & P2 & P3) _ _]. unfold make_parent.
  pose proof (ha_pages _ _ _ _ (proj1 Hh) : pt_wf (vm_pg v) (kernel_pml4 (vm_pg v))) as Hkr.
  apply wp_bind, wp_zoom. eapply wp_mono; [by apply (new_stack HHDM_OFFSET junk)|].
  cbn beta. intros top k (-> & _ & ks & kt & Hlk & Hr & Hkt & Hsp). set (top := ptr + PAGE_SIZE + KSTACK_SIZE) in *.
  assert (zlen regs = 22) as Ez by (unfold zlen; by rewrite Hl).
  apply wp_bind. unfold on_pg. apply wp_zoom.
  eapply wp_mono; [apply (store_words_ok HHDM_OFFSET junk (top - PAGE_SIZE) kt regs 490); [exact Hsp|lia|lia]|].
  cbn beta. intros _ p1 [Hs1 [Hw1 Hm1]]. set (v1 := set_pg p1 _).
  assert (kheap_ok (KernelPages0 := kernel_pages HHDM_OFFSET) kheap_list (vm_kheap v1) bs) as Hh1.
  { apply (heap_written HHDM_OFFSET kheap_list (set_pg (ks_pg k) v) bs (top - PAGE_SIZE) kt p1); [|done|done].
    by apply (heap_range _ _ v bs (ptr + PAGE_SIZE) kstack_flags ks). }
  assert (words_at (vm_pg v1) (top - PAGE_SIZE + 8 * 490) regs) as Hregs.
  { apply (stored_words_at HHDM_OFFSET junk p1 _ kt 490); [done|lia|lia|]. intros j w Hj. pose proof (lookup_lt_Some _ _ _ Hj). change tf_words with 22%nat in Hl.
    rewrite Hm1 by (unfold vidx; lia). rewrite decide_True by lia. by replace (Z.to_nat (490 + Z.of_nat j - 490)) with j by lia. }
  assert (26 ≤ size (free_frames v1))%nat as Hfr1.
  { pose proof (rm_cost _ _ _ _ _ _ _ Hr). change (free_frames v1) with (fa_free_set (pg_alloc p1)).
    assert (pg_alloc p1 = pg_alloc (ks_pg k)) as -> by exact (fw_alloc _ _ _ _ Hw1).
    unfold free_frames in *. lia. }
  replace (top - sizeof_trap_frame) with (top - PAGE_SIZE + 8 * 490) by (unfold PAGE_SIZE, sizeof_trap_frame; lia).
  assert (is_Some (walk HHDM_OFFSET (pg_mem (vm_pg v1)) (kernel_pml4 (vm_pg v1)) [STACK_IDX])) as Ht.
  { destruct (sp_shared _ _ _ _ Hs1) as (t & _ & Ht). by exists t. }
  eapply wp_mono; [apply (make_space_ok v1 bs (top - PAGE_SIZE + 8 * 490) regs); done|]. cbn beta. intros mm v' (bs' & sm & vma & [Q1 Q2 Q3 Q4 Q5 Q6 Q7 Q8 Q9 Q10]).
  by exists bs', sm, vma.
Qed.

(** The invariant when the current process gets other fields and the environment keeps
    what the invariant is about. *)
Lemma procs_ok_env s bs qs ps c c' e bs' :
  heads_ok proc_list ready_queue → procs_ok HHDM_OFFSET kheap_list proc_list ready_queue s bs qs ps → pcbs s !! current_proc s = Some c →
  p_pid c' = p_pid c → p_time_slice c' = p_time_slice c → is_Some (vm_mms (kn_vmm e) !! p_mm c') →
  kheap_ok (KernelPages0 := kernel_pages HHDM_OFFSET) kheap_list (vm_kheap (kn_vmm e)) bs' → kept_blocks bs bs' →
  (∀ a, (in_block bs a ∨ ¬ KERNEL_HEAP_BASE ≤ a < KERNEL_MMIO_BASE) → same_links a (vm_links (kn_vmm (env s))) (vm_links (kn_vmm e))) →
  (∀ a, is_Some (vm_mms (kn_vmm (env s)) !! a) → is_Some (vm_mms (kn_vmm e) !! a)) →
  procs_ok HHDM_OFFSET kheap_list proc_list ready_queue (set_pcbs (<[current_proc s := c']> (pcbs s)) (set_env e s)) bs' qs ps.
Proof.
  intros Hh Hok Hc Epid Esl Hmm Hheap Hk Hl Hms. pose proof Hok as [[S1 S2 S3 S4 S5 S6] H2 H3 H4 H5 H6 H7].
  assert (∀ a, a ∈ list_nodes proc_list ready_queue qs ps → same_links a (vm_links (kn_vmm (env s))) (vm_links (kn_vmm e))) as Hn.
  { intros a Ha. apply Hl. destruct (list_node_cases HHDM_OFFSET kheap_list proc_list ready_queue s bs qs ps a Hok Ha) as [Hc'|Hb]; [right; by apply Hh|by left]. }
  assert (∀ x d, <[current_proc s := c']> (pcbs s) !! x = Some d → ∃ d0, pcbs s !! x = Some d0 ∧ p_pid d = p_pid d0 ∧ p_time_slice d = p_time_slice d0 ∧ (d = d0 ∨ d = c')) as Hold.
  { intros x d [[<- <-]|[_ Hd]]%lookup_insert_Some; [exists c|exists d]; auto. }
  assert (∀ x, is_Some (<[current_proc s := c']> (pcbs s) !! x) ↔ is_Some (pcbs s !! x)) as Hdom.
  { intros x. rewrite lookup_insert_is_Some'. split; [intros [<-|?]; [by exists c|done]|by right]. }
  constructor; cbn [env pcbs set_pcbs set_env current_proc idle_proc next_pid].
  - constructor; cbn [env pcbs set_pcbs set_env current_proc idle_proc]; try done.
    + eapply ring_ext; [|exact S1]. intros a Ha. apply Hn. unfold list_nodes. set_solver.
    + split; [apply S3|apply Hdom, S3].
    + split; [apply S4|apply Hdom, S4].
    + intros x d Hd. destruct (Hold x d Hd) as (d0 & Hd0 & _ & E2 & E3). destruct (S5 x d0 Hd0) as [O1 O2 O3 O4 O5].
      constructor; try done; [|by rewrite E2]. simpl. rewrite lookup_fmap, fmap_is_Some. destruct E3 as [->| ->]; [|done].
      intros Hm. specialize (O4 Hm). simpl in O4. rewrite lookup_fmap, fmap_is_Some in O4. by apply Hms.
    + intros x Hx. destruct (S6 x Hx) as (d & Hd & Hst). exists d. split; [|done]. rewrite lookup_insert_ne; [done|]. intros <-. by apply S3.
  - exact Hheap.
  - intros x Hx%Hdom. eapply pcb_block_kept; [done|by apply H3].
  - eapply ring_ext; [|exact H4]. intros a Ha. apply Hn. unfold list_nodes. set_solver.
  - intros x Hx. by apply Hdom, H5.
  - intros x q d d' Hd Hd' E. destruct (Hold x d Hd) as (d0 & Hd0 & E0 & _), (Hold q d' Hd') as (d1 & Hd1 & E1 & _).
    apply (H6 x q d0 d1); [done|done|congruence].
  - intros x d Hd. destruct (Hold x d Hd) as (d0 & Hd0 & E0 & _). rewrite E0. by eapply H7.
Qed.

(** The current process as the parent. *)
Lemma parent_ready s bs qs ps c v' ptr bs' mm vma sm tf regs :
  heads_ok proc_list ready_queue → procs_ok HHDM_OFFSET kheap_list proc_list ready_queue s bs qs ps → pcbs s !! current_proc s = Some c →
  next_pid s < 2 ^ 31 - 1 → parent_made (kn_vmm (env s)) bs tf regs v' bs' mm vma sm → length regs = tf_words →
  KERNEL_STACK_BASE ≤ ptr ∧ ptr + PAGE_SIZE + KSTACK_SIZE ≤ KERNEL_STACK_BASE + 2 ^ 39 ∧ ptr mod PAGE_SIZE = 0 → tf + sizeof_trap_frame ≤ ptr →
  let c' := with_trap_frame tf (with_mm mm c) in
  fork_ready (set_pcbs (<[current_proc s := c']> (pcbs s)) (set_env (load_cr3 (mm_pml4_pa sm) (Kern v' ptr)) s)) bs' qs ps c' sm
    [(vma, first_area mm)] regs.
Proof.
  intros Hh Hok Hc Hpid [Q1 Q2 Q3 Q4 Q5 Q6 Q7 Q8 [Q9 Q9'] Q10] Hl Hptr Htf c'. set (e := load_cr3 _ _).
  pose proof (fk_mm _ _ _ _ _ _ _ Q1) as Hmm. pose proof (mo_heap _ _ _ _ _ _ _ Hmm) as Hheap.
  pose proof (heap_load_cr3 HHDM_OFFSET kheap_list (mm_pml4_pa sm) (Kern v' ptr) bs' Hheap) as Hheap'.
  constructor; try done.
  - apply (procs_ok_env s bs qs ps c c'); try done. exists sm. apply Hmm.
  - apply lookup_insert_eq.
  - destruct Q1 as [[_ F2 F3 [W1 W2 W3 W4] F5 F6] G2 G3 G4 G5 G6 G7]. constructor; try done.
  - change (17 + 4 * 1 ≤ Z.of_nat (size (free_frames v'))). lia.
Qed.
End fork.

(** * A witness: the idle process of the Spawn examples, given a space, forks *)

Section example.
Let H := KERNEL_HHDM_BASE.
Let junk : Z → Z := λ _, 0.
Definition fork_ret_example : Z := 0xFFFFFFFF80003000.
Definition regs_example : list Z := seqZ 1 22.
Definition parent_ptr : Z := KERNEL_STACK_BASE + 5 * PAGE_SIZE.

Lemma parent_stack : let ptr := parent_ptr in
  KERNEL_STACK_BASE ≤ ptr ∧ ptr + PAGE_SIZE + KSTACK_SIZE ≤ KERNEL_STACK_BASE + 2 ^ 39 ∧ ptr mod PAGE_SIZE = 0.
Proof. unfold parent_ptr, KERNEL_STACK_BASE, PAGE_SIZE, KSTACK_SIZE. split; [lia|]. split; [lia|done]. Qed.

Lemma parent_below : KERNEL_STACK_BASE + PAGE_SIZE + KSTACK_SIZE - sizeof_trap_frame + sizeof_trap_frame ≤ parent_ptr.
Proof. done. Qed.

(** The parent: it is the current process, in a space of its own with one page. *)
Lemma parent_example :
  ∃ s bs pp mm sm vma, fork_ready H list_example junk proc_list_example ready_example s bs [] [current_proc s] pp sm [(vma, first_area mm)] regs_example
    ∧ cstring (p_name pp) (chars "idle") ∧ next_pid s = 1 ∧ kn_kstack_ptr (env s) = parent_ptr.
Proof.
  destruct idle_example as (s & bs & Hok & Hpid & Hroom & Hk & Hpages & c & Hc & Hname). destruct kern_boot_room as [B1 B2].
  pose proof (room_kept H (kn_pg kern_boot) _ _ Hpages B1 B2 first_stack) as Hst. pose proof Hpages as (_ & _ & _ & Hfs).
  assert (42 ≤ size (free_frames (kn_vmm (env s))))%nat as Hfr by (unfold free_frames; change (vm_pg (kn_vmm (env s))) with (kn_pg (env s)); rewrite Hfs; exact B2).
  destruct (wp_inv _ _ _ (make_parent_ok H list_example junk (kn_vmm (env s)) bs KERNEL_STACK_BASE regs_example
    (pr_heap _ _ _ _ _ _ _ _ Hok) (roomy_least 820 3624 bs eq_refl Hroom) Hst Hfr eq_refl)) as (mm & v' & _ & bs' & sm & vma & Hp).
  pose proof (parent_ready H list_example junk proc_list_example ready_example s bs [] [current_proc s] c v' parent_ptr bs' mm vma sm _ regs_example
    heads_example Hok Hc (second_pid _ Hpid) Hp eq_refl parent_stack parent_below) as Hready.
  eexists _, bs', _, mm, sm, vma. split; [exact Hready|]. split; [exact Hname|]. split; [exact Hpid|reflexivity].
Qed.

Lemma sys_fork_forks_witness :
  ∃ s s' child pid, sys_fork H list_example junk proc_list_example ready_example fork_ret_example s = Ok (pid, s') ∧ pid = 1
    ∧ (∃ bs', procs_ok H list_example proc_list_example ready_example s' bs' [child] [child; current_proc s])
    ∧ words_at H junk (kn_pg (env s')) (parent_ptr + PAGE_SIZE + KSTACK_SIZE - sizeof_trap_frame - 8) (child_words fork_ret_example regs_example).
Proof.
  destruct parent_example as (s & bs & pp & mm & sm & vma & Hr & Hname & Hpid & Hk).
  destruct (wp_inv _ _ _ (sys_fork_forks H list_example junk proc_list_example ready_example fork_ret_example s bs [] [current_proc s] pp sm
    [(vma, first_area mm)] regs_example (chars "idle") heads_example Hr Hname))
    as (pid & s' & E & -> & child & dst & dm & pname & _ & Hok & _ & _ & _ & Hw & _).
  exists s, s', child, (next_pid s). split; [exact E|]. split; [exact Hpid|]. split; [exact Hok|]. rewrite Hk in Hw. exact Hw.
Defined.
End example.
