(* ===== verification/Userpage.v ===== *)
(** Userpage: the bytes of a run of user pages, written through the address space the
    processor is in: what [memset] and [memcpy] of [load_elf] do to them. *)
From S2P Require Import Prelude Layout Frames Pmm Paging Range Vaccess Vmm Vmmcopy.

(** * Bytes of a word *)

Lemma byte_of_bit w i n : 0 ≤ n < 8 → 0 ≤ i → Z.testbit (byte_of w i) n = Z.testbit w (n + 8 * i).
Proof.
  intros Hn Hi. unfold byte_of. change 0xFF with (Z.ones 8). rewrite Z.land_spec, Z.ones_spec_low, andb_true_r, Z.shiftr_spec by lia. done.
Qed.

Lemma byte_of_bound w i : 0 ≤ byte_of w i < 2 ^ 8.
Proof. unfold byte_of. change 0xFF with (Z.ones 8). rewrite Z.land_ones by lia. by apply Z.mod_pos_bound. Qed.

Lemma put_byte_bit w i b n :
  0 ≤ b < 2 ^ 8 → 0 ≤ i → 0 ≤ n → Z.testbit (put_byte w i b) n = if decide (8 * i ≤ n < 8 * i + 8) then Z.testbit b (n - 8 * i) else Z.testbit w n.
Proof.
  intros Hb Hi Hn. unfold put_byte. change 0xFF with (Z.ones 8).
  rewrite Z.lor_spec, Z.land_spec, Z.lnot_spec, !Z.shiftl_spec by lia. rewrite Z.testbit_ones by lia.
  case_decide as H.
  - rewrite (proj2 (Z.leb_le 0 (n - 8 * i))), (proj2 (Z.ltb_lt (n - 8 * i) 8)) by lia. simpl. by rewrite andb_false_r.
  - assert (Z.testbit b (n - 8 * i) = false) as ->.
    { destruct (decide (n < 8 * i)); [apply Z.testbit_neg_r; lia|]. apply (testbit_small b 8); lia. }
    rewrite orb_false_r. assert ((0 <=? n - 8 * i) && (n - 8 * i <? 8) = false) as ->; [|by rewrite andb_true_r].
    destruct (Z.leb_spec 0 (n - 8 * i)), (Z.ltb_spec (n - 8 * i) 8); try done. lia.
Qed.

Lemma byte_of_put w i j b :
  0 ≤ b < 2 ^ 8 → 0 ≤ i < 8 → 0 ≤ j < 8 → byte_of (put_byte w i b) j = if decide (j = i) then b else byte_of w j.
Proof.
  intros Hb Hi Hj. case_decide as E.
  - subst j. apply (bits_eq_below 8); [lia|apply byte_of_bound|done|]. intros n Hn.
    rewrite byte_of_bit, put_byte_bit, decide_True by lia. f_equal. lia.
  - apply (bits_eq_below 8); [lia|apply byte_of_bound|apply byte_of_bound|]. intros n Hn.
    rewrite !byte_of_bit, put_byte_bit, decide_False by lia. done.
Qed.

Section pages.
  Context {A : Type} `{FA : FrameAlloc A}.
  Context (HHDM_OFFSET : Z) (junk : Z → Z).
  Abbreviation kva := (kva HHDM_OFFSET).
  Abbreviation translate := (translate HHDM_OFFSET).
  Abbreviation pt_wf := (pt_wf HHDM_OFFSET).
  Abbreviation is_table := (is_table HHDM_OFFSET).
  Abbreviation cr3_root := (cr3_root HHDM_OFFSET).
  Abbreviation frames_written := (frames_written HHDM_OFFSET).
  Implicit Types p : pg_st A.

(** Byte [o] of frame [k]. *)
Definition frame_byte p (k o : Z) : Z := byte_of (word_at junk p (slot (kva k) (o / 8))) (o mod 8).

(** What a load of one byte at [va] in the space [root] answers. *)
Definition user_byte p (root va : Z) : option Z := (λ e, frame_byte p (frame_of e) (OFFSET va)) <$> translate (pg_mem p) root va.

Lemma offset_mod va : OFFSET va = va mod PAGE_SIZE.
Proof. unfold OFFSET. change 0xFFF with (Z.ones 12). by rewrite Z.land_ones. Qed.

Lemma frame_byte_same p p' k o :
  (∀ i, vidx i → pg_mem p' !! slot (kva k) i = pg_mem p !! slot (kva k) i) → 0 ≤ o < PAGE_SIZE → frame_byte p' k o = frame_byte p k o.
Proof.
  intros H Ho. unfold frame_byte, word_at. rewrite H; [done|]. unfold vidx, PAGE_SIZE in *. Z.to_euclidean_division_equations; lia.
Qed.

(** * A run of data pages *)

Section run.
  Context (root start flags : Z) (ks : list Z).

(** The pages from [start] on are the frames [ks]: data, each its own. *)
Record run_mapped p : Prop := {
  um_wf : pt_wf p root;
  um_range : 0 ≤ start ∧ start mod PAGE_SIZE = 0 ∧ start + zlen ks * PAGE_SIZE ≤ 2 ^ 47;
  um_nodup : NoDup ks;
  um_page j k : ks !! j = Some k → fa_busy (pg_alloc p) k ∧ ¬ is_table p root k
    ∧ translate (pg_mem p) root (start + Z.of_nat j * PAGE_SIZE) = Some (leaf_entry (k * PAGE_SIZE) flags)
}.

(** Byte [a] of the run. *)
Definition run_byte p (a : Z) : Z := frame_byte p (default 0 (ks !! Z.to_nat (a / PAGE_SIZE))) (a mod PAGE_SIZE).

Lemma run_page p a :
  run_mapped p → 0 ≤ a < zlen ks * PAGE_SIZE → ∃ k, ks !! Z.to_nat (a / PAGE_SIZE) = Some k ∧ k ∈ ks ∧ fa_busy (pg_alloc p) k
    ∧ ¬ is_table p root k ∧ translate (pg_mem p) root (start + a) = Some (leaf_entry (k * PAGE_SIZE) flags) ∧ OFFSET (start + a) = a mod PAGE_SIZE.
Proof.
  intros [H1 (H2 & H2' & H2'') H3 H4] Ha. destruct (lookup_lt_is_Some_2 ks (Z.to_nat (a / PAGE_SIZE))) as [k Hk].
  { unfold zlen, PAGE_SIZE in *. Z.to_euclidean_division_equations; lia. }
  destruct (H4 _ k Hk) as (Q1 & Q2 & Q3). exists k. split; [done|]. split; [by eapply list_elem_of_lookup_2|]. split; [done|]. split; [done|]. split.
  - rewrite <- Q3. apply translate_vpn. rewrite Z2Nat.id by (apply Z.div_pos; [lia|done]).
    unfold vpn, PAGE_SIZE in *. f_equal. Z.to_euclidean_division_equations; lia.
  - rewrite offset_mod. unfold PAGE_SIZE in *. Z.to_euclidean_division_equations; lia.
Qed.

Lemma run_user_byte p a :
  run_mapped p → 0 ≤ flags < PAGE_SIZE → 0 ≤ a < zlen ks * PAGE_SIZE → user_byte p root (start + a) = Some (run_byte p a).
Proof.
  intros Hr Hf Ha. destruct (run_page p a Hr Ha) as (k & Hk & _ & [Hb _] & _ & Ht & Ho). pose proof (fa_width _ (wf_alloc _ _ _ (um_wf _ Hr))).
  unfold user_byte, run_byte. rewrite Ht, Hk, Ho. simpl. unfold frame_of. rewrite leaf_entry_addr by lia. by rewrite Z.div_mul.
Qed.

Lemma run_written p p' : run_mapped p → frames_written ks p p' → run_mapped p'.
Proof.
  intros [H1 H2 H3 H4] Hw. destruct (frames_written_kept HHDM_OFFSET p p' root ks H1) as (K1 & _ & K3 & K4); [|done|].
  { intros k [j Hj]%list_elem_of_lookup. by apply (H4 j k). }
  constructor; [done|done|done|]. intros j k Hj. destruct (H4 j k Hj) as (Q1 & Q2 & Q3). rewrite (fs_alloc _ _ _ _ Hw), K3, K4. done.
Qed.

Lemma frames_written_refl p : frames_written ks p p.
Proof. by constructor. Qed.

Lemma frames_written_trans p p1 p2 : frames_written ks p p1 → frames_written ks p1 p2 → frames_written ks p p2.
Proof.
  intros [A1 [A2 A3] A4] [B1 [B2 B3] B4]. constructor; [congruence|split; congruence|].
  intros k j Hk Hne Hj. rewrite B4; [by apply A4|by rewrite A1|done|done].
Qed.

(** * Writing bytes *)

(** From [p] to [p'] the bytes [f] are written at the offsets of the run where it is
    defined, and nothing else. *)
Definition bytes_put (f : Z → option Z) p p' : Prop :=
  frames_written ks p p' ∧ ∀ a, 0 ≤ a < zlen ks * PAGE_SIZE → run_byte p' a = default (run_byte p a) (f a).

Lemma store_byte_run p a b :
  run_mapped p → cr3_root p = root → Z.testbit flags 1 = true → 0 ≤ flags < PAGE_SIZE → 0 ≤ a < zlen ks * PAGE_SIZE → 0 ≤ b < 2 ^ 8 →
  wp (store_byte HHDM_OFFSET junk (start + a) b) p (λ _ p', bytes_put (λ a', if decide (a' = a) then Some b else None) p p').
Proof.
  intros Hr Hc Hw Hf Ha Hb. destruct (run_page p a Hr Ha) as (k & Hk & Hin & [Hb1 Hb2] & _ & Ht & Ho).
  pose proof (wf_hhdm _ _ _ (um_wf _ Hr)) as Hh. pose proof (fa_width _ (wf_alloc _ _ _ (um_wf _ Hr))).
  set (sl := slot (kva k) (a mod PAGE_SIZE / 8)). set (w := put_byte (word_at junk p sl) (a mod PAGE_SIZE mod 8) b).
  assert (store_byte HHDM_OFFSET junk (start + a) b p = Ok (tt, set_pg_mem (<[sl := w]> (pg_mem p)) p)) as E.
  { unfold store_byte, va_word, gets, or_crash. cbv [mbind M_bind]. rewrite Hc, Ht. unfold mret, M_ret. cbv beta iota.
    assert (pte_writable (leaf_entry (k * PAGE_SIZE) flags) = true) as ->.
    { unfold pte_writable, leaf_entry, PTE_RW. rewrite land_pow2_nonzero by lia. rewrite !Z.lor_spec, Hw. by rewrite orb_true_r. }
    cbn [andb negb]. rewrite leaf_entry_addr, (pa2kva_frame _ _ Hh), Ho by lia. unfold store, modify, w.
    assert ((start + a) mod 8 = a mod PAGE_SIZE mod 8) as ->; [|done].
    destruct (um_range _ Hr) as (R1 & R2 & _). unfold PAGE_SIZE in *. Z.to_euclidean_division_equations; lia. }
  unfold wp. rewrite E. clear E.
  assert (vidx (a mod PAGE_SIZE / 8)) as Hv by (unfold vidx, PAGE_SIZE in *; Z.to_euclidean_division_equations; lia).
  split; [constructor; [done|done|]|].
  - intros k' i Hk' Hn Hi. simpl. rewrite lookup_insert_ne; [done|]. intros E. apply (slot_inj _ _ Hh) in E as [-> _]; [done|lia|lia|done|done].
  - intros a' Ha'. destruct (run_page p a' Hr Ha') as (k' & Hk' & _ & [Hb1' _] & _ & _ & _). unfold run_byte. rewrite Hk'. simpl.
    unfold frame_byte at 1. unfold word_at. simpl.
    assert (vidx (a' mod PAGE_SIZE / 8)) as Hv' by (unfold vidx, PAGE_SIZE in *; Z.to_euclidean_division_equations; lia).
    destruct (decide (slot (kva k') (a' mod PAGE_SIZE / 8) = sl)) as [E|E].
    + rewrite E, lookup_insert_eq. simpl. unfold w. apply (slot_inj _ _ Hh) in E as [-> Ei]; [|lia|lia|done|done].
      assert (a' / PAGE_SIZE = a / PAGE_SIZE) as Ej.
      { assert (Z.to_nat (a' / PAGE_SIZE) = Z.to_nat (a / PAGE_SIZE)) as Ej by (eapply (NoDup_lookup ks); [apply (um_nodup _ Hr)|done|done]).
        unfold PAGE_SIZE in *. Z.to_euclidean_division_equations; lia. }
      rewrite byte_of_put by (done || (unfold PAGE_SIZE in *; Z.to_euclidean_division_equations; lia)).
      destruct (decide (a' = a)) as [->|Hne]; [by rewrite decide_True|].
      rewrite decide_False; [simpl; unfold frame_byte, word_at, sl; by rewrite Ei|].
      intros Em. apply Hne. unfold PAGE_SIZE in *. Z.to_euclidean_division_equations; lia.
    + rewrite lookup_insert_ne by by apply not_eq_sym. rewrite decide_False; [done|]. intros ->. apply E. unfold sl. congruence.
Qed.

Lemma bytes_put_ext f g p p' : (∀ a, f a = g a) → bytes_put f p p' → bytes_put g p p'.
Proof. intros E [H1 H2]. split; [done|]. intros a Ha. rewrite <- E. by apply H2. Qed.

Lemma bytes_put_none p : bytes_put (λ _, None) p p.
Proof. split; [apply frames_written_refl|done]. Qed.

Lemma bytes_put_trans f g p p1 p2 :
  bytes_put f p p1 → bytes_put g p1 p2 → bytes_put (λ a, match g a with Some b => Some b | None => f a end) p p2.
Proof.
  intros [F1 F2] [G1 G2]. split; [by eapply frames_written_trans|]. intros a Ha. rewrite G2, F2 by done. by destruct (g a).
Qed.

(** The run stays mapped and the processor in its space while bytes are put. *)
Lemma bytes_put_kept f p p' : run_mapped p → cr3_root p = root → bytes_put f p p' → run_mapped p' ∧ cr3_root p' = root.
Proof.
  intros Hr Hc [Hw _]. split; [by eapply run_written|]. destruct (fs_regs _ _ _ _ Hw) as [_ R]. unfold Vaccess.cr3_root in *. by rewrite R.
Qed.

Section write.
  Context (Hfl : 0 ≤ flags < PAGE_SIZE) (Hrw : Z.testbit flags 1 = true).

Lemma run_u64 p a : run_mapped p → 0 ≤ a < zlen ks * PAGE_SIZE → u64 (start + a) = start + a.
Proof using. intros Hr Ha. destruct (um_range _ Hr) as (R1 & R2 & R3). apply u64_small. lia. Qed.

Lemma memset_run p a c n :
  run_mapped p → cr3_root p = root → 0 ≤ c < 2 ^ 8 → 0 ≤ a → 0 ≤ n → a + n ≤ zlen ks * PAGE_SIZE →
  wp (memset_va HHDM_OFFSET junk (start + a) c n) p (λ _ p', bytes_put (λ x, if decide (a ≤ x < a + n) then Some c else None) p p').
Proof using Hfl Hrw.
  intros Hr Hc Hb Ha Hn Hl. unfold memset_va.
  eapply wp_mono; [apply (wp_for_n (λ i p', bytes_put (λ x, if decide (a ≤ x < a + i) then Some c else None) p p'))|].
  - eapply bytes_put_ext; [|apply bytes_put_none]. intros x. by rewrite decide_False by lia.
  - intros i p1 Hi Hp. destruct (bytes_put_kept _ _ _ Hr Hc Hp) as [Hr1 Hc1].
    rewrite <- Z.add_assoc, (run_u64 p1) by (done || lia).
    eapply wp_mono; [apply store_byte_run; try done; lia|]. cbn beta. intros _ p2 Hp2.
    eapply bytes_put_ext; [|exact (bytes_put_trans _ _ _ _ _ Hp Hp2)]. intros x. cbn beta. repeat case_decide; done || lia.
  - cbn beta. intros _ p'. rewrite Z2Nat.id by lia. done.
Qed.

Lemma memcpy_run bytes : ∀ p a,
  run_mapped p → cr3_root p = root → Forall (λ b, 0 ≤ b < 2 ^ 8) bytes → 0 ≤ a → a + zlen bytes < zlen ks * PAGE_SIZE + 1 →
  wp (memcpy_va HHDM_OFFSET junk (start + a) bytes) p
    (λ _ p', bytes_put (λ x, if decide (a ≤ x) then bytes !! Z.to_nat (x - a) else None) p p').
Proof using Hfl Hrw.
  induction bytes as [|b bytes IH]; intros p a Hr Hc Hb Ha Hl; cbn [memcpy_va].
  - apply wp_ret. eapply bytes_put_ext; [|apply bytes_put_none]. intros x. by case_decide.
  - apply Forall_cons in Hb as [Hb Hbs]. assert (zlen (b :: bytes) = zlen bytes + 1) as El by (unfold zlen; simpl; lia).
    assert (0 ≤ zlen bytes) by auto. rewrite El in Hl.
    eapply wp_bind_mono; [apply store_byte_run; try done; lia|]. cbn beta. intros _ p1 Hp.
    destruct (bytes_put_kept _ _ _ Hr Hc Hp) as [Hr1 Hc1].
    assert (u64 (start + a + 1) = start + (a + 1)) as ->.
    { destruct (um_range _ Hr) as (R1 & R2 & R3). rewrite u64_small; lia. }
    eapply wp_mono; [apply IH; try done; lia|]. cbn beta. intros _ p2 Hp2.
    eapply bytes_put_ext; [|exact (bytes_put_trans _ _ _ _ _ Hp Hp2)]. intros x. cbn beta.
    destruct (decide (x = a)) as [->|Hne].
    + rewrite decide_False, decide_True by lia. by rewrite Z.sub_diag.
    + destruct (decide (a + 1 ≤ x)); [|by rewrite decide_False by lia]. rewrite decide_True by lia.
      replace (Z.to_nat (x - a)) with (S (Z.to_nat (x - (a + 1)))) by lia. simpl. by destruct (bytes !! _).
Qed.
End write.
End run.

(** * Runs and later mappings *)

(** A run stays as it is, content included, when other pages are mapped. *)
Lemma run_range root start' flags' ks' start flags ks p p' :
  run_mapped root start' flags' ks' p → range_mapped HHDM_OFFSET root start flags ks p p' →
  (∀ i j, 0 ≤ i < zlen ks' → 0 ≤ j < zlen ks → vpn (start' + i * PAGE_SIZE) ≠ vpn (start + j * PAGE_SIZE)) →
  run_mapped root start' flags' ks' p' ∧ (∀ k, k ∈ ks' → k ∉ ks)
  ∧ ∀ a, 0 ≤ a < zlen ks' * PAGE_SIZE → run_byte ks' p' a = run_byte ks' p a.
Proof.
  intros Hr Hm Hne. pose proof Hr as [H1 H2 H3 H4]. split; [|split].
  - constructor; [apply Hm|done|done|]. intros j k Hj. destruct (H4 j k Hj) as ([Q1 Q1'] & Q2 & Q3). split; [|split].
    + split; [by rewrite (rm_frames _ _ _ _ _ _ _ Hm)|]. intros Hc. by apply Q1', (rm_free _ _ _ _ _ _ _ Hm).
    + by apply (rm_plain _ _ _ _ _ _ _ Hm).
    + rewrite (rm_out _ _ _ _ _ _ _ Hm); [done|]. intros i Hi. apply Hne; [|done]. apply lookup_lt_Some in Hj. unfold zlen. lia.
  - intros k [j Hj]%list_elem_of_lookup [i Hi]%list_elem_of_lookup. destruct (H4 j k Hj) as ([_ Q] & _). by destruct (rm_in _ _ _ _ _ _ _ Hm i k Hi).
  - intros a Ha. destruct (run_page _ _ _ _ p a Hr Ha) as (k & Hk & _ & Hb & Ht & _). unfold run_byte. rewrite Hk. simpl.
    apply frame_byte_same; [|by apply Z.mod_pos_bound]. intros i Hi. by apply (rm_data _ _ _ _ _ _ _ Hm).
Qed.

(** The same when other data frames are written. *)
Lemma run_frames root start' flags' ks' ks p p' :
  run_mapped root start' flags' ks' p → frames_written ks p p' → (∀ k, k ∈ ks' → k ∉ ks) → (∀ k, k ∈ ks → ¬ is_table p root k) →
  run_mapped root start' flags' ks' p' ∧ ∀ a, 0 ≤ a < zlen ks' * PAGE_SIZE → run_byte ks' p' a = run_byte ks' p a.
Proof.
  intros Hr Hw Hd Ht. pose proof Hr as [H1 H2 H3 H4].
  destruct (frames_written_kept HHDM_OFFSET p p' root ks H1 Ht Hw) as (K1 & _ & K3 & K4). split.
  - constructor; [done|done|done|]. intros j k Hj. destruct (H4 j k Hj) as (Q1 & Q2 & Q3). rewrite (fs_alloc _ _ _ _ Hw), K3, K4. done.
  - intros a Ha. destruct (run_page _ _ _ _ p a Hr Ha) as (k & Hk & Hin & [Hb _] & _). unfold run_byte. rewrite Hk. simpl.
    apply frame_byte_same; [|by apply Z.mod_pos_bound]. intros i Hi. apply (fs_other _ _ _ _ Hw); [done|by apply Hd|done].
Qed.

(** The pages just mapped are a run. *)
Lemma range_run root start flags ks p p' :
  fa_ok (pg_alloc p) → range_mapped HHDM_OFFSET root start flags ks p p' → 0 ≤ start → start mod PAGE_SIZE = 0 → start + zlen ks * PAGE_SIZE ≤ 2 ^ 47 →
  run_mapped root start flags ks p'.
Proof.
  intros Hok Hm H0 Hs Hb. constructor; [apply Hm|done|apply Hm|]. intros j k Hj. destruct (rm_in _ _ _ _ _ _ _ Hm j k Hj) as (K1 & K2 & K3 & K4).
  split; [|done]. split; [|done]. rewrite (rm_frames _ _ _ _ _ _ _ Hm). by apply fa_range.
Qed.
End pages.
