(* ===== verification/Loader.v ===== *)
(** Loader: [load_elf] of [kernel/src/proc/proc.c]: for a well-formed image every byte
    of every loadable segment is, in the new space, the byte of the file or zero. *)
From S2P Require Import Prelude Layout Frames Pmm Paging Range CString Klist Sched Kheap Kstack Vaccess Vmm Vmmcopy Userpage Proc Spawn.

(** * What an image says *)

Record segment := Segment { sg_type : Z; sg_flags : Z; sg_offset : Z; sg_vaddr : Z; sg_filesz : Z; sg_memsz : Z }.

(** The program headers from [ph] on, and the whole image: its entry point and its
    program headers. *)
Definition phdr (elf : list Z) (ph : Z) : res segment :=
  ty ← p_type elf ph; fl ← p_flags elf ph; off ← p_offset elf ph; va ← p_vaddr elf ph; fs ← p_filesz elf ph; ms ← p_memsz elf ph;
  Ok (Segment ty fl off va fs ms).
Fixpoint phdrs (n : nat) (elf : list Z) (ph : Z) : res (list segment) :=
  match n with
  | O => Ok []
  | S n' => sg ← phdr elf ph; r ← phdrs n' elf (ph + sizeof_phdr); Ok (sg :: r)
  end.
Definition elf_image (elf : list Z) : res (Z * list segment) :=
  entry ← e_entry elf; ph ← e_phoff elf; n ← e_phnum elf; l ← phdrs (Z.to_nat n) elf ph; Ok (entry, l).

Definition loadable (sg : segment) : Prop := sg_type sg = PT_LOAD.
#[global] Instance loadable_dec sg : Decision (loadable sg) := _.

(** The pages of a segment, its flags, and the byte at [a] behind its start. *)
Definition seg_start (sg : segment) : Z := ALIGN_DOWN (sg_vaddr sg) PAGE_SIZE.
Definition seg_end (sg : segment) : Z := ALIGN_UP (sg_vaddr sg + sg_memsz sg) PAGE_SIZE.
Definition seg_pages (sg : segment) : Z := (seg_end sg - seg_start sg) / PAGE_SIZE.
Definition seg_vm (sg : segment) : Z :=
  let vm_flags := Z.lor VM_READ VM_WRITE in if negb (Z.land (sg_flags sg) PF_X =? 0) then Z.lor vm_flags VM_EXEC else vm_flags.
Definition seg_byte (elf : list Z) (sg : segment) (a : Z) : Z :=
  if decide (a < sg_filesz sg) then default 0 (elf !! Z.to_nat (sg_offset sg + a)) else 0.

(** A segment of the lower half that is not empty and has its bytes in the file. *)
Record seg_ok (elf : list Z) (sg : segment) : Prop := {
  so_low : 0 ≤ sg_vaddr sg ∧ sg_vaddr sg + sg_memsz sg + PAGE_SIZE ≤ 2 ^ 47;
  so_size : 0 ≤ sg_filesz sg ≤ sg_memsz sg ∧ 0 < sg_memsz sg;
  so_file : 0 ≤ sg_offset sg ∧ sg_offset sg + sg_filesz sg ≤ zlen elf
}.

Lemma seg_range elf sg : seg_ok elf sg →
  seg_end sg = seg_start sg + seg_pages sg * PAGE_SIZE ∧ 0 < seg_pages sg ∧ 0 ≤ seg_start sg ∧ seg_start sg mod PAGE_SIZE = 0
  ∧ seg_end sg ≤ 2 ^ 47 ∧ seg_start sg ≤ sg_vaddr sg ∧ sg_vaddr sg + sg_memsz sg ≤ seg_end sg.
Proof.
  intros [[H1 H2] [[H3 H4] H5] _]. unfold seg_pages, seg_start, seg_end.
  destruct (page_align_down (sg_vaddr sg) H1) as [Hdm Hd].
  destruct (page_align_up (sg_vaddr sg + sg_memsz sg)) as [Hum Hu]; [lia|unfold PAGE_SIZE in *; lia|].
  unfold PAGE_SIZE in *. split_and!; Z.to_euclidean_division_equations; lia.
Qed.

Lemma le_byte elf off : le elf off 1 = match zlookup elf off with Some b => Ok (b + 256 * 0) | None => Crash OutOfBounds end.
Proof. simpl. by destruct (zlookup elf off). Qed.

Lemma elf_bytes_ok elf n : ∀ off, 0 ≤ off → off + Z.of_nat n ≤ zlen elf → elf_bytes elf off n = Ok (take n (drop (Z.to_nat off) elf)).
Proof.
  induction n as [|n IH]; intros off H0 Hl; [done|]. cbn [elf_bytes]. rewrite le_byte.
  destruct (lookup_lt_is_Some_2 elf (Z.to_nat off)) as [b Hb]; [unfold zlen in *; lia|].
  assert (zlookup elf off = Some b) as ->. { unfold zlookup. by rewrite decide_True by lia. }
  simpl. rewrite IH by lia. simpl. rewrite (drop_S _ _ _ Hb). simpl. do 2 f_equal; [lia|]. f_equal. f_equal. lia.
Qed.

Section loader.
  Context {A : Type} `{FA : FrameAlloc A}.
  Context (HHDM_OFFSET kheap_list : Z) (junk : Z → Z).
  Context (elf : list Z) (Helf : Forall (λ b, 0 ≤ b < 2 ^ 8) elf).
  Abbreviation St := (proc_st (kern A)).
  Abbreviation translate := (translate HHDM_OFFSET).
  Abbreviation is_table := (is_table HHDM_OFFSET).
  Abbreviation private := (private HHDM_OFFSET).
  Abbreviation pt_wf := (pt_wf HHDM_OFFSET).
  Abbreviation run_mapped := (run_mapped HHDM_OFFSET).
  Abbreviation run_byte := (run_byte HHDM_OFFSET junk).
  Abbreviation heap_ok := (kheap_ok (KernelPages0 := kernel_pages HHDM_OFFSET) kheap_list).
  Implicit Types v : vmm_st A.
  Implicit Types p : pg_st A.

(** * One segment *)

(** The segment is in the space [root], on the frames [ks]. *)
Record seg_loaded p (root : Z) (sg : segment) (ks : list Z) : Prop := {
  sl_run : run_mapped root (seg_start sg) (pte_flags_of (seg_vm sg)) ks p;
  sl_len : zlen ks = seg_pages sg;
  sl_byte a : 0 ≤ a < sg_memsz sg → run_byte ks p (sg_vaddr sg - seg_start sg + a) = seg_byte elf sg a
}.

Lemma seg_writable sg : Z.testbit (pte_flags_of (seg_vm sg)) 1 = true.
Proof. unfold seg_vm. by destruct (negb (Z.land (sg_flags sg) PF_X =? 0)). Qed.

(** [memset] and [memcpy] fill the pages of a segment. *)
Lemma segment_filled p root sg ks :
  seg_ok elf sg → run_mapped root (seg_start sg) (pte_flags_of (seg_vm sg)) ks p → zlen ks = seg_pages sg → cr3_root HHDM_OFFSET p = root →
  let data := take (Z.to_nat (sg_filesz sg)) (drop (Z.to_nat (sg_offset sg)) elf) in
  wp (memset_va HHDM_OFFSET junk (sg_vaddr sg) 0 (sg_memsz sg)) p (λ _ p1,
    wp (memcpy_va HHDM_OFFSET junk (sg_vaddr sg) data) p1 (λ _ p2, frames_written HHDM_OFFSET ks p p2 ∧ seg_loaded p2 root sg ks)).
Proof using Helf.
  intros Hsg Hr Hl Hc data. destruct (seg_range elf sg Hsg) as (S1 & S2 & S3 & S4 & S5 & S6 & S7). pose proof Hsg as [[H1 H2] [[H3 H4] H5] [H6 H7]].
  destruct (pte_flags_ok (seg_vm sg)) as [Hfl _]. pose proof (seg_writable sg) as Hrw. set (d := sg_vaddr sg - seg_start sg).
  replace (sg_vaddr sg) with (seg_start sg + d) by (unfold d; lia).
  eapply wp_mono; [apply (memset_run HHDM_OFFSET junk root (seg_start sg) _ ks Hfl Hrw p d 0 (sg_memsz sg)); try done; lia|].
  cbn beta. intros _ p1 Hp1. destruct (bytes_put_kept _ _ _ _ _ _ _ _ _ Hr Hc Hp1) as [Hr1 Hc1].
  assert (zlen data = sg_filesz sg) as Ed. { unfold data, zlen in *. rewrite length_take, length_drop. lia. }
  eapply wp_mono; [apply (memcpy_run HHDM_OFFSET junk root (seg_start sg) _ ks Hfl Hrw data p1 d); try done; [|lia|lia]|].
  { unfold data. by apply Forall_take, Forall_drop. }
  cbn beta. intros _ p2 Hp2. pose proof (bytes_put_trans _ _ _ _ _ _ _ _ Hp1 Hp2) as [Hw Hb]. split; [done|].
  constructor; [eapply run_written; [exact Hr|exact Hw]|done|]. intros a Ha. fold d. rewrite Hb by (rewrite Hl; lia). cbn beta.
  rewrite decide_True by lia. rewrite decide_True by lia. replace (d + a - d) with a by lia. unfold seg_byte.
  case_decide as Hlt.
  - unfold data. rewrite lookup_take_lt, lookup_drop by lia. replace (Z.to_nat (sg_offset sg) + Z.to_nat a)%nat with (Z.to_nat (sg_offset sg + a)) by lia.
    destruct (elf !! Z.to_nat (sg_offset sg + a)) eqn:E; [done|]. apply lookup_ge_None in E. unfold zlen in *. lia.
  - rewrite (proj2 (lookup_ge_None data _)); [done|]. unfold zlen in Ed. lia.
Qed.

(** * All segments *)

Definition pages_apart (sg sg' : segment) : Prop := seg_end sg ≤ seg_start sg' ∨ seg_end sg' ≤ seg_start sg.

Lemma apart_vpn sg sg' i j :
  seg_ok elf sg → seg_ok elf sg' → pages_apart sg sg' → 0 ≤ i < seg_pages sg → 0 ≤ j < seg_pages sg' →
  vpn (seg_start sg + i * PAGE_SIZE) ≠ vpn (seg_start sg' + j * PAGE_SIZE).
Proof using.
  clear junk. intros H1 H2 Ha Hi Hj. destruct (seg_range elf sg H1) as (E1 & _ & ? & ? & ? & _), (seg_range elf sg' H2) as (E2 & _ & ? & ? & ? & _).
  rewrite !vpn_low by (unfold PAGE_SIZE in *; lia). unfold pages_apart, PAGE_SIZE in *. Z.to_euclidean_division_equations; lia.
Qed.

(** A loaded segment stays loaded while another is mapped and filled. *)
Lemma seg_loaded_kept p p1 p2 root sg ks sg' ks' :
  seg_ok elf sg → seg_ok elf sg' → pages_apart sg' sg → seg_loaded p root sg' ks' → zlen ks = seg_pages sg →
  range_mapped HHDM_OFFSET root (seg_start sg) (pte_flags_of (seg_vm sg)) ks p p1 → frames_written HHDM_OFFSET ks p1 p2 → seg_loaded p2 root sg' ks'.
Proof using elf junk.
  intros H1 H2 Ha [L1 L2 L3] Hl Hr Hw. destruct (seg_range elf sg' H2) as (E2 & _ & _ & _ & _ & S6 & S7).
  destruct (run_range HHDM_OFFSET junk root _ _ ks' _ _ ks p p1 L1 Hr) as (R1 & R2 & R3).
  { rewrite L2, Hl. intros i j Hi Hj. by apply apart_vpn. }
  destruct (run_frames HHDM_OFFSET junk root _ _ ks' ks p1 p2 R1 Hw R2) as [R4 R5].
  { intros k [j Hj]%list_elem_of_lookup. by destruct (rm_in _ _ _ _ _ _ _ Hr j k Hj) as (_ & _ & ? & _). }
  constructor; [done|done|]. intros a Hb. rewrite R5, R3; [by apply L3|rewrite L2; lia..].
Qed.

(** Other spaces while pages of [root] are mapped and filled. *)
Lemma filled_other p p1 p2 root start flags ks r :
  range_mapped HHDM_OFFSET root start flags ks p p1 → frames_written HHDM_OFFSET ks p1 p2 → 0 ≤ start → start + zlen ks * PAGE_SIZE ≤ 2 ^ 47 →
  (∀ k, k ∈ ks → ¬ is_table p1 root k) → pt_wf p r → private p root r → space_kept HHDM_OFFSET p p2 root r.
Proof using.
  intros Hr Hw H0 Hb Hnt Hwf Hpr. pose proof (rm_other _ _ _ _ _ _ _ Hr r H0 Hb Hwf Hpr) as Hk. apply (space_kept_trans HHDM_OFFSET _ p1); [done|].
  destruct (frames_written_kept HHDM_OFFSET p1 p2 root ks (rm_wf _ _ _ _ _ _ _ Hr) Hnt Hw) as (_ & W1 & _ & _).
  destruct (frames_written_kept HHDM_OFFSET p1 p2 r ks (sk_wf _ _ _ _ _ Hk)) as (F1 & F2 & F3 & F4); [|done|].
  - intros k [j Hj]%list_elem_of_lookup Ht. apply (space_kept_table _ _ _ _ _ _ Hk) in Ht. destruct (rm_in _ _ _ _ _ _ _ Hr j k Hj) as (K1 & _).
    by destruct (is_table_busy HHDM_OFFSET _ _ _ Hwf Ht).
  - constructor; [done|done|done|]. intros q k Hq Hl Hlow Hwk. rewrite F4. apply (sk_private _ _ _ _ _ Hk q k Hq Hl Hlow). by rewrite <- W1.
Qed.

Definition pages_of (l : list segment) : Z := foldr (λ sg n, seg_pages sg + n) 0 l.

Lemma pages_of_app l r : pages_of (l ++ r) = pages_of l + pages_of r.
Proof using. induction l as [|sg l IH]; [done|]. unfold pages_of in *. simpl. lia. Qed.

Section load.
  Context (v0 : vmm_st A) (bs0 : list block) (mm root pa : Z).

(** The segments [done] are loaded into the space [mm], and the rest of the world is as
    it was in [v0]. *)
Record loading (done : list segment) v (bs : list block) (m : mm_struct) (xs : list Z) : Prop := {
  ld_mm : mm_ok HHDM_OFFSET kheap_list v bs mm m xs;
  ld_root : mm_pml4 m = root ∧ mm_pml4_pa m = pa;
  ld_private : private (vm_pg v) root (kernel_pml4 (vm_pg v));
  ld_segs sg : sg ∈ done → ∃ ks, seg_loaded (vm_pg v) root sg ks ∧ ∀ k, k ∈ ks → ¬ is_table (vm_pg v) (kernel_pml4 (vm_pg v)) k;
  ld_mms a : a ≠ mm → vm_mms v !! a = vm_mms v0 !! a;
  ld_links a : a ∉ vma_list mm :: xs → same_links a (vm_links v0) (vm_links v);
  ld_blocks : kept_blocks bs0 bs;
  ld_new a : in_block bs0 a → a ∉ xs;
  ld_other r : pt_wf (vm_pg v0) r → private (vm_pg v0) root r → space_kept HHDM_OFFSET (vm_pg v0) (vm_pg v) root r;
  ld_regs : same_regs (vm_pg v0) (vm_pg v);
  ld_old q t : vpath q → (length q ≤ 3)%nat → walk HHDM_OFFSET (pg_mem (vm_pg v0)) root q = Some t → walk HHDM_OFFSET (pg_mem (vm_pg v)) root q = Some t;
  ld_room : room bs0 ≤ room bs + zlen done;
  ld_cost : Z.of_nat (size (free_frames v0)) ≤ Z.of_nat (size (free_frames v)) + 4 * pages_of done
}.

Lemma load_one done v bs m xs sg fl :
  loading done v bs m xs → seg_ok elf sg → pte_flags_of fl = pte_flags_of (seg_vm sg) → (∀ sg', sg' ∈ done → seg_ok elf sg' ∧ pages_apart sg' sg) → cr3_root HHDM_OFFSET (vm_pg v) = root →
  0 < room bs → 4 * seg_pages sg ≤ Z.of_nat (size (free_frames v)) →
  let data := take (Z.to_nat (sg_filesz sg)) (drop (Z.to_nat (sg_offset sg)) elf) in
  wp (mm_map_range HHDM_OFFSET kheap_list mm (sg_vaddr sg) (sg_memsz sg) fl) v (λ r v1, r = true ∧
    wp (memset_va HHDM_OFFSET junk (sg_vaddr sg) 0 (sg_memsz sg)) (vm_pg v1) (λ _ p2,
      wp (memcpy_va HHDM_OFFSET junk (sg_vaddr sg) data) p2 (λ _ p3, ∃ bs' m' xs', loading (done ++ [sg]) (set_pg p3 v1) bs' m' xs'))).
Proof using Helf.
  intros [L1 [L2 L2'] L3 L4 L5 L6 L7 L8 L9 L10 L13 L11 L12] Hsg Hflags Hdone Hcr Hroom Hfr data.
  destruct (seg_range elf sg Hsg) as (S1 & S2 & S3 & S4 & S5 & S6 & S7). pose proof Hsg as [[V1 V2] [_ V3] _].
  pose proof (mo_heap _ _ _ _ _ _ _ L1) as Hheap. pose proof (ha_pages _ _ _ _ (proj1 Hheap) : pt_wf (vm_pg v) (kernel_pml4 (vm_pg v))) as Hkr.
  eapply wp_mono; [apply (mm_map_range_ok HHDM_OFFSET kheap_list v bs mm m xs (sg_vaddr sg) (sg_memsz sg) fl L1); [|done|done|done|done]|].
  { apply room_fits; [by eapply (kheap_sizes HHDM_OFFSET kheap_list)|done]. }
  fold (seg_start sg). fold (seg_end sg). cbn beta. intros r v1 (-> & vma & ks & bs1 & Ha). split; [done|].
  pose proof (aa_range _ _ _ _ _ _ _ _ _ _ _ _ _ _ Ha) as Hr. rewrite L2, Hflags in Hr. pose proof (aa_obj _ _ _ _ _ _ _ _ _ _ _ _ _ _ Ha) as [_ _ _ _ O5 O6 O7].
  destruct (aa_pages _ _ _ _ _ _ _ _ _ _ _ _ _ _ Ha) as [En _]. assert (zlen ks = seg_pages sg) as Hl by (unfold PAGE_SIZE in *; lia).
  pose proof (range_run HHDM_OFFSET _ _ _ _ _ _ (wf_alloc _ _ _ Hkr) Hr S3 S4 ltac:(lia)) as Hrun. destruct (rm_regs _ _ _ _ _ _ _ Hr) as [R1 R2].
  destruct (area_added_heap HHDM_OFFSET kheap_list _ _ _ _ _ _ _ _ _ _ _ _ L1 ltac:(right; by rewrite L2) Ha) as [Hheap1 Hnt].
  eapply wp_mono; [apply (segment_filled _ root sg ks Hsg Hrun Hl)|].
  { unfold cr3_root in *. by rewrite R2. }
  cbn beta. intros _ p2 Hp2. eapply wp_mono; [exact Hp2|]. cbn beta. intros _ p3 [Hw Hseg].
  exists bs1, (with_map_count (i32 (map_count m + 1)) m), (xs ++ [vma]).
  assert (0 ≤ seg_start sg ∧ seg_start sg + zlen ks * PAGE_SIZE ≤ 2 ^ 47) as [B1 B2] by lia.
  assert (∀ k, k ∈ ks → ¬ is_table (vm_pg v1) root k) as Hnr by (intros k [j Hj]%list_elem_of_lookup; by apply (rm_in _ _ _ _ _ _ _ Hr j k Hj)).
  pose proof (λ r, filled_other _ _ p3 _ _ _ _ r Hr Hw B1 B2 Hnr) as Hother. pose proof (Hother _ Hkr L3) as Hkk.
  destruct (fs_regs _ _ _ _ Hw) as [R3 R4]. assert (kernel_pml4 p3 = kernel_pml4 (vm_pg v)) as Ek by congruence.
  assert (mm_ok HHDM_OFFSET kheap_list (set_pg p3 v1) bs1 mm (with_map_count (i32 (map_count m + 1)) m) (xs ++ [vma])) as Hmm.
  { constructor; [|change (vm_mms (set_pg p3 v1)) with (vm_mms v1)|apply L1|cbn; rewrite L2; apply Hseg|exact (aa_ring _ _ _ _ _ _ _ _ _ _ _ _ _ _ Ha)|].
    - apply (heap_repaged HHDM_OFFSET kheap_list v1 p3 bs1 Hheap1); rewrite Ek; [apply Hkk|].
      intros a. by rewrite R1, (sk_trans _ _ _ _ _ Hkk), (sk_trans _ _ _ _ _ (rm_other _ _ _ _ _ _ _ Hr _ B1 B2 Hkr L3)).
    - rewrite (aa_mms _ _ _ _ _ _ _ _ _ _ _ _ _ _ Ha). apply lookup_insert_eq.
    - intros a Hin. rewrite app_comm_cons in Hin. apply elem_of_app in Hin as [Hin| ->%list_elem_of_singleton]; [|done].
      eapply kept_in_block; [exact O7|]. by apply (mo_nodes _ _ _ _ _ _ _ L1). }
  constructor; try done.
  - change (vm_pg (set_pg p3 v1)) with p3. rewrite Ek. apply Hkk.
  - change (vm_pg (set_pg p3 v1)) with p3. rewrite Ek. intros sg' [Hin| ->%list_elem_of_singleton]%elem_of_app.
    + destruct (L4 sg' Hin) as (ks' & Hks & Hkn), (Hdone sg' Hin). exists ks'. split; [by apply (seg_loaded_kept (vm_pg v) (vm_pg v1) p3 root sg ks sg' ks')|].
      intros k Hk. rewrite (space_kept_table _ _ _ _ _ _ Hkk). by apply Hkn.
    + exists ks. split; [done|]. intros k [j Hj]%list_elem_of_lookup. rewrite (space_kept_table _ _ _ _ _ _ Hkk). intros Ht.
      destruct (rm_in _ _ _ _ _ _ _ Hr j k Hj) as (K1 & _). by destruct (is_table_busy HHDM_OFFSET _ _ _ Hkr Ht).
  - intros a Hne. change (vm_mms (set_pg p3 v1)) with (vm_mms v1). rewrite (aa_mms _ _ _ _ _ _ _ _ _ _ _ _ _ _ Ha), lookup_insert_ne by done. by apply L5.
  - intros a Hno. change (vm_links (set_pg p3 v1)) with (vm_links v1). rewrite (aa_links _ _ _ _ _ _ _ _ _ _ _ _ _ _ Ha).
    rewrite app_comm_cons, not_elem_of_app, list_elem_of_singleton in Hno. destruct Hno as [Hno Hnv]. destruct (L6 a Hno) as [E1 E2].
    destruct (same_links_inserted a (vm_links v) vma (last_or (vma_list mm) xs) (vma_list mm)) as [E3 E4]; [done| | |split; congruence].
    + intros ->. apply Hno. pose proof (last_or_in (vma_list mm) xs). set_solver.
    + intros ->. apply Hno. by left.
  - intros b Hb Hf. apply O7; [by apply L7|done].
  - intros a Hb. rewrite not_elem_of_app, list_elem_of_singleton. split; [by apply L8|]. intros ->. apply O5. by eapply kept_in_block.
  - intros r Hwr Hpr. pose proof (L9 r Hwr Hpr) as Hk. apply (space_kept_trans HHDM_OFFSET _ (vm_pg v)); [done|]. apply Hother; apply Hk.
  - destruct L10. change (vm_pg (set_pg p3 v1)) with p3. split; congruence.
  - intros q t Hq Hlq Hwk. destruct (frames_written_kept HHDM_OFFSET (vm_pg v1) p3 root ks (rm_wf _ _ _ _ _ _ _ Hr) Hnr Hw) as (_ & W1 & _).
    change (vm_pg (set_pg p3 v1)) with p3. rewrite W1 by done. by apply (rm_old _ _ _ _ _ _ _ Hr), L13.
  - pose proof (aa_room _ _ _ _ _ _ _ _ _ _ _ _ _ _ Ha). unfold zlen in *. rewrite length_app. simpl. lia.
  - rewrite pages_of_app. unfold pages_of at 2. cbn [foldr]. pose proof (rm_cost _ _ _ _ _ _ _ Hr).
    change (free_frames (set_pg p3 v1)) with (fa_free_set (pg_alloc p3)). rewrite (fs_alloc _ _ _ _ Hw). unfold free_frames in *. lia.
Qed.

(** What the loader needs of the loadable segments. *)
Definition segs_ok (l : list segment) : Prop :=
  Forall (seg_ok elf) l ∧ ∀ i j x y, l !! i = Some x → l !! j = Some y → (i < j)%nat → pages_apart x y.

Lemma segs_ok_next done sg l :
  segs_ok (done ++ sg :: l) → seg_ok elf sg ∧ ∀ sg', sg' ∈ done → seg_ok elf sg' ∧ pages_apart sg' sg.
Proof using.
  intros [H1 H2]. apply Forall_app in H1 as [Hd [Hsg _]%Forall_cons]. split; [done|]. intros sg' Hin.
  split; [by eapply Forall_forall in Hd|]. apply list_elem_of_lookup in Hin as [i Hi]. pose proof (lookup_lt_Some _ _ _ Hi).
  apply (H2 i (length done)); [by apply lookup_app_l_Some|by apply list_lookup_middle|done].
Qed.

Lemma phdr_fields ph sg : phdr elf ph = Ok sg →
  p_type elf ph = Ok (sg_type sg) ∧ p_flags elf ph = Ok (sg_flags sg) ∧ p_offset elf ph = Ok (sg_offset sg)
  ∧ p_vaddr elf ph = Ok (sg_vaddr sg) ∧ p_filesz elf ph = Ok (sg_filesz sg) ∧ p_memsz elf ph = Ok (sg_memsz sg).
Proof using.
  unfold phdr. cbv [mbind res_bind]. destruct (p_type elf ph), (p_flags elf ph), (p_offset elf ph), (p_vaddr elf ph), (p_filesz elf ph), (p_memsz elf ph);
    try done. by intros [= <-].
Qed.

Lemma wp_lift {R} (r : res R) x s (Q : R → St → Prop) : r = Ok x → Q x s → wp (lift_res r) s Q.
Proof using. intros -> H. by apply wp_ret. Qed.

Lemma load_segments_ok (sb : St) proc c ptr n : ∀ ph segs done v bs m xs,
  cr3_root HHDM_OFFSET (vm_pg v0) = root → phdrs n elf ph = Ok segs → let l := done ++ filter loadable segs in
  segs_ok l → zlen l ≤ room bs0 → 4 * pages_of l ≤ Z.of_nat (size (free_frames v0)) → loading done v bs m xs →
  wp (load_segments HHDM_OFFSET kheap_list junk n mm elf ph) (at_proc sb proc c v ptr)
    (λ ok s', ok = true ∧ ∃ v' bs' m' xs', s' = at_proc sb proc c v' ptr ∧ loading l v' bs' m' xs').
Proof using Helf.
  induction n as [|n IH]; intros ph segs done v bs m xs Hcr Hp l Hok Hroom Hfr Hl; cbn [load_segments].
  { injection Hp as <-. apply wp_ret. split; [done|]. exists v, bs, m, xs. split; [done|]. unfold l. by rewrite app_nil_r. }
  cbn [phdrs] in Hp. destruct (phdr elf ph) as [sg|] eqn:Esg; [|done]. simpl in Hp. destruct (phdrs n elf (ph + sizeof_phdr)) as [r|] eqn:Er; [|done].
  injection Hp as <-. destruct (phdr_fields ph sg Esg) as (P1 & P2 & P3 & P4 & P5 & P6).
  apply wp_bind, (wp_lift _ _ _ _ P1). destruct (Z.eqb_spec (sg_type sg) PT_LOAD) as [Ety|Ety].
  2:{ unfold l in *. rewrite filter_cons_False in * by done. by eapply IH. }
  assert (l = done ++ sg :: filter loadable r) as El by (unfold l; by rewrite filter_cons_True).
  assert (l = (done ++ [sg]) ++ filter loadable r) as El' by (rewrite El; by rewrite <- app_assoc).
  pose proof Hok as Hok'. rewrite El in Hok'. destruct (segs_ok_next _ _ _ Hok') as [Hsg Hdone].
  apply wp_bind, (wp_lift _ _ _ _ P2), wp_bind, (wp_lift _ _ _ _ P4), wp_bind, (wp_lift _ _ _ _ P6).
  fold (seg_vm sg). pose proof (ld_regs _ _ _ _ _ Hl) as [_ R2]. pose proof (ld_room _ _ _ _ _ Hl). pose proof (ld_cost _ _ _ _ _ Hl).
  assert (0 ≤ zlen (filter loadable r) ∧ 0 ≤ pages_of (filter loadable r)) as [Z1 Z2].
  { split; [auto|]. destruct Hok' as [Hall _]. apply Forall_app in Hall as [_ [_ Hall]%Forall_cons]. clear - Hall.
    induction Hall as [|x k Hx _ IHk]; [done|]. unfold pages_of in *. cbn [foldr]. destruct (seg_range elf x Hx). lia. }
  assert (zlen l = zlen done + 1 + zlen (filter loadable r) ∧ pages_of l = pages_of done + seg_pages sg + pages_of (filter loadable r)) as [E1 E2].
  { rewrite El. split; [unfold zlen; rewrite length_app; simpl; lia|]. rewrite pages_of_app. unfold pages_of at 2. cbn [foldr]. unfold pages_of. lia. }
  apply wp_bind, wp_vm. eapply wp_mono; [apply (load_one done v bs m xs sg (seg_vm sg) Hl Hsg eq_refl Hdone)|]; [unfold cr3_root in *; by rewrite R2|lia|lia|].
  cbn beta. intros ok v1 (-> & Hw). cbn [negb]. apply wp_bind, wp_page. eapply wp_mono; [exact Hw|]. clear Hw. cbn beta. intros _ p2 Hw.
  apply wp_bind, (wp_lift _ _ _ _ P3), wp_bind, (wp_lift _ _ _ _ P5). apply wp_bind. eapply wp_lift.
  { destruct Hsg as [_ [? _] ?]. apply elf_bytes_ok; lia. }
  apply wp_bind, wp_page. eapply wp_mono; [exact Hw|]. clear Hw. cbn beta. intros _ p3 (bs' & m' & xs' & Hl').
  rewrite El' in *. by apply (IH _ r (done ++ [sg]) (set_pg p3 v1) bs' m' xs').
Qed.
End load.

(** * CR3 and the console do not matter *)

(** The same tables and frames, whatever CR3 and the trace are. *)
Record same_tables p p' : Prop := {
  st_mem : pg_mem p' = pg_mem p;
  st_kernel : kernel_pml4 p' = kernel_pml4 p;
  st_ok : fa_ok (pg_alloc p) → fa_ok (pg_alloc p');
  st_frames : fa_frames (pg_alloc p') = fa_frames (pg_alloc p);
  st_free : fa_free_set (pg_alloc p') = fa_free_set (pg_alloc p)
}.

Lemma same_tables_push e p p' : same_tables p p' → same_tables p (push_event e p').
Proof using.
  intros [H1 H2 H3 H4 H5]. constructor; try done; change (pg_alloc (push_event e p')) with (push_event e (pg_alloc p')).
  - intros H. by apply fa_trace_ok, H3.
  - by rewrite fa_trace_frames.
  - by rewrite fa_trace_set.
Qed.

Lemma same_tables_wf p p' r : same_tables p p' → pt_wf p r → pt_wf p' r.
Proof using.
  intros [H1 H2 H3 H4 H5] [W1 W2 W3 W4]. unfold fa_busy in *. constructor; unfold fa_busy, hhdm_fits in *; rewrite ?H1, ?H4, ?H5; auto.
Qed.

Lemma same_tables_seg p p' sg ks root : same_tables p p' → seg_loaded p root sg ks → seg_loaded p' root sg ks.
Proof using.
  intros Hs [[U1 U2 U3 U4] L2 L3]. pose proof Hs as [H1 H2 H3 H4 H5]. constructor; [constructor|done|].
  - by eapply same_tables_wf.
  - done.
  - done.
  - intros j k Hj. unfold Paging.is_table, fa_busy in *. rewrite H1, H4, H5. by apply U4.
  - intros a Ha. rewrite <- L3 by done. unfold Userpage.run_byte, frame_byte, word_at. by rewrite H1.
Qed.

Lemma same_tables_private p p' d r : same_tables p p' → private p d r → private p' d r.
Proof using. intros [H1 _ _ _ _] H. unfold Paging.private, Paging.is_table in *. by rewrite H1. Qed.

(** Two states of an address space that differ in no more than that. *)
Definition same_space v v' : Prop :=
  same_tables (vm_pg v) (vm_pg v') ∧ ∃ p, v' = set_pg p v.

Lemma mm_ok_same v v' bs mm m xs : same_space v v' → mm_ok HHDM_OFFSET kheap_list v bs mm m xs → mm_ok HHDM_OFFSET kheap_list v' bs mm m xs.
Proof using.
  intros [Hs [p ->]] Hm. rewrite set_pg_pg in Hs. pose proof Hs as [S1 S2 _ _ _]. apply mm_ok_set_pg; [done| | |].
  - change (pt_wf p (kernel_pml4 p)). rewrite S2. eapply same_tables_wf; [done|]. apply (ha_pages _ _ _ _ (proj1 (mo_heap _ _ _ _ _ _ _ Hm))).
  - intros x. change (kernel_mapped HHDM_OFFSET (vm_pg v) x = true → kernel_mapped HHDM_OFFSET p x = true). unfold kernel_mapped. by rewrite S1, S2.
  - eapply same_tables_wf; [done|apply Hm].
Qed.

Lemma loading_same v0 v0' v v' bs0 mm root pa done bs m xs :
  same_space v0' v0 → same_space v v' → pg_cr3 (vm_pg v') = pg_cr3 (vm_pg v0') →
  loading v0 bs0 mm root pa done v bs m xs → loading v0' bs0 mm root pa done v' bs m xs.
Proof using.
  intros Hs0 Hs Hcr Hl. pose proof (mm_ok_same v v' bs mm m xs Hs (ld_mm _ _ _ _ _ _ _ _ _ _ Hl)) as Hmm.
  destruct Hl as [_ L2 L3 L4 L5 L6 L7 L8 L9 L10 L13 L11 L12].
  destruct Hs0 as [T0 [p0 E0]], Hs as [T [p E]]. pose proof T0 as [A1 A2 A3 A4 A5]. pose proof T as [B1 B2 B3 B4 B5].
  assert (vm_mms v0 = vm_mms v0' ∧ vm_links v0 = vm_links v0' ∧ vm_mms v' = vm_mms v ∧ vm_links v' = vm_links v) as (M1 & M2 & M3 & M4) by (subst; done).
  constructor; rewrite ?B2; try done.
  - by eapply same_tables_private.
  - intros sg Hsg. destruct (L4 sg Hsg) as (ks & Hks & Hkn). exists ks. split; [by eapply same_tables_seg|].
    intros k Hk. unfold Paging.is_table in *. rewrite B1. by apply Hkn.
  - intros a Ha. rewrite M3, <- M1. by apply L5.
  - intros a Ha. rewrite M4, <- M2. by apply L6.
  - intros r Hr Hpr. destruct (L9 r) as [K1 K2 K3 K4].
    + by eapply same_tables_wf.
    + by eapply same_tables_private.
    + constructor; [by eapply same_tables_wf|intros; by rewrite B1, K2, A1|intros; by rewrite B1, K3, A1|by eapply same_tables_private].
  - destruct L10 as [R1 R2]. split; [congruence|done].
  - intros q t Hq Hlq Hwk. rewrite B1. apply L13; [done|done|]. by rewrite A1.
  - unfold free_frames in *. rewrite B5, <- A5. exact L12.
Qed.

(** * [load_elf] *)

Context (proc_list ready_queue : Z).

Lemma elf_ident : take 4 elf = elf_magic →
  e_ident elf 0 = Ok 0x7F ∧ e_ident elf 1 = Ok 69 ∧ e_ident elf 2 = Ok 76 ∧ e_ident elf 3 = Ok 70.
Proof using. intros H. rewrite <- (take_drop 4 elf), H. done. Qed.

(** [lcr3] on the state of one process. *)
Definition set_cr3 (w : Z) v : vmm_st A := set_pg (PgSt (pg_alloc (vm_pg v)) (pg_mem (vm_pg v)) (kernel_pml4 (vm_pg v)) w) v.

Lemma wp_lcr3 (sb : St) proc c v ptr w (Q : unit → St → Prop) :
  Q tt (at_proc sb proc c (push_event (EvLcr3 w) (set_cr3 w v)) ptr) → wp (lcr3 w) (at_proc sb proc c v ptr) Q.
Proof using. intros H. exact H. Qed.

Lemma same_space_cr3 v v' w : same_space v v' → same_space v (push_event (EvLcr3 w) (set_cr3 w v')).
Proof using.
  intros [Hs [p ->]]. split; [|by eexists]. apply (same_tables_push _ (vm_pg v)). destruct Hs. by constructor.
Qed.

Lemma same_space_push e v v' : same_space v v' → same_space v (push_event e v').
Proof using. intros [Hs [p ->]]. split; [|by eexists]. by apply (same_tables_push _ (vm_pg v)). Qed.

Lemma same_space_refl v : same_space v v.
Proof using. split; [by constructor|]. exists (vm_pg v). by destruct v as [[]]. Qed.

Lemma wp_mm_of (sb : St) proc c v ptr m (Q : mm_struct → St → Prop) :
  vm_mms v !! p_mm c = Some m → Q m (at_proc sb proc c v ptr) → wp (mm_of proc) (at_proc sb proc c v ptr) Q.
Proof using.
  intros Hm H. unfold mm_of. apply wp_bind, wp_get, wp_vm. eapply wp_ok; [unfold get_mm, gets, or_crash; cbv [mbind M_bind]; by rewrite Hm|done].
Qed.

Lemma load_elf_ok (sb : St) proc c v ptr bs m entry segs :
  mm_ok HHDM_OFFSET kheap_list v bs (p_mm c) m [] → mm_pml4 m = pa2kva HHDM_OFFSET (mm_pml4_pa m) → private (vm_pg v) (mm_pml4 m) (kernel_pml4 (vm_pg v)) →
  take 4 elf = elf_magic → elf_image elf = Ok (entry, segs) → let l := filter loadable segs in
  segs_ok l → zlen l ≤ room bs → 4 * pages_of l ≤ Z.of_nat (size (free_frames v)) →
  wp (load_elf HHDM_OFFSET kheap_list junk proc elf) (at_proc sb proc c v ptr)
    (λ r s', r = entry ∧ ∃ v' bs' m' xs', s' = at_proc sb proc c v' ptr ∧ loading v bs (p_mm c) (mm_pml4 m) (mm_pml4_pa m) l v' bs' m' xs').
Proof using Helf.
  intros Hmm Hpa Hpr Hmagic Himg l Hsegs Hroom Hfr. unfold load_elf. apply wp_bind, wp_kprintln. set (e1 := EvPrint _ _).
  change (push_event e1 (at_proc sb proc c v ptr)) with (at_proc sb proc c (push_event e1 v) ptr). set (v1 := push_event e1 v).
  destruct (elf_ident Hmagic) as (I0 & I1 & I2 & I3). unfold elf_image in Himg. cbv [mbind res_bind] in Himg.
  destruct (e_entry elf) as [en|] eqn:Een; [|done]. destruct (e_phoff elf) as [ph|] eqn:Eph; [|done]. destruct (e_phnum elf) as [n|] eqn:En; [|done].
  destruct (phdrs (Z.to_nat n) elf ph) as [sl|] eqn:Esl; [|done]. injection Himg as -> ->.
  apply wp_bind, (wp_lift _ _ _ _ I0), wp_bind, (wp_lift _ _ _ _ I1), wp_bind, (wp_lift _ _ _ _ I2), wp_bind, (wp_lift _ _ _ _ I3). cbn [Z.eqb Pos.eqb negb orb].
  unfold rcr3. apply wp_bind, wp_gets, wp_bind, wp_get, wp_bind. apply (wp_mm_of _ _ _ _ _ m); [apply Hmm|].
  apply wp_bind, wp_lcr3. apply wp_bind, (wp_lift _ _ _ _ eq_refl), wp_bind, (wp_lift _ _ _ _ eq_refl).
  set (v2 := push_event _ (set_cr3 _ v1)). assert (same_space v v2) as Hs2 by apply same_space_cr3, same_space_push, same_space_refl.
  pose proof (mm_ok_same _ _ _ _ _ _ Hs2 Hmm) as Hmm2. destruct Hs2 as [Ht2 Hp2]. pose proof Ht2 as [T1 T2 T3 T4 T5].
  assert (loading v2 bs (p_mm c) (mm_pml4 m) (mm_pml4_pa m) [] v2 bs m []) as Hl0.
  { constructor; try done.
    - by intros sg ?%elem_of_nil.
    - by intros b Hb _.
    - intros a _. apply not_elem_of_nil.
    - change (zlen (@nil segment)) with 0. lia.
    - change (pages_of []) with 0. lia. }
  apply wp_bind. eapply wp_mono; [apply (load_segments_ok v2 bs (p_mm c) (mm_pml4 m) (mm_pml4_pa m) sb proc c ptr _ ph segs [] v2 bs m [])|]; try done.
  { unfold free_frames. rewrite T5. exact Hfr. }
  cbn beta. intros ok s' (-> & v3 & bs' & m' & xs' & -> & Hl'). cbn [app] in Hl'. apply wp_bind, wp_lcr3, (wp_lift _ _ _ _ eq_refl).
  split; [done|]. eexists _, bs', m', xs'. split; [reflexivity|].
  eapply loading_same; [split; [exact Ht2|exact Hp2]|apply same_space_cr3, same_space_refl|done|exact Hl'].
Qed.
End loader.
