(* ===== verification/Userproc.v ===== *)
(** Userproc: [create_user_process] of [kernel/src/proc/proc.c]: from an ELF image a
    ready process whose space holds the segments of the image and a cleared stack, and
    whose kernel stack enters [user_entry] with the entry point. *)
From S2P Require Import Prelude Layout Frames Pmm Paging Range CString Klist Sched Kheap Kstack Vaccess Vmm Vmmcopy Stack Userpage Proc Spawn Loader.

(** The user's stack, as a segment without bytes in the file. *)
Definition stack_segment : segment := Segment PT_LOAD 0 0 (USER_STACK_TOP - USER_STACK_SIZE) 0 USER_STACK_SIZE.

Lemma stack_segment_ok elf : seg_ok elf stack_segment.
Proof.
  constructor; cbn; unfold USER_STACK_TOP, USER_STACK_SIZE, PAGE_SIZE; [lia|lia|]. split; [done|]. pose proof (Zle_0_nat (length elf)). unfold zlen. lia.
Qed.

Section userproc.
  Context {A : Type} `{FA : FrameAlloc A}.
  Context (HHDM_OFFSET kheap_list : Z) (junk : Z → Z).
  Context (proc_list ready_queue user_entry_addr : Z).
  Context (elf : list Z) (Helf : Forall (λ b, 0 ≤ b < 2 ^ 8) elf).
  Abbreviation St := (proc_st (kern A)).
  Abbreviation translate := (translate HHDM_OFFSET).
  Abbreviation is_table := (is_table HHDM_OFFSET).
  Abbreviation private := (private HHDM_OFFSET).
  Abbreviation pt_wf := (pt_wf HHDM_OFFSET).
  Abbreviation words_at := (words_at HHDM_OFFSET junk).
  Abbreviation user_byte := (user_byte HHDM_OFFSET junk).
  Abbreviation loading := (loading HHDM_OFFSET kheap_list junk elf).
  Abbreviation heap_ok := (kheap_ok (KernelPages0 := kernel_pages HHDM_OFFSET) kheap_list).
  Implicit Types s : St.
  Implicit Types v : vmm_st A.
  Implicit Types p : pg_st A.

(** What the new process starts from: r15 to rip. *)
Definition user_context (entry : Z) : list Z := [0; 0; USER_STACK_TOP; entry; 0; 0; 0; user_entry_addr].

Lemma user_context_ok p p1 p2 p3 p4 tb kt entry :
  words_stored HHDM_OFFSET kt 504 (replicate 8 0) p p1 → words_stored HHDM_OFFSET kt 511 [user_entry_addr] p1 p2 →
  words_stored HHDM_OFFSET kt 507 [entry] p2 p3 → words_stored HHDM_OFFSET kt 506 [USER_STACK_TOP] p3 p4 → stack_page HHDM_OFFSET p4 tb kt →
  frame_written HHDM_OFFSET kt p p4 ∧ words_at p4 (tb + 8 * 504) (user_context entry).
Proof.
  intros W1 W2 W3 W4 Hs. split.
  - eapply frame_written_trans; [apply W1|]. eapply frame_written_trans; [apply W2|]. eapply frame_written_trans; [apply W3|apply W4].
  - apply (stored_words_at HHDM_OFFSET junk p4 tb kt 504); [done|lia|done|].
    pose proof (slots_stored _ _ _ _ _ _ W1 ltac:(lia) ltac:(done)) as H1. pose proof (slots_store _ _ _ _ 7 _ _ _ H1 W2 ltac:(lia) ltac:(done)) as H2.
    pose proof (slots_store _ _ _ _ 3 _ _ _ H2 W3 ltac:(lia) ltac:(done)) as H3. exact (slots_store _ _ _ _ 2 _ _ _ H3 W4 ltac:(lia) ltac:(done)).
Qed.

(** Every byte of the segment is where the program expects it. *)
Definition bytes_loaded p (root : Z) (sg : segment) : Prop :=
  ∀ a, 0 ≤ a < sg_memsz sg → user_byte p root (sg_vaddr sg + a) = Some (seg_byte elf sg a).

Lemma seg_bytes_loaded p root sg ks : seg_ok elf sg → seg_loaded HHDM_OFFSET junk elf p root sg ks → bytes_loaded p root sg.
Proof.
  intros Hsg [L1 L2 L3] a Ha. destruct (seg_range elf sg Hsg) as (S1 & _ & _ & _ & _ & S6 & S7). rewrite <- L3 by done.
  replace (sg_vaddr sg + a) with (seg_start sg + (sg_vaddr sg - seg_start sg + a)) by lia.
  eapply (run_user_byte HHDM_OFFSET junk); [exact L1|apply pte_flags_ok|]. rewrite L2. lia.
Qed.

(** A stack that is made and written later, in the kernel's half, does not show. *)
Lemma seg_loaded_stack p p1 p2 start flags ks' kt root sg ks :
  pt_wf p root → private p root (kernel_pml4 p) → seg_loaded HHDM_OFFSET junk elf p root sg ks → (∀ k, k ∈ ks → ¬ is_table p (kernel_pml4 p) k) →
  seg_ok elf sg → range_mapped HHDM_OFFSET (kernel_pml4 p) start flags ks' p p1 → kt ∈ fa_free_set (pg_alloc p) → frame_written HHDM_OFFSET kt p1 p2 →
  bytes_loaded p2 root sg.
Proof.
  intros Hwf Hpr Hl Hkn Hsg Hr Hkt Hw a Ha. rewrite <- (seg_bytes_loaded p root sg ks Hsg Hl a Ha). destruct (seg_range elf sg Hsg) as (S1 & _ & S3 & _ & S5 & S6 & S7).
  pose proof (stack_data_kept HHDM_OFFSET p p1 p2 start flags ks' kt Hr Hkt Hw) as Hd.
  destruct (low_kept HHDM_OFFSET p p2 _ _ Hpr Hwf Hd) as (_ & _ & Ht). unfold Userpage.user_byte. rewrite Ht by lia.
  destruct Hl as [L1 L2 L3].
  destruct (run_page HHDM_OFFSET junk root (seg_start sg) _ ks p (sg_vaddr sg - seg_start sg + a) L1) as (k & _ & Hin & Hb & _ & Hp & _); [rewrite L2; lia|].
  replace (seg_start sg + (sg_vaddr sg - seg_start sg + a)) with (sg_vaddr sg + a) in Hp by lia. rewrite Hp. simpl.
  assert (frame_of (leaf_entry (k * PAGE_SIZE) (pte_flags_of (seg_vm sg))) = k) as ->.
  { destruct Hb as [Hb _]. pose proof (fa_width _ (wf_alloc _ _ _ Hwf)). unfold frame_of. rewrite leaf_entry_addr by (lia || apply pte_flags_ok). by rewrite Z.div_mul. }
  f_equal. apply (frame_byte_same HHDM_OFFSET junk); [|rewrite offset_mod; by apply Z.mod_pos_bound]. intros i Hi. apply Hd; [done|by apply Hkn|done].
Qed.

(** * The user's stack *)

Lemma user_stack_ok v2 bs2 mm root pa l v3 bs3 m3 xs3 :
  loading v2 bs2 mm root pa l v3 bs3 m3 xs3 → root = pa2kva HHDM_OFFSET pa → segs_ok elf (l ++ [stack_segment]) →
  0 < room bs3 → 16 ≤ Z.of_nat (size (free_frames v3)) →
  let base := USER_STACK_TOP - USER_STACK_SIZE in let old := pg_cr3 (vm_pg v3) in
  wp (mm_map_range HHDM_OFFSET kheap_list mm base USER_STACK_SIZE (Z.lor (Z.lor VM_READ VM_WRITE) VM_STACK))
    (push_event (EvLcr3 pa) (set_cr3 pa v3)) (λ ok v5, ok = true ∧
      wp (memset_va HHDM_OFFSET junk base 0 USER_STACK_SIZE) (vm_pg v5) (λ _ p6, ∃ bs m xs,
        loading v2 bs2 mm root pa (l ++ [stack_segment]) (push_event (EvLcr3 old) (set_cr3 old (set_pg p6 v5))) bs m xs)).
Proof using Helf.
  intros Hl Hroot Hsegs Hroom Hfr base old. set (v4 := push_event _ _).
  pose proof (same_space_cr3 v3 v3 pa (same_space_refl v3) : same_space v3 v4) as Hs4.
  destruct (segs_ok_next elf l stack_segment [] Hsegs) as [Hsg Hdone].
  pose proof (loading_same HHDM_OFFSET kheap_list junk elf v2 (set_cr3 pa v2) v3 v4 bs2 mm root pa l bs3 m3 xs3) as Hl4.
  assert (same_space (set_cr3 pa v2) v2) as Hs2 by (split; [by constructor|]; exists (vm_pg v2); by destruct v2 as [[]]).
  specialize (Hl4 Hs2 Hs4 eq_refl Hl).
  eapply wp_mono; [apply (load_one HHDM_OFFSET kheap_list junk elf Helf _ bs2 mm root pa l v4 bs3 m3 xs3 stack_segment
    (Z.lor (Z.lor VM_READ VM_WRITE) VM_STACK) Hl4 Hsg eq_refl Hdone); [by rewrite Hroot|done|]|].
  { destruct Hs4 as [[_ _ _ _ Hf] _]. unfold free_frames. rewrite Hf. change (4 * seg_pages stack_segment) with 16. exact Hfr. }
  cbn beta. intros ok v5 (-> & Hw). split; [done|]. eapply wp_mono; [exact Hw|]. cbn beta. intros _ p6 (bs & m & xs & Hl6).
  exists bs, m, xs. eapply (loading_same HHDM_OFFSET kheap_list junk elf); [|apply same_space_cr3, same_space_refl| |exact Hl6].
  - split; [by constructor|]. by eexists.
  - apply (ld_regs _ _ _ _ _ _ _ _ _ _ _ _ _ _ Hl).
Qed.

(** * [create_user_process] *)

(** The process is built without touching what the invariant holds of. *)
Lemma user_world s bs qs ps proc v1 bs1 v2 bs2 mm k root pa l v bs' m xs v' :
  heads_ok proc_list ready_queue → procs_ok HHDM_OFFSET kheap_list proc_list ready_queue s bs qs ps →
  pcb_made HHDM_OFFSET kheap_list s bs proc v1 bs1 → space_made HHDM_OFFSET kheap_list v1 bs1 v2 bs2 mm k →
  loading v2 bs2 mm root pa l v bs' m xs → heap_ok (vm_kheap v') bs' → vm_links v' = vm_links v → vm_mms v' = vm_mms v →
  world_kept HHDM_OFFSET kheap_list proc_list ready_queue s bs qs ps proc v' bs'.
Proof.
  intros Hh Hok Hpm Hm Hl Hheap El Em. pose proof (ld_mm _ _ _ _ _ _ _ _ _ _ _ _ _ _ Hl) as Hmm.
  assert (kept_blocks bs1 bs') as Hk by (intros b Hb Hf; apply (ld_blocks _ _ _ _ _ _ _ _ _ _ _ _ _ _ Hl); [by apply (sm_blocks _ _ _ _ _ _ _ _ Hm)|done]).
  apply (made_world HHDM_OFFSET kheap_list proc_list ready_queue _ _ _ _ _ v1 bs1 v' bs' Hh Hok Hpm Hheap Hk).
  - intros a Ha. rewrite El. assert (a ∉ vma_list mm :: xs) as Hno.
    { destruct (list_node_cases HHDM_OFFSET kheap_list proc_list ready_queue s bs qs ps a Hok Ha) as [Hc|Hb].
      - intros Hin. destruct Hh as [_ Hh]. destruct (Hh a Hc) as [_ Ho]. apply Ho.
        apply (in_block_heap HHDM_OFFSET kheap_list (vm_kheap v) bs'); [apply Hmm|by apply Hmm].
      - assert (in_block bs1 a) as Hb1 by (eapply kept_in_block; [apply Hpm|done]). intros [->|Hin]%elem_of_cons.
        + by apply (sm_fresh _ _ _ _ _ _ _ _ Hm).
        + eapply (ld_new _ _ _ _ _ _ _ _ _ _ _ _ _ _ Hl); [|exact Hin]. by eapply kept_in_block; [apply (sm_blocks _ _ _ _ _ _ _ _ Hm)|]. }
    destruct (ld_links _ _ _ _ _ _ _ _ _ _ _ _ _ _ Hl a Hno) as [E1 E2], (sm_links _ _ _ _ _ _ _ _ Hm a) as [E3 E4]; [set_solver|]. split; congruence.
  - intros a Ha. rewrite Em. destruct (decide (a = mm)) as [->|Hne]; [exists m; apply Hmm|].
    rewrite (ld_mms _ _ _ _ _ _ _ _ _ _ _ _ _ _ Hl) by done. rewrite (sm_mms _ _ _ _ _ _ _ _ Hm). by rewrite lookup_insert_ne.
Qed.

(** The bytes of the heap in one piece: the PCB, the [mm_struct], the areas. *)
Definition user_bytes (n : Z) : Z := 440 + 80 * (n + 1).

(** The kernel is in its own space, and image, heap, frames and stack area suffice. *)
Record image_ready s (bs : list block) (qs ps : list Z) (entry : Z) (l : list segment) : Prop := {
  ir_procs : procs_ok HHDM_OFFSET kheap_list proc_list ready_queue s bs qs ps;
  ir_pids : next_pid s < 2 ^ 31 - 1;
  ir_root : cr3_root HHDM_OFFSET (kn_pg (env s)) = kernel_pml4 (kn_pg (env s));
  ir_magic : take 4 elf = elf_magic;
  ir_image : ∃ segs, elf_image elf = Ok (entry, segs) ∧ l = filter loadable segs;
  ir_entry : entry ≠ 0;
  ir_segs : segs_ok elf (l ++ [stack_segment]);
  ir_heap : roomy (user_bytes (zlen l)) bs;
  ir_frames : 17 + 4 * pages_of (l ++ [stack_segment]) ≤ Z.of_nat (size (free_frames (kn_vmm (env s))));
  ir_stack : let ptr := kn_kstack_ptr (env s) in
    KERNEL_STACK_BASE ≤ ptr ∧ ptr + PAGE_SIZE + KSTACK_SIZE ≤ KERNEL_STACK_BASE + 2 ^ 39 ∧ ptr mod PAGE_SIZE = 0
}.

Definition user_pcb s (top mm : Z) (pname : list Z) : pcb_t :=
  let context := top - sizeof_context in
  Pcb context (top - KSTACK_SIZE) context 0 mm 0 TIME_SLICE_DEFAULT (next_pid s) 0 PROC_READY pname (replicate (Z.to_nat MAX_FD) None) 0 0.

Lemma made_room s bs new v bs1 n :
  roomy (user_bytes n) bs → 0 ≤ n → pcb_made HHDM_OFFSET kheap_list s bs new v bs1 → Exists (fits (ALIGN_UP sizeof_mm 8)) bs1
  ∧ ∀ v2 bs2 mm k, space_made HHDM_OFFSET kheap_list v bs1 v2 bs2 mm k → n + 1 ≤ room bs2.
Proof using.
  unfold user_bytes. intros Hr Hn Hpm.
  assert (roomy (440 + 80 * (n + 1) - 304) bs1) as Hr1.
  { apply (pcb_spends HHDM_OFFSET kheap_list s bs new v bs1 Hpm); [|done]. change (pcb_bytes + MIN_SPLIT) with 320. lia. }
  split; [apply (roomy_fits _ _ _ Hr1); change (ALIGN_UP sizeof_mm 8) with 104; lia|]. intros v2 bs2 mm k Hm.
  pose proof (sm_spent _ _ _ _ _ _ _ _ Hm (440 + 80 * (n + 1) - 304)) as Hr2.
  change (ALIGN_UP sizeof_mm 8 + HEADER_SIZE) with 136 in Hr2. unfold MIN_SPLIT in Hr2. specialize (Hr2 ltac:(lia) Hr1).
  pose proof (roomy_room _ bs2 (kheap_sizes HHDM_OFFSET kheap_list _ _ (mo_heap _ _ _ _ _ _ _ (sm_ok _ _ _ _ _ _ _ _ Hm))) Hr2) as Hrm.
  change (ALIGN_UP sizeof_vma 8 + HEADER_SIZE) with 80 in Hrm. replace (440 + 80 * (n + 1) - 304 - 136) with ((n + 1) * 80) in Hrm by lia.
  by rewrite Z.div_mul in Hrm.
Qed.

Lemma segs_pages l : segs_ok elf (l ++ [stack_segment]) → 0 ≤ pages_of l ∧ pages_of (l ++ [stack_segment]) = pages_of l + 4.
Proof using.
  intros [H _]. apply Forall_app in H as [H _]. rewrite pages_of_app. change (pages_of [stack_segment]) with 4. split; [|done].
  induction H as [|y k Hy _ IH]; [done|]. unfold pages_of in *. cbn [foldr]. destruct (seg_range elf y Hy). lia.
Qed.

Lemma start_frames s bs new v bs1 (n : Z) e :
  pcb_made HHDM_OFFSET kheap_list (push_event e s) bs new v bs1 → n ≤ Z.of_nat (size (free_frames (kn_vmm (env s)))) → n ≤ Z.of_nat (size (free_frames v)).
Proof using.
  intros Hpm. unfold free_frames. rewrite (pm_pages _ _ _ _ _ _ _ Hpm).
  change (pg_alloc (vm_pg (kn_vmm (env (push_event e s))))) with (push_event e (pg_alloc (vm_pg (kn_vmm (env s))))). by rewrite fa_trace_set.
Qed.

(** The new space: room for the areas, frames for the pages, the kernel's half. *)
Lemma space_ready s bs qs ps entry l e proc v1 bs1 v2 bs2 mm k :
  image_ready s bs qs ps entry l → pcb_made HHDM_OFFSET kheap_list (push_event e s) bs proc v1 bs1 →
  space_made HHDM_OFFSET kheap_list v1 bs1 v2 bs2 mm k →
  segs_ok elf l ∧ zlen l + 1 ≤ room bs2 ∧ 16 + 4 * pages_of (l ++ [stack_segment]) ≤ Z.of_nat (size (free_frames v2))
  ∧ kva HHDM_OFFSET k = pa2kva HHDM_OFFSET (k * PAGE_SIZE) ∧ private (vm_pg v2) (kva HHDM_OFFSET k) (kernel_pml4 (vm_pg v2))
  ∧ cr3_root HHDM_OFFSET (vm_pg v2) = kernel_pml4 (vm_pg v2).
Proof.
  intros [_ _ Hcr _ _ _ Hsegs Hroomy Hfr _] Hpm Hm.
  destruct (made_room _ _ _ _ _ _ Hroomy ltac:(auto) Hpm) as [_ Hroom]. pose proof (start_frames _ _ _ _ _ _ _ Hpm Hfr) as Hfr1.
  pose proof (ha_pages _ _ _ _ (proj1 (pm_heap _ _ _ _ _ _ _ Hpm)) : pt_wf (vm_pg v1) (kernel_pml4 (vm_pg v1))) as Hkr.
  pose proof (sm_frame _ _ _ _ _ _ _ _ Hm) as Hk. pose proof (fa_range _ _ (wf_alloc _ _ _ Hkr) Hk). pose proof (pm_pages _ _ _ _ _ _ _ Hpm) as Epg.
  destruct (sm_regs _ _ _ _ _ _ _ _ Hm) as [R1 R2].
  split; [|split; [by eapply Hroom|split; [|split; [|split]]]].
  - destruct Hsegs as [Q1 Q2]. apply Forall_app in Q1 as [Q1 _]. split; [done|]. intros i j x y Hi Hj. apply Q2; by apply lookup_app_l_Some.
  - rewrite (sm_free _ _ _ _ _ _ _ _ Hm), size_difference, size_singleton by set_solver. lia.
  - rewrite (pa2kva_frame _ _ (wf_hhdm _ _ _ Hkr)); [done|lia].
  - rewrite R1. by apply (sm_kept _ _ _ _ _ _ _ _ Hm).
  - unfold cr3_root in *. rewrite R1, R2, Epg. exact Hcr.
Qed.

(** The context of the new process is written at the top of its kernel stack. *)
Lemma wp_user_context (sb : St) proc c v ptr tb kt entry (rest : M St Z) (Q : Z → St → Prop) :
  stack_page HHDM_OFFSET (vm_pg v) tb kt →
  (∀ p, frame_written HHDM_OFFSET kt (vm_pg v) p → words_at p (tb + 8 * 504) (user_context entry) → wp rest (at_proc sb proc c (set_pg p v) ptr) Q) →
  wp (on_page (store_words HHDM_OFFSET (tb + 8 * 504) (replicate 8 0));; on_page (store_word HHDM_OFFSET (tb + 8 * 511) user_entry_addr);;
      on_page (store_word HHDM_OFFSET (tb + 8 * 507) entry);; on_page (store_word HHDM_OFFSET (tb + 8 * 506) USER_STACK_TOP);; rest)
    (at_proc sb proc c v ptr) Q.
Proof.
  intros Hsp Hrest. apply wp_bind, wp_page. eapply wp_mono; [by apply (store_words_ok HHDM_OFFSET junk tb kt (replicate 8 0) 504)|].
  cbn beta. intros _ p1 [Hs1 Hw1].
  apply wp_bind, wp_page. eapply wp_mono; [by apply (store_word_ok HHDM_OFFSET junk tb kt 511)|]. cbn beta. intros _ p2 [Hs2 Hw2].
  apply wp_bind, wp_page. eapply wp_mono; [by apply (store_word_ok HHDM_OFFSET junk tb kt 507)|]. cbn beta. intros _ p3 [Hs3 Hw3].
  apply wp_bind, wp_page. eapply wp_mono; [by apply (store_word_ok HHDM_OFFSET junk tb kt 506)|]. cbn beta. intros _ p4 [Hs4 Hw4].
  destruct (user_context_ok _ _ _ _ _ tb kt entry Hw1 Hw2 Hw3 Hw4 Hs4) as [Hw Hctx]. by apply (Hrest p4).
Qed.

(** The user's stack is mapped and cleared while CR3 holds the new space. *)
Lemma wp_user_stack (sb : St) proc c v2 bs2 root pa l v3 bs3 m3 xs3 ptr (fail rest : M St Z) (Q : Z → St → Prop) :
  loading v2 bs2 (p_mm c) root pa l v3 bs3 m3 xs3 → root = pa2kva HHDM_OFFSET pa → segs_ok elf (l ++ [stack_segment]) →
  0 < room bs3 → 16 ≤ Z.of_nat (size (free_frames v3)) →
  (∀ v bs m xs, loading v2 bs2 (p_mm c) root pa (l ++ [stack_segment]) v bs m xs → wp rest (at_proc sb proc c v ptr) Q) →
  wp (old_cr3 ← rcr3; m ← mm_of proc; lcr3 (mm_pml4_pa m);;
      ok ← on_vm (mm_map_range HHDM_OFFSET kheap_list (p_mm c) (USER_STACK_TOP - USER_STACK_SIZE) USER_STACK_SIZE (Z.lor (Z.lor VM_READ VM_WRITE) VM_STACK));
      if negb ok then kprintln "Error: Failed to map user stack";; lcr3 old_cr3;; fail else
      on_page (memset_va HHDM_OFFSET junk (USER_STACK_TOP - USER_STACK_SIZE) 0 USER_STACK_SIZE);; lcr3 old_cr3;; rest)
    (at_proc sb proc c v3 ptr) Q.
Proof using Helf.
  intros Hl Hpa Hsegs Hroom Hfr Hrest. destruct (ld_root _ _ _ _ _ _ _ _ _ _ _ _ _ _ Hl) as [_ Epa].
  unfold rcr3. apply wp_bind, wp_gets, wp_bind, (wp_mm_of _ _ _ _ _ m3); [apply (ld_mm _ _ _ _ _ _ _ _ _ _ _ _ _ _ Hl)|].
  rewrite Epa. apply wp_bind, wp_lcr3, wp_bind, wp_vm.
  eapply wp_mono; [by apply (user_stack_ok _ _ _ _ _ _ _ _ _ _ Hl Hpa Hsegs)|]. cbn beta. intros ok v5 (-> & Hw). cbn [negb].
  apply wp_bind, wp_page. eapply wp_mono; [exact Hw|]. cbn beta. intros _ p6 (bs7 & m7 & xs7 & Hl7).
  apply wp_bind, wp_lcr3. exact (Hrest _ _ _ _ Hl7).
Qed.

(** All segments are there once the kernel stack is made and written. *)
Lemma user_bytes_loaded l v2 bs2 mm k v7 bs7 m7 xs7 p1 p4 start ks kt :
  segs_ok elf l → loading v2 bs2 mm (kva HHDM_OFFSET k) (k * PAGE_SIZE) l v7 bs7 m7 xs7 →
  range_mapped HHDM_OFFSET (kernel_pml4 (vm_pg v7)) start kstack_flags ks (vm_pg v7) p1 → kt ∈ fa_free_set (pg_alloc (vm_pg v7)) →
  frame_written HHDM_OFFSET kt p1 p4 → ∀ sg, sg ∈ l → bytes_loaded p4 (mm_pml4 m7) sg.
Proof.
  intros [Hall _] Hl Hr Hkt Hw sg Hsg. destruct (ld_segs _ _ _ _ _ _ _ _ _ _ _ _ _ _ Hl sg Hsg) as (ks' & Hks & Hkn).
  destruct (ld_root _ _ _ _ _ _ _ _ _ _ _ _ _ _ Hl) as [Er _]. pose proof (mo_wf _ _ _ _ _ _ _ (ld_mm _ _ _ _ _ _ _ _ _ _ _ _ _ _ Hl)) as Hwf.
  rewrite Er in *. apply (seg_loaded_stack (vm_pg v7) p1 p4 start kstack_flags ks kt _ sg ks'); try done; [apply Hl|by eapply Forall_forall in Hall].
Qed.

(** The kernel stacks are in the new space too, once there is a table for their area. *)
Lemma user_root_shares v1 bs1 v2 bs2 mm k pa l v7 bs7 m7 xs7 p1 p4 start flags ks tb kt t :
  pt_wf (vm_pg v1) (kernel_pml4 (vm_pg v1)) → space_made HHDM_OFFSET kheap_list v1 bs1 v2 bs2 mm k → loading v2 bs2 mm (kva HHDM_OFFSET k) pa l v7 bs7 m7 xs7 →
  range_mapped HHDM_OFFSET (kernel_pml4 (vm_pg v7)) start flags ks (vm_pg v7) p1 → kt ∈ fa_free_set (pg_alloc (vm_pg v7)) →
  stack_page HHDM_OFFSET p1 tb kt → frame_written HHDM_OFFSET kt p1 p4 →
  walk HHDM_OFFSET (pg_mem (vm_pg v1)) (kernel_pml4 (vm_pg v1)) [STACK_IDX] = Some t → shares HHDM_OFFSET p4 (kva HHDM_OFFSET k) STACK_IDX.
Proof using.
  intros Hwf Hm Hl Hr Hkt Hsp Hw Ht. assert (vpath [STACK_IDX]) as Hv by (apply Forall_singleton, idx_range).
  pose proof (sm_kept _ _ _ _ _ _ _ _ Hm _ Hwf) as Hk2. destruct (sm_regs _ _ _ _ _ _ _ _ Hm) as [R1 _].
  pose proof (ld_other _ _ _ _ _ _ _ _ _ _ _ _ _ _ Hl _ (sk_wf _ _ _ _ _ Hk2) (sk_private _ _ _ _ _ Hk2)) as Hk7.
  destruct (ld_regs _ _ _ _ _ _ _ _ _ _ _ _ _ _ Hl) as [R2 _], (rm_regs _ _ _ _ _ _ _ Hr) as [R3 _], (fw_regs _ _ _ _ Hw) as [R4 _].
  pose proof (mo_wf _ _ _ _ _ _ _ (ld_mm _ _ _ _ _ _ _ _ _ _ _ _ _ _ Hl)) as Hwf7. destruct (ld_root _ _ _ _ _ _ _ _ _ _ _ _ _ _ Hl) as [Er _]. rewrite Er in Hwf7.
  exists t. split.
  - destruct (low_kept HHDM_OFFSET (vm_pg v7) p4 _ _ (ld_private _ _ _ _ _ _ _ _ _ _ _ _ _ _ Hl) Hwf7 (stack_data_kept HHDM_OFFSET _ _ _ _ _ _ _ Hr Hkt Hw)) as (_ & Hslot & _).
    assert (walk HHDM_OFFSET (pg_mem (vm_pg v7)) (kva HHDM_OFFSET k) [STACK_IDX] = Some t) as <-.
    { apply (ld_old _ _ _ _ _ _ _ _ _ _ _ _ _ _ Hl); [done|simpl; lia|]. rewrite (sm_shared _ _ _ _ _ _ _ _ Hm); [done|]. unfold STACK_IDX. by vm_compute. }
    cbn [walk]. by rewrite Hslot by apply idx_range.
  - rewrite R4, R3. pose proof (rm_wf _ _ _ _ _ _ _ Hr) as Hwf1. pose proof (sp_table _ _ _ _ Hsp) as Hnt. rewrite R3 in Hnt.
    destruct (frame_written_kept HHDM_OFFSET p1 p4 _ kt Hwf1 Hnt Hw) as (_ & W1 & _). rewrite W1 by (done || simpl; lia).
    apply (rm_old _ _ _ _ _ _ _ Hr); [done|simpl; lia|]. rewrite R2, R1.
    rewrite (sk_walk _ _ _ _ _ Hk7), (sk_walk _ _ _ _ _ Hk2) by (done || simpl; lia). exact Ht.
Qed.

(** A new process from the image: what [create_user_process] has made. *)
Record user_made s (qs ps : list Z) (entry : Z) (l : list segment) (chars : list Z) (proc : Z) s' (mm : Z) (m : mm_struct) (pname : list Z) : Prop := {
  um_new : pcbs s !! proc = None;
  um_procs : ∃ bs', procs_ok HHDM_OFFSET kheap_list proc_list ready_queue s' bs' (qs ++ [proc]) (proc :: ps);
  um_name : cstring pname (take 32 chars);
  um_stack : kn_kstack_ptr (env s') = kn_kstack_ptr (env s) + PAGE_SIZE + KSTACK_SIZE;
  um_pcbs : pcbs s' = <[proc := user_pcb s (kn_kstack_ptr (env s')) mm pname]> (pcbs s);
  um_context : words_at (kn_pg (env s')) (kn_kstack_ptr (env s') - sizeof_context) (user_context entry);
  um_mm : vm_mms (kn_vmm (env s')) !! mm = Some m ∧ mm ≠ 0 ∧ mm_pml4 m = pa2kva HHDM_OFFSET (mm_pml4_pa m);
  um_bytes sg : sg ∈ l ++ [stack_segment] → bytes_loaded (kn_pg (env s')) (mm_pml4 m) sg;
  um_shared t : walk HHDM_OFFSET (pg_mem (kn_pg (env s))) (kernel_pml4 (kn_pg (env s))) [STACK_IDX] = Some t → shares HHDM_OFFSET (kn_pg (env s')) (mm_pml4 m) STACK_IDX;
  um_current : current_proc s' = current_proc s ∧ idle_proc s' = idle_proc s
}.

Lemma create_user_process_ok s bs qs ps entry l name chars nbytes :
  heads_ok proc_list ready_queue → image_ready s bs qs ps entry l → cstring name chars →
  wp (create_user_process HHDM_OFFSET kheap_list junk proc_list ready_queue user_entry_addr name elf nbytes) s
    (λ proc s', proc ≠ 0 ∧ ∃ mm m pname, user_made s qs ps entry l chars proc s' mm m pname).
Proof using Helf.
  intros Hh Hready Hname. pose proof Hready as [Hok Hmax _ Hmagic (segs & Himg & El) Hent Hsegs Hroomy Hfr Hst].
  cbv zeta in Hst. pose proof Hst as (P1 & P2 & P3). set (ptr := kn_kstack_ptr (env s)) in *. destruct (proc_name_ok _ _ Hname) as (n & En & Hcn & _).
  unfold create_user_process. apply wp_bind, wp_kprintf. set (e1 := EvPrint _ _).
  pose proof (procs_ok_push HHDM_OFFSET kheap_list proc_list ready_queue e1 s bs qs ps Hok) as Hok1. set (s0 := push_event e1 s) in *.
  assert (0 ≤ zlen l) as Hl0 by auto. destruct (segs_pages _ Hsegs) as [Hpg0 Hpg].
  eapply wp_bind_mono; [apply (alloc_new_pcb_ok HHDM_OFFSET kheap_list s0 bs (pr_heap _ _ _ _ _ _ _ _ Hok1)), (roomy_fits _ _ _ Hroomy)|].
  { unfold user_bytes. change (ALIGN_UP sizeof_pcb 8) with 272. lia. }
  cbn beta. intros proc s1 (v1 & bs1 & Hpm & Hc0 & ->). destruct (made_room s0 bs proc v1 bs1 (zlen l) Hroomy Hl0 Hpm) as [Hfit _].
  pose proof (pm_heap _ _ _ _ _ _ _ Hpm) as Hheap. pose proof (start_frames s bs proc v1 bs1 _ e1 Hpm Hfr) as Hfr1.
  change (kn_kstack_ptr (env s0)) with ptr. set (sb := pcb_base s0 proc).
  assert (∀ q, is_Some (pcbs s !! q) → q ≠ proc) as Hnew by (intros q; by eapply (made_fresh _ _ _ _ s0)).
  rewrite (proj2 (Z.eqb_neq proc 0) Hc0). apply wp_bind. eapply wp_name; [exact En|].
  apply wp_bind, wp_vm. eapply wp_mono; [apply (mm_alloc_ok HHDM_OFFSET kheap_list v1 bs1 Hheap Hfit)|].
  { intros He. rewrite He, size_empty in Hfr1. lia. }
  cbn beta. intros mm v2 (bs2 & k0 & Hm). apply wp_bind, wp_upd.
  destruct (space_ready s bs qs ps entry l e1 proc v1 bs1 v2 bs2 mm k0 Hready Hpm Hm) as (Hsegl & Hroom & Hfr2 & Hpa & Hpriv & Hcr2).
  rewrite (proj2 (Z.eqb_neq mm 0)) by (pose proof (mo_pos _ _ _ _ _ _ _ (sm_ok _ _ _ _ _ _ _ _ Hm)); lia).
  apply wp_bind. eapply wp_mono; [eapply (load_elf_ok HHDM_OFFSET kheap_list junk elf Helf sb proc _ v2 ptr bs2 (new_mm HHDM_OFFSET k0) entry segs);
    [exact (sm_ok _ _ _ _ _ _ _ _ Hm)|exact Hpa|exact Hpriv|exact Hmagic|exact Himg|..]; rewrite <- El; done || lia|].
  rewrite <- El. cbn beta. intros r s' (-> & v3 & bs3 & m3 & xs3 & -> & Hl). rewrite (proj2 (Z.eqb_neq entry 0) Hent).
  pose proof (ld_room _ _ _ _ _ _ _ _ _ _ _ _ _ _ Hl). pose proof (ld_cost _ _ _ _ _ _ _ _ _ _ _ _ _ _ Hl).
  apply (wp_user_stack _ _ _ _ _ _ _ _ _ _ _ _ _ _ _ _ Hl Hpa Hsegs); [lia|lia|]. intros v7 bs7 m7 xs7 Hl7.
  pose proof (ld_mm _ _ _ _ _ _ _ _ _ _ _ _ _ _ Hl7) as Hmm7. pose proof (mo_heap _ _ _ _ _ _ _ Hmm7) as Hheap7.
  pose proof (ha_pages _ _ _ _ (proj1 Hheap7) : pt_wf (vm_pg v7) (kernel_pml4 (vm_pg v7))) as Hkr7.
  assert (stack_room HHDM_OFFSET (vm_pg v7) ptr) as Hsr.
  { destruct (ld_regs _ _ _ _ _ _ _ _ _ _ _ _ _ _ Hl7) as [R1 R2]. pose proof (ld_cost _ _ _ _ _ _ _ _ _ _ _ _ _ _ Hl7).
    constructor; [done| |unfold free_frames in *; lia]. left. unfold cr3_root in *. by rewrite R1, R2. }
  apply wp_bind, wp_stack. eapply wp_mono; [by apply (new_stack HHDM_OFFSET junk)|].
  cbn beta. intros top k (-> & Etop & ks & kt & _ & Hr & Hkt & Hsp). rewrite Etop. set (top := ptr + PAGE_SIZE + KSTACK_SIZE) in *.
  destruct (stack_top_page ptr (conj P1 P2)) as (Ht0 & Esub & Eu & Ec & _). fold top in Ht0, Esub, Eu, Ec.
  rewrite (proj2 (Z.eqb_neq top 0) Ht0). apply wp_bind, wp_upd, wp_bind, wp_upd, wp_bind, wp_upd.
  rewrite Ec, (Eu (8 * 504)) by done. rewrite <- !Z.add_assoc.
  change (8 * 504 + ctx_rip) with (8 * 511). change (8 * 504 + ctx_r12) with (8 * 507). change (8 * 504 + ctx_r13) with (8 * 506).
  rewrite !Eu by done. set (tb := top - PAGE_SIZE) in *. set (v8 := set_pg (ks_pg k) v7).
  apply (wp_user_context _ _ _ v8 _ tb kt entry); [exact Hsp|]. intros p4 Hw Hctx. apply wp_bind, wp_upd, wp_bind, wp_upd, wp_bind, wp_upd.
  rewrite Esub. set (c := with_state _ _). set (v9 := set_pg p4 v8).
  assert (heap_ok (vm_kheap v9) bs7) as Hh9.
  { apply (heap_written HHDM_OFFSET kheap_list v8 bs7 tb kt p4); [|done|done]. by apply (heap_range _ _ v7 bs7 (ptr + PAGE_SIZE) kstack_flags ks). }
  eapply wp_bind_mono; [apply (spawn_enqueue HHDM_OFFSET kheap_list junk proc_list ready_queue s0 bs qs ps proc c v9 bs7 top); try done|].
  { by eapply (user_world s0 bs qs ps proc v1 bs1 v2 bs2 mm k0). }
  { intros _. exists m7. apply Hmm7. }
  cbn beta. intros _ s' (Hok' & l' & ->). apply wp_bind, wp_kprintf, wp_ret. split; [done|]. exists mm, m7, (zinsert PROCNAME_LEN 0 n).
  constructor.
  - apply eq_None_not_Some. intros Hs. by apply (Hnew proc Hs).
  - exists bs7. by apply procs_ok_push.
  - done.
  - done.
  - unfold user_pcb. cbv zeta. change (kn_kstack_ptr _) with top. rewrite Ec. done.
  - apply words_at_push. change (kn_kstack_ptr _) with top. rewrite Ec. exact Hctx.
  - split; [apply Hmm7|]. split; [apply Z.lt_gt_cases; right; exact (mo_pos _ _ _ _ _ _ _ Hmm7)|]. destruct (ld_root _ _ _ _ _ _ _ _ _ _ _ _ _ _ Hl7) as [-> ->]. exact Hpa.
  - exact (user_bytes_loaded (l ++ [stack_segment]) v2 bs2 mm k0 v7 bs7 m7 xs7 (ks_pg k) p4 (ptr + PAGE_SIZE) ks kt Hsegs Hl7 Hr Hkt Hw).
  - intros t Ht. destruct (ld_root _ _ _ _ _ _ _ _ _ _ _ _ _ _ Hl7) as [Er _]. rewrite Er.
    refine (user_root_shares v1 bs1 v2 bs2 mm k0 _ _ v7 bs7 m7 xs7 (ks_pg k) p4 _ _ ks tb kt t (ha_pages _ _ _ _ (proj1 Hheap)) Hm Hl7 Hr Hkt Hsp Hw _).
    rewrite (pm_pages _ _ _ _ _ _ _ Hpm). exact Ht.
  - done.
Qed.

(** C6: from an ELF image with non-empty segments of the lower half on pages of their own,
    with heap, frames and stack area left, [create_user_process] makes a new process,
    ready, with no parent, the next PID and the name cut to 32 characters; every byte of
    every loadable segment is, in the space of the new process, the byte of the file or
    zero behind the file's part, and the user's stack below [USER_STACK_TOP] is zero;
    the kernel stack holds the context that enters [user_entry] with the entry point and
    the top of the user's stack; the invariant of the processes and the scheduler holds
    again, and no other process changes; when a stack was made before, the new space has
    the kernel's tables for the stacks, so that the context is there once CR3 is loaded. *)
Theorem create_user_process_runs s bs qs ps entry l name chars nbytes :
  heads_ok proc_list ready_queue → image_ready s bs qs ps entry l → cstring name chars →
  wp (create_user_process HHDM_OFFSET kheap_list junk proc_list ready_queue user_entry_addr name elf nbytes) s (λ proc s', ∃ mm m pname,
    pcbs s !! proc = None ∧ (∃ bs', procs_ok HHDM_OFFSET kheap_list proc_list ready_queue s' bs' (qs ++ [proc]) (proc :: ps))
    ∧ cstring pname (take 32 chars)
    ∧ let top := kn_kstack_ptr (env s) + PAGE_SIZE + KSTACK_SIZE in
      kn_kstack_ptr (env s') = top ∧ pcbs s' = <[proc := user_pcb s top mm pname]> (pcbs s)
    ∧ words_at (kn_pg (env s')) (top - sizeof_context) (user_context entry)
    ∧ vm_mms (kn_vmm (env s')) !! mm = Some m
    ∧ (∀ sg, sg ∈ l ++ [stack_segment] → bytes_loaded (kn_pg (env s')) (mm_pml4 m) sg)
    ∧ ∀ t, walk HHDM_OFFSET (pg_mem (kn_pg (env s))) (kernel_pml4 (kn_pg (env s))) [STACK_IDX] = Some t → shares HHDM_OFFSET (kn_pg (env s')) (mm_pml4 m) STACK_IDX).
Proof using Helf.
  intros Hh Hr Hn. eapply wp_mono; [by eapply create_user_process_ok|]. cbn beta. intros proc s' (_ & mm & m & pname & [Q1 Q2 Q3 Q4 Q5 Q6 [Q7 _] Q8 Q9 _]).
  exists mm, m, pname. rewrite Q4 in Q5, Q6. done.
Qed.
End userproc.

(** * Witness: an image with one segment of three bytes and two of bss *)

Section example.
Let H := KERNEL_HHDM_BASE.

Definition bytes_le (n : nat) (x : Z) : list Z := map (λ i : nat, Z.land (Z.shiftr x (8 * Z.of_nat i)) 255) (seq 0 n).
Definition elf_example : list Z :=
  elf_magic ++ replicate 20 0 ++ bytes_le 8 0x10000 ++ bytes_le 8 64 ++ replicate 16 0 ++ bytes_le 2 1 ++ replicate 6 0
  ++ bytes_le 4 PT_LOAD ++ bytes_le 4 PF_X ++ bytes_le 8 120 ++ bytes_le 8 0x10000 ++ bytes_le 8 0x10000 ++ bytes_le 8 3 ++ bytes_le 8 5 ++ bytes_le 8 PAGE_SIZE
  ++ [0xEB; 0xFE; 0x90].
Definition segment_example : segment := Segment PT_LOAD PF_X 120 0x10000 3 5.

Lemma elf_example_bytes : Forall (λ b, 0 ≤ b < 2 ^ 8) elf_example.
Proof. apply (bool_decide_unpack _). by vm_compute. Qed.

Lemma elf_example_image : elf_image elf_example = Ok (0x10000, [segment_example]).
Proof. by vm_compute. Qed.

Lemma elf_example_segs : segs_ok elf_example [segment_example; stack_segment].
Proof.
  split.
  - constructor; [|by apply Forall_singleton, stack_segment_ok]. by constructor; apply (bool_decide_unpack _); vm_compute.
  - intros [|[|i]] [|[|j]] x y; cbn; intros [= <-] [= <-] ?; try lia. left. by apply (bool_decide_unpack _); vm_compute.
Qed.

Lemma elf_example_pages : 17 + 4 * pages_of [segment_example; stack_segment] = 37.
Proof. by vm_compute. Qed.

Lemma image_example : ∃ s bs, image_ready H list_example proc_list_example ready_example elf_example s bs [] [current_proc s] 0x10000 [segment_example]
  ∧ kn_kstack_ptr (env s) = KERNEL_STACK_BASE.
Proof.
  destruct idle_example as (s & bs & Hok & Hpid & Hroom & Hk & Hpages & _). destruct kern_boot_room as [B1 B2]. destruct Hpages as (_ & [R1 R2] & _ & Hfs).
  exists s, bs. split; [|exact Hk]. constructor.
  - exact Hok.
  - exact (second_pid _ Hpid).
  - rewrite R1, <- B1. unfold cr3_root. rewrite R2. reflexivity.
  - reflexivity.
  - exists [segment_example]. split; [exact elf_example_image|reflexivity].
  - discriminate.
  - exact elf_example_segs.
  - exact (roomy_least 600 3624 bs eq_refl Hroom).
  - change ([segment_example] ++ [stack_segment]) with [segment_example; stack_segment]. rewrite elf_example_pages.
    unfold free_frames. change (vm_pg (kn_vmm (env s))) with (kn_pg (env s)). rewrite Hfs. clear - B2. lia.
  - rewrite Hk. exact first_stack.
Qed.

Lemma lit_init : cstring (lit "init") (chars "init").
Proof. apply cstring_lit. by apply (bool_decide_unpack _); vm_compute. Qed.

Definition user_entry_example : Z := 0xFFFFFFFF80002100.

Lemma create_user_process_runs_witness :
  ∃ s s' proc m, create_user_process H list_example (λ _, 0) proc_list_example ready_example user_entry_example (lit "init") elf_example 123 s = Ok (proc, s')
    ∧ (∃ bs', procs_ok H list_example proc_list_example ready_example s' bs' [proc] [proc; current_proc s])
    ∧ bytes_loaded H (λ _, 0) elf_example (kn_pg (env s')) (mm_pml4 m) segment_example.
Proof.
  destruct image_example as (s & bs & Hr & Hk).
  destruct (wp_inv _ _ _ (create_user_process_runs H list_example (λ _, 0) proc_list_example ready_example user_entry_example elf_example elf_example_bytes
    s bs [] [current_proc s] 0x10000 [segment_example] (lit "init") (chars "init") 123 heads_example Hr lit_init))
    as (proc & s' & E & mm & m & pname & _ & Hok & _ & _ & _ & _ & _ & Hb & _).
  exists s, s', proc, m. split; [exact E|]. split; [exact Hok|]. apply Hb. left.
Defined.
End example.
