(* ===== verification/Boot.v ===== *)
(** Boot: [mm_init] of [kernel/src/main.c]: from the boot loader's memory map to the
    kernel's address space, heap and stack, in the state [proc_init] asks for. *)
From S2P Require Import Prelude Layout Frames Pmm Paging Range CString Klist Sched Kheap Debugmm Kstack Vaccess Vmm Vmmcopy Stack Proc Spawn.

(** [for (;;) hlt] *)
Definition hcf {St R} `{!Traced St} : M St R := emit EvHlt;; crash Halted.

(** Pages of the first heap and of the kernel's stack. *)
Definition HEAP_PAGES : nat := 4.

Section boot.
  Context (kheap_list : Z) (junk : list Z).
  Abbreviation St := (proc_st (kern pmm_st)).

(** [k_start_va] and [k_end_va] are the linker's bounds of the image, [kaddr] the boot
    loader's answer where it is loaded; [None] stands for a NULL response. *)
Definition mm_init (mmap : option (list memmap_entry)) (hhdm : option Z) (k_start_va k_end_va : Z) (kaddr : option (Z * Z)) : M St unit :=
  kprintln "Initializing Memory Management Subsystem...";;
  match hhdm with
  | None => hcf
  | Some HHDM_OFFSET =>
    debug_memmap junk mmap;;
    kprintf "HHDM OFFSET: %lx\n" [KInt HHDM_OFFSET];;
    match mmap with
    | None => crash NullDeref
    | Some entries =>
      on_page (on_alloc (pmm_init HHDM_OFFSET entries));;
      total ← gets (λ s : St, Pmm.total_pages (pg_alloc (kn_pg (env s))));
      on_page (paging_init HHDM_OFFSET k_start_va k_end_va kaddr total entries);;
      on_vm (zoom vm_kheap set_kheap (kheap_init (KernelPages0 := kernel_pages HHDM_OFFSET) kheap_list HEAP_PAGES));;
      ksptr ← on_kstack (kstack_init HHDM_OFFSET (4 * PAGE_SIZE));
      if ksptr =? 0 then hcf else
      set_tss_stack ksptr;;
      kprintf "Switching stack to %lx\n" [KInt ksptr]
    end
  end.

(** * The heap's first pages *)

Section pages.
  Context (HHDM_OFFSET : Z).
  Abbreviation steps := (rtc (pages_step (KernelPages0 := kernel_pages HHDM_OFFSET))).
  Abbreviation pt_wf := (pt_wf HHDM_OFFSET).

Lemma pages_step_regs (p p' : pg_st pmm_st) :
  pt_wf p (kernel_pml4 p) → pages_step (KernelPages0 := kernel_pages HHDM_OFFSET) p p' → pt_wf p' (kernel_pml4 p') ∧ same_regs p p'.
Proof.
  intros Hwf (va & k & p1 & Hk & Ea & Em). cbn [kp_alloc_page kp_map kernel_pages] in Ea, Em.
  pose proof (alloc_page_spec HHDM_OFFSET p Hwf) as Hw. unfold wp in Hw. rewrite Ea in Hw. destruct Hw as (Hwf1 & _ & _).
  assert (same_regs p p1) as [R1 R2].
  { unfold on_alloc, zoom in Ea. destruct (fa_alloc (pg_alloc p)) as [[r a]|]; [|done]. by injection Ea as _ <-. }
  unfold map_kernel_page in Em. cbv [gets mbind M_bind] in Em.
  pose proof (vmm_map_page_wp HHDM_OFFSET p1 (kernel_pml4 p1) va (k * PAGE_SIZE) _ Hwf1 (proj1 expand_flags) (proj2 expand_flags)) as Hw.
  unfold wp in Hw. rewrite Em in Hw. destruct Hw as (Hwf' & [R3 R4] & _). split; [by rewrite R3|]. split; congruence.
Qed.

Lemma steps_regs (p p' : pg_st pmm_st) : pt_wf p (kernel_pml4 p) → steps p p' → same_regs p p'.
Proof.
  intros Hwf Hs. induction Hs as [|p p1 p' H1 _ IH]; [done|]. destruct (pages_step_regs p p1 Hwf H1) as [Hwf1 [R1 R2]].
  destruct (IH Hwf1) as [R3 R4]. split; congruence.
Qed.
End pages.

(** * [mm_init] *)

Context (HHDM_OFFSET : Z) (entries : list memmap_entry) (k_start_va k_end_va kva_base kpa_base : Z).
Definition image_size : Z := ALIGN_UP (u64 (k_end_va - k_start_va)) PAGE_SIZE.

(** A memory map with room for the bitmap and [n] frames beyond those of the boot, in
    reach of the direct map, and an image that holds the list head of the heap. *)
Record boot_ready (n : nat) : Prop := {
  bt_junk : (64 ≤ length junk)%nat;
  bt_valid : Forall valid_entry entries;
  bt_bitmap : find_bitmap_pa entries (bitmap_bytes (highest_address entries / PAGE_SIZE)) ≠ 0;
  bt_hhdm : 0 < HHDM_OFFSET ∧ HHDM_OFFSET + highest_address entries / PAGE_SIZE * PAGE_SIZE ≤ 2 ^ 64;
  bt_image : 0 ≤ kva_base ∧ kva_base mod PAGE_SIZE = 0 ∧ kva_base + image_size ≤ 2 ^ 64 ∧ image_size mod PAGE_SIZE = 0;
  bt_head : kva_base ≤ kheap_list ∧ kheap_list + 16 ≤ kva_base + image_size ∧ ¬ KERNEL_HEAP_BASE ≤ kheap_list < KERNEL_MMIO_BASE;
  bt_frames : (1 + size (map_tables (init_maps HHDM_OFFSET image_size kva_base kpa_base entries)) + 32 + n ≤ size (boot_free_set entries))%nat
}.

Definition first_block : block := Block KERNEL_HEAP_BASE (Z.of_nat HEAP_PAGES * PAGE_SIZE - HEADER_SIZE) true.
Definition first_top : Z := KERNEL_STACK_BASE + PAGE_SIZE + KSTACK_SIZE.

(** What the rest of the boot starts from. *)
Record mm_ready (n : nat) (s s' : St) : Prop := {
  mr_heap : kheap_ok (KernelPages0 := kernel_pages HHDM_OFFSET) kheap_list (vm_kheap (kn_vmm (env s'))) [first_block];
  mr_root : cr3_root HHDM_OFFSET (kn_pg (env s')) = kernel_pml4 (kn_pg (env s'));
  mr_frames : (n ≤ size (fa_free_set (pg_alloc (kn_pg (env s')))))%nat;
  mr_stack : kn_kstack_ptr (env s') = first_top ∧ tss_rsp0 s' = first_top;
  mr_table : ∃ t, walk HHDM_OFFSET (pg_mem (kn_pg (env s'))) (kernel_pml4 (kn_pg (env s'))) [STACK_IDX] = Some t;
  mr_procs : pcbs s' = pcbs s ∧ next_pid s' = next_pid s
}.

(** Mapped pages have a translation, whatever is mapped twice. *)
Lemma apply_maps_some flags l va d : is_Some d ∨ (∃ x, x ∈ l ∧ vpn x.1 = vpn va) → is_Some (apply_maps flags l va d).
Proof.
  revert d. induction l as [|x l IH]; intros d H; [destruct H as [?|(? & []%elem_of_nil & _)]; done|].
  cbn [apply_maps foldl]. apply IH. case_decide as Hv; [left; by eexists|]. destruct H as [H|(y & [->|Hy]%elem_of_cons & Hyv)]; [by left|done|].
  right. by exists y.
Qed.

Lemma image_mapped n a : boot_ready n → kva_base ≤ a < kva_base + image_size →
  ∃ x, x ∈ init_maps HHDM_OFFSET image_size kva_base kpa_base entries ∧ vpn x.1 = vpn a.
Proof.
  intros [_ _ _ _ (H1 & H2 & H3 & H4) _ _] Ha. set (i := (a - kva_base) / PAGE_SIZE * PAGE_SIZE).
  exists (u64 (kva_base + i), u64 (kpa_base + i)). split.
  - unfold init_maps. apply elem_of_app. left. unfold kernel_maps. apply list_elem_of_fmap. exists i. split; [done|].
    apply elem_of_pages; [by rewrite Z.sub_0_r|]. unfold i, PAGE_SIZE in *. Z.to_euclidean_division_equations; lia.
  - cbn [fst]. rewrite u64_small by (unfold i, PAGE_SIZE in *; Z.to_euclidean_division_equations; lia).
    unfold vpn. f_equal. unfold i, PAGE_SIZE in *. Z.to_euclidean_division_equations; lia.
Qed.

Lemma valid_sane e : valid_entry e → entry_sane e.
Proof. intros (H1 & H2 & H3). unfold PAGE_SIZE in *. split; lia. Qed.

(** Before the first allocation. *)
Record cold s : Prop := {
  cd_free : free_pages (pg_alloc (kn_pg (env s))) = 0;
  cd_last : last_free_index (pg_alloc (kn_pg (env s))) = 0;
  cd_stack : kn_kstack_ptr (env s) = KERNEL_STACK_BASE
}.

Lemma cold_printed (s s' : St) : cold s → printed s s' → cold s' ∧ pcbs s' = pcbs s ∧ next_pid s' = next_pid s.
Proof.
  intros Hc. apply (printed_inv (λ x, cold x ∧ pcbs x = pcbs s ∧ next_pid x = next_pid s)); [|done].
  intros e x ([H1 H2 H3] & H4 & H5). split; [by constructor|]. by split.
Qed.

Lemma wp_pages {R} (m : M (pg_st pmm_st) R) (s : St) (Q : R → St → Prop) :
  wp m (kn_pg (env s)) (λ r p, Q r (set_env (set_kn_pg p (env s)) s)) → wp (on_page m) s Q.
Proof. intros H. unfold on_page, on_env. apply wp_zoom, wp_zoom. exact H. Qed.

(** The allocator and the page tables. *)
Record memory_up (n : nat) (p : pg_st pmm_st) : Prop := {
  mu_wf : pt_wf HHDM_OFFSET p (kernel_pml4 p);
  mu_root : cr3_root HHDM_OFFSET p = kernel_pml4 p;
  mu_head : kernel_mapped HHDM_OFFSET p kheap_list = true ∧ kernel_mapped HHDM_OFFSET p (kheap_list + 15) = true;
  mu_frames : (32 + n ≤ size (fa_free_set (pg_alloc p)))%nat
}.

Lemma wp_memory n (s : St) (rest : M St unit) (Q : unit → St → Prop) : boot_ready n → cold s →
  (∀ p, memory_up n p → wp rest (set_env (set_kn_pg p (env s)) s) Q) →
  wp (on_page (on_alloc (pmm_init HHDM_OFFSET entries));;
      total ← gets (λ s : St, Pmm.total_pages (pg_alloc (kn_pg (env s))));
      on_page (paging_init HHDM_OFFSET k_start_va k_end_va (Some (kva_base, kpa_base)) total entries);; rest) s Q.
Proof.
  intros Hb [C1 C2 C3] Hrest. pose proof Hb as [_ B2 B3 B4 B5 B6 B7].
  apply wp_bind, wp_pages. unfold on_alloc. apply wp_zoom. eapply wp_mono; [by apply pmm_init_wp|]. cbn beta.
  intros _ a (Hok & Hfs & Htot). apply wp_bind, wp_gets, wp_bind, wp_pages. set (s1 := set_env _ s).
  change (kn_pg (env s1)) with (set_pg_alloc a (kn_pg (env s))). set (p1 := set_pg_alloc a (kn_pg (env s))).
  eapply wp_mono; [apply paging_init_wp; [exact Hok| |]|].
  - split; [apply B4|]. change (HHDM_OFFSET + Pmm.total_pages a * PAGE_SIZE ≤ 2 ^ 64). rewrite Htot. apply B4.
  - intros He. change (free_set a = ∅) in He. rewrite Hfs in He. rewrite He, size_empty in B7. lia.
  - cbn beta. intros _ p (k & Hk & Hroot & Hcr3 & Hwf & Ht & Hcost). change (fa_free_set (pg_alloc p1)) with (free_set a) in *.
    rewrite Hfs in Hcost, Hk. fold image_size in Hcost, Ht. apply Hrest.
    assert (32 + n ≤ size (fa_free_set (pg_alloc p)))%nat as Hn by lia.
    destruct Ht as [He|Ht]; [rewrite He, size_empty in Hn; lia|].
    assert (∀ a, kva_base ≤ a < kva_base + image_size → kernel_mapped HHDM_OFFSET p a = true) as Hm.
    { intros x Hx. unfold kernel_mapped. rewrite Hroot, Ht. apply bool_decide_eq_true. apply apply_maps_some. right. by eapply image_mapped. }
    constructor; [by rewrite Hroot| |split; apply Hm; lia|done].
    rewrite Hroot. unfold cr3_root. rewrite Hcr3. apply (pa2kva_frame _ a); [|pose proof (fa_range a k Hok); rewrite <- Hfs in Hk; specialize (H Hk); lia].
    split; [apply B4|]. change (HHDM_OFFSET + Pmm.total_pages a * PAGE_SIZE ≤ 2 ^ 64). rewrite Htot. apply B4.
Qed.

(** The heap's first pages, over pages that are up. *)
Lemma wp_first_heap n (s : St) p (Q : unit → St → Prop) :
  boot_ready n → memory_up n p →
  (∀ h, kheap_ok (KernelPages0 := kernel_pages HHDM_OFFSET) kheap_list h [first_block] → same_regs p (kh_pages h) →
    (16 + n ≤ size (fa_free_set (pg_alloc (kh_pages h))))%nat → Q tt (set_env (set_kn_vmm (set_kheap h (kn_vmm (env s))) (env s)) s)) →
  kn_pg (env s) = p →
  wp (on_vm (zoom vm_kheap set_kheap (kheap_init (KernelPages0 := kernel_pages HHDM_OFFSET) kheap_list HEAP_PAGES))) s Q.
Proof.
  intros Hb [U1 U2 [U3 U4] U5] HQ Ep. unfold on_vm, on_env. apply wp_zoom, wp_zoom, wp_zoom. change (vm_kheap (kn_vmm (env s))) with (vm_kheap (kn_vmm (env s))).
  assert (kh_pages (vm_kheap (kn_vmm (env s))) = p) as Ep' by exact Ep.
  eapply wp_mono; [apply (kheap_init_ok (KernelPages0 := kernel_pages HHDM_OFFSET) kheap_list _ 3)|].
  - rewrite Ep'. exact U1.
  - split; [rewrite Ep'; exact U3|]. split; [rewrite Ep'; exact U4|]. apply (bt_head _ Hb).
  - unfold KERNEL_MMIO_BASE, KERNEL_HEAP_BASE, PAGE_SIZE. lia.
  - rewrite Ep'. change (4 * 4 ≤ size (fa_free_set (pg_alloc p)))%nat. lia.
  - cbn beta. intros [] h (Hh & Hf & e & e' & p1 & Hs & Eh). rewrite Ep' in *. apply HQ; [exact Hh| |].
    + pose proof (pt_wf_alloc HHDM_OFFSET p _ (push_event e (pg_alloc p)) U1) as Hwf.
      assert (pt_wf HHDM_OFFSET (push_event e p) (kernel_pml4 (push_event e p))) as Hwf1.
      { apply Hwf; [by apply fa_trace_ok, (wf_alloc _ _ _ U1)|by apply fa_trace_frames|by rewrite fa_trace_set]. }
      destruct (steps_regs HHDM_OFFSET _ _ Hwf1 Hs) as [R1 R2]. rewrite Eh. split; [exact R1|exact R2].
    + change (size (fa_free_set (pg_alloc p)) ≤ size (fa_free_set (pg_alloc (kh_pages h))) + 4 * 4)%nat in Hf. lia.
Qed.

(** The whole of it. *)
Lemma mm_init_ok n (s : St) : boot_ready n → cold s →
  wp (mm_init (Some entries) (Some HHDM_OFFSET) k_start_va k_end_va (Some (kva_base, kpa_base))) s (λ _ s', mm_ready n s s').
Proof.
  intros Hb Hc. unfold mm_init. apply wp_bind, wp_kprintln. set (s0 := push_event _ s).
  assert (printed s s0) as Hp0 by apply printed_push, printed_refl.
  eapply wp_bind_mono; [apply (debug_memmap_prints junk (bt_junk _ Hb))|].
  { eapply Forall_impl; [apply (bt_valid _ Hb)|apply valid_sane]. }
  cbn beta. intros _ s1 [Hp1 _]. apply wp_bind, wp_kprintf. set (s2 := push_event _ s1).
  assert (printed s0 s2) as Hp2 by by apply printed_push. destruct (cold_printed s s0 Hc Hp0) as (Hc0 & Q1 & Q2).
  destruct (cold_printed s0 s2 Hc0 Hp2) as (Hc2 & Q3 & Q4).
  apply (wp_memory n); [done|done|]. intros p Hp. set (s3 := set_env _ s2).
  apply wp_bind. apply (wp_first_heap n s3 p); [done|done| |done]. intros h Hh [R1 R2] Hfr. set (s4 := set_env _ s3).
  apply wp_bind. unfold on_kstack, on_env. apply wp_zoom, wp_zoom. change (kn_pg (env s4)) with (kh_pages h).
  change (kn_kstack_ptr (env s4)) with (kn_kstack_ptr (env s2)). rewrite (cd_stack _ Hc2).
  pose proof (mu_root _ _ Hp) as Hroot.
  eapply wp_mono; [apply (new_stack HHDM_OFFSET (λ _, 0)); [exact (ha_pages _ _ _ _ (proj1 Hh))|]|].
  { constructor; [|left|lia].
    - split; [done|]. split; [unfold PAGE_SIZE, KSTACK_SIZE; lia|done].
    - unfold cr3_root in *. by rewrite R1, R2. }
  cbn beta. intros top k (-> & Etop & ks & kt & Hlk & Hr & _ & Hsp). change (KERNEL_STACK_BASE + PAGE_SIZE + KSTACK_SIZE) with first_top.
  rewrite (proj2 (Z.eqb_neq first_top 0)) by done. apply wp_bind, wp_modify, wp_kprintf.
  pose proof (heap_range HHDM_OFFSET kheap_list (kn_vmm (env s4)) [first_block] _ _ ks (ks_pg k) Hh Hr) as Hh5.
  destruct (rm_regs _ _ _ _ _ _ _ Hr) as [R3 R4]. pose proof (rm_cost _ _ _ _ _ _ _ Hr) as Hcost. change (kn_pg (env s4)) with (kh_pages h) in Hcost.
  constructor.
  - apply heap_pushed. exact Hh5.
  - change (cr3_root HHDM_OFFSET (ks_pg k) = kernel_pml4 (ks_pg k)). unfold cr3_root in *. by rewrite R3, R4, R1, R2.
  - change (n ≤ size (fa_free_set (pg_alloc (ks_pg k))))%nat. lia.
  - split; [exact Etop|done].
  - destruct (sp_shared _ _ _ _ Hsp) as (t & _ & Ht). by exists t.
  - split; [exact (eq_trans Q3 Q1)|exact (eq_trans Q4 Q2)].
Qed.

(** * [kernel_init]: memory, then processes *)

Context (proc_list ready_queue : Z).

(** The calls of [kernel_init] from [mm_init] to [proc_init]. *)
Definition kernel_init_proc (mmap : option (list memmap_entry)) (hhdm : option Z) (kaddr : option (Z * Z)) : M St unit :=
  mm_init mmap hhdm k_start_va k_end_va kaddr;;
  kprintln "Switched to new kernel stack done!";;
  proc_init HHDM_OFFSET kheap_list proc_list ready_queue.

Definition first_room : Z := Z.of_nat HEAP_PAGES * PAGE_SIZE - HEADER_SIZE - pcb_bytes.

(** The first process, and what is left for the next ones: [n] frames, and [room] bytes of
    the heap in one piece. *)
Record idle_ready (n : nat) (room : Z) s' (bs : list block) : Prop := {
  id_procs : procs_ok HHDM_OFFSET kheap_list proc_list ready_queue s' bs [] [current_proc s'];
  id_idle : idle_proc s' = current_proc s';
  id_pid : next_pid s' = 1;
  id_room : roomy room bs;
  id_frames : (n ≤ size (fa_free_set (pg_alloc (kn_pg (env s')))))%nat;
  id_root : cr3_root HHDM_OFFSET (kn_pg (env s')) = kernel_pml4 (kn_pg (env s'));
  id_stack : kn_kstack_ptr (env s') = first_top;
  id_table : ∃ t, walk HHDM_OFFSET (pg_mem (kn_pg (env s'))) (kernel_pml4 (kn_pg (env s'))) [STACK_IDX] = Some t;
  id_pcb : ∃ c, pcbs s' !! current_proc s' = Some c ∧ p_mm c = 0 ∧ p_pid c = 0 ∧ p_state c = PROC_RUNNING ∧ cstring (p_name c) (chars "idle")
}.

Lemma first_block_roomy : roomy (Z.of_nat HEAP_PAGES * PAGE_SIZE - HEADER_SIZE) [first_block].
Proof. exists first_block. split; [by left|]. split; [done|]. unfold first_block. simpl. lia. Qed.

Lemma kernel_init_proc_ok n (s : St) :
  boot_ready n → cold s → heads_ok proc_list ready_queue → pcbs s = ∅ → next_pid s = 0 →
  wp (kernel_init_proc (Some entries) (Some HHDM_OFFSET) (Some (kva_base, kpa_base))) s (λ _ s', ∃ bs, idle_ready n first_room s' bs).
Proof.
  intros Hb Hc Hh Hp0 Hn0. unfold kernel_init_proc. eapply wp_bind_mono; [by apply (mm_init_ok n)|]. cbn beta.
  intros _ s1 [M1 M2 M3 [M4 _] [t M5] [M6 M7]]. apply wp_bind, wp_kprintln. set (s2 := push_event _ s1).
  eapply wp_mono; [apply (proc_init_ok HHDM_OFFSET kheap_list proc_list ready_queue s2 [first_block] Hh)|].
  - exact (heap_pushed HHDM_OFFSET kheap_list _ _ _ M1).
  - exact (roomy_pcb (Z.of_nat HEAP_PAGES * PAGE_SIZE - HEADER_SIZE) _ eq_refl first_block_roomy).
  - exact (eq_trans M6 Hp0).
  - change (next_pid s2) with (next_pid s1). rewrite M7, Hn0. lia.
  - cbn beta. intros _ s' (bs & [Q1 Q2 Q3 Q4 Q5 (P1 & [P2 P3] & P4 & P5) (pname & Q7 & Q8)]). exists bs. constructor; try done.
    + rewrite Q3. change (next_pid s2) with (next_pid s1). by rewrite M7, Hn0.
    + apply Q4; [by apply Z.leb_le|apply first_block_roomy].
    + rewrite P5. change (pg_alloc (kn_pg (env s2))) with (push_event (EvPrint "Switched to new kernel stack done!" []) (pg_alloc (kn_pg (env s1)))). by rewrite fa_trace_set.
    + unfold cr3_root in *. by rewrite P2, P3.
    + by rewrite Q5.
    + exists t. by rewrite P1, P2.
    + rewrite Q8. eexists. split; [apply lookup_singleton_eq|]. split_and!; try done. cbn. change (next_pid s2) with (next_pid s1). by rewrite M7.
Qed.
(** C12: with a memory map, a direct map and a kernel image of the boot loader that
    leave room for the tables and the first heap, [mm_init] and [proc_init] do not fault
    and leave the kernel ready to make processes: allocator, page tables, heap, list
    heads and scheduler satisfy the invariant of the processes with the idle process
    alone, PID 0, running in the kernel's own address space; the heap has all of its four
    pages but for the PCB, [n] frames are left, and the first kernel stack has its table. *)
Theorem kernel_init_proc_ready n (s : St) :
  boot_ready n → cold s → heads_ok proc_list ready_queue → pcbs s = ∅ → next_pid s = 0 →
  wp (kernel_init_proc (Some entries) (Some HHDM_OFFSET) (Some (kva_base, kpa_base))) s (λ _ s', ∃ bs, idle_ready n first_room s' bs).
Proof. apply kernel_init_proc_ok. Qed.
End boot.

(** * Witness: a machine with 256 frames and an image of 17 pages behind them *)

Section example.
Let H := KERNEL_HHDM_BASE.

Definition machine_map : list memmap_entry :=
  [MemmapEntry 4096 (255 * PAGE_SIZE) LIMINE_MEMMAP_USABLE; MemmapEntry 0x200000 0x11000 LIMINE_MEMMAP_EXECUTABLE_AND_MODULES].
Definition machine_cold : proc_st (kern pmm_st) :=
  ProcSt (Kern (VmmSt (KheapSt (PgSt pmm_boot ∅ 0 0) (Links ∅ ∅) ∅ ∅ 0) (Links ∅ ∅) ∅ ∅) KERNEL_STACK_BASE) ∅ 0 0 0 0 false 0 ∅.
Definition machine_image_end : Z := KERNEL_IMAGE_BASE + 0x11000.

Lemma machine_boots : boot_ready list_example (replicate 64 7) H machine_map KERNEL_IMAGE_BASE machine_image_end KERNEL_IMAGE_BASE 0x200000 100.
Proof. constructor; apply (bool_decide_unpack _); by vm_compute. Qed.

Lemma machine_is_cold : cold machine_cold.
Proof. by constructor. Qed.

Lemma kernel_init_proc_ready_witness :
  ∃ s bs, kernel_init_proc list_example (replicate 64 7) H KERNEL_IMAGE_BASE machine_image_end proc_list_example ready_example
      (Some machine_map) (Some H) (Some (KERNEL_IMAGE_BASE, 0x200000)) machine_cold = Ok (tt, s)
    ∧ procs_ok H list_example proc_list_example ready_example s bs [] [current_proc s] ∧ next_pid s = 1.
Proof.
  destruct (wp_inv _ _ _ (kernel_init_proc_ready list_example (replicate 64 7) H machine_map KERNEL_IMAGE_BASE machine_image_end KERNEL_IMAGE_BASE 0x200000
    proc_list_example ready_example 100 machine_cold machine_boots machine_is_cold heads_example eq_refl eq_refl)) as ([] & s & E & bs & Hs).
  exists s, bs. split; [exact E|]. split; [exact (id_procs _ _ _ _ _ _ _ _ Hs)|exact (id_pid _ _ _ _ _ _ _ _ Hs)].
Defined.
End example.
