(* ===== verification/Kmain.v ===== *)
(** Kmain: the end of [kmain] in [kernel/src/main.c]: the first user process is made,
    interrupts are enabled and the scheduler switches to it. *)
From S2P Require Import Prelude Layout Frames Pmm Paging Range CString Klist Sched Kheap Kstack Vaccess Vmm Vmmcopy Stack Proc Spawn Userpage Loader Userproc Boot.

Section kmain.
  Context {A : Type} `{FA : FrameAlloc A}.
  Context (HHDM_OFFSET kheap_list : Z) (junk : Z → Z).
  Context (proc_list ready_queue user_entry_addr : Z).
  Abbreviation St := (proc_st (kern A)).
  Abbreviation bytes_loaded := (bytes_loaded HHDM_OFFSET junk).
  Implicit Types s : St.
  Implicit Types p : pg_st A.

(** [sp] is the stack pointer [schedule] saves; [elf] and [size] are the first module of
    the boot loader. *)
Definition kmain_end (elf : list Z) (size sp : Z) : M St unit :=
  init_userproc HHDM_OFFSET kheap_list junk proc_list ready_queue user_entry_addr elf size;;
  sti;;
  schedule ready_queue sp.

(** * What a switch leaves of the memory *)

Lemma same_tables_bytes elf p p' root sg :
  same_tables p p' → bytes_loaded elf p root sg → bytes_loaded elf p' root sg.
Proof.
  intros [H1 _ _ _ _] Hb a Ha. rewrite <- (Hb a Ha). unfold user_byte, frame_byte, word_at. by rewrite H1.
Qed.

Lemma same_tables_words p p' va ws : same_tables p p' → words_at HHDM_OFFSET junk p va ws → words_at HHDM_OFFSET junk p' va ws.
Proof.
  intros [H1 H2 _ H4 H5] [Hr Hw]. constructor; [done|]. intros j w Hj. destruct (Hw j w Hj) as (e & E1 & [E2 E3] & E4 & E5). exists e.
  unfold fa_busy, Paging.is_table, word_at. rewrite H1, H2, H4, H5. done.
Qed.

Lemma same_tables_shares p p' r i : same_tables p p' → shares HHDM_OFFSET p r i → shares HHDM_OFFSET p' r i.
Proof. intros [H1 H2 _ _ _]. unfold shares. by rewrite H1, H2. Qed.

Lemma same_tables_fits p p' : same_tables p p' → hhdm_fits HHDM_OFFSET (pg_alloc p) → hhdm_fits HHDM_OFFSET (pg_alloc p').
Proof. intros [_ _ _ H4 _]. unfold hhdm_fits. by rewrite H4. Qed.

(** Address spaces and page tables stay through [schedule]. *)
Definition world_of (v : vmm_st A) (a : kern A) : Prop := vm_mms (kn_vmm a) = vm_mms v ∧ same_tables (vm_pg v) (kn_pg a).

Lemma schedule_world v sp s s' : world_of v (env s) → schedule ready_queue sp s = Ok (tt, s') → world_of v (env s').
Proof.
  intros Hw E. refine (schedule_invariant ready_queue (world_of v) _ _ _ sp s tt s' Hw E).
  - intros l a [H1 H2]. done.
  - intros c a [H1 [T1 T2 T3 T4 T5]]. by split.
  - intros e a [H1 H2]. split; [done|]. exact (same_tables_push e _ _ H2).
Qed.

(** * The first process runs *)

Context (elf : list Z) (Helf : Forall (λ b, 0 ≤ b < 2 ^ 8) elf).

(** The state in which [init] runs: it is current, nothing else is ready, CR3 and ESP0
    are its own. *)
Record init_runs s (entry : Z) (l : list segment) s' (mm : Z) (m : mm_struct) (pname : list Z) : Prop := {
  ir_new : pcbs s !! current_proc s' = None;
  ir_sched : sched_ok ready_queue s' [];
  ir_pcb : pcbs s' !! current_proc s' = Some (fresh_slice (user_pcb s (kn_kstack_ptr (env s) + PAGE_SIZE + KSTACK_SIZE) mm pname));
  ir_name : cstring pname (chars "init");
  ir_tss : tss_rsp0 s' = kn_kstack_ptr (env s) + PAGE_SIZE + KSTACK_SIZE;
  ir_mm : vm_mms (kn_vmm (env s')) !! mm = Some m;
  ir_cr3 : cr3_root HHDM_OFFSET (kn_pg (env s')) = mm_pml4 m;
  ir_words : load_words HHDM_OFFSET junk (tss_rsp0 s' - sizeof_context) 8 (kn_pg (env s')) = Ok (user_context user_entry_addr entry, kn_pg (env s'));
  ir_bytes sg : sg ∈ l ++ [stack_segment] → bytes_loaded elf (kn_pg (env s')) (mm_pml4 m) sg
}.

(** The end of [kmain] (the property below). *)
Lemma kmain_end_ok s bs ps entry l size sp c t :
  heads_ok proc_list ready_queue → image_ready HHDM_OFFSET kheap_list proc_list ready_queue elf s bs [] ps entry l →
  pcbs s !! current_proc s = Some c → p_mm c = 0 → current_proc s = idle_proc s →
  walk HHDM_OFFSET (pg_mem (kn_pg (env s))) (kernel_pml4 (kn_pg (env s))) [STACK_IDX] = Some t →
  wp (kmain_end elf size sp) s (λ _ s', ∃ mm m pname, init_runs s entry l s' mm m pname).
Proof using Helf.
  intros Hh Hr Hc Hmm0 Hidle Ht. unfold kmain_end, init_userproc. apply wp_bind. eapply wp_bind_mono.
  { apply (create_user_process_ok HHDM_OFFSET kheap_list junk proc_list ready_queue user_entry_addr elf Helf s bs [] ps entry l (lit "init") (chars "init")); [done|done|].
    apply cstring_lit. by apply (bool_decide_unpack _); vm_compute. }
  cbn beta. intros proc s1 (Hp0 & mm & m & pname & [U1 [bs' U2] U3 U4 U5 U6 (U7 & U7' & U7'') U8 U9 [U10 U11]]). specialize (U9 t Ht).
  rewrite (proj2 (Z.eqb_neq proc 0) Hp0). apply wp_ret, wp_bind. unfold sti. apply wp_bind, wp_modify, wp_emit. set (s2 := push_event EvSti _).
  assert (sched_ok ready_queue s2 [proc]) as Hok2.
  { pose proof (procs_ok_push HHDM_OFFSET kheap_list proc_list ready_queue EvSti s1 bs' _ _ U2) as [[S1 S2 S3 S4 S5 S6] _ _ _ _ _ _].
    constructor; try done. intros p d Hd. destruct (S5 p d Hd). by constructor. }
  assert (is_Some (pcbs s !! current_proc s)) as Hcs by by eexists. assert (current_proc s ≠ proc) as Hne by (intros E; rewrite E, U1 in Hcs; by destruct Hcs).
  assert (pcbs s2 !! current_proc s2 = Some c) as Hc2.
  { change (pcbs s2) with (pcbs s1). change (current_proc s2) with (current_proc s1). by rewrite U10, U5, lookup_insert_ne. }
  destruct (schedule_decides ready_queue s2 [proc] c sp Hok2 Hc2) as (s' & E & Hok' & Hsd). eapply wp_ok; [exact E|].
  assert (decision s2 c [proc] = (proc, [])) as Ed.
  { unfold decision, abs_schedule. change (current_proc s2) with (current_proc s1). change (idle_proc s2) with (idle_proc s1).
    rewrite U10, U11, Hidle, Z.eqb_refl. simpl. by rewrite andb_false_r. }
  rewrite Ed in Hok', Hsd. cbn [fst snd] in Hok', Hsd. destruct Hsd as [D1 D2 _ D4 _ _].
  destruct D4 as (cn & Hcn & Hcn' & Htss & Hcr); [change (current_proc s2) with (current_proc s1); rewrite U10; by apply not_eq_sym|].
  change (pcbs s2) with (pcbs s1) in Hcn. rewrite U5, lookup_insert_eq in Hcn. injection Hcn as <-.
  assert (world_of (kn_vmm (env s1)) (env s')) as [W1 W2].
  { apply (schedule_world _ sp s2); [|exact E]. split; [done|]. apply (same_tables_push _ (kn_pg (env s1))). by constructor. }
  pose proof (ir_stack _ _ _ _ _ _ _ _ _ _ _ Hr) as Hst. cbv zeta in Hst. rewrite U4 in *. set (top := kn_kstack_ptr (env s) + PAGE_SIZE + KSTACK_SIZE) in *.
  assert (tss_rsp0 s' = top) as Et.
  { rewrite Htss. unfold user_pcb. cbn [p_kstack_base]. replace (top - KSTACK_SIZE + KSTACK_SIZE) with top by lia. apply u64_small.
    unfold top, PAGE_SIZE, KSTACK_SIZE, KERNEL_STACK_BASE in *. lia. }
  assert (cr3_root HHDM_OFFSET (kn_pg (env s')) = mm_pml4 m) as Ecr.
  { unfold cr3_root. change (pg_cr3 (kn_pg (env s'))) with (se_cr3 (env s')). rewrite Hcr. unfold switched_cr3.
    change (p_mm (user_pcb s top mm pname)) with mm. rewrite (proj2 (Z.eqb_neq mm 0) U7'), Hmm0. cbn [negb andb orb Z.eqb].
    change (se_mms (env s2)) with (mm_pml4_pa <$> vm_mms (kn_vmm (env s1))). rewrite lookup_fmap, U7. simpl. by rewrite U7''. }
  exists mm, m, pname. constructor; rewrite ?D1, ?Et; try done.
  - by rewrite W1.
  - apply (load_words_ok HHDM_OFFSET junk); [| | |done].
    + rewrite Ecr. by apply (same_tables_shares _ _ _ _ W2).
    + apply (same_tables_fits _ _ W2). apply (wf_hhdm _ _ _ (ha_pages _ _ _ _ (proj1 (pr_heap _ _ _ _ _ _ _ _ U2)))).
    + by apply (same_tables_words _ _ _ _ W2).
  - intros sg Hsg. by apply (same_tables_bytes _ _ _ _ _ W2), U8.
Qed.

(** C5: when the kernel runs the idle process in its own address space with an empty
    ready queue and a kernel stack has been made before, the end of [kmain] makes the
    process [init] from the image and the scheduler switches to it: it is current and
    running with a full slice, the ready queue is empty and well formed, ESP0 is the top
    of its kernel stack, CR3 holds its address space; seen through CR3, the stack it
    switches to holds the context that enters [user_entry] with the entry point and the
    top of the user's stack, and every byte of every loadable segment and of the user's
    stack is what the image says. *)
Theorem kmain_enters_init s bs ps entry l size sp c t :
  heads_ok proc_list ready_queue → image_ready HHDM_OFFSET kheap_list proc_list ready_queue elf s bs [] ps entry l →
  pcbs s !! current_proc s = Some c → p_mm c = 0 → current_proc s = idle_proc s →
  walk HHDM_OFFSET (pg_mem (kn_pg (env s))) (kernel_pml4 (kn_pg (env s))) [STACK_IDX] = Some t →
  wp (kmain_end elf size sp) s (λ _ s', ∃ mm m pname, init_runs s entry l s' mm m pname).
Proof using Helf. apply kmain_end_ok. Qed.
End kmain.

(** * Witness: the machine of [Boot] goes from power-on to the image of [Userproc] *)

Section example.
Let H := KERNEL_HHDM_BASE.

Lemma machine_idle : ∃ s bs, idle_ready list_example H proc_list_example ready_example 100 first_room s bs.
Proof.
  destruct (wp_inv _ _ _ (kernel_init_proc_ok list_example (replicate 64 7) H machine_map KERNEL_IMAGE_BASE machine_image_end KERNEL_IMAGE_BASE 0x200000
    proc_list_example ready_example 100 machine_cold machine_boots machine_is_cold heads_example eq_refl eq_refl)) as ([] & s & _ & bs & Hs).
  by exists s, bs.
Qed.

Lemma first_top_room : KERNEL_STACK_BASE ≤ first_top ∧ first_top + PAGE_SIZE + KSTACK_SIZE ≤ KERNEL_STACK_BASE + 2 ^ 39 ∧ first_top mod PAGE_SIZE = 0.
Proof. split; [by apply Z.leb_le|]. split; [by apply Z.leb_le|done]. Qed.

Lemma machine_image s bs : idle_ready list_example H proc_list_example ready_example 100 first_room s bs →
  image_ready H list_example proc_list_example ready_example elf_example s bs [] [current_proc s] 0x10000 [segment_example].
Proof.
  intros [Q1 Q2 Q3 Q4 Q5 Q6 Q7 _ _]. constructor.
  - exact Q1.
  - exact (second_pid _ Q3).
  - exact Q6.
  - reflexivity.
  - exists [segment_example]. split; [exact elf_example_image|reflexivity].
  - discriminate.
  - exact elf_example_segs.
  - exact (roomy_least 600 first_room bs eq_refl Q4).
  - change ([segment_example] ++ [stack_segment]) with [segment_example; stack_segment]. rewrite elf_example_pages.
    unfold free_frames. change (vm_pg (kn_vmm (env s))) with (kn_pg (env s)). clear - Q5. lia.
  - rewrite Q7. exact first_top_room.
Qed.

Lemma kmain_enters_init_witness :
  ∃ s s' m pname, kmain_end H list_example (λ _, 0) proc_list_example ready_example user_entry_example elf_example 123 0 s = Ok (tt, s')
    ∧ p_pid <$> (pcbs s' !! current_proc s') = Some 1 ∧ cstring pname (chars "init")
    ∧ cr3_root H (kn_pg (env s')) = mm_pml4 m ∧ bytes_loaded H (λ _, 0) elf_example (kn_pg (env s')) (mm_pml4 m) segment_example.
Proof.
  destruct machine_idle as (s & bs & Hs). pose proof Hs as [_ Q2 Q3 _ _ _ _ [t Q8] (c & Q9 & Q10 & _)].
  destruct (wp_inv _ _ _ (kmain_enters_init H list_example (λ _, 0) proc_list_example ready_example user_entry_example elf_example elf_example_bytes
    s bs [current_proc s] 0x10000 [segment_example] 123 0 c t heads_example (machine_image s bs Hs) Q9 Q10 (eq_sym Q2) Q8))
    as ([] & s' & E & mm & m & pname & [_ _ R3 R4 _ _ R7 _ R9]).
  exists s, s', m, pname. split; [exact E|]. split; [rewrite R3; exact (f_equal Some Q3)|]. split; [exact R4|]. split; [exact R7|]. apply R9. left.
Defined.
End example.
