(* ===== verification/Machine.v ===== *)
(** Machine: the whole of [kernel/src/main.c]: [kernel_init] and [kmain] from the boot
    loader's answers to the first user process, over the states of all components. *)
From S2P Require Import Prelude Layout Frames Pmm Paging Range CString Klist Sched Arch Kheap Font Console Keyboard Terminal Debugmm Kstack Vaccess Vmm Vmmcopy Stack Proc Spawn Userpage Loader Userproc Boot Kmain.
From S2P Require Ramfs Fsheap.

(** The kernel's globals.  The task state's [rsp0] and the trace of the tables are those
    of [mc_proc]. *)
Record machine := Machine {
  mc_proc : proc_st (kern pmm_st);
  mc_arch : arch_st;
  mc_con : con_st;
  mc_kbuf : list Z;
  mc_r : Z;
  mc_w : Z;
  mc_shift : bool;
  mc_files : list Ramfs.ramfs_node;
  mc_gft : list Ramfs.file_t;
  mc_contents : gmap Z (list Z);
  mc_efer : Z
}.
Definition set_mc_proc p m := Machine p (mc_arch m) (mc_con m) (mc_kbuf m) (mc_r m) (mc_w m) (mc_shift m) (mc_files m) (mc_gft m) (mc_contents m) (mc_efer m).
Definition set_mc_con c m := Machine (mc_proc m) (mc_arch m) c (mc_kbuf m) (mc_r m) (mc_w m) (mc_shift m) (mc_files m) (mc_gft m) (mc_contents m) (mc_efer m).
Definition set_mc_efer v m := Machine (mc_proc m) (mc_arch m) (mc_con m) (mc_kbuf m) (mc_r m) (mc_w m) (mc_shift m) (mc_files m) (mc_gft m) (mc_contents m) v.

#[export] Program Instance machine_traced : Traced machine := {|
  trace m := trace (mc_proc m);
  push_event e m := set_mc_proc (push_event e (mc_proc m)) m
|}.
Next Obligation. intros. apply trace_push. Qed.

(** What a component did to the processor, newest first, as seen by the processes. *)
Definition replay1 (e : event) (p : proc_st (kern pmm_st)) : proc_st (kern pmm_st) :=
  let p := push_event e p in
  match e with EvSti => set_if true p | EvCli => set_if false p | _ => p end.
Definition replay (es : list event) (p : proc_st (kern pmm_st)) : proc_st (kern pmm_st) := foldr replay1 p es.

(** * The components in the machine *)

Definition view_arch m : arch_st :=
  let a := mc_arch m in
  ArchSt (gdt a) (gdtp a) (TssEntry (tss_rsp0 (mc_proc m)) (iomap_base (tss a))) (idt_entries a) (idt_ptr a) (interrupt_handlers a) [].
Definition put_arch a m : machine :=
  Machine (replay (arch_trace a) (Sched.set_tss (rsp0 (tss a)) (mc_proc m))) a (mc_con m) (mc_kbuf m) (mc_r m) (mc_w m) (mc_shift m)
    (mc_files m) (mc_gft m) (mc_contents m) (mc_efer m).
Definition view_kbd m : kbd_st (con_st * arch_st) := KbdSt (mc_kbuf m) (mc_r m) (mc_w m) (mc_shift m) (mc_con m, view_arch m).
Definition put_kbd (k : kbd_st (con_st * arch_st)) m : machine :=
  put_arch (con k).2 (Machine (mc_proc m) (mc_arch m) (con k).1 (kbuf k) (r_ptr k) (w_ptr k) (g_shift k) (mc_files m) (mc_gft m) (mc_contents m) (mc_efer m)).

Abbreviation heap_st := (kheap_st (pg_st pmm_st)).

(** The file system works on the heap and on the working directory and descriptors of
    the current process. *)
Definition view_fs m : Ramfs.ramfs_st heap_st :=
  let p := mc_proc m in
  Ramfs.RamfsSt (mc_files m) (mc_gft m) (mc_contents m) ((λ c, Ramfs.ProcFiles (p_cwd_inode c) (p_fd_table c)) <$> pcbs p !! current_proc p)
    (vm_kheap (kn_vmm (env p))) [].
Definition put_files (f : option Ramfs.proc_files) (p : proc_st (kern pmm_st)) : proc_st (kern pmm_st) :=
  match f with
  | Some f => set_pcbs (alter (λ c, with_cwd_inode (Ramfs.cwd_inode f) (with_fd_table (Ramfs.fd_table f) c)) (current_proc p) (pcbs p)) p
  | None => p
  end.
Definition put_heap (h : heap_st) (p : proc_st (kern pmm_st)) : proc_st (kern pmm_st) :=
  set_env (set_kn_vmm (set_kheap h (kn_vmm (env p))) (env p)) p.
Definition put_fs (f : Ramfs.ramfs_st heap_st) m : machine :=
  Machine (replay (Ramfs.rf_trace f) (put_files (Ramfs.current_proc f) (put_heap (Ramfs.heap f) (mc_proc m)))) (mc_arch m) (mc_con m)
    (mc_kbuf m) (mc_r m) (mc_w m) (mc_shift m) (Ramfs.files f) (Ramfs.global_file_table f) (Ramfs.contents f) (mc_efer m).

Definition on_proc {R} (c : M (proc_st (kern pmm_st)) R) : M machine R := zoom mc_proc set_mc_proc c.
Definition on_con {R} (c : M con_st R) : M machine R := zoom mc_con set_mc_con c.
Definition on_arch {R} (c : M arch_st R) : M machine R := zoom view_arch put_arch c.
Definition on_kbd {R} (c : M (kbd_st (con_st * arch_st)) R) : M machine R := zoom view_kbd put_kbd c.
Definition on_fs {R} (c : M (Ramfs.ramfs_st heap_st) R) : M machine R := zoom view_fs put_fs c.

(** * The boot *)

(** The answers of the boot loader, [None] for a NULL response, and whether it supports
    the revision that was asked for; a module is its bytes and its size. *)
Record boot_info := BootInfo {
  bi_revision : bool;
  bi_framebuffers : option (list framebuffer);
  bi_memmap : option (list memmap_entry);
  bi_hhdm : option Z;
  bi_kaddr : option (Z * Z);
  bi_modules : option (list (list Z * Z))
}.

(** The test threads, which nothing starts: the delay loops have no effect. *)
Definition thread_a : M machine unit := for_n (Z.to_nat 10000) 1 (λ _, Prelude.kprintf "A" []).
Definition thread_b : M machine unit := for_n (Z.to_nat 10000) 1 (λ _, Prelude.kprintf "B" []).

Section boot.
  (** Addresses of statics and code, and the linker's bounds of the image. *)
  Context (kheap_list proc_list ready_queue gdt_addr tss_base idt_addr k_start_va k_end_va user_entry_addr : Z) (isr : Z → Z).
  (** What local arrays, new objects and fresh memory hold, and the answers of [inb(0x21)]. *)
  Context (array_junk page_junk : list Z) (junk : Z → Z) (mask_kbd mask_timer : Z).
  Implicit Types m : machine.

Definition EFER_NXE : Z := Z.shiftl 1 11.
Definition enable_nx : M machine unit := modify (λ m, set_mc_efer (Z.lor (mc_efer m) EFER_NXE) m).

(** The checks at the start of [kernel_init]: the first frame buffer. *)
Definition first_framebuffer (b : boot_info) : M machine framebuffer :=
  if negb (bi_revision b) then hcf else
  match bi_framebuffers b with Some (fb :: _) => mret fb | _ => hcf end.

Definition kernel_init (b : boot_info) : M machine unit :=
  let HHDM_OFFSET := default 0 (bi_hhdm b) in
  fb ← first_framebuffer b;
  on_con (console_init fb);;
  Prelude.kprintln "Initializing GDT and IDT...";;
  on_arch (gdt_init gdt_addr tss_base);;
  Prelude.kprintln "GDT initialized.";;
  on_arch (idt_init idt_addr isr);;
  Prelude.kprintln "IDT initialized.";;
  on_kbd (init_keyboard mask_kbd);;
  enable_nx;;
  on_proc (kernel_init_proc kheap_list array_junk HHDM_OFFSET k_start_va k_end_va proc_list ready_queue (bi_memmap b) (bi_hhdm b) (bi_kaddr b));;
  on_arch (init_timer 20 mask_timer);;
  on_fs (Ramfs.ramfs_init (Kmalloc0 := Fsheap.kheap_kmalloc (KernelPages0 := kernel_pages HHDM_OFFSET) kheap_list) 0 0 page_junk).

(** [sp] is the stack pointer [schedule] saves for the boot's own stack. *)
Definition kmain (b : boot_info) (sp : Z) : M machine unit :=
  kernel_init b;;
  match bi_modules b with
  | Some ((elf, size) :: _) => on_proc (kmain_end (default 0 (bi_hhdm b)) kheap_list junk proc_list ready_queue user_entry_addr elf size sp)
  | Some [] => crash OutOfBounds
  | None => crash NullDeref
  end.
End boot.

(** * Theory *)

Abbreviation proc := (proc_st (kern pmm_st)).

Lemma replay_inv (P : proc → Prop) es p :
  (∀ e p, P p → P (push_event e p)) → (∀ b p, P p → P (set_if b p)) → P p → P (replay es p).
Proof.
  intros H1 H2 Hp. induction es as [|e es IH]; [done|]. cbn [replay foldr]. unfold replay1. specialize (H1 e _ IH). destruct e; first [exact H1|by apply H2].
Qed.

(** What the processes of the boot start from. *)
Definition fresh (p : proc) : Prop := cold p ∧ pcbs p = ∅ ∧ next_pid p = 0.

Lemma fresh_tss v p : fresh p → fresh (Sched.set_tss v p).
Proof. intros ([] & H1 & H2). by split; [constructor|]. Qed.

Lemma fresh_push e p : fresh p → fresh (push_event e p).
Proof.
  intros (Hc & H1 & H2). destruct (cold_printed p (push_event e p) Hc) as (H3 & H4 & H5); [by apply printed_push, printed_refl|].
  split; [done|]. by rewrite H4, H5.
Qed.

Lemma fresh_replay es p : fresh p → fresh (replay es p).
Proof.
  apply replay_inv.
  - intros e q. apply fresh_push.
  - intros b q ([] & H1 & H2). by split; [constructor|].
Qed.

Section idle.
  Context (kheap_list HHDM_OFFSET proc_list ready_queue : Z).
  Abbreviation idle_ready := (idle_ready kheap_list HHDM_OFFSET proc_list ready_queue).

Lemma idle_push e n room (p : proc) bs : idle_ready n room p bs → idle_ready n room (push_event e p) bs.
Proof.
  intros [Q1 Q2 Q3 Q4 Q5 Q6 Q7 Q8 Q9]. assert (fa_free_set (pg_alloc (kn_pg (env (push_event e p)))) = fa_free_set (pg_alloc (kn_pg (env p)))) as Ef.
  { change (pg_alloc (kn_pg (env (push_event e p)))) with (push_event e (pg_alloc (kn_pg (env p)))). apply fa_trace_set. }
  constructor; rewrite ?Ef; first [done|by apply procs_ok_push].
Qed.

Lemma idle_if b n room (p : proc) bs : idle_ready n room p bs → idle_ready n room (set_if b p) bs.
Proof.
  intros [[[S1 S2 S3 S4 S5 S6] P2 P3 P4 P5 P6 P7] Q2 Q3 Q4 Q5 Q6 Q7 Q8 Q9]. constructor; try done. constructor; try done. constructor; try done.
  intros q c Hq. destruct (S5 q c Hq). by constructor.
Qed.

Lemma idle_tss v n room (p : proc) bs : idle_ready n room p bs → idle_ready n room (Sched.set_tss v p) bs.
Proof.
  intros [[[S1 S2 S3 S4 S5 S6] P2 P3 P4 P5 P6 P7] Q2 Q3 Q4 Q5 Q6 Q7 Q8 Q9]. constructor; try done. constructor; try done. constructor; try done.
  intros q c Hq. destruct (S5 q c Hq). by constructor.
Qed.

Lemma idle_replay es n room (p : proc) bs : idle_ready n room p bs → idle_ready n room (replay es p) bs.
Proof. apply (replay_inv (λ p, idle_ready n room p bs)); [intros e q; apply idle_push|intros b q; apply idle_if]. Qed.

Abbreviation heap_ok := (kheap_ok (KernelPages0 := kernel_pages HHDM_OFFSET) kheap_list).
#[local] Instance boot_kmalloc : Ramfs.Kmalloc heap_st := Fsheap.kheap_kmalloc (KernelPages0 := kernel_pages HHDM_OFFSET) kheap_list.

(** A page of the heap for the file system. *)
Lemma heap_page (v : vmm_st pmm_st) bs room :
  heap_ok (vm_kheap v) bs → roomy room bs → PAGE_SIZE + HEADER_SIZE + MIN_SPLIT ≤ room →
  ∃ a h bs', Ramfs.kmalloc PAGE_SIZE (vm_kheap v) = Ok (a, h) ∧ a ≠ 0 ∧ kh_pages h = vm_pg v ∧ heap_ok h bs' ∧ kept_blocks bs bs'
    ∧ roomy (room - (PAGE_SIZE + HEADER_SIZE)) bs'.
Proof.
  intros Hh Hr Hm. assert (Exists (fits (ALIGN_UP PAGE_SIZE 8)) bs) as Hf.
  { apply (roomy_fits room); [done|]. change (ALIGN_UP PAGE_SIZE 8) with PAGE_SIZE. unfold HEADER_SIZE, MIN_SPLIT in *. lia. }
  destruct (kmalloc_object_ok HHDM_OFFSET kheap_list v bs PAGE_SIZE Hh ltac:(done) Hf) as (a & h & bs' & E & [O1 O2 _ O4 _ _ O7] & _ & _ & l & y & r & -> & _ & ->).
  exists a, h, (l ++ carve y (ALIGN_UP PAGE_SIZE 8) ++ r). split.
  { unfold Vmm.kmalloc, zoom in E. match type of E with match ?m (vm_kheap v) with Ok _ => _ | Crash _ => _ end = _ => change m with (Ramfs.kmalloc PAGE_SIZE : M heap_st Z) in E end.
    destruct (Ramfs.kmalloc PAGE_SIZE (vm_kheap v)) as [[b h']|]; [|done]. injection E as -> E. by rewrite E. }
  split; [unfold KERNEL_HEAP_BASE in O4; lia|]. split; [done|]. split; [done|]. split; [done|].
  assert (spends (PAGE_SIZE + HEADER_SIZE) (l ++ y :: r) (l ++ carve y (ALIGN_UP PAGE_SIZE 8) ++ r)) as Hs by by apply (spends_carve PAGE_SIZE).
  by apply Hs.
Qed.

Lemma procs_heap (p : proc) bs qs ps h bs' :
  procs_ok HHDM_OFFSET kheap_list proc_list ready_queue p bs qs ps → heap_ok h bs' → kept_blocks bs bs' →
  procs_ok HHDM_OFFSET kheap_list proc_list ready_queue (put_heap h p) bs' qs ps.
Proof.
  intros [[S1 S2 S3 S4 S5 S6] P2 P3 P4 P5 P6 P7] Hh Hk. constructor; try done.
  - constructor; try done. intros q c Hq. destruct (S5 q c Hq). by constructor.
  - intros q Hq. eapply pcb_block_kept; [done|by apply P3].
Qed.

Lemma idle_heap n room (p : proc) bs h bs' room' :
  idle_ready n room p bs → kh_pages h = kn_pg (env p) → heap_ok h bs' → kept_blocks bs bs' → roomy room' bs' →
  idle_ready n room' (put_heap h p) bs'.
Proof.
  intros [Q1 Q2 Q3 Q4 Q5 Q6 Q7 Q8 Q9] Hp Hh Hk Hr. assert (kn_pg (env (put_heap h p)) = kn_pg (env p)) as Ep by exact Hp.
  constructor; rewrite ?Ep; try done. by apply (procs_heap p bs).
Qed.

Lemma put_files_same (p : proc) : put_files ((λ c, Ramfs.ProcFiles (p_cwd_inode c) (p_fd_table c)) <$> pcbs p !! current_proc p) p = p.
Proof.
  unfold put_files. destruct (pcbs p !! current_proc p) as [c|] eqn:E; [|done]. cbn [fmap option_fmap option_map].
  rewrite alter_id; [by destruct p|]. intros d. rewrite E. intros [= <-]. by destruct c.
Qed.

(** Everything but processes and files. *)
Definition same_devices m m' : Prop :=
  mc_arch m' = mc_arch m ∧ mc_con m' = mc_con m ∧ (mc_kbuf m', mc_r m', mc_w m', mc_shift m') = (mc_kbuf m, mc_r m, mc_w m, mc_shift m) ∧ mc_efer m' = mc_efer m.

Definition fs_bytes : Z := 2 * (PAGE_SIZE + HEADER_SIZE).

(** [ramfs_init] after [proc_init]: two pages of the heap hold the texts. *)
Lemma fs_init_ok n room m bs junk :
  idle_ready n room (mc_proc m) bs → fs_bytes + MIN_SPLIT ≤ room → length junk = 4096%nat →
  wp (on_fs (Ramfs.ramfs_init 0 0 junk)) m (λ _ m', (∃ bs', idle_ready n (room - fs_bytes) (mc_proc m') bs')
    ∧ Ramfs.fs_ok (mc_files m') 7 ∧ mc_gft m' = replicate (Z.to_nat Ramfs.MAX_SYSTEM_OPEN_FILES) Ramfs.file_zero ∧ same_devices m m').
Proof.
  intros Hi Hr Hj. unfold fs_bytes in *. set (v := kn_vmm (env (mc_proc m))).
  destruct (heap_page v bs room (pr_heap _ _ _ _ _ _ _ _ (id_procs _ _ _ _ _ _ _ _ Hi)) (id_room _ _ _ _ _ _ _ _ Hi) ltac:(unfold PAGE_SIZE, HEADER_SIZE, MIN_SPLIT in *; lia))
    as (a1 & h1 & bs1 & E1 & Ha1 & Hp1 & Hh1 & Hk1 & Hr1).
  destruct (heap_page (set_kheap h1 v) bs1 _ Hh1 Hr1 ltac:(unfold PAGE_SIZE, HEADER_SIZE, MIN_SPLIT in *; lia)) as (a2 & h2 & bs2 & E2 & Ha2 & Hp2 & Hh2 & Hk2 & Hr2).
  apply wp_zoom. eapply wp_ok; [by apply (Fsheap.ramfs_init_ok 0 0 junk (view_fs m) a1 h1 a2 h2)|].
  split; [exists bs2|split; [apply Fsheap.first_tree_ok|done]].
  unfold put_fs, view_fs. cbn [mc_proc Ramfs.rf_trace Ramfs.current_proc Ramfs.heap]. apply idle_replay.
  change (idle_ready n (room - 2 * (PAGE_SIZE + HEADER_SIZE)) (put_files ((λ c, Ramfs.ProcFiles (p_cwd_inode c) (p_fd_table c)) <$> pcbs (put_heap h2 (mc_proc m)) !! current_proc (put_heap h2 (mc_proc m))) (put_heap h2 (mc_proc m))) bs2).
  rewrite put_files_same. apply (idle_heap n room _ bs); [done| |done| |].
  - by rewrite Hp2.
  - intros b Hb Hf. apply Hk2; [by apply Hk1|done].
  - by replace (room - 2 * (PAGE_SIZE + HEADER_SIZE)) with (room - (PAGE_SIZE + HEADER_SIZE) - (PAGE_SIZE + HEADER_SIZE)) by lia.
Qed.
End idle.

(** ** Tables *)

Lemma gdt_init_frame i h a b : invariant_of (λ s, idt_entries s = i ∧ interrupt_handlers s = h) (gdt_init a b).
Proof. unfold gdt_init, gdt_set_gate, gdt_put_word, gdt_put. inv_go. Qed.

Lemma idt_init_frame g h a isr : invariant_of (λ s, gdt s = g ∧ interrupt_handlers s = h) (idt_init a isr).
Proof. unfold idt_init, idt_set_gate, pic_remap, outb, emit. inv_go. Qed.

Definition handler_at (hs : list (option isr_t)) (v : Z) (h : isr_t) : Prop := zlookup hs v = Some (Some h).

(** Segments, gates and handlers of the running kernel. *)
Record tables_ok (isr : Z → Z) (a : arch_st) : Prop := {
  ta_kernel : flat_code a 0x08 0 ∧ flat_data a 0x10 0;
  ta_user : flat_data a 0x18 3 ∧ flat_code a 0x20 3;
  ta_gates v dpl : (v, dpl) ∈ wired → ∃ g, zlookup (idt_entries a) v = Some g ∧ gate_to g (isr v) dpl;
  ta_closed v g : zlookup (idt_entries a) v = Some g → (v ∉ map fst wired) → gate_present g = false;
  ta_timer : handler_at (interrupt_handlers a) 32 ISR_timer_callback;
  ta_keyboard : handler_at (interrupt_handlers a) 33 ISR_keyboard_handler;
  ta_others v h : handler_at (interrupt_handlers a) v h → v = 32 ∨ v = 33
}.

Lemma flat_code_ext a b sel dpl : gdt a = gdt b → flat_code a sel dpl → flat_code b sel dpl.
Proof. intros E [[e H]]. constructor. exists e. unfold selected in *. by rewrite <- E. Qed.
Lemma flat_data_ext a b sel dpl : gdt a = gdt b → flat_data a sel dpl → flat_data b sel dpl.
Proof. intros E [[e H]]. constructor. exists e. unfold selected in *. by rewrite <- E. Qed.

Section tables.
  Context (isr : Z → Z) (gdt_addr tss_base idt_addr : Z).

(** After [gdt_init] and [idt_init]. *)
Record tables_set (hs : list (option isr_t)) (a : arch_st) : Prop := {
  ts_kernel : flat_code a 0x08 0 ∧ flat_data a 0x10 0;
  ts_user : flat_data a 0x18 3 ∧ flat_code a 0x20 3;
  ts_gates v dpl : (v, dpl) ∈ wired → ∃ g, zlookup (idt_entries a) v = Some g ∧ gate_to g (isr v) dpl;
  ts_closed v g : zlookup (idt_entries a) v = Some g → (v ∉ map fst wired) → gate_present g = false;
  ts_handlers : interrupt_handlers a = hs
}.

Lemma tables_set_ext hs hs' a b : gdt a = gdt b → idt_entries a = idt_entries b → interrupt_handlers b = hs' → tables_set hs a → tables_set hs' b.
Proof.
  intros Eg Ei Eh [[K1 K2] [U1 U2] G C _]. constructor; rewrite <- ?Ei; try done; split; first [by eapply flat_code_ext|by eapply flat_data_ext].
Qed.

Lemma tables_set_up (a : arch_st) (s1 : arch_st → arch_st) hs :
  length (gdt a) = 7%nat → idt_entries a = replicate 256 idt_zero → interrupt_handlers a = hs → 0 ≤ tss_base < 2 ^ 64 → (∀ n, 0 ≤ isr n < 2 ^ 64) →
  (∀ b, gdt (s1 b) = gdt b ∧ idt_entries (s1 b) = idt_entries b ∧ interrupt_handlers (s1 b) = interrupt_handlers b) →
  wp (gdt_init gdt_addr tss_base) a (λ _ a1, wp (idt_init idt_addr isr) (s1 a1) (λ _, tables_set hs)).
Proof using.
  intros Hg Hi Hh Ht Hisr Hs1. destruct (gdt_init_descriptors a gdt_addr tss_base Hg Ht) as (a1 & E1 & F1 & F2 & F3 & F4 & _).
  eapply wp_ok; [exact E1|]. destruct (gdt_init_frame _ _ _ _ a tt a1 (conj Hi Hh) E1) as [I1 H1]. destruct (Hs1 a1) as (S1 & S2 & S3).
  destruct (idt_init_gates (s1 a1) idt_addr isr) as (a2 & E2 & G1 & G2); [by rewrite S2|done|]. eapply wp_ok; [exact E2|].
  destruct (idt_init_frame (gdt a1) hs idt_addr isr (s1 a1) tt a2) as [I2 H2]; [by rewrite S1, S3|done|].
  constructor; [split|split|exact G1|exact G2|exact H2]; first [by eapply flat_code_ext|by eapply flat_data_ext].
Qed.

(** With the handlers registered. *)
Lemma tables_registered a :
  tables_set (zinsert 32 (Some ISR_timer_callback) (zinsert 33 (Some ISR_keyboard_handler) (replicate 256 None))) a → tables_ok isr a.
Proof using.
  intros [K U G C H]. constructor; rewrite ?H; try done; [by vm_compute..|]. intros v h Hv. unfold handler_at in Hv.
  destruct (decide (v = 32)) as [->|H32]; [by left|]. destruct (decide (v = 33)) as [->|H33]; [by right|].
  rewrite !zlookup_zinsert_ne in Hv by congruence. pose proof (zlookup_Some _ _ _ Hv) as Hr. unfold zlen in Hr. rewrite length_replicate in Hr.
  by rewrite (zlookup_replicate 256 None v Hr) in Hv.
Qed.
End tables.

(** ** The keyboard *)

Definition registered (mask : Z) (a : arch_st) : arch_st :=
  push_event (EvPrint "Keyboard initialized (Interrupt Mode)." []) (push_event (EvOut 0x21 (u8 (Z.land mask (Z.lnot (Z.shiftl 1 1)))))
    (set_handlers (zinsert 33 (Some ISR_keyboard_handler) (interrupt_handlers a)) a)).

Lemma init_keyboard_ok mask (k : kbd_st (con_st * arch_st)) h :
  zlookup (interrupt_handlers (con k).2) 33 = Some h →
  init_keyboard mask k = Ok (tt, KbdSt (kbuf k) 0 0 (g_shift k) ((con k).1, registered mask (con k).2)).
Proof.
  destruct k as [kb r w sh [c a]]. cbn [con snd]. intros H. unfold init_keyboard, Keyboard.on_con, zoom. cbv [mbind M_bind modify].
  cbn [con set_r Keyboard.set_w register_interrupt_handler console_kbd]. unfold zoom, Arch.register_interrupt_handler, gets, or_crash, modify.
  cbv [mbind M_bind]. cbn [snd fst]. by rewrite H.
Qed.

Lemma empty_queue kb sh c a fb : zlen kb = KBUF_SIZE → console_ok fb c → represents (KbdSt kb 0 0 sh (c, a)) (Keys sh []).
Proof.
  intros Hl Hc. constructor; [constructor; try done|done|by exists fb].
  intros i x Hi. apply zlookup_Some in Hi. unfold zlen in Hi. simpl in Hi. lia.
Qed.

Definition timer_set (mask : Z) (a : arch_st) : arch_st :=
  let d := PIT_BASE_FREQ / 20 in
  push_event (EvOut 0x21 (u8 (Z.land mask (Z.lnot 0x01)))) (push_event (EvOut 0x40 (u8 (u8 (Z.land (Z.shiftr (u32 d) 8) 0xFF))))
    (push_event (EvOut 0x40 (u8 (u8 (Z.land (u32 d) 0xFF)))) (push_event (EvOut 0x43 0x36)
      (set_handlers (zinsert 32 (Some ISR_timer_callback) (interrupt_handlers a)) a)))).

Lemma init_timer_ok mask a h : zlookup (interrupt_handlers a) 32 = Some h → init_timer 20 mask a = Ok (tt, timer_set mask a).
Proof.
  intros H. unfold init_timer, Arch.register_interrupt_handler, gets, or_crash, modify. cbv [mbind M_bind]. by rewrite H.
Qed.

(** ** The boot *)

Section boot_theory.
  Context (kheap_list proc_list ready_queue gdt_addr tss_base idt_addr k_start_va k_end_va user_entry_addr : Z) (isr : Z → Z).
  Context (array_junk page_junk : list Z) (junk : Z → Z) (mask_kbd mask_timer : Z).
  Context (HHDM_OFFSET : Z) (entries : list memmap_entry) (kva_base kpa_base : Z) (fb : framebuffer).
  Abbreviation kernel_init := (kernel_init kheap_list proc_list ready_queue gdt_addr tss_base idt_addr k_start_va k_end_va isr array_junk page_junk mask_kbd mask_timer).
  Abbreviation boot_ready := (boot_ready kheap_list array_junk HHDM_OFFSET entries k_start_va k_end_va kva_base kpa_base).

(** The statics of the image, and a processor that has run nothing yet. *)
Record switched_on m : Prop := {
  on_gdt : length (gdt (mc_arch m)) = 7%nat;
  on_idt : idt_entries (mc_arch m) = replicate 256 idt_zero;
  on_handlers : interrupt_handlers (mc_arch m) = replicate 256 None;
  on_kbuf : zlen (mc_kbuf m) = KBUF_SIZE;
  on_processes : fresh (mc_proc m)
}.

(** A boot loader that answers everything, with [n] frames to spare. *)
Record answers (b : boot_info) (n : nat) : Prop := {
  an_revision : bi_revision b = true;
  an_display : (∃ l, bi_framebuffers b = Some (fb :: l)) ∧ display_ok fb;
  an_memmap : bi_memmap b = Some entries;
  an_hhdm : bi_hhdm b = Some HHDM_OFFSET;
  an_kaddr : bi_kaddr b = Some (kva_base, kpa_base);
  an_boot : boot_ready n
}.

(** Statics and stubs have 64-bit addresses; arrays have their sizes. *)
Record layout_ok : Prop := {
  ly_tss : 0 ≤ tss_base < 2 ^ 64;
  ly_isr n : 0 ≤ isr n < 2 ^ 64;
  ly_heads : heads_ok proc_list ready_queue;
  ly_page : length page_junk = 4096%nat
}.

Definition boot_room : Z := first_room - fs_bytes.

(** The kernel after [kernel_init]; [p] is the state of the processes then. *)
Record kernel_up m (sh : bool) : Prop := {
  up_tables : tables_ok isr (mc_arch m);
  up_keys : represents (view_kbd m) (Keys sh []);
  up_console : live fb (mc_con m);
  up_files : Ramfs.fs_ok (mc_files m) 7 ∧ mc_gft m = replicate (Z.to_nat Ramfs.MAX_SYSTEM_OPEN_FILES) Ramfs.file_zero;
  up_nx : Z.testbit (mc_efer m) 11 = true
}.

Lemma kernel_init_ok b n m :
  layout_ok → answers b n → switched_on m →
  wp (kernel_init b) m (λ _ m', kernel_up m' (mc_shift m) ∧ ∃ bs, idle_ready kheap_list HHDM_OFFSET proc_list ready_queue n boot_room (mc_proc m') bs).
Proof.
  intros [L1 L2 L3 L4] [A1 [[fbs A2] A2'] A3 A4 A5 A6] [O1 O2 O3 O4 O5]. unfold kernel_init. rewrite A4. cbn [default from_option id]. cbv zeta.
  apply wp_bind. unfold first_framebuffer. rewrite A1, A2. cbn [negb]. apply wp_ret.
  apply wp_bind, wp_zoom. eapply wp_mono; [by apply (console_init_live fb)|]. cbn beta. intros _ c Hc. set (m1 := set_mc_con c m).
  apply wp_bind, wp_kprintln. set (m2 := push_event _ m1). apply wp_bind, wp_zoom.
  set (e1 := EvPrint "GDT initialized." []).
  eapply wp_mono; [apply (tables_set_up isr gdt_addr tss_base idt_addr (view_arch m2) (λ a, view_arch (push_event e1 (put_arch a m2))) (replicate 256 None)); done|].
  cbn beta. intros _ a1 Ha1. apply wp_bind, wp_kprintln. fold e1. set (m3 := push_event e1 _) in *. apply wp_bind, wp_zoom.
  eapply wp_mono; [exact Ha1|]. cbn beta. intros _ a2 Ha2. apply wp_bind, wp_kprintln. set (m4 := push_event _ (put_arch a2 m3)).
  assert (fresh (mc_proc m4)) as Hf4 by (do 2 apply fresh_push, fresh_replay, fresh_tss; by apply fresh_push).
  pose proof (ts_handlers _ _ _ Ha2) as Hh2. apply wp_bind, wp_zoom.
  eapply wp_ok; [apply (init_keyboard_ok mask_kbd (view_kbd m4) None); change (zlookup (interrupt_handlers a2) 33 = Some None); by rewrite Hh2|].
  set (m5 := put_kbd _ m4). apply wp_bind, wp_modify. set (m6 := set_mc_efer _ m5).
  assert (fresh (mc_proc m6)) as Hf6 by by apply fresh_replay, fresh_tss.
  apply wp_bind, wp_zoom. rewrite A3, A5. destruct Hf6 as (F1 & F2 & F3).
  eapply wp_mono; [by apply (kernel_init_proc_ok kheap_list array_junk HHDM_OFFSET entries k_start_va k_end_va kva_base kpa_base proc_list ready_queue n)|].
  cbn beta. intros _ p' [bs Hid]. set (m7 := set_mc_proc p' m6). apply wp_bind, wp_zoom.
  eapply wp_ok; [apply (init_timer_ok mask_timer (view_arch m7) None); change (zlookup (zinsert 33 (Some ISR_keyboard_handler) (interrupt_handlers a2)) 32 = Some None); by rewrite Hh2|].
  set (m8 := put_arch _ m7).
  assert (idle_ready kheap_list HHDM_OFFSET proc_list ready_queue n first_room (mc_proc m8) bs) as Hid8 by (apply idle_replay; by apply idle_tss).
  eapply wp_mono; [by apply (fs_init_ok kheap_list HHDM_OFFSET proc_list ready_queue n first_room m8 bs page_junk)|].
  cbn beta. intros _ m9 (Hid9 & Hfs & Hg & S1 & S2 & S3 & S4). split; [|done]. constructor.
  - rewrite S1. apply tables_registered. apply (tables_set_ext isr (replicate 256 None) _ a2); try done.
    change (zinsert 32 (Some ISR_timer_callback) (zinsert 33 (Some ISR_keyboard_handler) (interrupt_handlers a2)) = zinsert 32 (Some ISR_timer_callback) (zinsert 33 (Some ISR_keyboard_handler) (replicate 256 None))).
    by rewrite Hh2.
  - injection S3 as K1 K2 K3 K4. unfold view_kbd. rewrite S2, K1, K2, K3, K4. apply (empty_queue _ _ _ _ fb); [exact O4|apply Hc].
  - rewrite S2. exact Hc.
  - done.
  - rewrite S4. change (mc_efer m8) with (Z.lor (mc_efer m5) EFER_NXE). by rewrite Z.lor_spec, orb_true_r.
Qed.

Lemma kernel_up_proc p m sh : kernel_up m sh → kernel_up (set_mc_proc p m) sh.
Proof using.
  intros [U1 [Uq Us Uc] U3 U4 U5]. constructor; try done. constructor; [|done|exact Uc]. destruct Uq. by constructor.
Qed.

(** An image for which [n] frames and the boot's heap are enough. *)
Record image_fits (elf : list Z) (entry : Z) (l : list segment) (n : nat) : Prop := {
  if_bytes : Forall (λ b, 0 ≤ b < 2 ^ 8) elf;
  if_magic : take 4 elf = elf_magic;
  if_image : ∃ segs, elf_image elf = Ok (entry, segs) ∧ l = filter loadable segs;
  if_entry : entry ≠ 0;
  if_segs : segs_ok elf (l ++ [stack_segment]);
  if_heap : user_bytes (zlen l) ≤ boot_room;
  if_frames : 17 + 4 * pages_of (l ++ [stack_segment]) ≤ Z.of_nat n
}.

Lemma idle_image p bs elf entry l n :
  idle_ready kheap_list HHDM_OFFSET proc_list ready_queue n boot_room p bs → image_fits elf entry l n →
  image_ready HHDM_OFFSET kheap_list proc_list ready_queue elf p bs [] [current_proc p] entry l.
Proof using.
  intros [Q1 Q2 Q3 Q4 Q5 Q6 Q7 _ _] [I1 I2 I3 I4 I5 I6 I7]. constructor; try done.
  - rewrite Q3. by apply Z.ltb_lt.
  - destruct Q4 as (x & X1 & X2 & X3). exists x. split; [done|]. split; [done|lia].
  - unfold free_frames. change (vm_pg (kn_vmm (env p))) with (kn_pg (env p)). lia.
  - rewrite Q7. exact first_top_room.
Qed.

(** C4: from power-on, with a boot loader that answers everything and enough memory,
    [kmain] runs without a fault up to the switch to the first user process: segments,
    gates and the two interrupt handlers are in place, the screen shows a consistent
    console, the keyboard buffer is empty, the file tree is well formed, no-execute is on;
    and the process with PID 1 is [init], runs in its own address space with the image
    and the user stack in it, and the kernel stack it is switched to leads to its entry
    point. *)
Theorem kmain_boots b n m elf size ms entry l sp :
  layout_ok → answers b n → switched_on m → bi_modules b = Some ((elf, size) :: ms) → image_fits elf entry l n →
  wp (kmain kheap_list proc_list ready_queue gdt_addr tss_base idt_addr k_start_va k_end_va user_entry_addr isr array_junk page_junk junk mask_kbd mask_timer b sp) m
    (λ _ m', kernel_up m' (mc_shift m) ∧ ∃ s mm space pname, next_pid s = 1
       ∧ init_runs HHDM_OFFSET junk ready_queue user_entry_addr elf s entry l (mc_proc m') mm space pname).
Proof using.
  intros HL HA HO Hm Hf. unfold kmain. eapply wp_bind_mono; [by apply (kernel_init_ok b n)|]. cbn beta. intros _ m1 [Hup (bs & Hid)].
  rewrite Hm, (an_hhdm _ _ HA). cbn [default from_option id]. pose proof (idle_image _ _ _ _ _ _ Hid Hf) as Hr.
  destruct Hid as [_ Q2 Q3 _ _ _ _ [t Q8] (c & Q9 & Q10 & _)]. apply wp_zoom.
  eapply wp_mono; [apply (kmain_end_ok HHDM_OFFSET kheap_list junk proc_list ready_queue user_entry_addr elf (if_bytes _ _ _ _ Hf) (mc_proc m1) bs [current_proc (mc_proc m1)] entry l size sp c t);
    [apply HL|exact Hr|exact Q9|exact Q10|by symmetry|exact Q8]|].
  cbn beta. intros _ p' (mm & space & pname & Hi). split; [by apply kernel_up_proc|]. by exists (mc_proc m1), mm, space, pname.
Qed.
End boot_theory.

(** * Witness: the machine of [Boot] with the image of [Userproc], from power-on *)

Section example.
Let H := KERNEL_HHDM_BASE.

Definition machine_off : machine :=
  Machine machine_cold (ArchSt (replicate 7 (GdtEntry 0 0 0 0 0 0)) (TablePtr 0 0) (TssEntry 0 0) (replicate 256 idt_zero) (TablePtr 0 0) (replicate 256 None) [])
    con_off (replicate 128 0) 5 6 false [] [] ∅ 0x500.
Definition machine_info : boot_info :=
  BootInfo true (Some [fb_example]) (Some machine_map) (Some H) (Some (KERNEL_IMAGE_BASE, 0x200000)) (Some [(elf_example, 123)]).
Definition stub_example (n : Z) : Z := KERNEL_IMAGE_BASE + 0x4000 + 16 * u8 n.

Lemma machine_layout : layout_ok proc_list_example ready_example (KERNEL_IMAGE_BASE + 0x9000) stub_example (replicate 4096 9).
Proof.
  constructor; [by split|intros n; pose proof (u8_range n); unfold stub_example, KERNEL_IMAGE_BASE; lia|exact heads_example|apply length_replicate].
Qed.

Lemma machine_answers : answers list_example KERNEL_IMAGE_BASE machine_image_end (replicate 64 7) H machine_map KERNEL_IMAGE_BASE 0x200000 fb_example machine_info 100.
Proof. constructor; try reflexivity; [split; [by exists []|exact display_example_ok]|exact machine_boots]. Qed.

Lemma machine_switched_on : switched_on machine_off.
Proof. constructor; [by vm_compute..|split; [exact machine_is_cold|done]]. Qed.

Lemma elf_example_fits : image_fits elf_example 0x10000 [segment_example] 100.
Proof.
  constructor.
  - exact elf_example_bytes.
  - reflexivity.
  - exists [segment_example]. split; [exact elf_example_image|reflexivity].
  - discriminate.
  - exact elf_example_segs.
  - by apply Z.leb_le.
  - change ([segment_example] ++ [stack_segment]) with [segment_example; stack_segment]. rewrite elf_example_pages. by apply Z.leb_le.
Qed.

Lemma kmain_boots_witness :
  ∃ m pname, kmain list_example proc_list_example ready_example (KERNEL_IMAGE_BASE + 0x8000) (KERNEL_IMAGE_BASE + 0x9000) (KERNEL_IMAGE_BASE + 0xA000)
      KERNEL_IMAGE_BASE machine_image_end user_entry_example stub_example (replicate 64 7) (replicate 4096 9) (λ _, 0) 0xFF 0xFD machine_info 0 machine_off = Ok (tt, m)
    ∧ p_pid <$> (pcbs (mc_proc m) !! current_proc (mc_proc m)) = Some 1 ∧ cstring pname (chars "init") ∧ Ramfs.fs_ok (mc_files m) 7.
Proof.
  destruct (wp_inv _ _ _ (kmain_boots list_example proc_list_example ready_example (KERNEL_IMAGE_BASE + 0x8000) (KERNEL_IMAGE_BASE + 0x9000) (KERNEL_IMAGE_BASE + 0xA000)
    KERNEL_IMAGE_BASE machine_image_end user_entry_example stub_example (replicate 64 7) (replicate 4096 9) (λ _, 0) 0xFF 0xFD H machine_map KERNEL_IMAGE_BASE 0x200000 fb_example
    machine_info 100 machine_off elf_example 123 [] 0x10000 [segment_example] 0 machine_layout machine_answers machine_switched_on eq_refl elf_example_fits))
    as ([] & m & E & [_ _ _ [Hfs _] _] & s & mm & space & pname & Hs & [_ _ R3 R4 _ _ _ _ _]).
  exists m, pname. split; [exact E|]. split; [rewrite R3; exact (f_equal Some Hs)|]. split; [exact R4|exact Hfs].
Defined.
End example.
