(* ===== verification/Syscall.v ===== *)
(** Syscall: the way from a user-mode call to the kernel and back:
    [kernel/src/arch/interrupts.c] (the common interrupt entry, the system call
    table, [do_execve]) and the wrappers of [usr/lib/syscall.c].  The operations the
    table calls are an interface, [KernelOps]; [brk] is modelled down to the page
    tables. *)
From S2P Require Import Prelude Layout Frames Pmm Paging Klist Kheap CString Vmm Arch.

(** * The interrupted context (trap.h) *)

Record registers_t := Registers {
  r15 : Z; r14 : Z; r13 : Z; r12 : Z; r11 : Z; r10 : Z; r9 : Z; r8 : Z;
  rbp : Z; rdi : Z; rsi : Z; rdx : Z; rcx : Z; rbx : Z; rax : Z;
  int_no : Z;
  err_code : Z;
  rip : Z; cs : Z; rflags : Z; rsp : Z; ss : Z
}.
Definition with_rax (v : Z) (r : registers_t) : registers_t :=
  Registers (r15 r) (r14 r) (r13 r) (r12 r) (r11 r) (r10 r) (r9 r) (r8 r) (rbp r) (rdi r) (rsi r) (rdx r) (rcx r) (rbx r) v
    (int_no r) (err_code r) (rip r) (cs r) (rflags r) (rsp r) (ss r).

(** The context of a program that starts at [entry] with its stack at [top]. *)
Definition start_at (entry top : Z) (r : registers_t) : registers_t :=
  Registers (r15 r) (r14 r) (r13 r) (r12 r) (r11 r) (r10 r) (r9 r) (r8 r) (rbp r) 0 0 (rdx r) (rcx r) (rbx r) (rax r)
    (int_no r) (err_code r) entry (cs r) (rflags r) top (ss r).

(** * What the system calls are implemented with *)

(** Pointers are addresses in the caller's memory.  Operations of other files
    that answer an [int] answer it as a number in its range. *)
Class KernelOps (St : Type) := {
  #[global] ko_traced :: Traced St;
  interrupt_handlers : St → list (option isr_t);
  run_isr : isr_t → M St unit;
  store_byte : Z → Z → M St unit;
  load_byte : Z → M St Z;
  keyboard_get_char : M St Z;
  kprint_char : Z → M St unit;
  ramfs_read : Z → Z → Z → M St Z;
  ramfs_write : Z → Z → Z → M St Z;
  ramfs_open : Z → Z → M St Z;
  ramfs_close : Z → M St unit;
  ramfs_stat : Z → Z → M St Z;
  (** whether it found the file and filled the buffer, of the given size *)
  ramfs_fstat : Z → Z → Z → M St Z;
  ramfs_getcwd : Z → Z → M St Z;
  ramfs_chdir : Z → M St Z;
  ramfs_mkdir : Z → M St Z;
  ramfs_getdents64 : Z → Z → Z → M St Z;
  ko_kmalloc : Z → M St Z;
  ko_kfree : Z → M St unit;
  load_elf : Z → M St Z;
  ko_brk : Z → M St Z;
  schedule : M St unit;
  sys_fork : M St Z;
  cur_pid : St → Z;
  cur_ppid : St → option Z;
  exit_current : Z → St → St;
  (** [current_proc->trap_frame = regs] where there is a current process *)
  save_trap_frame : St → St;
  has_trap_frame : St → bool
}.

(** The state of the kernel and the frame the handler works on. *)
Record kst (St : Type) := Kst { k_frame : registers_t; k_rest : St }.
Arguments Kst {St} _ _.
Arguments k_frame {St} _.
Arguments k_rest {St} _.

#[export] Program Instance kst_traced {St} `{!Traced St} : Traced (kst St) := {|
  trace s := trace (k_rest s);
  push_event e s := Kst (k_frame s) (push_event e (k_rest s))
|}.
Next Obligation. intros. apply trace_push. Qed.

(** The [struct] that [do_execve] has [ramfs_fstat] fill, and the one it fills. *)
Definition sizeof_exec_stat : Z := 8.
Definition sizeof_stat : Z := 56.

Section syscall.
  Context {K : Type} `{!KernelOps K}.
  Abbreviation St := (kst K).

Definition ko {R} (m : M K R) : M St R := zoom k_rest (λ r s, Kst (k_frame s) r) m.

(** A result stored in [uint64_t ret]. *)
Definition to_ret (m : M K Z) : M St (option Z) := r ← ko m; mret (Some (u64 r)).

(** [do_execve].  [junk] is what the uninitialised 8-byte [st] holds. *)
Definition do_execve (junk path : Z) : M St Z :=
  fd ← ko (ramfs_open path 0);
  if fd <? 0 then mret (-1) else
  let st_addr := 0 in
  ko (ramfs_fstat fd st_addr sizeof_exec_stat);;
  let st_size := junk in
  elf_buf ← ko (ko_kmalloc st_size);
  if elf_buf =? 0 then ko (ramfs_close fd);; mret (-1) else
  read_bytes ← ko (ramfs_read fd elf_buf (i32 st_size));
  ko (ramfs_close fd);;
  if negb (u64 read_bytes =? st_size) then ko (ko_kfree elf_buf);; mret (-1) else
  entry_point ← ko (load_elf elf_buf);
  ko (ko_kfree elf_buf);;
  if entry_point =? 0 then mret (-1) else
  tf ← gets (λ s, has_trap_frame (k_rest s));
  (if tf : bool then modify (λ s, Kst (start_at entry_point USER_STACK_TOP (k_frame s)) (k_rest s)) else mret tt);;
  mret 0.

(** Cases 0 to 3. *)
Definition sys_read (arg1 arg2 arg3 : Z) : M St (option Z) :=
  if arg1 =? 0 then
    c ← ko keyboard_get_char;
    if negb (c =? 0) then ko (store_byte arg2 c);; mret (Some 1) else mret (Some 0)
  else to_ret (ramfs_read (i32 arg1) arg2 (i32 arg3)).
Definition sys_write (arg1 arg2 arg3 : Z) : M St (option Z) :=
  if (arg1 =? 1) || (arg1 =? 2) then
    let len := i32 arg3 in
    ko (for_n (Z.to_nat len) 0 (λ i, c ← load_byte (u64 (arg2 + i)); kprint_char c));;
    mret (Some (u64 len))
  else to_ret (ramfs_write (i32 arg1) arg2 (i32 arg3)).
Definition sys_io (num arg1 arg2 arg3 : Z) : M St (option Z) :=
  if num =? 0 then sys_read arg1 arg2 arg3
  else if num =? 1 then sys_write arg1 arg2 arg3
  else if num =? 2 then to_ret (ramfs_open arg1 (i32 arg2))
  else ko (ramfs_close (i32 arg1));; mret (Some 0).

(** Cases 4, 5, 8, 79, 80, 83 and 217. *)
Definition sys_fs (num arg1 arg2 arg3 : Z) : M St (option Z) :=
  if num =? 4 then to_ret (ramfs_stat arg1 arg2)
  else if num =? 5 then to_ret (ramfs_fstat (i32 arg1) arg2 sizeof_stat)
  else if num =? 8 then mret (Some (u64 (-1)))
  else if num =? 79 then
    if (arg1 =? 0) || (arg2 =? 0) then mret (Some 0) else
    res ← ko (ramfs_getcwd arg1 arg2);
    if negb (res =? 0) then mret (Some res) else mret (Some 0)
  else if num =? 80 then
    if arg1 =? 0 then mret (Some (u64 (-1))) else to_ret (ramfs_chdir arg1)
  else if num =? 83 then
    if arg1 =? 0 then mret (Some (u64 (-1))) else to_ret (ramfs_mkdir arg1)
  else to_ret (ramfs_getdents64 (i32 arg1) arg2 (i32 arg3)).

(** Cases 9, 11 and 12. *)
Definition sys_mm (num arg1 : Z) : M St (option Z) :=
  if num =? 9 then mret (Some 0)
  else if num =? 11 then mret (Some 0)
  else to_ret (ko_brk arg1).

(** Cases 24, 39, 57, 59, 60, 61 and 110; [None] where the call does not return. *)
Definition sys_proc (junk num arg1 : Z) : M St (option Z) :=
  if num =? 24 then ko schedule;; mret (Some 0)
  else if num =? 39 then pid ← gets (λ s, cur_pid (k_rest s)); mret (Some (u64 pid))
  else if num =? 57 then to_ret sys_fork
  else if num =? 59 then r ← do_execve junk arg1; mret (Some (u64 r))
  else if num =? 60 then
    modify (λ s, Kst (k_frame s) (exit_current (i32 arg1) (k_rest s)));;
    pid ← gets (λ s, cur_pid (k_rest s));
    kprintf "Process %d exited with code %d\n" [KInt pid; KInt (i32 arg1)];;
    ko schedule;;
    mret None
  else if num =? 61 then mret (Some (u64 (-1)))
  else ppid ← gets (λ s, cur_ppid (k_rest s)); mret (Some (u64 (default 0 ppid))).

Definition numbers_io : list Z := [0; 1; 2; 3].
Definition numbers_fs : list Z := [4; 5; 8; 79; 80; 83; 217].
Definition numbers_mm : list Z := [9; 11; 12].
Definition numbers_proc : list Z := [24; 39; 57; 59; 60; 61; 110].
Definition one_of (n : Z) (l : list Z) : bool := existsb (Z.eqb n) l.

(** The switch over the system call number. *)
Definition syscall_dispatch (junk num arg1 arg2 arg3 : Z) : M St (option Z) :=
  if one_of num numbers_io then sys_io num arg1 arg2 arg3
  else if one_of num numbers_fs then sys_fs num arg1 arg2 arg3
  else if one_of num numbers_mm then sys_mm num arg1
  else if one_of num numbers_proc then sys_proc junk num arg1
  else if (num =? 35) || (num =? 96) then mret (Some 0)
  else kprintf "Warning: Unknown Syscall %d\n" [KInt num];; mret (Some (u64 (-1))).

(** [regs->rax = ret]. *)
Definition set_result (ret : option Z) : M St unit :=
  match ret with
  | Some ret => modify (λ s, Kst (with_rax ret (k_frame s)) (k_rest s))
  | None => mret tt
  end.

(** The handler of [int 0x80]. *)
Definition syscall_handler (junk : Z) : M St unit :=
  modify (λ s, Kst (k_frame s) (save_trap_frame (k_rest s)));;
  regs ← gets k_frame;
  ret ← syscall_dispatch junk (rax regs) (rdi regs) (rsi regs) (rdx regs);
  set_result ret.

Definition exception_messages : list string := [
  "0: Divide-by-zero Error";
  "1: Debug Exception";
  "2: Non-maskable Interrupt";
  "3: Breakpoint";
  "4: Overflow";
  "5: Bound Range Exceeded";
  "6: Invalid Opcode";
  "7: Device Not Available";
  "8: Double Fault";
  "9: Coprocessor Segment Overrun";
  "10: Invalid TSS";
  "11: Segment Not Present";
  "12: Stack-Segment Fault";
  "13: General Protection Fault";
  "14: Page Fault";
  "15: Reserved";
  "16: x87 Floating-Point Exception";
  "17: Alignment Check";
  "18: Machine Check";
  "19: SIMD Floating-Point Exception";
  "20: Virtualization Exception";
  "21: Control Protection Exception";
  "22: Reserved";
  "23: Reserved";
  "24: Reserved";
  "25: Reserved";
  "26: Reserved";
  "27: Reserved";
  "28: Reserved";
  "29: Reserved";
  "30: Reserved";
  "31: Reserved"]%string.

(** The common entry of all interrupts. *)
Definition isr_handler (junk : Z) : M St unit :=
  regs ← gets k_frame;
  let n := int_no regs in
  if n =? 128 then syscall_handler junk else
  (if (32 <=? n) && (n <=? 47) then
     (if 40 <=? n then emit (EvOut 0xA0 0x20) else mret tt);;
     emit (EvOut 0x20 0x20)
   else mret tt);;
  handlers ← gets (λ s, interrupt_handlers (k_rest s));
  h ← or_crash OutOfBounds (zlookup handlers n);
  match h with
  | Some handler => ko (run_isr handler)
  | None =>
    if n <? 32 then
      let msg := if n <? zlen exception_messages then default EmptyString (zlookup exception_messages n) else "Unknown Exception"%string in
      kprintf "=== CPU EXCEPTION ===\n" [];;
      kprintf "Exception: %s\n" [KStr (chars msg)];;
      kprintf "Error Code: %lx\n" [KInt (err_code regs)];;
      kprintf "RIP: %lx\n" [KInt (rip regs)];;
      kprintf "=====================\n" [];;
      emit EvHlt;;
      crash Halted
    else mret tt
  end.

(** * The user's side: usr/lib/syscall.c *)

(** The trap of [int $0x80] with the registers loaded, from a context [r]. *)
Definition syscall_frame (n a1 a2 a3 a4 a5 : Z) (r : registers_t) : registers_t :=
  Registers (r15 r) (r14 r) (r13 r) (r12 r) (r11 r) a4 (r9 r) a5 (rbp r) a1 a2 a3 (rcx r) (rbx r) n
    128 0 (rip r) (cs r) (rflags r) (rsp r) (ss r).

(** The interrupt returns to where the caller was. *)
Definition returns_to (ctx regs : registers_t) : bool := (rip regs =? rip ctx) && (rsp regs =? rsp ctx).

(** [syscall(n, a1, ...)]: the value of RAX as [int64_t]; [None] if the call never
    returns to the caller, after [exit] or into the image of [execve].  A call to
    another thread's [schedule] in between is part of the operations. *)
Definition syscall (junk : Z) (ctx : registers_t) (n a1 a2 a3 a4 a5 : Z) : M K (option Z) := λ s,
  match isr_handler junk (Kst (syscall_frame n (u64 a1) (u64 a2) (u64 a3) (u64 a4) (u64 a5) ctx) s) with
  | Ok (_, s') => Ok (if (n =? 60) || negb (returns_to ctx (k_frame s')) then None else Some (rax (k_frame s')), k_rest s')
  | Crash f => Crash f
  end.

Context (junk : Z) (ctx : registers_t).

Definition SYS_READ : Z := 0.
Definition SYS_WRITE : Z := 1.
Definition SYS_OPEN : Z := 2.
Definition SYS_CLOSE : Z := 3.
Definition SYS_STAT : Z := 4.
Definition SYS_FSTAT : Z := 5.
Definition SYS_LSEEK : Z := 8.
Definition SYS_GETDENTS64 : Z := 217.
Definition SYS_GETCWD : Z := 79.
Definition SYS_CHDIR : Z := 80.
Definition SYS_MKDIR : Z := 83.
Definition SYS_BRK : Z := 12.
Definition SYS_YIELD : Z := 24.
Definition SYS_FORK : Z := 57.
Definition SYS_EXECVE : Z := 59.
Definition SYS_EXIT : Z := 60.
Definition SYS_WAIT4 : Z := 61.
Definition SYS_GETPID : Z := 39.
Definition SYS_GETPPID : Z := 110.
Definition SYS_NANOSLEEP : Z := 35.

(** [(int)SYSCALLn(...)]; a call that does not return leaves the caller in the loop
    behind it. *)
Definition int_of (m : M K (option Z)) : M K Z := r ← m; v ← or_crash Halted r; mret (i32 v).

Definition read (fd buf count : Z) : M K Z := int_of (syscall junk ctx SYS_READ fd buf count 0 0).
Definition write (fd buf count : Z) : M K Z := int_of (syscall junk ctx SYS_WRITE fd buf count 0 0).
Definition open (pathname flags mode : Z) : M K Z := int_of (syscall junk ctx SYS_OPEN pathname flags mode 0 0).
Definition close (fd : Z) : M K Z := int_of (syscall junk ctx SYS_CLOSE fd 0 0 0 0).
Definition getcwd (buf size : Z) : M K Z := int_of (syscall junk ctx SYS_GETCWD buf size 0 0 0).
Definition chdir (path : Z) : M K Z := int_of (syscall junk ctx SYS_CHDIR path 0 0 0 0).
Definition getdents64 (fd dirp count : Z) : M K Z := int_of (syscall junk ctx SYS_GETDENTS64 fd dirp count 0 0).
Definition lseek (fd offset whence : Z) : M K Z := int_of (syscall junk ctx SYS_LSEEK fd offset whence 0 0).
Definition fstat (fd statbuf : Z) : M K Z := int_of (syscall junk ctx SYS_FSTAT fd statbuf 0 0 0).
Definition stat (filename statbuf : Z) : M K Z := int_of (syscall junk ctx SYS_STAT filename statbuf 0 0 0).
Definition mkdir (pathname mode : Z) : M K Z := int_of (syscall junk ctx SYS_MKDIR pathname mode 0 0 0).
Definition getpid : M K Z := int_of (syscall junk ctx SYS_GETPID 0 0 0 0 0).
Definition getppid : M K Z := int_of (syscall junk ctx SYS_GETPPID 0 0 0 0 0).
Definition fork : M K Z := int_of (syscall junk ctx SYS_FORK 0 0 0 0 0).
Definition execve (filename argv envp : Z) : M K Z := int_of (syscall junk ctx SYS_EXECVE filename argv envp 0 0).
Definition exit (status : Z) : M K unit := syscall junk ctx SYS_EXIT status 0 0 0 0;; crash Halted.
Definition wait4 (pid status options rusage : Z) : M K Z := int_of (syscall junk ctx SYS_WAIT4 pid status options rusage 0).
Definition waitpid (pid status options : Z) : M K Z := wait4 pid status options 0.
Definition sched_yield : M K unit := syscall junk ctx SYS_YIELD 0 0 0 0 0;; mret tt.
(** A pointer: the whole register. *)
Definition brk (addr : Z) : M K Z := r ← syscall junk ctx SYS_BRK addr 0 0 0 0; or_crash Halted r.
Definition nanosleep (req rem : Z) : M K Z := int_of (syscall junk ctx SYS_NANOSLEEP req rem 0 0 0).
(** [rem] is a local array of zeros whose address is the last argument. *)
Definition sleep (seconds req rem : Z) : M K Z := nanosleep req rem;; mret 0.

(** * From the wrapper to the operation *)

Definition int_ok (z : Z) : Prop := - 2 ^ 31 ≤ z < 2 ^ 31.
Definition ptr_ok (p : Z) : Prop := 0 ≤ p < 2 ^ 64.

Lemma i32_u64 z : i32 (u64 z) = i32 z.
Proof.
  unfold i32, u64. f_equal. rewrite <- (Zplus_mod_idemp_l (z mod 2 ^ 64) (2 ^ 31) (2 ^ 32)).
  replace (2 ^ 64) with (2 ^ 32 * 2 ^ 32) by lia. rewrite Z.mod_mod_divide; [|by exists (2 ^ 32)].
  by rewrite Zplus_mod_idemp_l.
Qed.

Lemma i32_u64_int z : int_ok z → i32 (u64 z) = z.
Proof. intros. rewrite i32_u64. by apply i32_small. Qed.

(** The call runs [m] once the frame of the trap is recorded. *)
Definition runs {R} (call m : M K R) : Prop := ∀ s, call s = m (save_trap_frame s).
(** The same, and the answer of [m] comes back as an [int]. *)
Definition reaches (call : M K Z) (m : M K Z) : Prop := runs call (r ← m; mret (i32 r)).

Lemma returns_to_refl r n a1 a2 a3 a4 a5 : returns_to ctx (with_rax r (syscall_frame n a1 a2 a3 a4 a5 ctx)) = true.
Proof. unfold returns_to. simpl. by rewrite !Z.eqb_refl. Qed.

(** The trap of a system call, up to the switch. *)
Lemma trap_dispatch n a1 a2 a3 a4 a5 s :
  isr_handler junk (Kst (syscall_frame n a1 a2 a3 a4 a5 ctx) s)
  = (ret ← syscall_dispatch junk n a1 a2 a3; set_result ret) (Kst (syscall_frame n a1 a2 a3 a4 a5 ctx) (save_trap_frame s)).
Proof. reflexivity. Qed.

(** A case of the switch that leaves the frame to [regs->rax = ret]. *)
Lemma syscall_ko n a1 a2 a3 a4 a5 (f : Z → Z) (m : M K Z) :
  n ≠ 60 → (∀ s, syscall_dispatch junk n (u64 a1) (u64 a2) (u64 a3) s = (r ← ko m; mret (Some (f r))) s) →
  runs (syscall junk ctx n a1 a2 a3 a4 a5) (r ← m; mret (Some (f r))).
Proof.
  intros Hn Hd s. unfold syscall. rewrite trap_dispatch. cbv [mbind M_bind]. rewrite Hd.
  unfold ko, zoom. cbv [mbind M_bind]. cbn [k_rest k_frame].
  destruct (m (save_trap_frame s)) as [[r s']|]; [|done]. unfold mret, M_ret, set_result, modify. cbn [k_frame k_rest].
  by rewrite returns_to_refl, (proj2 (Z.eqb_neq n 60) Hn).
Qed.

Lemma syscall_int n a1 a2 a3 a4 a5 f (m : M K Z) :
  n ≠ 60 → (∀ r, i32 (f r) = i32 r) →
  (∀ s, syscall_dispatch junk n (u64 a1) (u64 a2) (u64 a3) s = (r ← ko m; mret (Some (f r))) s) →
  reaches (int_of (syscall junk ctx n a1 a2 a3 a4 a5)) m.
Proof.
  intros Hn Hf Hd s. unfold int_of. pose proof (syscall_ko n a1 a2 a3 a4 a5 f m Hn Hd s) as E. revert E.
  cbv [mbind M_bind]. intros ->. destruct (m (save_trap_frame s)) as [[r s']|]; [|done].
  unfold or_crash, mret, M_ret. by rewrite Hf.
Qed.

Lemma syscall_to_ret n a1 a2 a3 a4 a5 (m : M K Z) :
  n ≠ 60 → (∀ s, syscall_dispatch junk n (u64 a1) (u64 a2) (u64 a3) s = to_ret m s) →
  reaches (int_of (syscall junk ctx n a1 a2 a3 a4 a5)) m.
Proof. intros Hn. apply (syscall_int _ _ _ _ _ _ u64); [done|exact i32_u64]. Qed.

(** [execve] that reports failure leaves the trap frame alone; one that loaded an
    image has set the frame to enter it. *)
Lemma syscall_execve path a2 a3 s r k :
  do_execve junk (u64 path) (Kst (syscall_frame SYS_EXECVE (u64 path) (u64 a2) (u64 a3) (u64 0) (u64 0) ctx) (save_trap_frame s)) = Ok (r, k) →
  syscall junk ctx SYS_EXECVE path a2 a3 0 0 s = Ok (if returns_to ctx (k_frame k) then Some (u64 r) else None, k_rest k).
Proof.
  intros E. unfold syscall. rewrite trap_dispatch. cbv [mbind M_bind]. change (syscall_dispatch junk SYS_EXECVE (u64 path) (u64 a2) (u64 a3)) with
    (r ← do_execve junk (u64 path); mret (Some (u64 r)) : M St (option Z)). cbv [mbind M_bind]. rewrite E.
  unfold mret, M_ret, set_result, modify. cbn [k_frame k_rest]. change (SYS_EXECVE =? 60) with false. cbn [orb].
  change (returns_to ctx (with_rax (u64 r) (k_frame k))) with (returns_to ctx (k_frame k)). by destruct (returns_to ctx (k_frame k)).
Qed.

(** What the kernel does for [exit]: the call does not return. *)
Definition exits (status : Z) : M K (option Z) :=
  modify (exit_current status);;
  pid ← gets cur_pid;
  kprintf "Process %d exited with code %d\n" [KInt pid; KInt status];;
  schedule;;
  mret None.

Definition file_calls (fd buf count path flags mode size offset whence : Z) : Prop :=
  reaches (read fd buf count) (if fd =? 0 then
      c ← keyboard_get_char; if negb (c =? 0) then store_byte buf c;; mret 1 else mret 0
    else ramfs_read fd buf count)
  ∧ reaches (write fd buf count) (if (fd =? 1) || (fd =? 2) then
      for_n (Z.to_nat count) 0 (λ i, c ← load_byte (u64 (buf + i)); kprint_char c);; mret count
    else ramfs_write fd buf count)
  ∧ reaches (open path flags mode) (ramfs_open path flags)
  ∧ reaches (close fd) (ramfs_close fd;; mret 0)
  ∧ reaches (stat path buf) (ramfs_stat path buf)
  ∧ reaches (fstat fd buf) (ramfs_fstat fd buf sizeof_stat)
  ∧ reaches (lseek fd offset whence) (mret (-1))
  ∧ reaches (getcwd buf size) (if (buf =? 0) || (size =? 0) then mret 0 else ramfs_getcwd buf size)
  ∧ reaches (chdir path) (if path =? 0 then mret (-1) else ramfs_chdir path)
  ∧ reaches (mkdir path mode) (if path =? 0 then mret (-1) else ramfs_mkdir path)
  ∧ reaches (getdents64 fd buf count) (ramfs_getdents64 fd buf count).

Definition process_calls (path argv envp status wstatus options rusage pid : Z) : Prop :=
  reaches fork sys_fork
  ∧ (∀ s r k, do_execve junk path (Kst (syscall_frame SYS_EXECVE path (u64 argv) (u64 envp) 0 0 ctx) (save_trap_frame s)) = Ok (r, k) →
       if returns_to ctx (k_frame k) then execve path argv envp s = Ok (i32 r, k_rest k)
       else syscall junk ctx SYS_EXECVE path argv envp 0 0 s = Ok (None, k_rest k))
  ∧ runs (syscall junk ctx SYS_EXIT status 0 0 0 0) (exits status)
  ∧ reaches (wait4 pid wstatus options rusage) (mret (-1))
  ∧ reaches (waitpid pid wstatus options) (mret (-1))
  ∧ runs sched_yield schedule
  ∧ reaches getpid (gets cur_pid)
  ∧ reaches getppid (p ← gets cur_ppid; mret (default 0 p)).

Definition memory_calls (addr : Z) : Prop := runs (brk addr) (r ← ko_brk addr; mret (u64 r)).

Definition time_calls (seconds req rem : Z) : Prop := reaches (nanosleep req rem) (mret 0) ∧ runs (sleep seconds req rem) (mret 0).

Lemma file_calls_ok fd buf count path flags mode size offset whence :
  int_ok fd → ptr_ok buf → int_ok count → ptr_ok path → int_ok flags → ptr_ok size →
  file_calls fd buf count path flags mode size offset whence.
Proof.
  intros Hfd Hb Hc Hp Hf Hsz. unfold ptr_ok in *.
  assert (∀ k, 0 ≤ k < 2 ^ 31 → (u64 fd =? k) = (fd =? k)) as Hne.
  { intros k Hk. destruct (Z.eqb_spec fd k) as [->|Hn]; [rewrite u64_small by lia; apply Z.eqb_refl|]. apply Z.eqb_neq. intros E. apply Hn.
    rewrite <- (i32_u64_int fd Hfd), E. apply i32_small. lia. }
  pose proof (i32_u64_int fd Hfd) as Ef. pose proof (i32_u64_int count Hc) as Ec. pose proof (i32_u64_int flags Hf) as Eg.
  pose proof (u64_small buf Hb) as Eb. pose proof (u64_small path Hp) as Ep. pose proof (u64_small size Hsz) as Es.
  unfold file_calls. split_and!; lazymatch goal with |- reaches (getcwd _ _) _ => apply (syscall_int _ _ _ _ _ _ id) | _ => apply syscall_to_ret end; try done; intros [fr s].
  - change (syscall_dispatch _ _ ?a ?b ?c) with (sys_read a b c). unfold sys_read. rewrite Hne, Ef, Ec, Eb by done.
    destruct (fd =? 0); [|done]. unfold to_ret, ko, zoom. cbv [mbind M_bind]. cbn [k_rest k_frame].
    destruct (keyboard_get_char s) as [[c s']|]; [|done]. cbn [k_rest k_frame].
    destruct (negb (c =? 0)); [|done]. cbn [k_rest k_frame]. by destruct (store_byte buf c s') as [[]|].
  - change (syscall_dispatch _ _ ?a ?b ?c) with (sys_write a b c). unfold sys_write. rewrite !Hne, Ef, Ec, Eb by done.
    destruct ((fd =? 1) || (fd =? 2)); [|done]. unfold to_ret, ko, zoom. cbv [mbind M_bind]. cbn [k_rest k_frame].
    by destruct (for_n _ _ _ s) as [[]|].
  - change (syscall_dispatch _ _ ?a ?b ?c) with (to_ret (ramfs_open a (i32 b))). by rewrite Ep, Eg.
  - change (syscall_dispatch _ _ ?a ?b ?c) with (ko (ramfs_close (i32 a));; mret (Some 0) : M St (option Z)). rewrite Ef.
    unfold to_ret, ko, zoom. cbv [mbind M_bind]. cbn [k_rest k_frame]. by destruct (ramfs_close fd s) as [[]|].
  - change (syscall_dispatch _ _ ?a ?b ?c) with (to_ret (ramfs_stat a b)). by rewrite Ep, Eb.
  - change (syscall_dispatch _ _ ?a ?b ?c) with (to_ret (ramfs_fstat (i32 a) b sizeof_stat)). by rewrite Ef, Eb.
  - done.
  - change (syscall_dispatch _ _ ?a ?b ?c) with (if (a =? 0) || (b =? 0) then mret (Some 0) else
      res ← ko (ramfs_getcwd a b); if negb (res =? 0) then mret (Some res) else mret (Some 0) : M St (option Z)).
    rewrite Eb, Es. destruct ((buf =? 0) || (size =? 0)); [done|]. unfold to_ret, ko, zoom. cbv [mbind M_bind]. cbn [k_rest k_frame].
    destruct (ramfs_getcwd buf size s) as [[r s']|]; [|done]. by destruct (Z.eqb_spec r 0) as [->|].
  - change (syscall_dispatch _ _ ?a ?b ?c) with (if a =? 0 then mret (Some (u64 (-1))) else to_ret (ramfs_chdir a)). rewrite Ep. by destruct (path =? 0).
  - change (syscall_dispatch _ _ ?a ?b ?c) with (if a =? 0 then mret (Some (u64 (-1))) else to_ret (ramfs_mkdir a)). rewrite Ep. by destruct (path =? 0).
  - change (syscall_dispatch _ _ ?a ?b ?c) with (to_ret (ramfs_getdents64 (i32 a) b (i32 c))). by rewrite Ef, Eb, Ec.
Qed.

Lemma memory_calls_ok addr : ptr_ok addr → memory_calls addr.
Proof.
  intros Ha s. unfold brk. pose proof (syscall_ko SYS_BRK addr 0 0 0 0 u64 (ko_brk addr) ltac:(done)) as E.
  cbv [mbind M_bind]. rewrite E; [|intros s'; by rewrite (u64_small addr Ha)]. cbv [mbind M_bind].
  by destruct (ko_brk addr (save_trap_frame s)) as [[]|].
Qed.

Lemma process_calls_ok path argv envp status wstatus options rusage pid :
  ptr_ok path → int_ok status → process_calls path argv envp status wstatus options rusage pid.
Proof.
  intros Hp Hst. unfold process_calls. split_and!.
  - apply syscall_to_ret; [done|by intros []].
  - intros s r k E. pose proof (u64_small path Hp) as Ep.
    pose proof (syscall_execve path argv envp s r k ltac:(by rewrite Ep)) as Hs. unfold execve, int_of. cbv [mbind M_bind]. rewrite Hs.
    destruct (returns_to ctx (k_frame k)); [|done]. unfold or_crash, mret, M_ret. by rewrite i32_u64.
  - intros s. unfold syscall. rewrite trap_dispatch.
    change (syscall_dispatch junk SYS_EXIT (u64 status) (u64 0) (u64 0)) with (sys_proc junk 60 (u64 status)). unfold sys_proc. cbn [Z.eqb Pos.eqb].
    rewrite (i32_u64_int status Hst). unfold exits, ko, zoom, kprintf, emit, modify, gets. cbv [mbind M_bind]. cbn [k_rest k_frame push_event kst_traced].
    match goal with |- _ = match schedule ?x with _ => _ end =>
      repeat match goal with |- context [schedule ?y] => progress change (schedule y) with (schedule x) end; by destruct (schedule x) as [[]|] end.
  - apply syscall_to_ret; [done|by intros []].
  - apply syscall_to_ret; [done|by intros []].
  - intros s. unfold sched_yield. pose proof (syscall_ko SYS_YIELD 0 0 0 0 0 id (schedule;; mret 0) ltac:(done)) as E. cbv [mbind M_bind]. rewrite E.
    + cbv [mbind M_bind]. by destruct (schedule (save_trap_frame s)) as [[[] s']|].
    + intros [fr s']. change (syscall_dispatch junk SYS_YIELD (u64 0) (u64 0) (u64 0)) with (ko schedule;; mret (Some 0) : M St (option Z)).
      unfold ko, zoom. cbv [mbind M_bind]. cbn [k_rest k_frame]. by destruct (schedule s') as [[]|].
  - apply syscall_to_ret; [done|by intros []].
  - apply syscall_to_ret; [done|by intros []].
Qed.

(** C14: what every wrapper of the C library but [sbrk] does, for all its arguments.  The
    arguments pass through 64-bit registers and the kernel's casts to [int] unchanged.
    Reading descriptor 0 takes one key, writing 1 and 2 prints the bytes; [open], [stat],
    [fstat], [getdents64], [fork] and the other descriptors run the operation they are
    named after and answer its [int]; so do [chdir] and [mkdir] of a path that is not
    NULL; [close] runs its operation and answers 0.  [getcwd] answers the low 32 bits
    of the pointer, as an [int]; [lseek] and [wait4] always fail and [nanosleep] always
    succeeds.  [brk] answers the whole register.  [execve] that fails answers the failure,
    and does not return where an image was loaded; [exit] marks the process, prints
    and schedules, and never returns. *)
Theorem syscall_wrappers fd buf count path flags mode size offset whence argv envp status wstatus options rusage pid addr seconds req rem :
  int_ok fd → ptr_ok buf → int_ok count → ptr_ok path → int_ok flags → ptr_ok size → int_ok status → ptr_ok addr →
  file_calls fd buf count path flags mode size offset whence
  ∧ process_calls path argv envp status wstatus options rusage pid
  ∧ memory_calls addr
  ∧ time_calls seconds req rem.
Proof.
  intros. split; [by apply file_calls_ok|]. split; [by apply process_calls_ok|]. split; [by apply memory_calls_ok|].
  assert (reaches (nanosleep req rem) (mret 0)) as Hn by (apply syscall_to_ret; [done|by intros []]).
  split; [exact Hn|]. intros s. unfold sleep. cbv [mbind M_bind]. by rewrite Hn.
Qed.
End syscall.

(** * The break of a process *)

Section brk.
  Context {A : Type} `{FA : FrameAlloc A}.
  Context (HHDM_OFFSET kheap_list : Z).
  Abbreviation VSt := (vmm_st A).

(** Case 12, for the address space [mm] of the current process. *)
Definition sys_brk (mm new_brk : Z) : M VSt Z :=
  m ← get_mm mm;
  let cur_brk := mm_heap m in
  if new_brk =? 0 then mret cur_brk
  else if cur_brk <? new_brk then
    ok ← mm_map_range HHDM_OFFSET kheap_list mm cur_brk (u64 (new_brk - cur_brk)) (Z.lor (Z.lor VM_READ VM_WRITE) VM_HEAP);
    if ok : bool then update_mm mm (with_heap new_brk);; mret new_brk
    else mret cur_brk
  else mret cur_brk.

Definition heap_flags : Z := Z.lor PTE_PRESENT (Z.lor PTE_USER PTE_RW).

Implicit Types s : VSt.

(** Growing by what the frames and the heap allow. *)
Record can_grow s (bs : list block) (mm : Z) (m : mm_struct) (xs : list Z) (new_brk : Z) : Prop := {
  cg_mm : mm_ok HHDM_OFFSET kheap_list s bs mm m xs;
  cg_fits : Exists (fits (ALIGN_UP sizeof_vma 8)) bs;
  cg_cur : 0 ≤ mm_heap m < new_brk;
  cg_max : new_brk + PAGE_SIZE ≤ 2 ^ 47;
  cg_frames : 4 * ((ALIGN_UP new_brk PAGE_SIZE - ALIGN_DOWN (mm_heap m) PAGE_SIZE) / PAGE_SIZE) ≤ Z.of_nat (base.size (free_frames s))
}.

(** The new pages are an area of the space; then the new break is recorded. *)
Definition with_break (mm : Z) (m : mm_struct) (b : Z) (s : VSt) : VSt :=
  set_mms (<[mm := with_heap b (with_map_count (i32 (map_count m + 1)) m)]> (vm_mms s)) s.

Lemma sys_brk_area s bs mm m xs new_brk :
  can_grow s bs mm m xs new_brk →
  wp (sys_brk mm new_brk) s (λ r s', r = new_brk ∧ ∃ v vma ks bs',
    area_added HHDM_OFFSET kheap_list s bs mm m xs (ALIGN_DOWN (mm_heap m) PAGE_SIZE) (ALIGN_UP new_brk PAGE_SIZE)
      (Z.lor (Z.lor VM_READ VM_WRITE) VM_HEAP) v vma ks bs' ∧ s' = with_break mm m new_brk v).
Proof.
  intros [Hok Hfit Hcur Hmax Hfr]. pose proof (mo_mm _ _ _ _ _ _ _ Hok) as Hmm.
  unfold sys_brk. apply wp_bind. eapply wp_ok; [unfold get_mm, gets, or_crash; cbv [mbind M_bind]; by rewrite Hmm|].
  rewrite (proj2 (Z.eqb_neq new_brk 0)), (proj2 (Z.ltb_lt _ _)) by lia.
  rewrite (u64_small (new_brk - mm_heap m)) by (unfold PAGE_SIZE in *; lia).
  assert (mm_heap m + (new_brk - mm_heap m) = new_brk) as Enb by lia.
  apply wp_bind. eapply wp_mono; [apply (mm_map_range_ok HHDM_OFFSET kheap_list s bs mm m xs (mm_heap m) (new_brk - mm_heap m)); rewrite ?Enb; done || lia|].
  cbn beta. rewrite Enb. intros r v (-> & vma & ks & bs' & Ha). pose proof (aa_mms _ _ _ _ _ _ _ _ _ _ _ _ _ _ Ha) as Hms.
  cbv iota. apply wp_bind. unfold update_mm. apply wp_bind.
  eapply wp_ok; [unfold get_mm, gets, or_crash; cbv [mbind M_bind]; by rewrite Hms, lookup_insert_eq|].
  apply wp_modify, wp_ret. split; [done|]. by exists v, vma, ks, bs'.
Qed.

Lemma sys_brk_ok s bs mm m xs new_brk :
  can_grow s bs mm m xs new_brk →
  wp (sys_brk mm new_brk) s (λ r s', r = new_brk
    ∧ vm_mms s' !! mm = Some (with_heap new_brk (with_map_count (i32 (map_count m + 1)) m))
    ∧ fresh_pages HHDM_OFFSET s s' (mm_pml4 m) (ALIGN_DOWN (mm_heap m) PAGE_SIZE) (ALIGN_UP new_brk PAGE_SIZE)
        (Z.lor (Z.lor VM_READ VM_WRITE) VM_HEAP)).
Proof.
  intros Hg. eapply wp_mono; [by eapply sys_brk_area|]. cbn beta. intros r s' (-> & v & vma & ks & bs' & Ha & ->).
  split; [done|]. split; [apply lookup_insert_eq|]. exact (area_fresh_pages _ _ _ _ _ _ _ _ _ _ _ _ _ _ Ha).
Qed.

(** C27: growing the break of a well-formed address space answers the new break,
    records it, and maps every address from the page of the old break to the end of the
    page below the new one, writable by the user, to frames that were free, a different
    one for each page; no address of another page changes. *)
Theorem brk_grows s bs mm m xs new_brk :
  can_grow s bs mm m xs new_brk →
  wp (sys_brk mm new_brk) s (λ r s', r = new_brk
    ∧ (∃ m', vm_mms s' !! mm = Some m' ∧ mm_heap m' = new_brk ∧ mm_pml4 m' = mm_pml4 m)
    ∧ let start := ALIGN_DOWN (mm_heap m) PAGE_SIZE in ∃ ks, NoDup ks ∧ ALIGN_UP new_brk PAGE_SIZE = start + zlen ks * PAGE_SIZE
      ∧ (∀ va, start ≤ va < ALIGN_UP new_brk PAGE_SIZE → ∃ k, ks !! Z.to_nat ((va - start) / PAGE_SIZE) = Some k
           ∧ k ∈ free_frames s ∧ (k ∉ free_frames s') ∧ trans HHDM_OFFSET s' (mm_pml4 m) va = Some (leaf_entry (k * PAGE_SIZE) heap_flags))
      ∧ ∀ va, (∀ j, 0 ≤ j < zlen ks → vpn va ≠ vpn (start + j * PAGE_SIZE)) →
          trans HHDM_OFFSET s' (mm_pml4 m) va = trans HHDM_OFFSET s (mm_pml4 m) va).
Proof.
  intros Hg. eapply wp_mono; [by eapply sys_brk_ok|]. cbn beta. intros r s' (-> & Hm & Hf).
  split; [done|]. split; [by eexists|exact Hf].
Qed.

(** A break inside a page that the process already uses: growing it replaces that
    page by a fresh frame, so what the heap held below the old break is gone. *)
Theorem brk_remaps_page s bs mm m xs new_brk k flags :
  can_grow s bs mm m xs new_brk → (k ∉ free_frames s) →
  trans HHDM_OFFSET s (mm_pml4 m) (ALIGN_DOWN (mm_heap m) PAGE_SIZE) = Some (leaf_entry (k * PAGE_SIZE) flags) →
  ALIGN_DOWN (mm_heap m) PAGE_SIZE < mm_heap m →
  wp (sys_brk mm new_brk) s (λ r s', r = new_brk
    ∧ ∃ k', k' ≠ k ∧ trans HHDM_OFFSET s' (mm_pml4 m) (ALIGN_DOWN (mm_heap m) PAGE_SIZE) = Some (leaf_entry (k' * PAGE_SIZE) heap_flags)).
Proof.
  intros Hg Hk _ Hlow. pose proof (cg_cur _ _ _ _ _ _ Hg). pose proof (cg_max _ _ _ _ _ _ Hg).
  destruct (page_align_up new_brk) as [_ Hu]; [lia|unfold PAGE_SIZE in *; lia|].
  eapply wp_mono; [by eapply sys_brk_ok|]. cbn beta. intros r s' (-> & Hm & ks & _ & _ & Hin & _). split; [done|].
  destruct (Hin (ALIGN_DOWN (mm_heap m) PAGE_SIZE)) as (k' & _ & H1 & H2 & H3); [lia|].
  exists k'. split; [by intros ->|exact H3].
Qed.
End brk.

(** * Witnesses *)

Section example.
Let H := KERNEL_HHDM_BASE.

(** The address space of the Vmm examples with the page of the break in use: address
    0x400000, at frame 5. *)
Definition run_pg {A} (m : M (pg_st A) unit) (s : pg_st A) : pg_st A := match m s with Ok (_, s') => s' | Crash _ => s end.
Definition pg_used : pg_st pmm_st := run_pg (map_kernel_page H 0x400000 (5 * PAGE_SIZE) 7) (vm_pg vmm_example).
Definition vmm_used : vmm_st pmm_st := set_pg pg_used vmm_example.

Lemma vmm_used_ok : mm_ok H list_example vmm_used blocks_mm mm_example mm_fields [].
Proof.
  pose proof (ha_pages _ _ _ _ (proj1 (mo_heap _ _ _ _ _ _ _ vmm_example_ok))) as Hpg.
  destruct (wp_inv _ _ _ (kp_map_spec (KernelPages := kernel_pages H) (vm_pg vmm_example) 0x400000 5 7 Hpg
    ltac:(lia) ltac:(unfold PAGE_SIZE; lia) eq_refl)) as ([] & p & E & Hok & _ & Hm).
  assert (pg_used = p) as Ep by (unfold pg_used, run_pg; change (map_kernel_page H) with (kp_map (KernelPages := kernel_pages H)); by rewrite E).
  assert (kernel_pml4 pg_used = kva H 4) as Ek by by vm_compute.
  unfold vmm_used. rewrite Ep in *. clear E Ep. apply mm_ok_set_pg; [exact vmm_example_ok|exact Hok| |].
  - intros x Hx. destruct Hm as [Hm|(_ & _ & Hm)]; rewrite Hm; [|exact Hx]. destruct (decide _); [exact eq_refl|exact Hx].
  - change (pt_wf H p (kernel_pml4 p)) in Hok. rewrite Ek in Hok. exact Hok.
Qed.

Lemma vmm_example_grow : can_grow H list_example vmm_example blocks_mm mm_example mm_fields [] 0x401800.
Proof.
  constructor; [exact vmm_example_ok|exact blocks_mm_fit|by split|by vm_compute|by vm_compute].
Qed.

Lemma vmm_used_grow : can_grow H list_example vmm_used blocks_mm mm_example mm_fields [] 0x401800.
Proof.
  constructor; [exact vmm_used_ok|exact blocks_mm_fit|by split|by vm_compute|by vm_compute].
Qed.

Lemma brk_grows_witness :
  ∃ s', sys_brk H list_example mm_example 0x401800 vmm_example = Ok (0x401800, s')
    ∧ ∃ k, trans H s' (kva H 4) 0x401000 = Some (leaf_entry (k * PAGE_SIZE) heap_flags).
Proof.
  destruct (wp_inv _ _ _ (brk_grows H list_example vmm_example blocks_mm mm_example mm_fields [] 0x401800 vmm_example_grow))
    as (r & s' & E & -> & _ & ks & _ & _ & Hf & _).
  exists s'. split; [exact E|].
  refine (match Hf 0x401000 _ with ex_intro _ k (conj _ (conj _ (conj _ Hk))) => ex_intro _ k Hk end).
  clear. by vm_compute.
Defined.

Lemma vmm_used_mapped :
  trans H vmm_used (mm_pml4 mm_fields) (ALIGN_DOWN (mm_heap mm_fields) PAGE_SIZE) = Some (leaf_entry (5 * PAGE_SIZE) 7).
Proof. by vm_compute. Qed.

Lemma busy_not_free (s : vmm_st pmm_st) k : page_bit (pg_alloc (vm_pg s)) k = true → (k ∉ free_frames s).
Proof. intros Hb Hf. apply free_set_spec in Hf as [_ Hf]. congruence. Qed.

Lemma frame_used : (5 ∉ free_frames vmm_used).
Proof. apply busy_not_free. by vm_compute. Qed.

Lemma brk_remaps_page_witness :
  trans H vmm_used (mm_pml4 mm_fields) (ALIGN_DOWN (mm_heap mm_fields) PAGE_SIZE) = Some (leaf_entry (5 * PAGE_SIZE) 7)
  ∧ ∃ s' k, sys_brk H list_example mm_example 0x401800 vmm_used = Ok (0x401800, s') ∧ k ≠ 5
    ∧ trans H s' (mm_pml4 mm_fields) (ALIGN_DOWN (mm_heap mm_fields) PAGE_SIZE) = Some (leaf_entry (k * PAGE_SIZE) heap_flags).
Proof.
  split; [exact vmm_used_mapped|].
  destruct (wp_inv _ _ _ (brk_remaps_page H list_example vmm_used blocks_mm mm_example mm_fields [] 0x401800 5 7 vmm_used_grow
    frame_used vmm_used_mapped ltac:(exact eq_refl))) as (r & s' & E & -> & k & Hk & Hk').
  exists s', k. split; [exact E|]. split; [exact Hk|exact Hk'].
Defined.

(** A kernel that writes down the operations it is asked for. *)
Record calls := Calls { c_log : list (string * list Z); c_saved : bool; c_trace : list event }.
Definition note (name : string) (args : list Z) (answer : Z) : M calls Z := λ s,
  Ok (answer, Calls (c_log s ++ [(name, args)]) (c_saved s) (c_trace s)).

#[local] Program Instance calls_traced : Traced calls := {|
  trace := c_trace;
  push_event e s := Calls (c_log s) (c_saved s) (e :: c_trace s)
|}.
Solve Obligations with done.

#[local] Instance calls_ops : KernelOps calls := {|
  interrupt_handlers _ := replicate 256 None;
  run_isr _ := mret tt;
  store_byte a c := note "store" [a; c] 0;; mret tt;
  load_byte a := note "load" [a] 0;
  keyboard_get_char := note "keyboard_get_char" [] 97;
  kprint_char c := note "kprint_char" [c] 0;; mret tt;
  ramfs_read fd buf n := note "ramfs_read" [fd; buf; n] n;
  ramfs_write fd buf n := note "ramfs_write" [fd; buf; n] n;
  ramfs_open p fl := note "ramfs_open" [p; fl] 3;
  ramfs_close fd := note "ramfs_close" [fd] 0;; mret tt;
  ramfs_stat p b := note "ramfs_stat" [p; b] (-1);
  ramfs_fstat fd b n := note "ramfs_fstat" [fd; b; n] 0;
  ramfs_getcwd b n := note "ramfs_getcwd" [b; n] b;
  ramfs_chdir p := note "ramfs_chdir" [p] 0;
  ramfs_mkdir p := note "ramfs_mkdir" [p] (-1);
  ramfs_getdents64 fd b n := note "ramfs_getdents64" [fd; b; n] 48;
  ko_kmalloc n := note "kmalloc" [n] 8192;
  ko_kfree p := note "kfree" [p] 0;; mret tt;
  load_elf p := note "load_elf" [p] 0;
  ko_brk a := note "brk" [a] a;
  schedule := mret tt;
  sys_fork := note "sys_fork" [] 2;
  cur_pid _ := 1;
  cur_ppid _ := None;
  exit_current _ s := s;
  save_trap_frame s := Calls (c_log s) true (c_trace s);
  has_trap_frame := c_saved
|}.

Definition ctx_example : registers_t := Registers 0 0 0 0 0 0 0 0 0 0 0 0 0 0 0 0 0 0x400010 0x1B 0x202 0x7FFFFF00 0x23.

(** [read(-1, 0x7fffff00, -5)]: the negative arguments arrive as they were. *)
Lemma syscall_wrappers_witness :
  read 0 ctx_example (-1) 0x7FFFFF00 (-5) (Calls [] false []) = Ok (-5, Calls [("ramfs_read", [-1; 0x7FFFFF00; -5])] true [])
  ∧ getcwd 0 ctx_example 0x7FFFFF000 64 (Calls [] false []) = Ok (-0x1000, Calls [("ramfs_getcwd", [0x7FFFFF000; 64])] true []).
Proof.
  split.
  - refine (eq_trans (proj1 (proj1 (syscall_wrappers 0 ctx_example (-1) 0x7FFFFF00 (-5) 0x400000 64 0 0 0 0 0 0 0 0 0 0 0 0 0 0 0
      ltac:(by split) ltac:(by split) ltac:(by split) ltac:(by split) ltac:(by split) ltac:(by split) ltac:(by split) ltac:(by split))) (Calls [] false [])) _).
    by vm_compute.
  - refine (eq_trans (proj1 (proj2 (proj2 (proj2 (proj2 (proj2 (proj2 (proj2 (proj1 (syscall_wrappers 0 ctx_example 0 0x7FFFFF000 0 0 0 0 64 0 0 0 0 0 0 0 0 0 0 0 0 0
      ltac:(by split) ltac:(by split) ltac:(by split) ltac:(by split) ltac:(by split) ltac:(by split) ltac:(by split) ltac:(by split)))))))))) (Calls [] false [])) _).
    by vm_compute.
Defined.
End example.
