(* ===== verification/Userheap.v ===== *)
(** Userheap: the heap of a user process on the kernel that runs it.  [Malloc] works
    through the interface [UserMem]; here loads and stores go through the page tables CR3
    points to and [brk] is the kernel's [sys_brk], and the laws [BrkHeap] are proved for
    a break at the start of a page. *)
From S2P Require Import Prelude Malloc CString Layout Frames Pmm Paging Range Klist Kheap Vaccess Vmm Vmmcopy Userpage Syscall.

Section userheap.
  Context {A : Type} `{FA : FrameAlloc A}.
  Context (HHDM_OFFSET kheap_list : Z) (junk : Z → Z) (mm : Z).
  Abbreviation St := (vmm_st A).
  Abbreviation kva := (kva HHDM_OFFSET).
  Abbreviation translate := (translate HHDM_OFFSET).
  Abbreviation pt_wf := (pt_wf HHDM_OFFSET).
  Abbreviation is_table := (is_table HHDM_OFFSET).
  Abbreviation private := (private HHDM_OFFSET).
  Abbreviation cr3_root := (cr3_root HHDM_OFFSET).
  Abbreviation run_mapped := (run_mapped HHDM_OFFSET).
  Abbreviation run_byte := (run_byte HHDM_OFFSET junk).
  Implicit Types s : St.
  Implicit Types p : pg_st A.

(** * The program's view *)

(** In user mode the page must be the user's. *)
Definition user_page (va : Z) : M (pg_st A) unit :=
  root ← gets cr3_root; mem ← gets pg_mem;
  e ← or_crash PageFault (translate mem root va);
  if Z.land e PTE_USER =? 0 then crash PageFault else mret tt.
Definition load_user (va : Z) : M St Z :=
  on_pg (user_page va;; a ← va_word HHDM_OFFSET false va; w ← gets (λ p, word_at junk p a); mret (byte_of w (va mod 8))).
Definition store_user (va b : Z) : M St unit :=
  on_pg (user_page va;; Vaccess.store_byte HHDM_OFFSET junk va b).

#[local] Instance user_mem : UserMem St := {|
  u_load := load_user;
  u_store := store_user;
  u_brk := sys_brk HHDM_OFFSET kheap_list mm
|}.

(** * The pages of the heap *)

(** The address space [m] is the current one; the pages from [base] to the break are
    the frames [ks], the heap's alone, and hold [bytes]. *)
Record heap_pages s (base : Z) (bytes : list Z) bs (m : mm_struct) (xs ks : list Z) : Prop := {
  hp_mm : mm_ok HHDM_OFFSET kheap_list s bs mm m xs;
  hp_cr3 : cr3_root (vm_pg s) = mm_pml4 m;
  hp_root : mm_pml4 m = kernel_pml4 (vm_pg s) ∨ private (vm_pg s) (mm_pml4 m) (kernel_pml4 (vm_pg s));
  hp_break : mm_heap m = base + zlen bytes;
  hp_run : run_mapped (mm_pml4 m) base heap_flags ks (vm_pg s);
  hp_len : zlen bytes ≤ zlen ks * PAGE_SIZE < zlen bytes + PAGE_SIZE;
  hp_kernel k : k ∈ ks → ¬ is_table (vm_pg s) (kernel_pml4 (vm_pg s)) k;
  hp_bytes i : 0 ≤ i < zlen bytes → zlookup bytes i = Some (run_byte ks (vm_pg s) i)
}.
Definition heap_holds s (base : Z) (bytes : list Z) : Prop := ∃ bs m xs ks, heap_pages s base bytes bs m xs ks.

(** A break at the start of a page, frames and kernel heap for the new area. *)
Definition brk_ready s (n : Z) : Prop :=
  ∃ bs m xs, mm_heap m mod PAGE_SIZE = 0 ∧ can_grow HHDM_OFFSET kheap_list s bs mm m xs (mm_heap m + n).

Lemma heap_flags_bits : 0 ≤ heap_flags < PAGE_SIZE ∧ Z.testbit heap_flags 1 = true ∧ Z.testbit heap_flags 2 = true.
Proof. by vm_compute. Qed.

Lemma user_page_ok p ks root base a :
  run_mapped root base heap_flags ks p → cr3_root p = root → 0 ≤ a < zlen ks * PAGE_SIZE → user_page (base + a) p = Ok (tt, p).
Proof.
  intros Hr Hc Ha. destruct (run_page HHDM_OFFSET junk _ _ _ _ p a Hr Ha) as (k & _ & _ & [Hb _] & _ & Ht & _).
  unfold user_page, gets, or_crash. cbv [mbind M_bind]. rewrite Hc, Ht. unfold mret, M_ret. cbv beta iota.
  assert ((Z.land (leaf_entry (k * PAGE_SIZE) heap_flags) PTE_USER =? 0) = false) as ->; [|done].
  apply negb_true_iff. unfold leaf_entry, PTE_USER. rewrite land_pow2_nonzero by lia. rewrite !Z.lor_spec.
  rewrite (proj2 (proj2 heap_flags_bits)). by rewrite orb_true_r.
Qed.

Lemma load_user_ok s base bytes i b : heap_holds s base bytes → zlookup bytes i = Some b → load_user (base + i) s = Ok (b, s).
Proof.
  intros (bs & m & xs & ks & [H1 H2 H3 H4 H5 H6 H7 H8]) Hb. pose proof (zlookup_Some _ _ _ Hb) as Hi.
  rewrite H8 in Hb by done. injection Hb as <-.
  destruct (run_page HHDM_OFFSET junk _ _ _ _ (vm_pg s) i H5 ltac:(lia)) as (k & Hk & _ & [Hbk _] & _ & Ht & Ho).
  pose proof (wf_hhdm _ _ _ (um_wf _ _ _ _ _ _ H5)) as Hh. pose proof (fa_width _ (wf_alloc _ _ _ (um_wf _ _ _ _ _ _ H5))).
  assert (set_pg (vm_pg s) s = s) as Es by by destruct s as [[]].
  transitivity (Ok (run_byte ks (vm_pg s) i, set_pg (vm_pg s) s)); [apply on_pg_ok|by rewrite Es].
  rewrite (bind_ok _ _ _ _ _ (user_page_ok _ _ _ _ i H5 H2 ltac:(lia))).
  unfold va_word, gets, or_crash. cbv [mbind M_bind]. rewrite H2, Ht. unfold mret, M_ret. cbn [andb]. cbv beta iota.
  unfold Userpage.run_byte. rewrite Hk. unfold frame_byte. cbn [default].
  rewrite leaf_entry_addr, (pa2kva_frame _ _ Hh), Ho by (pose proof heap_flags_bits; lia).
  assert ((base + i) mod 8 = i mod PAGE_SIZE mod 8) as ->; [|done].
  destruct (um_range _ _ _ _ _ _ H5) as (R1 & R2 & _). unfold PAGE_SIZE in *. Z.to_euclidean_division_equations; lia.
Qed.

(** A store to the frames of the heap leaves the address space in order. *)
Lemma user_heap_written s base bytes bs m xs ks p :
  heap_pages s base bytes bs m xs ks → frames_written HHDM_OFFSET ks (vm_pg s) p →
  mm_ok HHDM_OFFSET kheap_list (set_pg p s) bs mm m xs ∧ cr3_root p = mm_pml4 m
  ∧ (mm_pml4 m = kernel_pml4 p ∨ private p (mm_pml4 m) (kernel_pml4 p))
  ∧ run_mapped (mm_pml4 m) base heap_flags ks p ∧ ∀ k, k ∈ ks → ¬ is_table p (kernel_pml4 p) k.
Proof.
  intros [H1 H2 H3 H4 H5 H6 H7 H8] Hw. destruct (fs_regs _ _ _ _ Hw) as [R1 R2].
  pose proof (ha_pages _ _ _ _ (proj1 (mo_heap _ _ _ _ _ _ _ H1)) : pt_wf (vm_pg s) (kernel_pml4 (vm_pg s))) as Hkr.
  destruct (frames_written_kept HHDM_OFFSET (vm_pg s) p _ ks Hkr H7 Hw) as (K1 & K2 & K3 & K4).
  destruct (frames_written_kept HHDM_OFFSET (vm_pg s) p (mm_pml4 m) ks (mo_wf _ _ _ _ _ _ _ H1)) as (W1 & W2 & W3 & W4).
  { intros k [j Hj]%list_elem_of_lookup. by apply (um_page _ _ _ _ _ _ H5 j k). }
  { done. }
  split; [|split; [|split; [|split]]].
  - apply (mm_ok_set_pg HHDM_OFFSET); [done| | |done].
    + change (pt_wf p (kernel_pml4 p)). by rewrite R1.
    + intros x. change (kernel_mapped HHDM_OFFSET (vm_pg s) x = true → kernel_mapped HHDM_OFFSET p x = true).
      unfold kernel_mapped. rewrite !bool_decide_eq_true, R1, K3. done.
  - unfold Vaccess.cr3_root in *. by rewrite R2.
  - rewrite R1. destruct H3 as [H3|H3]; [by left|right]. intros q k Hq Hl Hlow Hwk. rewrite K4. apply (H3 q k Hq Hl Hlow). by rewrite <- W2.
  - by apply (run_written HHDM_OFFSET _ _ _ _ (vm_pg s)).
  - intros k Hk. rewrite R1, K4. by apply H7.
Qed.

Lemma store_user_ok s base bytes i b :
  heap_holds s base bytes → 0 ≤ i < zlen bytes → 0 ≤ b < 2 ^ 8 →
  wp (store_user (base + i) b) s (λ _ s', heap_holds s' base (zinsert i b bytes)).
Proof.
  intros (bs & m & xs & ks & Hp) Hi Hb. pose proof Hp as [H1 H2 H3 H4 H5 H6 H7 H8]. destruct heap_flags_bits as (F1 & F2 & _).
  apply wp_zoom. apply wp_bind. eapply wp_ok; [apply (user_page_ok _ _ _ _ i H5 H2); lia|]. cbn beta.
  eapply wp_mono; [apply (store_byte_run HHDM_OFFSET junk (mm_pml4 m) base heap_flags ks); [done|done|done|done|lia|done]|].
  cbn beta. intros _ p [Hw Hput]. destruct (user_heap_written _ _ _ _ _ _ _ p Hp Hw) as (W1 & W2 & W3 & W4 & W5).
  exists bs, m, xs, ks. constructor; try done; rewrite ?zlen_zinsert; try done.
  intros j Hj. change (vm_pg (set_pg p s)) with p. rewrite Hput by lia. case_decide as E.
  - subst j. by rewrite zlookup_zinsert_eq.
  - rewrite zlookup_zinsert_ne by done. by apply H8.
Qed.

Lemma heap_asks s base bytes : heap_holds s base bytes → sys_brk HHDM_OFFSET kheap_list mm 0 s = Ok (base + zlen bytes, s).
Proof.
  intros (bs & m & xs & ks & [H1 H2 H3 H4 H5 H6 H7 H8]). unfold sys_brk, get_mm, gets, or_crash. cbv [mbind M_bind].
  rewrite (mo_mm _ _ _ _ _ _ _ H1). unfold mret, M_ret. cbv beta iota. by rewrite <- H4.
Qed.

(** * Growing the heap *)

Lemma run_app p root start flags ks ks2 :
  run_mapped root start flags ks p → run_mapped root (start + zlen ks * PAGE_SIZE) flags ks2 p → (∀ k, k ∈ ks → k ∉ ks2) →
  run_mapped root start flags (ks ++ ks2) p.
Proof.
  intros [A1 A2 A3 A4] [B1 B2 B3 B4] Hd. constructor; [done| | |].
  - rewrite zlen_app. pose proof (zlen_nonneg ks2). lia.
  - apply NoDup_app. done.
  - intros j k [Hj|[Hj Hk]]%lookup_app_Some; [by apply A4|]. destruct (B4 _ k Hk) as (Q1 & Q2 & Q3). split; [done|]. split; [done|].
    rewrite <- Q3. f_equal. unfold zlen. unfold PAGE_SIZE in *. lia.
Qed.

Lemma run_byte_app p ks ks2 a : 0 ≤ a < zlen ks * PAGE_SIZE → run_byte (ks ++ ks2) p a = run_byte ks p a.
Proof.
  intros Ha. unfold Userpage.run_byte. rewrite lookup_app_l; [done|].
  unfold zlen, PAGE_SIZE in *. Z.to_euclidean_division_equations; lia.
Qed.

(** The frames of the heap are no tables of the kernel, also after an area is added. *)
Lemma area_kernel s bs m xs start end_ flags v vma ks bs' k :
  mm_ok HHDM_OFFSET kheap_list s bs mm m xs →
  mm_pml4 m = kernel_pml4 (vm_pg s) ∨ private (vm_pg s) (mm_pml4 m) (kernel_pml4 (vm_pg s)) →
  area_added HHDM_OFFSET kheap_list s bs mm m xs start end_ flags v vma ks bs' →
  (mm_pml4 m = kernel_pml4 (vm_pg v) ∨ private (vm_pg v) (mm_pml4 m) (kernel_pml4 (vm_pg v)))
  ∧ (fa_busy (pg_alloc (vm_pg s)) k → ¬ is_table (vm_pg s) (kernel_pml4 (vm_pg s)) k → ¬ is_table (vm_pg v) (kernel_pml4 (vm_pg v)) k).
Proof.
  intros Hok Hroot Ha. pose proof (aa_range _ _ _ _ _ _ _ _ _ _ _ _ _ _ Ha) as Hr. destruct (aa_pages _ _ _ _ _ _ _ _ _ _ _ _ _ _ Ha) as (En & H0 & Hm & Hb).
  destruct (rm_regs _ _ _ _ _ _ _ Hr) as [R1 _]. rewrite R1.
  pose proof (ha_pages _ _ _ _ (proj1 (mo_heap _ _ _ _ _ _ _ Hok)) : pt_wf (vm_pg s) (kernel_pml4 (vm_pg s))) as Hkr.
  destruct Hroot as [<-|Hpr].
  - split; [by left|]. apply (rm_plain _ _ _ _ _ _ _ Hr).
  - pose proof (rm_other _ _ _ _ _ _ _ Hr _ H0 ltac:(lia) Hkr Hpr) as Hk. split; [right; apply Hk|]. intros _. by rewrite (space_kept_table _ _ _ _ _ _ Hk).
Qed.

Lemma aligned_len base (bytes ks : list Z) :
  base mod PAGE_SIZE = 0 → (base + zlen bytes) mod PAGE_SIZE = 0 → zlen bytes ≤ zlen ks * PAGE_SIZE < zlen bytes + PAGE_SIZE →
  zlen ks * PAGE_SIZE = zlen bytes.
Proof. unfold PAGE_SIZE. intros. Z.to_euclidean_division_equations; lia. Qed.

Lemma area_mm_ok s bs m xs start end_ flags b v vma ks2 bs' :
  mm_ok HHDM_OFFSET kheap_list s bs mm m xs →
  mm_pml4 m = kernel_pml4 (vm_pg s) ∨ private (vm_pg s) (mm_pml4 m) (kernel_pml4 (vm_pg s)) →
  area_added HHDM_OFFSET kheap_list s bs mm m xs start end_ flags v vma ks2 bs' →
  mm_ok HHDM_OFFSET kheap_list (with_break mm m b v) bs' mm (with_heap b (with_map_count (i32 (map_count m + 1)) m)) (xs ++ [vma]).
Proof.
  intros Hok Hroot Ha. destruct (area_added_heap HHDM_OFFSET kheap_list _ _ _ _ _ _ _ _ _ _ _ _ Hok Hroot Ha) as [Hheap _].
  constructor; [exact Hheap|apply lookup_insert_eq|apply Hok|apply (aa_range _ _ _ _ _ _ _ _ _ _ _ _ _ _ Ha)|exact (aa_ring _ _ _ _ _ _ _ _ _ _ _ _ _ _ Ha)|].
  pose proof (aa_obj _ _ _ _ _ _ _ _ _ _ _ _ _ _ Ha) as [_ _ _ _ _ O6 O7].
  intros a Hin. rewrite app_comm_cons in Hin. apply elem_of_app in Hin as [Hin| ->%list_elem_of_singleton]; [|done].
  eapply kept_in_block; [exact O7|]. by apply (mo_nodes _ _ _ _ _ _ _ Hok).
Qed.

(** The run of the heap with the new pages behind it. *)
Lemma heap_run_grows s base bytes bs0 bs m xs0 xs ks n v vma ks2 bs' :
  heap_pages s base bytes bs0 m xs0 ks → mm_ok HHDM_OFFSET kheap_list s bs mm m xs → zlen ks * PAGE_SIZE = zlen bytes → 0 < n →
  area_added HHDM_OFFSET kheap_list s bs mm m xs (base + zlen bytes) (ALIGN_UP (base + zlen bytes + n) PAGE_SIZE)
    (Z.lor (Z.lor VM_READ VM_WRITE) VM_HEAP) v vma ks2 bs' →
  run_mapped (mm_pml4 m) base heap_flags (ks ++ ks2) (vm_pg v)
  ∧ ∀ i, 0 ≤ i < zlen bytes → run_byte (ks ++ ks2) (vm_pg v) i = run_byte ks (vm_pg s) i.
Proof.
  intros Hp Hok El Hn Ha. pose proof (hp_run _ _ _ _ _ _ _ Hp) as H5. pose proof (um_range _ _ _ _ _ _ H5) as (U1 & U2 & U3).
  pose proof (aa_range _ _ _ _ _ _ _ _ _ _ _ _ _ _ Ha) as Hr. destruct (aa_pages _ _ _ _ _ _ _ _ _ _ _ _ _ _ Ha) as (En & S0 & S1 & S2).
  pose proof (wf_alloc _ _ _ (um_wf _ _ _ _ _ _ H5)) as Hfa. pose proof (zlen_nonneg ks) as Hk0.
  destruct (run_range HHDM_OFFSET junk (mm_pml4 m) base heap_flags ks _ _ ks2 (vm_pg s) (vm_pg v) H5 Hr) as (R1 & R2 & R3).
  { intros i j Hi Hj. rewrite !vpn_low by (unfold PAGE_SIZE in *; Z.to_euclidean_division_equations; lia).
    unfold PAGE_SIZE in *. Z.to_euclidean_division_equations; lia. }
  split.
  - apply run_app; [done| |done]. rewrite El. apply (range_run HHDM_OFFSET _ _ _ _ (vm_pg s)); [done|exact Hr|lia|done|lia].
  - intros i Hi. rewrite run_byte_app by lia. apply R3. lia.
Qed.

(** The old content stays and the break is where it was asked to be. *)
Lemma heap_extends s base bytes n :
  heap_holds s base bytes → 0 < n → brk_ready s n →
  wp (sys_brk HHDM_OFFSET kheap_list mm (base + zlen bytes + n)) s (λ r s',
    r = base + zlen bytes + n ∧ ∃ new, zlen new = n ∧ heap_holds s' base (bytes ++ new)).
Proof.
  intros (bs0 & m & xs0 & ks & Hp) Hn (bs & m' & xs & Hal & Hg). pose proof Hp as [H1 H2 H3 H4 H5 H6 H7 H8].
  pose proof (cg_mm _ _ _ _ _ _ _ _ Hg) as Hok.
  assert (m' = m) as -> by (pose proof (mo_mm _ _ _ _ _ _ _ Hok); pose proof (mo_mm _ _ _ _ _ _ _ H1); congruence).
  rewrite H4 in Hal. pose proof (um_range _ _ _ _ _ _ H5) as (U1 & U2 & U3). pose proof (aligned_len base bytes ks U2 Hal H6) as El.
  pose proof (cg_max _ _ _ _ _ _ _ _ Hg) as Hmax. pose proof (zlen_nonneg bytes) as Hb0. rewrite <- H4.
  eapply wp_mono; [by eapply sys_brk_area|]. cbn beta. rewrite H4 in Hmax |- *. intros r s' (-> & v & vma & ks2 & bs' & Ha & ->). split; [done|].
  destruct (page_align_down (base + zlen bytes)) as [Hdm Hdn]; [lia|].
  destruct (page_align_up (base + zlen bytes + n)) as [Hum Hup]; [lia|unfold PAGE_SIZE in *; lia|].
  assert (ALIGN_DOWN (base + zlen bytes) PAGE_SIZE = base + zlen bytes) as Ed by (unfold PAGE_SIZE in *; Z.to_euclidean_division_equations; lia).
  rewrite Ed in Ha. clear Hdm Hdn Ed. destruct (aa_pages _ _ _ _ _ _ _ _ _ _ _ _ _ _ Ha) as (En & _).
  destruct (heap_run_grows _ _ _ _ _ _ _ _ _ n _ _ _ _ Hp Hok El Hn Ha) as [Hrun Hsame].
  pose proof (aa_range _ _ _ _ _ _ _ _ _ _ _ _ _ _ Ha) as Hr. destruct (rm_regs _ _ _ _ _ _ _ Hr) as [_ R2].
  destruct (area_added_heap HHDM_OFFSET kheap_list _ _ _ _ _ _ _ _ _ _ _ _ Hok H3 Ha) as [_ Hnt].
  set (new := (λ j, run_byte (ks ++ ks2) (vm_pg v) (zlen bytes + j)) <$> seqZ 0 n).
  assert (zlen new = n) as Ln by (unfold new, zlen; rewrite length_fmap, length_seqZ; lia).
  exists new. split; [done|]. exists bs', (with_heap (base + zlen bytes + n) (with_map_count (i32 (map_count m + 1)) m)), (xs ++ [vma]), (ks ++ ks2).
  constructor; try done.
  - by eapply (area_mm_ok s bs m xs).
  - change (vm_pg (with_break _ _ _ _)) with (vm_pg v). unfold Vaccess.cr3_root in *. by rewrite R2.
  - apply (area_kernel s bs m xs _ _ _ v vma ks2 bs' 0 Hok H3 Ha).
  - cbn [mm_heap with_heap]. rewrite zlen_app, Ln. lia.
  - rewrite !zlen_app, Ln. lia.
  - intros k [Hk|[j Hj]%list_elem_of_lookup]%elem_of_app; [|by apply (Hnt j)].
    apply (area_kernel s bs m xs _ _ _ v vma ks2 bs' k Hok H3 Ha); [|by apply H7].
    apply list_elem_of_lookup in Hk as [j Hj]. by apply (um_page _ _ _ _ _ _ H5 j k).
  - intros i Hi. rewrite zlen_app, Ln in Hi. change (vm_pg (with_break _ _ _ _)) with (vm_pg v).
    destruct (decide (i < zlen bytes)) as [Hlt|Hge].
    + rewrite zlookup_app_l by done. rewrite Hsame by lia. apply H8. lia.
    + unfold zlookup. rewrite decide_True by lia. rewrite lookup_app_r by (unfold zlen in *; lia).
      unfold new. rewrite list_lookup_fmap, lookup_seqZ_lt by (unfold zlen in *; lia). simpl. f_equal. f_equal. unfold zlen in *. lia.
Qed.

Lemma user_heap_range s base bytes : heap_holds s base bytes → 0 ≤ base ∧ base + zlen bytes < 2 ^ 62.
Proof. intros (bs & m & xs & ks & [_ _ _ _ H5 H6 _ _]). destruct (um_range _ _ _ _ _ _ H5) as (U1 & _ & U3). lia. Qed.

Lemma ready_range s base bytes n : heap_holds s base bytes → brk_ready s n → base + zlen bytes + n < 2 ^ 62.
Proof.
  intros (bs & m & xs & ks & [H1 _ _ H4 _ _ _ _]) (bs2 & m2 & xs2 & _ & Hg).
  pose proof (mo_mm _ _ _ _ _ _ _ (cg_mm _ _ _ _ _ _ _ _ Hg)). pose proof (mo_mm _ _ _ _ _ _ _ H1). pose proof (cg_max _ _ _ _ _ _ _ _ Hg).
  assert (m2 = m) as -> by congruence. unfold PAGE_SIZE in *. lia.
Qed.

(** The kernel's answer to [Malloc]'s requirements. *)
#[local] Program Instance user_heap : BrkHeap St := {|
  holds := heap_holds;
  can_extend := brk_ready
|}.
Next Obligation. exact user_heap_range. Qed.
Next Obligation. exact load_user_ok. Qed.
Next Obligation. exact store_user_ok. Qed.
Next Obligation. exact heap_asks. Qed.
Next Obligation. exact ready_range. Qed.
Next Obligation.
  intros s base bytes n Hh Hn Hr. eapply wp_mono; [by apply (heap_extends s base bytes n)|]. cbn beta. intros r s' H. by left.
Qed.

(** Before the first request. *)
Lemma heap_starts s bs m xs :
  mm_ok HHDM_OFFSET kheap_list s bs mm m xs → cr3_root (vm_pg s) = mm_pml4 m →
  mm_pml4 m = kernel_pml4 (vm_pg s) ∨ private (vm_pg s) (mm_pml4 m) (kernel_pml4 (vm_pg s)) →
  0 ≤ mm_heap m ≤ 2 ^ 47 → mm_heap m mod PAGE_SIZE = 0 → heap_holds s (mm_heap m) [].
Proof.
  intros H1 H2 H3 H4 H5. exists bs, m, xs, [].
  constructor; [done..|unfold zlen; simpl; lia| |by vm_compute|by intros k' ?%elem_of_nil|intros i; unfold zlen; simpl; lia].
  constructor; [apply H1|change (zlen []) with 0; lia|apply NoDup_nil_2|done].
Qed.

(** * Properties *)


(** Another space in CR3. *)
Definition with_cr3 (c : Z) p : pg_st A := PgSt (pg_alloc p) (pg_mem p) (kernel_pml4 p) c.

Lemma mm_ok_cr3 s bs m xs c :
  mm_ok HHDM_OFFSET kheap_list s bs mm m xs → mm_ok HHDM_OFFSET kheap_list (set_pg (with_cr3 c (vm_pg s)) s) bs mm m xs.
Proof.
  intros Hok. assert (∀ r, pt_wf (vm_pg s) r → pt_wf (with_cr3 c (vm_pg s)) r) as Hwf by (intros r []; by constructor).
  apply (mm_ok_set_pg HHDM_OFFSET); [done| |done|].
  - apply (Hwf (kernel_pml4 (vm_pg s))), (ha_pages _ _ _ _ (proj1 (mo_heap _ _ _ _ _ _ _ Hok))).
  - apply Hwf, Hok.
Qed.
End userheap.

(** * Witnesses *)

Section example.
Let H := KERNEL_HHDM_BASE.
Let junk (a : Z) : Z := a.

(** The address space of the Vmm examples, current and with nothing on its heap yet: as
    the kernel creates a process, the break is 0. *)
Definition mm_start : mm_struct := with_heap 0 mm_fields.
Definition vmm_start : vmm_st pmm_st :=
  set_mms {[mm_example := mm_start]} (set_pg (with_cr3 (4 * PAGE_SIZE) (vm_pg vmm_example)) vmm_example).

#[local] Instance example_mem : UserMem (vmm_st pmm_st) := user_mem H list_example junk mm_example.
#[local] Instance example_heap : BrkHeap (vmm_st pmm_st) := user_heap H list_example junk mm_example.

Lemma vmm_start_ok : mm_ok H list_example vmm_start blocks_mm mm_example mm_start [].
Proof.
  destruct (mm_ok_cr3 H list_example mm_example vmm_example blocks_mm mm_fields [] (4 * PAGE_SIZE) vmm_example_ok) as [V1 _ V3 V4 V5 V6].
  constructor; [exact V1|apply lookup_singleton_eq|exact V3|exact V4|exact V5|exact V6].
Qed.

(** A list and the blocks of a heap are what the state says they are. *)
Lemma dpath_unique l b xs : ∀ a ys, dpath l a xs b → dpath l a ys b → b ∉ xs → b ∉ ys → xs = ys.
Proof.
  induction xs as [|x xs IH]; intros a [|y ys]; simpl; [done|set_solver| |].
  - intros (E & _) (E' & _). rewrite E in E'. injection E' as ->. set_solver.
  - intros (E & _ & Hp) (E' & _ & Hp') Hx Hy. assert (x = y) as <- by congruence. f_equal. by apply (IH x); [..|set_solver|set_solver].
Qed.

Lemma heap_unique (h : kheap_st (pg_st pmm_st)) bs bs' :
  kheap_ok (KernelPages0 := kernel_pages H) list_example h bs → kheap_ok (KernelPages0 := kernel_pages H) list_example h bs' → bs = bs'.
Proof.
  intros [[_ _ [R1 R1'] _ S1 _ _ _] _] [[_ _ [R2 R2'] _ S2 _ _ _] _]. apply NoDup_cons in R1 as [R1 _], R2 as [R2 _].
  pose proof (dpath_unique _ _ _ _ _ R1' R2' R1 R2) as E. clear R1 R2 R1' R2'. revert bs' E S2.
  induction S1 as [|x bs [X1 X2] _ IH]; intros [|y bs'] E S2; try done. injection E as Ea E.
  apply Forall_cons in S2 as [[Y1 Y2] S2]. rewrite <- Ea in Y1, Y2. rewrite (IH bs' E S2). f_equal. destruct x, y. simpl in *. congruence.
Qed.

(** A request of one page: the process may ask as long as a block of the kernel's heap is
    free and frames are left. *)
Lemma ready_again (s : vmm_st pmm_st) bytes bs :
  heap_holds H list_example junk mm_example s 0 bytes → zlen bytes mod PAGE_SIZE = 0 → zlen bytes ≤ 0x100000 →
  ring (kh_links (vm_kheap s)) list_example (b_addr <$> bs) → tiles KERNEL_HEAP_BASE bs (kheap_top (vm_kheap s)) →
  Forall (stored (vm_kheap s)) bs → Forall aligned bs → Exists (fits (ALIGN_UP sizeof_vma 8)) bs → 8 ≤ Z.of_nat (base.size (free_frames s)) →
  brk_ready H list_example mm_example s 4096.
Proof.
  intros (bs' & m & xs & ks & [H1 _ _ H4 _ _ _ _]) Hal Hb K1 K2 K3 K4 Hf Hfr. pose proof (zlen_nonneg bytes).
  pose proof (heap_view _ _ _ (mo_heap _ _ _ _ _ _ _ H1) K1 K2 K3 K4) as Hv. rewrite <- (heap_unique _ _ _ (mo_heap _ _ _ _ _ _ _ H1) Hv) in Hf.
  exists bs', m, xs. rewrite H4, Z.add_0_l. split; [done|].
  destruct (page_align_up (zlen bytes + 4096)) as [U1 U2]; [lia|unfold PAGE_SIZE; lia|]. destruct (page_align_down (zlen bytes)) as [D1 D2]; [lia|].
  constructor; [done|done|lia|unfold PAGE_SIZE; lia|]. rewrite H4, Z.add_0_l. unfold PAGE_SIZE in *. Z.to_euclidean_division_equations; lia.
Qed.

Definition run_m {S R} (m : M S R) (s : S) : S := match m s with Ok (_, s') => s' | Crash _ => s end.
Definition answer {S R} (m : M S R) (s : S) : option R := match m s with Ok (r, _) => Some r | Crash _ => None end.
Lemma run_answer {S R} (m : M S R) s r : answer m s = Some r → m s = Ok (r, run_m m s).
Proof. unfold answer, run_m. destruct (m s) as [[]|]; [by intros [= ->]|done]. Qed.

(** A page is asked for, a byte written, another page asked for. *)
Definition st0 : malloc_st (vmm_st pmm_st) := MallocSt vmm_start 0 0.
Definition st1 : malloc_st (vmm_st pmm_st) := run_m (malloc 4072) st0.
Definition st2 : malloc_st (vmm_st pmm_st) := set_kernel (run_m (u_store 24 7) (kernel st1)) st1.
Definition st3 : malloc_st (vmm_st pmm_st) := run_m (malloc 4072) st2.

Lemma st1_ok : malloc 4072 st0 = Ok (24, st1).
Proof. unfold st1. apply (run_answer (malloc 4072) st0 24). by vm_compute. Qed.
Lemma st2_ok : u_store 24 7 (kernel st1) = Ok (tt, run_m (u_store 24 7) (kernel st1)).
Proof. apply (run_answer (u_store 24 7) (kernel st1) tt). by vm_compute. Qed.
Lemma st3_ok : malloc 4072 st2 = Ok (4120, st3).
Proof. unfold st3. apply (run_answer (malloc 4072) st2 4120). by vm_compute. Qed.

Lemma start_holds : heap_holds H list_example junk mm_example vmm_start 0 [].
Proof. apply (heap_starts _ _ _ _ _ blocks_mm mm_start [] vmm_start_ok); [by vm_compute|left; by vm_compute|done|done]. Qed.

Lemma start_ready : brk_ready H list_example mm_example vmm_start 4096.
Proof.
  apply (ready_again _ [] blocks_mm start_holds); [done|done| | | | |exact blocks_mm_fit|by vm_compute].
  - split; [|by split_and!; vm_compute]. apply (bool_decide_unpack (NoDup _)). by vm_compute.
  - by split_and!; vm_compute.
  - constructor; [by split; vm_compute|]. constructor; [by split; vm_compute|]. constructor.
  - unfold blocks_mm. by rewrite !Forall_cons, Forall_nil.
Qed.

Definition run2 : run (vmm_st pmm_st) := Run st2 {[24 := 4072]} {[24 := 7]}.
Lemma run2_steps : rtc heap_step (Run st0 ∅ ∅) run2.
Proof.
  eapply rtc_l; [apply (step_malloc _ _ _ 4072 24 st1); [lia|exact start_ready|exact st1_ok|lia]|].
  eapply rtc_l; [eapply (step_write _ _ _ 24 4072 24 7); [apply lookup_insert_eq|lia|lia|exact st2_ok]|]. apply rtc_refl.
Qed.

(** The blocks of the kernel's heap after the first area. *)
Definition blocks_area : list block :=
  [Block KERNEL_HEAP_BASE 104 false; Block (KERNEL_HEAP_BASE + 136) 48 false; Block (KERNEL_HEAP_BASE + 216) 3848 true].

Lemma run2_ready : brk_ready H list_example mm_example (kernel st2) 4096.
Proof.
  assert (held_ok 0 run2) as (bytes & bl & Hc).
  { eapply held_steps; [|exact run2_steps]. exists [], []. constructor; [|done|done]. constructor; [exact start_holds|done|done|done]. }
  pose proof (hk_holds _ _ _ _ (hi_heap _ _ _ _ Hc)) as Hh.
  assert (zlen bytes = 4096) as El.
  { pose proof (brk_asks _ _ _ Hh) as E. apply (f_equal (λ r, match r with Ok (b, _) => b | Crash _ => 0 end)) in E.
    cbv beta iota in E. rewrite Z.add_0_l in E. rewrite <- E. by vm_compute. }
  apply (ready_again _ bytes blocks_area Hh); [by rewrite El|lia| | | | |by right; right; left|by vm_compute].
  - split; [|by split_and!; vm_compute]. apply (bool_decide_unpack (NoDup _)). by vm_compute.
  - by split_and!; vm_compute.
  - repeat (constructor; [by split; vm_compute|]). constructor.
  - unfold blocks_area. by rewrite !Forall_cons, Forall_nil.
Qed.


(** Blocks that do not fill their pages: the second request puts the break inside a page,
    and [brk] replaces that page.  What was written to the first block is gone. *)
Definition sm1 : malloc_st (vmm_st pmm_st) := run_m (malloc 16) st0.
Definition sm2 : malloc_st (vmm_st pmm_st) := set_kernel (run_m (u_store 24 7) (kernel sm1)) sm1.
Definition sm3 : malloc_st (vmm_st pmm_st) := run_m (malloc 16) sm2.

Lemma small_block_lost :
  answer (malloc 16) st0 = Some 24 ∧ answer (u_load 24) (kernel sm2) = Some 7
  ∧ answer (malloc 16) sm2 = Some 64 ∧ answer (u_load 24) (kernel sm3) = Some 24.
Proof. by vm_compute. Qed.
End example.
